(* ===== verification/_CoqProject ===== *)
-Q . S2P
Prelude.v
RustStd.v
F64.v
Rounding.v
Events.v
Runtime.v
Probes.v
Step.v
Demo.v
Invariant.v
PerCpu.v
Ledger.v
RingLedger.v
Calls.v
Alloc.v
Modes.v
CLayout.v
KernelTask.v
KernelBpf.v
Layouts.v
Wire.v
Drain.v
Export.v
Tick.v
Kernel.v
Metrics.v
Cache.v
CacheInv.v
Symbols.v
Report.v
Loop.v
LoopInv.v
Straggler.v
Names.v
System.v
Enrich.v
Threads.v
Series.v
Server.v
Security.v
Otlp.v
Discovery.v
Attach.v
Nvml.v
Profi.v
Select.v
Startup.v
Follow.v
