(* ===== verification/Prelude.v ===== *)
(** * profi: a verification development for the CUDA/NCCL eBPF profiler

    ** The program

    profi traces CUDA and NCCL calls of running processes.  It has two halves.

    - The tracer, src/src/bpf/profi.bpf.c with src/src/bpf/profi_events.h: a
      set of eBPF programs attached to the entry and the return of library
      functions.  An entry program saves the arguments and the time of a call in
      INFLIGHT ([save_entry]); the return program takes the entry back and
      routes the completed call ([emit_exit]): most CUDA calls are summed in the
      per-CPU hash AGGREGATED, collectives in NCCL_AGG, kernel launches in
      LAUNCH_AGG, and calls that are not aggregated become records of the ring
      buffer EVENTS.  What does not fit is counted in DROPPED and
      LAUNCH_DROPPED.
    - Userspace, src/src/main.rs with its modules.  It sets the mode flags,
      finds the libraries that processes map (discovery.rs) and attaches the
      programs to them, reads the ring buffers, and on every tick drains the
      aggregation maps into Prometheus counters.  The counters are found through
      a cache of handles (cache.rs) whose labels come from the pod and the GPU of
      the process (enrichment.rs) and from kernel names (symbols.rs, kernel.rs).
      A gc tick forgets processes, looks for hung collectives and for
      stragglers.  The metrics are served over HTTP (server.rs) behind TLS and
      authentication (http_security.rs, pem.rs), pushed over OTLP (otlp.rs) and
      printed (report.rs); a poller adds GPU readings (nvml.rs).

    The two halves share C structs, whose Rust mirror is src/src/events.rs, and
    the layout of kernel types comes from the dump src/src/bpf/vmlinux.h.

    ** The model

    The embedding is shallow.  An eBPF program is a function from the maps to
    the maps; the maps are one record [BpfState]; a 32- or 64-bit unsigned
    integer is a [Z] and every operation that can wrap is followed by its wrap.
    The kernel is not part of the repository: what it decides (time, CPU, thread,
    user memory, room in a ring buffer, evictions of an LRU map) is the record
    [KEnv], one per program run, over which the theorems quantify, and the number
    of CPUs and the map capacities are the class [LoadCfg].

    A trace is a list of program runs of any threads on any CPUs, each with its
    [KEnv].  One program run is one step: the model does not interleave the
    instructions of two runs.  The per-CPU maps are the reason this is close to
    the code, since two runs do not write the same slot; a program interrupted
    on its CPU by another run that writes the same slot is outside the model.

    Userspace is state passing: a branch of the main loop is a function on
    [MainState], and what it reads from outside (clock, /proc, answers of other
    threads) is an argument of the step.  Code that can panic returns an
    [outcome], code that returns a Result a [result].  Strings are lists of
    Unicode scalar values with byte offsets, floating point is the Standard
    Library's executable specification of binary64.

    Libraries are classes: [Prometheus] (registry of metric families),
    [HashOrder] (iteration order of a hash map), [UnicodeTables], [LruCache],
    [Tls] (rustls and the PEM parser), [TokenCache] (moka), [Http] (what axum
    gives of a request), [OtlpLib] (the OTLP exporter), [Loader] (libbpf's
    attach).  Laws that are used are classes of their own ([PrometheusLaws],
    [LruLaws], [TlsLaws], [TokenCacheLaws]) and state documented behaviour; each
    has a concrete instance on which the witnesses run.

    ** Files

    The tracer:
    - [Prelude]: integers of a width, sums over lists, generic lemmas, tactics.
    - [RustStd]: panics, results, strings, number formats of Rust.
    - [F64], [Rounding]: binary64 arithmetic, and how far conversions, quotients
      and printed quotients are from the exact ones.
    - [Events]: profi_events.h and the tables and functions of events.rs.
    - [Runtime]: the maps of profi.bpf.c, the map helpers, [KEnv], [LoadCfg].
    - [Probes]: every function and SEC program of profi.bpf.c, in file order.
    - [Step]: programs as data ([probe]), [run], traces, reachable states, and
      the induction principle that reduces a property of all programs to the
      operations they share.
    - [Demo]: a two-CPU machine on which witnesses evaluate.
    - [Invariant]: well-formedness of the maps, preserved by every program.
    - [PerCpu]: totals of a per-CPU map.
    - [Ledger], [RingLedger]: the abstract specification (the list of completed
      calls) and the refinement of each output of the tracer to it.
    - [Calls], [Alloc], [Modes]: one call of one thread, allocation sizes, launch
      modes.

    Data shared with the kernel and between the halves:
    - [CLayout]: the C layout algorithm for x86-64.
    - [KernelTask], [KernelBpf]: types of vmlinux.h as layout descriptions.
      Scalar typedefs and small structs are abbreviations.
    - [Layouts]: the shared structs of profi_events.h and their repr(C) mirrors in
      events.rs with the asserts on them, the map definitions of profi.bpf.c.
    - [Wire]: structs as bytes, laid out by the C struct and read back through the
      Rust one, field by field; the class [Wire].

    Userspace:
    - [Drain]: [drain_percpu_hash] and its callbacks in main.rs; the class
      [AggMap] is what a map promises to the drain.
    - [Export]: the cumulative histogram counters and their labels.
    - [Tick]: the drop counters, the interval, the upgraded processes, active
      memory and the hang scan of main.rs.
    - [Kernel]: kernel.rs.  [Metrics]: metrics.rs and the interface of the
      Prometheus library.  [Cache], [CacheInv]: cache.rs and its invariants.
      [Symbols]: symbols.rs and the resolver thread.  [Report]: report.rs.
    - [Loop], [LoopInv]: the branches of the main loop and their invariants.
      [Straggler]: the straggler ratios of the gc tick.  [Names]: the loop and
      the resolver thread with the two channels between them.
    - [System]: programs and main loop as one machine.
    - [Enrich]: enrichment.rs.  [Threads]: the lookups of the loop and the events of
      the Kubernetes watch as steps of two threads, one step per lock.  [Series]:
      the two threads and the handle cache together.
    - [Server]: server.rs.  [Security]: http_security.rs, pem.rs, and the server
      that serve_http starts, whose requests interleave with the answers of the
      Kubernetes API.  [Otlp]: otlp.rs.
    - [Discovery]: discovery.rs.  [Attach]: the probe tables of main.rs, both ways
      of attaching, the discovery thread and the attach branch, and which
      programs a call of an attached function runs.  [Nvml]: nvml.rs.
    - [Profi]: applications, links, programs and main loop together.
    - [Select]: the select loop with all its branches, the heartbeat and the
      report.  [Startup]: the arguments and [main] of main.rs up to the loop, with
      every error that ends it, and the program as start-up followed by the loop.
      The answers of libbpf, tokio, the file system and the Kubernetes client
      during start-up are the record [StartEnv].
    - [Follow]: the discovery thread, its channel and the attach branch together.

    ** What the theorems show

    - Applications to scrape ([Profi], [System], [Startup]): for applications
      that call attached functions one at a time per thread, every returned call
      of a process is in the counters of a scrape or in one of the named places
      where it waits or was lost (maps and ring buffer, deletion of a key, a full
      map, a full ring buffer, anonymous launches that nobody reads); without that
      assumption every completed call is; and so it is for the program from its
      arguments, with attaches and reports in between and whatever ends the loop.
    - Start-up and status ([Startup], [Select]): what a start-up that succeeds
      leaves, when it panics, what /status and /ready say after any branches, when
      the loop ends, and that the report counts the calls.
    - Refinement ([Ledger], [RingLedger]): per key, the totals of AGGREGATED,
      NCCL_AGG and LAUNCH_AGG over the CPUs are the folds of the ledger, modulo
      the width of each field; EVENTS and DROPPED account for every call that is
      not aggregated, LAUNCH_AGG and LAUNCH_DROPPED for every launch.
    - Drain and export ([Drain], [Export]): over any interleaving of program runs
      and drains of keys, the exported call counts, the counts still stored and
      the calls that completed between the look-up and the deletion of their key
      add up to the ledger; the cumulative histograms are those of the calls.
    - The loop ([LoopInv], [CacheInv], [Tick]): what it exports per process, the
      cardinality limits, the drop metric, the hang scan, and two ways in which a
      traced process or an eviction disturbs it.
    - Invariants and bytes ([Invariant], [Layouts], [Wire]): every reachable state
      is well formed; the asserts of events.rs hold of its structs; what programs
      write with the structs of C is what userspace reads with those of Rust.
    - Calls ([Calls], [Alloc], [Modes]): entry and return are paired per thread, a
      nested wrapper is recorded once, sampling keeps the total weight within one
      period of the number of calls, the size of an allocation reaches its free,
      and what each launch mode shows and hides.
    - Names and labels ([Kernel], [Symbols], [Names], [Enrich],
      [Threads], [Series]): on which kernel names normalisation returns and what;
      which files the resolver's answers come from while files change, and that its
      caches do not change them while they do not; with the loop and the resolver
      running together ([Names]) every name in the table is such an answer or comes
      from a registration, and no request is lost; the labels of series are those
      that the watch last reported or empty, and the set of upgraded processes
      follows the annotations, for every interleaving of loop and watch, except for
      lookups that overlap an event in ways that [Threads] shows to go wrong.
    - Attaching ([Discovery], [Attach], [Follow]): what a scan reports is exact, a
      file is requested once, a library that a scanned process maps gets linked,
      an attached library is traced in every mode, what failed attaches do, and
      that mode off still traces launches.
    - Endpoints ([Security], [Otlp]): protected routes need credentials, the
      counters of the middleware are exact, mtls-or-bearer never looks at tokens;
      the OTLP histogram has each observation in its bucket, a push ships every
      series, labels stay apart.
    - Numbers ([Straggler], [Report], [Nvml]): the straggler ratio is within 2^-51
      of the quotient of a percentile and a median, printed durations and sizes
      are right in their last digit, the ECC counter follows the driver.

    ** Bounds and assumptions

    - Programs have no loops, so no fuel is needed for them; the loops of
      userspace are folds over finite lists.  Fuel is used in three places: the
      nesting depth 8 of the member lookup in [CLayout], where running out gives
      no offset and the evaluated theorems show that it does not; the scan of a
      mangled name in [Kernel], whose fuel is the length of the name and one more,
      which [normalize_total] shows to be enough; and the 20 decimal or 16
      hexadecimal digits of a 64-bit number in [RustStd].
    - The code looks a key up and deletes it in two system calls.  In [Drain] and
      [System] programs run between the two, and what they add to the key is
      collected as lost.
    - The refinements of the aggregation maps assume that the completed calls use
      no more distinct keys than the map has room for; [System] and [Profi] need no
      such bound, they collect the refused calls.
    - The loop panics on some kernel names and on a lookup whose cgroup has a
      multi-byte character in the wrong place ([LoopInv], [Enrich]); theorems that
      say that it does not stop assume that names can be normalised and that the
      enricher answers ([safe_op], [main_op_ok]).
    - [Profi] assumes that a thread is in one traced call at a time, that
      INFLIGHT does not overflow and that nothing is sampled out.  [Calls] and
      [Modes] show what nesting and sampling do.
    - Prometheus counters are exact integers in the model, where the library uses
      floating point for some; sums of u64 in userspace wrap, as in a release
      build.  The string interner of userspace is the identity.

    ** Not modelled

    Of vmlinux.h, the types that neither describe a traced thread nor carry the
    tracer: the programs do not use them.  Of main.rs, the parsing of arguments by
    clap, log messages, and the timing metrics of ticks and scans.  bpf.rs includes generated
    code and lib.rs lists modules.  The connections to Kubernetes, the sockets of
    the server, the encoding of /metrics and the sending of OTLP batches are
    libraries and I/O; build.rs, the container image, the Helm chart, tests and
    benchmarks are not part of the running program.

    ** Plan

    Programs that are interrupted on their CPU while they update a slot; nested
    calls in [Profi]; all threads and tasks of userspace as one machine with the main
    loop, as [Names], [Follow] and [Series] do for one thread each; the enricher of
    [Threads] as the one that the loop of [System] asks. *)

From stdpp Require Export base gmap list numbers sorting.
From Stdlib Require Export ZArith Lia.

#[global] Set Default Goal Selector "!".

Local Open Scope Z_scope.

(** ** Machine integers

    A [w]-bit unsigned C integer is a [Z] in [0, 2^w); every arithmetic
    operation of the source that can wrap is followed by the wrap. *)

Definition wrap (w : Z) (z : Z) : Z := z mod 2 ^ w.

Abbreviation u8 := (wrap 8).
Abbreviation u32 := (wrap 32).
Abbreviation u64 := (wrap 64).

(** [u64::saturating_sub] *)
Definition saturating_sub (a b : Z) : Z := Z.max 0 (a - b).

(** [fits w z]: [z] is a value of the [w]-bit unsigned type. *)
Definition fits (w z : Z) : Prop := 0 <= z < 2 ^ w.

#[global] Instance fits_dec w z : Decision (fits w z).
Proof. unfold fits. apply _. Defined.

Declare Scope u64_scope.
Delimit Scope u64_scope with u64.
Notation "a +! b" := (wrap 64 (a + b)) (at level 50, left associativity) : u64_scope.
Notation "a *! b" := (wrap 64 (a * b)) (at level 40, left associativity) : u64_scope.

(** Ranges of closed terms, by evaluation. *)
Ltac fits_const := apply (bool_decide_unpack _); vm_compute; exact I.

Create HintDb wrapdb.
Create Rewrite HintDb wrapdb.

Lemma wrap_fits w z : 0 <= w -> fits w (wrap w z).
Proof. intros. apply Z.mod_pos_bound. lia. Qed.

Lemma wrap_small w z : fits w z -> wrap w z = z.
Proof. intros. by apply Z.mod_small. Qed.

Lemma fits_0 w : 0 <= w -> fits w 0.
Proof. unfold fits. lia. Qed.

Lemma fits_1 w : 0 < w -> fits w 1.
Proof. intros. split; [lia|]. apply Z.pow_gt_1; lia. Qed.

Lemma fits_weaken w w' z : fits w z -> 0 <= w <= w' -> fits w' z.
Proof.
  intros [H0 H1] Hw. split; [done|].
  pose proof (Z.pow_le_mono_r 2 w w'). lia.
Qed.

Lemma wrap_0 w : wrap w 0 = 0.
Proof. apply Zmod_0_l. Qed.

Lemma wrap_wrap w z : wrap w (wrap w z) = wrap w z.
Proof. apply Zmod_mod. Qed.

Lemma wrap_add_l w a b : wrap w (wrap w a + b) = wrap w (a + b).
Proof. apply Zplus_mod_idemp_l. Qed.

Lemma wrap_add_r w a b : wrap w (a + wrap w b) = wrap w (a + b).
Proof. apply Zplus_mod_idemp_r. Qed.

Lemma wrap_mul_l w a b : wrap w (wrap w a * b) = wrap w (a * b).
Proof. apply Zmult_mod_idemp_l. Qed.

Lemma wrap_mul_r w a b : wrap w (a * wrap w b) = wrap w (a * b).
Proof. apply Zmult_mod_idemp_r. Qed.

(** Equal wraps differ by a multiple, which makes a congruence linear arithmetic. *)
Lemma wrap_eq_iff w a b : 0 <= w -> wrap w a = wrap w b <-> exists q, a = b + q * 2 ^ w.
Proof.
  intros Hw. assert (2 ^ w <> 0) by lia. unfold wrap. split.
  - intros E. exists (a / 2 ^ w - b / 2 ^ w).
    rewrite (Z.div_mod a (2 ^ w)), (Z.div_mod b (2 ^ w)), E at 1 by done. ring.
  - intros [q ->]. apply Z.mod_add. done.
Qed.

(** A narrow view of a wide wrap: truncating after wrapping at a larger
    width is truncating directly. *)
Lemma wrap_narrow w w' z : 0 <= w <= w' -> wrap w (wrap w' z) = wrap w z.
Proof.
  intros. unfold wrap. apply Z.mod_mod_divide.
  exists (2 ^ (w' - w)). rewrite <- Z.pow_add_r by lia. f_equal. lia.
Qed.

(** Congruence of the two sides of a wrapping addition. *)
Lemma wrap_add_cong w a b c d :
  wrap w a = wrap w b -> wrap w c = wrap w d -> wrap w (a + c) = wrap w (b + d).
Proof.
  intros H1 H2. rewrite <- (wrap_add_l w a), H1, wrap_add_l.
  by rewrite <- (wrap_add_r w b c), H2, wrap_add_r.
Qed.

(** A signed 64-bit integer, in two's complement. *)
Definition i64 (z : Z) : Z := wrap 64 (z + 2 ^ 63) - 2 ^ 63.

Lemma i64_add_l a b : i64 (i64 a + b) = i64 (a + b).
Proof.
  unfold i64. f_equal. replace (_ - _ + b + _) with (wrap 64 (a + 2 ^ 63) + b) by lia.
  rewrite wrap_add_l. f_equal. lia.
Qed.

Lemma i64_i64 a : i64 (i64 a) = i64 a.
Proof. pose proof (i64_add_l a 0) as E. by rewrite !Z.add_0_r in E. Qed.

Lemma i64_add_r a b : i64 (a + i64 b) = i64 (a + b).
Proof. by rewrite (Z.add_comm a), i64_add_l, (Z.add_comm b). Qed.

Lemma i64_sub_r a b : i64 (a - i64 b) = i64 (a - b).
Proof.
  unfold i64, wrap. f_equal.
  replace (a - _ + _) with ((a + 2 * 2 ^ 63) - (b + 2 ^ 63) mod 2 ^ 64) by lia.
  rewrite Zminus_mod_idemp_r. f_equal. lia.
Qed.

#[export] Hint Rewrite wrap_wrap wrap_add_l wrap_add_r wrap_mul_l wrap_mul_r wrap_0 : wrapdb.
#[export] Hint Resolve wrap_fits fits_0 fits_1 : wrapdb.
#[export] Hint Extern 1 (_ <= _) => lia : wrapdb.
#[export] Hint Extern 1 (_ < _) => lia : wrapdb.

Ltac wrap_simpl := autorewrite with wrapdb.

(** ** Sums of integer lists *)

Fixpoint sumZ (l : list Z) : Z :=
  match l with
  | [] => 0
  | x :: l' => x + sumZ l'
  end.

Lemma sumZ_app l1 l2 : sumZ (l1 ++ l2) = sumZ l1 + sumZ l2.
Proof. induction l1; simpl; lia. Qed.

Lemma sumZ_replicate_0 n : sumZ (replicate n 0) = 0.
Proof. induction n; simpl; lia. Qed.

(** Replacing one cell changes the sum by the difference of the cell. *)
Lemma sumZ_insert (l : list Z) (i : nat) x y :
  l !! i = Some x -> sumZ (<[i:=y]> l) = sumZ l + (y - x).
Proof.
  revert i. induction l as [|z l IH]; intros [|i] H; simplify_eq/=; [lia|].
  rewrite (IH _ H). lia.
Qed.

Lemma sumZ_alter (f : Z -> Z) (l : list Z) (i : nat) x :
  l !! i = Some x -> sumZ (alter f i l) = sumZ l + (f x - x).
Proof.
  revert i. induction l as [|z l IH]; intros [|i] H; simplify_eq/=; [lia|].
  setoid_rewrite (IH _ H). lia.
Qed.

Lemma sumZ_nonneg l : Forall (fun z => 0 <= z) l -> 0 <= sumZ l.
Proof. induction 1; simpl; lia. Qed.

Lemma sumZ_fmap_insert {A} (f : A -> Z) (l : list A) (i : nat) x y :
  l !! i = Some x -> sumZ (f <$> <[i:=y]> l) = sumZ (f <$> l) + (f y - f x).
Proof.
  intros H. rewrite list_fmap_insert. apply sumZ_insert.
  by rewrite list_lookup_fmap, H.
Qed.

Lemma sumZ_fmap_replicate {A} (f : A -> Z) n x :
  sumZ (f <$> replicate n x) = Z.of_nat n * f x.
Proof. induction n as [|n IH]; csimpl; [lia|]. rewrite IH. lia. Qed.

#[export] Instance sumZ_perm : Proper ((≡ₚ) ==> (=)) sumZ.
Proof. induction 1; simpl; lia. Qed.

Lemma sumZ_fmap_ext {A} (f g : A -> Z) l :
  (forall x, x ∈ l -> f x = g x) -> sumZ (f <$> l) = sumZ (g <$> l).
Proof.
  induction l as [|x l IH]; intros Hx; [done|]. csimpl. rewrite (Hx x) by left. f_equal.
  apply IH. intros y Hy. apply Hx. by right.
Qed.

(** Filters that keep nothing or everything. *)
Lemma filter_none {A} (P : A -> Prop) `{!forall x, Decision (P x)} l :
  Forall (fun x => ~ P x) l -> filter P l = [].
Proof. induction 1 as [|x l Hx _ IH]; [done|]. by rewrite filter_cons_False. Qed.

Lemma filter_all {A} (P : A -> Prop) `{!forall x, Decision (P x)} l : Forall P l -> filter P l = l.
Proof. induction 1 as [|x l Hx _ IH]; [done|]. by rewrite filter_cons_True, IH. Qed.

(** A cell of a list after an update of one cell. *)
Lemma list_lookup_insert_Some_inv {A} (l : list A) i j (x y : A) :
  <[i:=x]> l !! j = Some y -> (i = j /\ y = x) \/ l !! j = Some y.
Proof. rewrite list_lookup_insert_Some. intros [(-> & <- & _)|[_ H]]; auto. Qed.

Lemma Forall_insert_cell {A} (P : A -> Prop) (l : list A) i x :
  Forall P l -> P x -> Forall P (<[i:=x]> l).
Proof. intros. by apply Forall_insert. Qed.

Lemma foldl_keeps {A S} (P : S -> Prop) (f : S -> A -> S) l s :
  (forall s a, P s -> P (f s a)) -> P s -> P (foldl f s l).
Proof. intros Hf. revert s. induction l; simpl; auto. Qed.

Lemma forallb_fmap {A B} (f : B -> bool) (g : A -> B) l : forallb f (g <$> l) = forallb (fun x => f (g x)) l.
Proof. induction l as [|x l IH]; [done|]. rewrite fmap_cons. cbn [forallb]. by rewrite IH. Qed.

(** C array access [a[i]] at an index known to be in range. *)
Definition arr (a : list Z) (i : nat) : Z := default 0 (a !! i).

(** Replace every constant-table access of the goal by its value. *)
Ltac arr_consts :=
  repeat match goal with
  | |- context [ arr ?l ?i ] => let v := eval vm_compute in (arr l i) in change (arr l i) with v
  end.

(** ** Case analysis on the boolean integer tests of the source *)

Ltac case_Zb :=
  match goal with
  | |- context [ Z.leb ?a ?b ] => destruct (Z.leb_spec a b)
  | |- context [ Z.ltb ?a ?b ] => destruct (Z.ltb_spec a b)
  | |- context [ Z.eqb ?a ?b ] => destruct (Z.eqb_spec a b)
  | H : context [ Z.leb ?a ?b ] |- _ => destruct (Z.leb_spec a b)
  | H : context [ Z.ltb ?a ?b ] |- _ => destruct (Z.ltb_spec a b)
  | H : context [ Z.eqb ?a ?b ] |- _ => destruct (Z.eqb_spec a b)
  end.

Ltac Zb_cases := repeat (case_Zb; simpl in *; try lia).
