(* ===== verification/RustStd.v ===== *)
(** * What the userspace half uses of the Rust standard library

    Panics as a value, strings with byte offsets, and the number formats.  A
    [str] is the list of its characters (Unicode scalar values); an offset into
    it counts bytes of the UTF-8 encoding, and slicing at an offset that is not
    the start of a character panics, as in Rust. *)

From stdpp Require Import strings.
From S2P Require Import Prelude.

Local Open Scope Z_scope.

(** ** Panics *)

(** The result of running Rust code: a value, a panic, or a loop that did not
    end within the fuel given to it. *)
Inductive outcome (A : Type) := Ret (a : A) | Panic | NoFuel.
Arguments Ret {A} a.
Arguments Panic {A}.
Arguments NoFuel {A}.

#[global] Instance outcome_ret : MRet outcome := @Ret.
#[global] Instance outcome_bind : MBind outcome := fun A B f o =>
  match o with Ret a => f a | Panic => Panic | NoFuel => NoFuel end.

(** [Result<A, E>], and fallible code that can also panic. *)
Inductive result (E A : Type) := Ok (a : A) | Err (e : E).
Arguments Ok {E A} a.
Arguments Err {E A} e.

(** [m?] followed by [f]; [ok_or] and [context] turn a missing value into an error. *)
Definition try_bind {E A B} (f : A -> outcome (result E B)) (m : outcome (result E A))
    : outcome (result E B) :=
  r ← m;
  match r with Ok a => f a | Err e => Ret (Err e) end.

Definition ok_or {E A} (e : E) (o : option A) : result E A :=
  match o with Some a => Ok a | None => Err e end.

Notation "x ←? m ; k" := (try_bind (fun x => k) m)
  (at level 20, m at level 100, k at level 200) : stdpp_scope.

(** The value of a computation that returns. *)
Definition ret_or {A} (d : A) (o : outcome A) : A := match o with Ret a => a | _ => d end.
Definition returns {A} (o : outcome A) : bool := match o with Ret _ => true | _ => false end.

Lemma returns_ret {A} (d : A) o : returns o = true -> o = Ret (ret_or d o).
Proof. by destruct o. Qed.

Lemma bind_ret {A B} (f : A -> outcome B) (m : outcome A) b :
  m ≫= f = Ret b -> exists a, m = Ret a /\ f a = Ret b.
Proof. destruct m as [a| |]; [by exists a|done..]. Qed.

Lemma Ret_inj {A} (a b : A) : Ret a = Ret b -> a = b.
Proof. by injection 1. Qed.

(** [Option::expect] *)
Definition expect {A} (o : option A) : outcome A :=
  match o with Some a => Ret a | None => Panic end.

(** ** Characters and strings *)

Definition str := list Z.

(** An ASCII literal. *)
Definition lit (s : string) : str :=
  (fun c => Z.of_N (Ascii.N_of_ascii c)) <$> String.list_ascii_of_string s.

(** Replace literals by their characters. *)
Ltac lits :=
  repeat match goal with
  | |- context [ lit ?s ] => let v := eval vm_compute in (lit s) in change (lit s) with v
  | H : context [ lit ?s ] |- _ => let v := eval vm_compute in (lit s) in change (lit s) with v in H
  end.

(** [char::len_utf8] *)
Definition len_utf8 (c : Z) : Z :=
  if c <? 128 then 1 else if c <? 2048 then 2 else if c <? 65536 then 3 else 4.

(** [char::encode_utf8] *)
Definition encode_utf8 (c : Z) : list Z :=
  if c <? 128 then [c]
  else if c <? 2048 then [192 + c / 64; 128 + c mod 64]
  else if c <? 65536 then [224 + c / 4096; 128 + c / 64 mod 64; 128 + c mod 64]
  else [240 + c / 262144; 128 + c / 4096 mod 64; 128 + c / 64 mod 64; 128 + c mod 64].

(** [str::len], in bytes, and [str::as_bytes] *)
Fixpoint blen (s : str) : Z :=
  match s with
  | [] => 0
  | c :: s' => len_utf8 c + blen s'
  end.

Definition as_bytes (s : str) : list Z := mjoin (encode_utf8 <$> s).

(** The number of characters before byte offset [n], when a character starts
    or the string ends there. *)
Fixpoint char_index (s : str) (n : Z) : option nat :=
  if n =? 0 then Some 0%nat
  else match s with
       | [] => None
       | c :: s' => if n <? len_utf8 c then None else S <$> char_index s' (n - len_utf8 c)
       end.

Definition is_char_boundary (s : str) (n : Z) : bool :=
  match char_index s n with Some _ => true | None => false end.

(** [&s[a..b]] *)
Definition slice (s : str) (a b : Z) : outcome str :=
  match char_index s a, char_index s b with
  | Some i, Some j => if a <=? b then Ret (take (j - i) (drop i s)) else Panic
  | _, _ => Panic
  end.

(** [String::truncate] *)
Definition truncate (s : str) (n : Z) : outcome str :=
  if n <=? blen s then slice s 0 n else Ret s.

(** [str::find] and [str::rfind] of a character *)
Fixpoint find_char (c : Z) (s : str) : option Z :=
  match s with
  | [] => None
  | x :: s' => if x =? c then Some 0 else Z.add (len_utf8 x) <$> find_char c s'
  end.

Fixpoint rfind_char (c : Z) (s : str) : option Z :=
  match s with
  | [] => None
  | x :: s' =>
      match rfind_char c s' with
      | Some o => Some (len_utf8 x + o)
      | None => if x =? c then Some 0 else None
      end
  end.

Fixpoint starts_with (p s : str) : bool :=
  match p, s with
  | [], _ => true
  | x :: p', y :: s' => (x =? y) && starts_with p' s'
  | _ :: _, [] => false
  end.

(** [str::contains] of a string *)
Fixpoint contains (p s : str) : bool :=
  starts_with p s || match s with [] => false | _ :: s' => contains p s' end.

(** [char::is_whitespace]: the Unicode property White_Space *)
Definition is_whitespace (c : Z) : bool :=
  ((9 <=? c) && (c <=? 13)) || (c =? 32) || (c =? 133) || (c =? 160) || (c =? 5760)
  || ((8192 <=? c) && (c <=? 8202)) || (c =? 8232) || (c =? 8233) || (c =? 8239)
  || (c =? 8287) || (c =? 12288).

Fixpoint trim_end (s : str) : str :=
  match s with
  | [] => []
  | c :: s' =>
      match trim_end s' with
      | [] => if is_whitespace c then [] else [c]
      | t => c :: t
      end
  end.

(** [str::split] at a character or at whitespace: the pieces between the separators. *)
Fixpoint split_by (p : Z -> bool) (s : str) : list str :=
  match s with
  | [] => [[]]
  | c :: s' =>
      if p c then [] :: split_by p s'
      else match split_by p s' with
           | piece :: pieces => (c :: piece) :: pieces
           | [] => [[c]]
           end
  end.

Definition split (sep : Z) (s : str) : list str := split_by (Z.eqb sep) s.

Definition split_whitespace (s : str) : list str :=
  filter (fun piece => piece <> []) (split_by is_whitespace s).

(** [str::split_once] *)
Fixpoint split_once (sep : Z) (s : str) : option (str * str) :=
  match s with
  | [] => None
  | c :: s' => if c =? sep then Some ([], s') else (fun ab => (c :: ab.1, ab.2)) <$> split_once sep s'
  end.

(** [str::lines]: a line ends at a newline, and a carriage return before it is not
    part of the line; a last line without newline counts when it is not empty. *)
Fixpoint lines (s : str) : list str :=
  match s with
  | [] => []
  | c :: s' =>
      if c =? 10 then [] :: lines s'
      else if bool_decide (s' !! 0%nat = Some 10) && (c =? 13) then lines s'
      else match lines s' with l :: ls => (c :: l) :: ls | [] => [[c]] end
  end.

(** [str::find] of a string *)
Fixpoint find_str (p s : str) : option Z :=
  if starts_with p s then Some 0
  else match s with [] => None | c :: s' => Z.add (len_utf8 c) <$> find_str p s' end.

(** [str::strip_prefix] *)
Definition strip_prefix (p s : str) : option str :=
  if starts_with p s then Some (drop (length p) s) else None.

(** [s.rsplit(p).next()]: what follows the last occurrence of [p]. *)
Fixpoint after_last (p s : str) : option str :=
  match s with
  | [] => None
  | _ :: s' =>
      match after_last p s' with
      | Some r => Some r
      | None => if starts_with p s then Some (drop (length p) s) else None
      end
  end.

Definition rsplit_first (p s : str) : str := default s (after_last p s).

Fixpoint trim_start (s : str) : str :=
  match s with [] => [] | c :: s' => if is_whitespace c then trim_start s' else s end.
Definition trim (s : str) : str := trim_end (trim_start s).

Definition is_ascii_digit (c : Z) : bool := (48 <=? c) && (c <=? 57).

Definition to_ascii_lowercase (s : str) : str :=
  (fun c => if (65 <=? c) && (c <=? 90) then c + 32 else c) <$> s.

(** The part of [char::is_alphanumeric] above ASCII is a table of the Unicode
    standard; nothing below depends on its contents. *)
Class UnicodeTables := { unicode_alphanumeric : Z -> bool }.

Definition is_alphanumeric `{UnicodeTables} (c : Z) : bool :=
  if c <? 128 then
    is_ascii_digit c || ((65 <=? c) && (c <=? 90)) || ((97 <=? c) && (c <=? 122))
  else unicode_alphanumeric c.

(** ** Numbers *)

Definition digit_char (d : Z) : Z := if d <? 10 then 48 + d else 87 + d.

Definition digit_val (c : Z) : Z :=
  if (48 <=? c) && (c <=? 57) then c - 48
  else if (97 <=? c) && (c <=? 122) then c - 87
  else if (65 <=? c) && (c <=? 90) then c - 55
  else 99.

Fixpoint num_go (base : Z) (fuel : nat) (n : Z) (acc : str) : str :=
  match fuel with
  | O => acc
  | S fuel' =>
      let acc' := digit_char (n mod base) :: acc in
      if n / base =? 0 then acc' else num_go base fuel' (n / base) acc'
  end.

(** [to_string] and [format!("{:x}", n)] of a u64; 20 decimal and 16 hexadecimal
    digits are enough for 2^64. *)
Definition to_string (n : Z) : str := num_go 10 20 n [].
Definition lower_hex (n : Z) : str := num_go 16 16 n [].

Definition num_val (base : Z) (s : str) (acc : Z) : Z :=
  foldl (fun a c => base * a + digit_val c) acc s.

(** [from_str_radix] and [parse] of an unsigned type of [w] bits *)
Definition from_str_radix (w base : Z) (s : str) : option Z :=
  let s := if starts_with (lit "+") s then drop 1 s else s in
  if (negb (bool_decide (s = []))) && forallb (fun c => digit_val c <? base) s then
    if num_val base s 0 <? 2 ^ w then Some (num_val base s 0) else None
  else None.

(** [&buf[..buf.iter().position(|&c| c == 0).unwrap_or(buf.len())]] *)
Fixpoint until_nul (bs : list Z) : list Z :=
  match bs with
  | [] => []
  | b :: bs' => if b =? 0 then [] else b :: until_nul bs'
  end.

(** ** UTF-8 decoding *)

Definition is_cont (b : Z) : bool := (128 <=? b) && (b <=? 191).

Definition in_range (lo hi b : Z) : bool := (lo <=? b) && (b <=? hi).

(** [std::str::from_utf8]: the well-formed sequences of the Unicode standard, with
    neither overlong forms nor surrogates. *)
Fixpoint from_utf8 (bs : list Z) : option str :=
  match bs with
  | [] => Some []
  | b0 :: r0 =>
      if in_range 0 127 b0 then cons b0 <$> from_utf8 r0
      else match r0 with
      | [] => None
      | b1 :: r1 =>
          if in_range 194 223 b0 && is_cont b1
          then cons ((b0 - 192) * 64 + (b1 - 128)) <$> from_utf8 r1
          else match r1 with
          | [] => None
          | b2 :: r2 =>
              if in_range 224 239 b0 && is_cont b1 && is_cont b2
                 && (if b0 =? 224 then 160 <=? b1 else true)
                 && (if b0 =? 237 then b1 <=? 159 else true)
              then cons ((b0 - 224) * 4096 + (b1 - 128) * 64 + (b2 - 128)) <$> from_utf8 r2
              else match r2 with
              | [] => None
              | b3 :: r3 =>
                  if in_range 240 244 b0 && is_cont b1 && is_cont b2 && is_cont b3
                     && (if b0 =? 240 then 144 <=? b1 else true)
                     && (if b0 =? 244 then b1 <=? 143 else true)
                  then cons ((b0 - 240) * 262144 + (b1 - 128) * 4096 + (b2 - 128) * 64 + (b3 - 128))
                         <$> from_utf8 r3
                  else None
              end
          end
      end
  end.

(** A Unicode scalar value. *)
Definition is_scalar (c : Z) : Prop := 0 <= c < 55296 \/ 57344 <= c < 1114112.

(** ** Lemmas on offsets *)

Lemma len_utf8_bounds c : 1 <= len_utf8 c <= 4.
Proof. unfold len_utf8. repeat case_match; lia. Qed.

Lemma blen_app s t : blen (s ++ t) = blen s + blen t.
Proof. induction s as [|c s IH]; simpl; lia. Qed.

Lemma blen_nonneg s : 0 <= blen s.
Proof. induction s as [|c s IH]; simpl; [lia|]. pose proof (len_utf8_bounds c). lia. Qed.

Lemma blen_nil s : blen s = 0 -> s = [].
Proof.
  destruct s as [|c s]; simpl; [done|]. pose proof (len_utf8_bounds c).
  pose proof (blen_nonneg s). lia.
Qed.

(** The offset of the [k]-th character is a boundary, and the only ones are. *)
Lemma char_index_app s t : char_index (s ++ t) (blen s) = Some (length s).
Proof.
  induction s as [|c s IH]; simpl; [by destruct t|].
  pose proof (len_utf8_bounds c). pose proof (blen_nonneg s).
  destruct (Z.eqb_spec (len_utf8 c + blen s) 0); [lia|].
  destruct (Z.ltb_spec (len_utf8 c + blen s) (len_utf8 c)); [lia|].
  replace (len_utf8 c + blen s - len_utf8 c) with (blen s) by lia. by rewrite IH.
Qed.

Lemma char_index_Some s n k :
  char_index s n = Some k -> n = blen (take k s) /\ (k <= length s)%nat.
Proof.
  revert n k. induction s as [|c s IH]; intros n k; simpl.
  { destruct (Z.eqb_spec n 0); intros [= <-]; simpl; lia. }
  destruct (Z.eqb_spec n 0); [intros [= <-]; simpl; lia|].
  destruct (n <? len_utf8 c); [done|]. intros (j & Hj & ->)%fmap_Some.
  apply IH in Hj as [Hj ?]. simpl. lia.
Qed.

(** Slices at the boundaries of a decomposition. *)
Lemma slice_app p m t : slice (p ++ m ++ t) (blen p) (blen p + blen m) = Ret m.
Proof.
  unfold slice. rewrite char_index_app, <- blen_app, app_assoc, char_index_app, <- app_assoc.
  rewrite blen_app. pose proof (blen_nonneg m).
  destruct (Z.leb_spec (blen p) (blen p + blen m)); [|lia].
  rewrite drop_app_length, length_app, Nat.add_comm, Nat.add_sub. by rewrite take_app_length.
Qed.

Lemma slice_prefix p t : slice (p ++ t) 0 (blen p) = Ret p.
Proof. apply (slice_app [] p t). Qed.

Lemma slice_suffix p t : slice (p ++ t) (blen p) (blen (p ++ t)) = Ret t.
Proof. pose proof (slice_app p t []) as E. by rewrite app_nil_r, <- blen_app in E. Qed.

Lemma find_char_Some c s o :
  find_char c s = Some o -> exists p t, s = p ++ c :: t /\ o = blen p /\ c ∉ p.
Proof.
  revert o. induction s as [|x s IH]; intros o; simpl; [done|].
  destruct (Z.eqb_spec x c) as [->|Hne].
  - intros [= <-]. exists [], s. split; [done|]. split; [done|]. by apply not_elem_of_nil.
  - intros (o' & (p & t & -> & -> & Hp)%IH & ->)%fmap_Some. exists (x :: p), t.
    split; [done|]. split; [done|]. by apply not_elem_of_cons.
Qed.

Lemma find_char_None c s : find_char c s = None -> c ∉ s.
Proof.
  induction s as [|x s IH]; simpl; [by intros _ ?%elem_of_nil|].
  destruct (Z.eqb_spec x c); [done|]. intros ?%fmap_None. apply not_elem_of_cons. auto.
Qed.

Lemma rfind_char_Some c s o :
  rfind_char c s = Some o -> exists p t, s = p ++ c :: t /\ o = blen p /\ c ∉ t.
Proof.
  revert o. induction s as [|x s IH]; intros o; simpl; [done|].
  destruct (rfind_char c s) as [o'|] eqn:E.
  - intros [= <-]. destruct (IH _ eq_refl) as (p & t & -> & -> & Ht). by exists (x :: p), t.
  - destruct (Z.eqb_spec x c) as [->|]; [|done]. intros [= <-]. exists [], s.
    split; [done|]. split; [done|]. clear IH. induction s as [|y s IH]; [by apply not_elem_of_nil|].
    simpl in E. destruct (rfind_char c s); [done|]. destruct (Z.eqb_spec y c); [done|].
    apply not_elem_of_cons. auto.
Qed.

Lemma rfind_char_None c s : rfind_char c s = None -> c ∉ s.
Proof.
  induction s as [|y s IH]; intros E; [by apply not_elem_of_nil|].
  simpl in E. destruct (rfind_char c s); [done|]. destruct (Z.eqb_spec y c); [done|].
  apply not_elem_of_cons. auto.
Qed.

Lemma starts_with_spec p s : starts_with p s = true <-> exists t, s = p ++ t.
Proof.
  revert s. induction p as [|x p IH]; intros [|y s]; simpl.
  - split; [by exists []|done].
  - split; [by eexists|done].
  - split; [done|]. by intros [t ?].
  - rewrite andb_true_iff, Z.eqb_eq, IH. split.
    + intros [-> [t ->]]. by exists t.
    + intros [t [= -> ->]]. eauto.
Qed.

Lemma trim_end_prefix s : exists w, s = trim_end s ++ w.
Proof.
  induction s as [|c s [w IH]]; [by exists []|]. simpl.
  destruct (trim_end s) as [|d t]; [destruct (is_whitespace c)|].
  - by exists (c :: s).
  - exists w. simpl in *. by rewrite <- IH.
  - exists w. simpl. by rewrite IH at 1.
Qed.

(** ** Lemmas on ASCII strings *)

Definition ascii (s : str) : Prop := Forall (fun c => 0 <= c < 128) s.

Lemma ascii_len_utf8 c : c < 128 -> len_utf8 c = 1.
Proof. intros. unfold len_utf8. by rewrite (proj2 (Z.ltb_lt _ _)). Qed.

Lemma ascii_blen s : ascii s -> blen s = Z.of_nat (length s).
Proof. induction 1 as [|c s Hc _ IH]; simpl; [done|]. rewrite ascii_len_utf8; lia. Qed.

Lemma ascii_as_bytes s : ascii s -> as_bytes s = s.
Proof.
  unfold as_bytes. induction 1 as [|c s Hc _ IH]; [done|]. csimpl. rewrite IH.
  unfold encode_utf8. by rewrite (proj2 (Z.ltb_lt c 128)) by lia.
Qed.

Lemma ascii_app s t : ascii (s ++ t) <-> ascii s /\ ascii t.
Proof. apply Forall_app. Qed.

(** Slices of an ASCII string only need offsets in order and in range. *)
Lemma ascii_slice s a b :
  ascii s -> 0 <= a <= b -> b <= Z.of_nat (length s) ->
  slice s a b = Ret (take (Z.to_nat (b - a)) (drop (Z.to_nat a) s)).
Proof.
  intros Hs Ha Hb. set (p := take (Z.to_nat a) s). set (m := take (Z.to_nat (b - a)) (drop (Z.to_nat a) s)).
  assert (E : s = p ++ m ++ drop (Z.to_nat (b - a)) (drop (Z.to_nat a) s)).
  { unfold p, m. by rewrite !take_drop. }
  assert (Hp : blen p = a).
  { rewrite ascii_blen by (by apply Forall_take). unfold p. rewrite length_take. lia. }
  assert (Hm : blen m = b - a).
  { rewrite ascii_blen by (by apply Forall_take, Forall_drop). unfold m.
    rewrite length_take, length_drop. lia. }
  pose proof (slice_app p m (drop (Z.to_nat (b - a)) (drop (Z.to_nat a) s))) as G.
  rewrite <- E, Hp, Hm in G. by replace (a + (b - a)) with b in G by lia.
Qed.

Lemma as_bytes_app s t : as_bytes (s ++ t) = as_bytes s ++ as_bytes t.
Proof. unfold as_bytes. by rewrite fmap_app, join_app. Qed.

Lemma length_as_bytes s : Z.of_nat (length (as_bytes s)) = blen s.
Proof.
  unfold as_bytes. induction s as [|c s IH]; [done|]. csimpl. rewrite length_app, Nat2Z.inj_add, IH.
  f_equal. unfold encode_utf8, len_utf8. by repeat case_match.
Qed.

(** ** Lemmas on numbers *)

Lemma digit_val_char d : 0 <= d < 36 -> digit_val (digit_char d) = d.
Proof. intros. unfold digit_val, digit_char. repeat case_match; lia. Qed.

(** Reading a printed number gives the number back. *)
Lemma num_val_go base fuel n acc :
  2 <= base <= 36 -> 0 <= n < base ^ Z.of_nat (S fuel) ->
  num_val base (num_go base (S fuel) n acc) 0 = num_val base acc n.
Proof.
  intros Hb. revert n acc. induction fuel as [|fuel IH]; intros n acc Hn.
  - simpl in *. rewrite Z.pow_1_r in Hn. rewrite Z.div_small, Z.mod_small by lia.
    simpl. by rewrite Z.mul_0_r, digit_val_char by lia.
  - rewrite Nat2Z.inj_succ, Z.pow_succ_r in Hn by lia. simpl num_go.
    assert (0 <= n mod base < base) by (apply Z.mod_pos_bound; lia).
    pose proof (Z.div_mod n base). destruct (Z.eqb_spec (n / base) 0) as [E|E].
    + simpl. rewrite Z.mul_0_r, digit_val_char by lia. f_equal. lia.
    + etrans; [apply IH; split; [apply Z.div_pos; lia|apply Z.div_lt_upper_bound; lia]|].
      simpl. rewrite digit_val_char by lia. f_equal. lia.
Qed.

Lemma num_go_digits base fuel n acc :
  2 <= base -> Forall (fun c => exists d, 0 <= d < base /\ c = digit_char d) acc ->
  Forall (fun c => exists d, 0 <= d < base /\ c = digit_char d) (num_go base fuel n acc).
Proof.
  intros Hb. revert n acc. induction fuel as [|fuel IH]; intros n acc Ha; simpl; [done|].
  assert (0 <= n mod base < base) by (apply Z.mod_pos_bound; lia).
  case_match; [|apply IH]; apply Forall_cons_2; eauto.
Qed.

Lemma num_go_nonempty base fuel n acc : num_go base (S fuel) n acc <> [].
Proof.
  revert n acc. induction fuel as [|fuel IH]; intros n acc; simpl; [by case_match|].
  case_match; [done|]. apply IH.
Qed.

Lemma to_string_val n : fits 64 n -> num_val 10 (to_string n) 0 = n.
Proof. intros [? ?]. apply (num_val_go 10 19); simpl; lia. Qed.

Lemma lower_hex_val n : fits 64 n -> num_val 16 (lower_hex n) 0 = n.
Proof. intros [? ?]. apply (num_val_go 16 15); simpl; lia. Qed.

(** Different numbers have different representations. *)
Lemma to_string_inj n m : fits 64 n -> fits 64 m -> to_string n = to_string m -> n = m.
Proof. intros Hn Hm E. by rewrite <- (to_string_val n), <- (to_string_val m), E. Qed.

Lemma lower_hex_inj n m : fits 64 n -> fits 64 m -> lower_hex n = lower_hex m -> n = m.
Proof. intros Hn Hm E. by rewrite <- (lower_hex_val n), <- (lower_hex_val m), E. Qed.

Lemma to_string_digits n : Forall (fun c => is_ascii_digit c = true) (to_string n).
Proof.
  eapply Forall_impl; [apply num_go_digits; [lia|apply Forall_nil_2]|].
  intros c (d & Hd & ->). unfold is_ascii_digit, digit_char. Zb_cases; lia.
Qed.

Lemma to_string_nonempty n : to_string n <> [].
Proof. apply num_go_nonempty. Qed.

Lemma digits_ascii s : Forall (fun c => is_ascii_digit c = true) s -> ascii s.
Proof.
  intros H. eapply Forall_impl; [exact H|]. unfold is_ascii_digit. intros c. simpl. Zb_cases; done.
Qed.

Lemma digit_val_digit c : is_ascii_digit c = true -> digit_val c = c - 48.
Proof. unfold is_ascii_digit, digit_val. by intros ->. Qed.

(** Reading digits: [parse] accepts them when the value fits. *)
Lemma parse_digits w s :
  Forall (fun c => is_ascii_digit c = true) s -> s <> [] ->
  from_str_radix w 10 s = if num_val 10 s 0 <? 2 ^ w then Some (num_val 10 s 0) else None.
Proof.
  intros Hs Hne. unfold from_str_radix.
  assert (starts_with (lit "+") s = false) as ->.
  { destruct s as [|c s]; [done|]. apply Forall_cons in Hs as [Hc _]. unfold is_ascii_digit in Hc.
    lits. cbn [starts_with]. Zb_cases; done. }
  rewrite bool_decide_eq_false_2 by done. simpl.
  assert (forallb (fun c => digit_val c <? 10) s = true) as ->; [|done].
  apply forallb_forall. intros c Hc%list_elem_of_In. rewrite Forall_forall in Hs. specialize (Hs c Hc).
  rewrite digit_val_digit by done. unfold is_ascii_digit in Hs. Zb_cases; done.
Qed.

(** A number of [k] digits is below 10^k. *)
Lemma num_val_bound s acc :
  Forall (fun c => is_ascii_digit c = true) s -> 0 <= acc ->
  0 <= num_val 10 s acc < (acc + 1) * 10 ^ Z.of_nat (length s).
Proof.
  unfold num_val. intros Hs. revert acc. induction Hs as [|c s Hc _ IH]; intros acc Ha; simpl foldl.
  { simpl. lia. }
  rewrite digit_val_digit by done. unfold is_ascii_digit in Hc.
  assert (48 <= c <= 57) by (Zb_cases; done).
  specialize (IH (10 * acc + (c - 48))). cbn [length]. rewrite Nat2Z.inj_succ, Z.pow_succ_r by lia.
  assert (0 < 10 ^ Z.of_nat (length s)) by (apply Z.pow_pos_nonneg; lia). nia.
Qed.
