(* ===== verification/F64.v ===== *)
(** * The f64 arithmetic userspace uses

    IEEE 754 binary64 through the Standard Library's executable specification:
    conversions from integers, product, quotient, and the casts back, which
    truncate and saturate as Rust's [as] does. *)

From Stdlib Require Import Floats.SpecFloat.
From stdpp Require Import base.
From S2P Require Import Prelude.

Local Open Scope Z_scope.

Definition f64 := spec_float.

Definition f64_prec : Z := 53.
Definition f64_emax : Z := 1024.

(** [n as f64] for an unsigned integer *)
Definition f64_of (n : Z) : f64 := binary_normalize f64_prec f64_emax n 0 false.

Definition f64_mul (x y : f64) : f64 := SFmul f64_prec f64_emax x y.
Definition f64_add (x y : f64) : f64 := SFadd f64_prec f64_emax x y.
Definition f64_div (x y : f64) : f64 := SFdiv f64_prec f64_emax x y.

(** A decimal literal n/d is the quotient rounded once. *)
Definition f64_lit (n d : Z) : f64 := f64_div (f64_of n) (f64_of d).

(** [x as u64] *)
Definition f64_as_u64 (x : f64) : Z :=
  match x with
  | S754_zero _ | S754_nan | S754_infinity true => 0
  | S754_infinity false => 2 ^ 64 - 1
  | S754_finite true _ _ => 0
  | S754_finite false m e => Z.min (2 ^ 64 - 1) (Z.shiftl (Zpos m) e)
  end.

(** [<] on f64 *)
Definition f64_lt (x y : f64) : bool := SFltb x y.

(** The nearest integer to n/d, the even one of two. *)
Definition round_half_even (n d : Z) : Z :=
  let q := n / d in
  match 2 * (n mod d) ?= d with
  | Lt => q
  | Eq => if Z.even q then q else q + 1
  | Gt => q + 1
  end.

(** The digits that [{:.p}] prints of a number that is not negative: the exact value, scaled and
    rounded once. *)
Definition fixed_digits (p : Z) (x : f64) : Z :=
  match x with
  | S754_finite false m e =>
      if 0 <=? e then Zpos m * 2 ^ e * 10 ^ p else round_half_even (Zpos m * 10 ^ p) (2 ^ (- e))
  | _ => 0
  end.

Lemma shiftl_trunc m e : 0 <= m -> Z.shiftl m e = if 0 <=? e then m * 2 ^ e else m / 2 ^ (- e).
Proof.
  intros Hm. destruct (Z.leb_spec 0 e).
  - by rewrite Z.shiftl_mul_pow2.
  - by rewrite Z.shiftl_div_pow2 by lia.
Qed.
