(* ===== verification/Rounding.v ===== *)
(** * How far f64 results are from the exact ones

    Conversions from integers and quotients of [F64], compared with the rational numbers they
    round: in the range userspace works in the relative error is at most 2^-53 per operation. *)

From Stdlib Require Import Floats.SpecFloat QArith Qpower Qabs Lqa.
From stdpp Require Import base.
From S2P Require Import Prelude F64.

Local Open Scope Z_scope.

(** ** Powers of two *)

Definition pow2 (e : Z) : Q := Qpower 2 e.

Lemma pow2_plus a b : (pow2 (a + b) == pow2 a * pow2 b)%Q.
Proof. by apply Qpower_plus. Qed.

Lemma pow2_pos e : (0 < pow2 e)%Q.
Proof. by apply Qpower_0_lt. Qed.

Lemma pow2_Z e : 0 <= e -> (pow2 e == inject_Z (2 ^ e))%Q.
Proof. intros He. unfold pow2. change 2%Q with (inject_Z 2). by rewrite <- Zpower_Qpower. Qed.

Lemma pow2_half e : (pow2 (e - 1) == pow2 e * (1 # 2))%Q.
Proof. change (e - 1) with (e + - (1)). by rewrite pow2_plus. Qed.

(** ** Where a number lies between two integers *)

(** [x] is at [m], or in the first half, the middle or the second half of the unit above. *)
Definition located (m : Z) (l : location) (x : Q) : Prop :=
  match l with
  | loc_Exact => x == inject_Z m
  | loc_Inexact Lt => inject_Z m < x /\ x < inject_Z m + (1 # 2)
  | loc_Inexact Eq => x == inject_Z m + (1 # 2)
  | loc_Inexact Gt => inject_Z m + (1 # 2) < x /\ x < inject_Z m + 1
  end%Q.

Lemma located_proper m l x y : (x == y)%Q -> located m l y -> located m l x.
Proof. intros E. destruct l as [|[]]; simpl; rewrite E; done. Qed.

Lemma located_bounds m l x : located m l x -> (inject_Z m <= x /\ x < inject_Z m + 1)%Q.
Proof. destruct l as [|[]]; cbn [located]; lra. Qed.

Definition at_record (r : shr_record) (x : Q) : Prop := located (shr_m r) (loc_of_shr_record r) x.

Lemma shr_1_located r x :
  0 <= shr_m r -> at_record r x -> at_record (shr_1 r) (x / 2) /\ shr_m (shr_1 r) = shr_m r / 2.
Proof.
  destruct r as [m r s]. unfold at_record. cbn [shr_m]. intros Hm Hx. destruct m as [|p|p]; [| |lia].
  - split; [|done]. destruct r, s; cbn [shr_1 loc_of_shr_record shr_m orb located] in *; unfold Qdiv; change (/ 2)%Q with (1 # 2);
      change (inject_Z 0) with 0%Q in *; lra.
  - destruct p as [p|p|].
    + split; [|apply (Z.div_unique_pos _ 2 _ 1); cbn [shr_1 shr_m]; lia].
      assert (E : (inject_Z (Zpos p~1) == 2 * inject_Z (Zpos p) + 1)%Q).
      { change (Zpos p~1) with (2 * Zpos p + 1). by rewrite inject_Z_plus, inject_Z_mult. }
      destruct r, s; cbn [shr_1 loc_of_shr_record shr_m orb located] in *; rewrite ?E in Hx; unfold Qdiv; change (/ 2)%Q with (1 # 2); lra.
    + split; [|apply (Z.div_unique_pos _ 2 _ 0); cbn [shr_1 shr_m]; lia].
      assert (E : (inject_Z (Zpos p~0) == 2 * inject_Z (Zpos p))%Q) 
        by (change (Zpos p~0) with (2 * Zpos p); by rewrite inject_Z_mult).
      destruct r, s; cbn [shr_1 loc_of_shr_record shr_m orb located] in *; rewrite ?E in Hx; unfold Qdiv; change (/ 2)%Q with (1 # 2); lra.
    + split; [|done]. destruct r, s; cbn [shr_1 loc_of_shr_record shr_m orb located] in *; unfold Qdiv; change (/ 2)%Q with (1 # 2);
        change (inject_Z 0) with 0%Q; change (inject_Z 1) with 1%Q in *; lra.
Qed.

Lemma iter_pos_iter {A} (f : A -> A) p x : SpecFloat.iter_pos f p x = Pos.iter f x p.
Proof.
  revert x. induction p as [p IH|p IH|]; intros x; cbn [SpecFloat.iter_pos Pos.iter]; [| |done].
  - by rewrite !IH, !Pos.iter_swap.
  - by rewrite !IH.
Qed.

Lemma shr_iter_located r p x :
  0 <= shr_m r -> at_record r x ->
  at_record (Pos.iter shr_1 r p) (x * pow2 (- Zpos p)) /\ shr_m (Pos.iter shr_1 r p) = shr_m r / 2 ^ Zpos p.
Proof.
  intros Hm Hx. induction p as [|p [IH1 IH2]] using Pos.peano_ind.
  - exact (shr_1_located r x Hm Hx).
  - rewrite Pos.iter_succ. apply shr_1_located in IH1 as [H1 H2].
    2:{ rewrite IH2. apply Z.div_pos; lia. }
    split.
    + unfold at_record in *. eapply located_proper; [|exact H1].
      replace (- Zpos (Pos.succ p)) with (- Zpos p + - (1)) by lia. rewrite pow2_plus.
      change (pow2 (- (1))) with (1 # 2). unfold Qdiv. change (/ 2)%Q with (1 # 2). ring.
    + rewrite H2, IH2, Z.div_div by lia. f_equal. rewrite Pos2Z.inj_succ, Z.pow_succ_r by lia. lia.
Qed.

Lemma shr_located r e n x :
  0 <= n -> 0 <= shr_m r -> at_record r x ->
  exists r', shr r e n = (r', e + n) /\ at_record r' (x * pow2 (- n)) /\ shr_m r' = shr_m r / 2 ^ n.
Proof.
  intros Hn Hm Hx. destruct n as [|p|p]; [| |lia].
  - exists r. cbn [shr]. rewrite Z.add_0_r, Z.div_1_r. split; [done|]. split; [|done].
    eapply located_proper; [|exact Hx]. change (pow2 (- 0)) with 1%Q. ring.
  - eexists. split; [cbn [shr]; by rewrite iter_pos_iter|]. by apply shr_iter_located.
Qed.

Lemma loc_record m l : loc_of_shr_record (shr_record_of_loc m l) = l /\ shr_m (shr_record_of_loc m l) = m.
Proof. by destruct l as [|[]]. Qed.

Lemma nearest_located m l x : located m l x -> (Qabs (inject_Z (round_nearest_even m l) - x) <= 1 # 2)%Q.
Proof.
  intros Hx. apply Qabs_Qle_condition. destruct l as [|[]]; cbn [located round_nearest_even] in *;
    [|destruct (Z.even m)| |]; rewrite ?inject_Z_plus; change (inject_Z 1) with 1%Q; lra.
Qed.

(** ** Digits *)

Lemma Zdigits2_log2 m : 0 < m -> Zdigits2 m = Z.log2 m + 1.
Proof.
  destruct m as [|p|p]; [lia| |lia]. intros _. cbn [Zdigits2].
  induction p as [p IH|p IH|]; cbn [digits2_pos]; [| |done]; rewrite Pos2Z.inj_succ, IH.
  - change (Zpos p~1) with (2 * Zpos p + 1). rewrite Z.log2_succ_double by lia. lia.
  - change (Zpos p~0) with (2 * Zpos p). rewrite Z.log2_double by lia. lia.
Qed.

Lemma Zdigits2_bounds m : 0 < m -> 2 ^ (Zdigits2 m - 1) <= m < 2 ^ Zdigits2 m.
Proof.
  intros Hm. rewrite Zdigits2_log2 by done. pose proof (Z.log2_spec m Hm) as H.
  rewrite Z.add_simpl_r. by rewrite <- Z.add_1_r in H.
Qed.

Lemma Zdigits2_unique m d : 0 < d -> 2 ^ (d - 1) <= m < 2 ^ d -> Zdigits2 m = d.
Proof.
  intros Hd Hm. assert (0 < 2 ^ (d - 1)) by (apply Z.pow_pos_nonneg; lia).
  rewrite Zdigits2_log2 by lia. rewrite (Z.log2_unique m (d - 1)) by (rewrite ?Z.sub_1_r, ?Z.succ_pred in *; lia).
  lia.
Qed.

Lemma digits_64 n : 0 < n < 2 ^ 64 -> Zdigits2 n <= 1000.
Proof.
  intros Hn. rewrite Zdigits2_log2 by lia. assert (Z.log2 n < 64); [|lia]. apply Z.log2_lt_pow2; lia.
Qed.

(** ** Rounding *)

Abbreviation prec := f64_prec.
Abbreviation emax := f64_emax.

Lemma fexp_normal e : -1021 <= e -> fexp prec emax e = e - 53.
Proof. unfold fexp, emin, f64_prec, f64_emax. lia. Qed.

Lemma nearest_range m l : m <= round_nearest_even m l <= m + 1.
Proof. destruct l as [|[]]; simpl; try case_match; lia. Qed.

(** The second adjustment only renormalises 2^53. *)
Lemma renormalise mr e :
  2 ^ 52 <= mr <= 2 ^ 53 -> -1074 <= e <= 970 ->
  exists m e', (let '(mrs, e'') := shr_fexp prec emax mr e loc_Exact in
                match shr_m mrs with
                | Z0 => S754_zero false
                | Zpos m => if e'' <=? emax - prec then S754_finite false m e'' else S754_infinity false
                | Zneg _ => S754_nan
                end) = S754_finite false m e' /\
    (inject_Z (Zpos m) * pow2 e' == inject_Z mr * pow2 e)%Q.
Proof.
  intros Hmr He. unfold shr_fexp. cbn [shr_record_of_loc]. destruct (decide (mr = 2 ^ 53)) as [->|].
  - rewrite (Zdigits2_unique _ 54) by (vm_compute; intuition congruence).
    rewrite fexp_normal by lia. replace (54 + e - 53 - e) with 1 by lia. cbn -[Z.leb].
    destruct (Z.leb_spec (e + 1) (emax - prec)); [|unfold f64_prec, f64_emax in *; lia].
    eexists _, _. split; [done|]. rewrite pow2_plus. change (pow2 1) with 2%Q.
    rewrite (Qmult_comm (pow2 e)), Qmult_assoc. done.
  - rewrite (Zdigits2_unique _ 53) by (rewrite ?Z.sub_1_r; cbn; lia).
    rewrite fexp_normal by lia. replace (53 + e - 53 - e) with 0 by lia. cbn [shr shr_m].
    destruct mr as [|m|m]; [lia| |lia].
    destruct (Z.leb_spec e (emax - prec)); [|unfold f64_prec, f64_emax in *; lia].
    by eexists _, _.
Qed.
Lemma round_accurate mx ex lx x :
  0 < mx -> located mx lx x -> let d := Zdigits2 mx in
  53 <= d -> -1021 <= d + ex <= 1023 ->
  exists m e, binary_round_aux prec emax false mx ex lx = S754_finite false m e /\
    (Qabs (inject_Z (Zpos m) * pow2 e - x * pow2 ex) <= pow2 (-53) * (x * pow2 ex))%Q.
Proof.
  intros Hm Hx d Hd Hex. unfold binary_round_aux, shr_fexp at 1. fold d.
  rewrite fexp_normal by lia. replace (d + ex - 53 - ex) with (d - 53) by lia.
  destruct (loc_record mx lx) as [Hl Hsm].
  destruct (shr_located (shr_record_of_loc mx lx) ex (d - 53) x) as (r' & -> & Hr' & Hm');
    [lia|by rewrite Hsm; lia|unfold at_record; by rewrite Hl, Hsm|].
  rewrite Hsm in Hm'. pose proof (Zdigits2_bounds mx Hm) as Hb. fold d in Hb.
  assert (Hrange : 2 ^ 52 <= shr_m r' < 2 ^ 53).
  { rewrite Hm'. split.
    - apply Z.div_le_lower_bound; [apply Z.pow_pos_nonneg; lia|]. rewrite <- Z.pow_add_r by lia.
      replace (d - 53 + 52) with (d - 1) by lia. apply Hb.
    - apply Z.div_lt_upper_bound; [apply Z.pow_pos_nonneg; lia|]. rewrite <- Z.pow_add_r by lia.
      replace (d - 53 + 53) with d by lia. apply Hb. }
  pose proof (nearest_range (shr_m r') (loc_of_shr_record r')) as Hn.
  destruct (renormalise (round_nearest_even (shr_m r') (loc_of_shr_record r')) (ex + (d - 53)))
    as (m & e & -> & Hv); [lia..|]. exists m, e. split; [done|]. rewrite Hv.
  pose proof (nearest_located _ _ _ Hr') as Hne. set (mr := round_nearest_even _ _) in *.
  pose proof (pow2_pos ex) as Hp. pose proof (pow2_pos (d - 53)) as Hp2.
  assert (E1 : (pow2 (ex + (d - 53)) == pow2 ex * pow2 (d - 53))%Q) by apply pow2_plus.
  assert (E2 : (pow2 (- (d - 53)) * pow2 (d - 53) == 1)%Q).
  { rewrite <- pow2_plus. by replace (- (d - 53) + (d - 53)) with 0 by lia. }
  assert (E3 : (pow2 (-53) * inject_Z (2 ^ (d - 1)) == pow2 (d - 53) * (1 # 2))%Q).
  { rewrite <- pow2_Z by lia. rewrite <- pow2_plus. replace (-53 + (d - 1)) with (d - 53 - 1) by lia.
    apply pow2_half. }
  apply located_bounds in Hx as [Hx _].
  assert (Hlow : (inject_Z (2 ^ (d - 1)) <= x)%Q).
  { eapply Qle_trans; [|exact Hx]. rewrite <- Zle_Qle. lia. }
  set (y := (x * pow2 (- (d - 53)))%Q) in *. set (A := pow2 ex) in *. set (B := pow2 (d - 53)) in *.
  assert (Ey : (x == y * B)%Q) by (unfold y; rewrite <- Qmult_assoc, E2; ring).
  assert (HAB : (0 < A * B)%Q) by (by apply Qmult_lt_0_compat).
  assert (E4 : (inject_Z mr * pow2 (ex + (d - 53)) - x * A == A * B * (inject_Z mr - y))%Q)
    by (rewrite E1, Ey; ring).
  rewrite E4, Qabs_Qmult, (Qabs_pos (A * B)) by (by apply Qlt_le_weak).
  apply Qle_trans with (A * B * (1 # 2))%Q; [by apply Qmult_le_l|].
  apply Qle_trans with (A * (pow2 (-53) * inject_Z (2 ^ (d - 1))))%Q.
  { rewrite E3. rewrite Qmult_assoc. apply Qle_refl. }
  assert (E5 : (pow2 (-53) * (x * A) == A * (pow2 (-53) * x))%Q) by ring. rewrite E5.
  apply Qmult_le_l; [done|]. apply Qmult_le_l; [apply pow2_pos|done].
Qed.

(** ** Conversions and quotients *)

(** [x] is a finite positive number within the relative error [k] 2^-53 of [v]. *)
Definition close (k : Z) (x : f64) (v : Q) : Prop :=
  exists m e, x = S754_finite false m e /\
    (Qabs (inject_Z (Zpos m) * pow2 e - v) <= inject_Z k * pow2 (-53) * v)%Q.

Lemma close_proper k x v w : (v == w)%Q -> close k x v -> close k x w.
Proof. intros E (m & e & Hx & H). exists m, e. split; [done|]. by rewrite <- E. Qed.

Lemma round_close mx ex lx x :
  0 < mx -> located mx lx x -> 53 <= Zdigits2 mx -> -1021 <= Zdigits2 mx + ex <= 1023 ->
  close 1 (binary_round_aux prec emax false mx ex lx) (x * pow2 ex).
Proof.
  intros Hm Hx Hd He. destruct (round_accurate mx ex lx x Hm Hx Hd He) as (m & e & E & H).
  exists m, e. split; [done|]. by rewrite Qmult_1_l.
Qed.

Lemma shift_xO p k : Zpos (Pos.iter xO p k) = Zpos p * 2 ^ Zpos k.
Proof.
  induction k as [|k IH] using Pos.peano_ind; [cbn; lia|].
  rewrite Pos.iter_succ, Pos2Z.inj_xO, IH, Pos2Z.inj_succ, Z.pow_succ_r by lia. lia.
Qed.

Lemma f64_of_close n : 0 < n -> Zdigits2 n <= 1023 -> close 1 (f64_of n) (inject_Z n).
Proof.
  destruct n as [|p|p]; [lia| |lia]. intros Hp Hd. unfold f64_of, binary_normalize, binary_round, shl_align.
  pose proof (Zdigits2_bounds (Zpos p) Hp) as Hb. pose proof (Zdigits2_log2 (Zpos p) Hp) as Hl.
  pose proof (Z.log2_nonneg (Zpos p)). change (Zpos (digits2_pos p)) with (Zdigits2 (Zpos p)).
  set (d := Zdigits2 (Zpos p)) in *. rewrite fexp_normal, Z.sub_0_r by lia.
  destruct (d + 0 - 53) as [|k|k] eqn:Ek.
  1,2: eapply close_proper; [|apply (round_close _ _ _ (inject_Z (Zpos p))); [lia|done|fold d; lia..]];
    change (pow2 0) with 1%Q; ring.
  assert (Hdg : Zdigits2 (Zpos (Pos.iter xO p k)) = 53).
  { apply Zdigits2_unique; [lia|]. rewrite shift_xO. replace (Zpos k) with (53 - d) by lia.
    replace (53 - 1) with (d - 1 + (53 - d)) by lia. replace (2 ^ 53) with (2 ^ (d + (53 - d))) by (f_equal; lia).
    rewrite !Z.pow_add_r by lia. assert (0 < 2 ^ (53 - d)) by (apply Z.pow_pos_nonneg; lia). nia. }
  eapply close_proper; [|apply (round_close _ _ _ (inject_Z (Zpos (Pos.iter xO p k)))); [lia|done|lia..]].
  rewrite shift_xO, inject_Z_mult, <- pow2_Z, <- Qmult_assoc, <- pow2_plus by lia.
  replace (Zpos k + Zneg k) with 0 by lia. change (pow2 0) with 1%Q. ring.
Qed.

Lemma new_location_located q r d :
  0 <= r < d -> located q (new_location d r) (inject_Z q + inject_Z r / inject_Z d).
Proof.
  intros Hr. assert (Hd : (0 < inject_Z d)%Q) by (change 0%Q with (inject_Z 0); rewrite <- Zlt_Qlt; lia).
  assert (Hhalf : forall c, (2 * r ?= d) = c -> r <> 0 ->
            located q (loc_Inexact c) (inject_Z q + inject_Z r / inject_Z d)).
  { assert (E : (inject_Z r / inject_Z d * inject_Z d == inject_Z r)%Q) by (field; lra).
    assert (H1 : (inject_Z r < inject_Z d)%Q) by (rewrite <- Zlt_Qlt; lia).
    set (f := (inject_Z r / inject_Z d)%Q) in *. intros c Hc H0.
    assert (H2 : (0 < inject_Z r)%Q) by (change 0%Q with (inject_Z 0); rewrite <- Zlt_Qlt; lia).
    assert (Hf : (0 < f)%Q) by nra. assert (Hf1 : (f < 1)%Q) by nra.
    destruct c; cbn [located].
    - apply Z.compare_eq in Hc. assert (H3 : (2 * inject_Z r == inject_Z d)%Q)
        by (change 2%Q with (inject_Z 2); rewrite <- inject_Z_mult, Hc; done). nra.
    - change (2 * r < d) in Hc. rewrite Zlt_Qlt, inject_Z_mult in Hc. change (inject_Z 2) with 2%Q in Hc. nra.
    - apply Z.gt_lt in Hc. rewrite Zlt_Qlt, inject_Z_mult in Hc. change (inject_Z 2) with 2%Q in Hc. nra. }
  assert (E : (inject_Z q + inject_Z 0 / inject_Z d == inject_Z q)%Q) by (unfold Qdiv; ring).
  unfold new_location. destruct (Z.even d) eqn:Ev.
  - unfold new_location_even. destruct (Z.eqb_spec r 0) as [->|H0]; [done|by apply Hhalf].
  - unfold new_location_odd. destruct (Z.eqb_spec r 0) as [->|H0]; [done|]. apply Hhalf; [|done].
    assert (2 * r <> d) by (intros <-; by rewrite Z.even_mul in Ev).
    destruct (Z.compare_spec (2 * r + 1) d); destruct (Z.compare_spec (2 * r) d); (done || lia).
Qed.

Definition value (m : positive) (e : Z) : Q := (inject_Z (Zpos m) * pow2 e)%Q.

Lemma value_pos m e : (0 < value m e)%Q.
Proof. apply Qmult_lt_0_compat; [done|apply pow2_pos]. Qed.

(** The exponent of a number with its digits. *)
Definition magnitude (m : positive) (e : Z) : Z := Zdigits2 (Zpos m) + e.

Lemma quotient_digits a b q r n k :
  a = b * q + r -> 0 <= r < b -> 2 ^ (n - 1) <= a < 2 ^ n -> 2 ^ (k - 1) <= b < 2 ^ k -> 1 <= k < n ->
  0 < q /\ n - k <= Zdigits2 q <= n - k + 1.
Proof.
  intros Ea Hr Ha Hb Hk.
  assert (H1 : 2 ^ (n - 1 - k) <= q).
  { assert (2 ^ (n - 1 - k) * 2 ^ k = 2 ^ (n - 1)) by (rewrite <- Z.pow_add_r by lia; f_equal; lia).
    apply Z.lt_succ_r, (Z.mul_lt_mono_pos_r b); nia. }
  assert (H2 : q < 2 ^ (n - k + 1)).
  { assert (2 ^ (n - k + 1) * 2 ^ (k - 1) = 2 ^ n) by (rewrite <- Z.pow_add_r by lia; f_equal; lia).
    apply (Z.mul_lt_mono_pos_r b); nia. }
  assert (0 < 2 ^ (n - 1 - k)) by (apply Z.pow_pos_nonneg; lia). split; [lia|].
  rewrite Zdigits2_log2 by lia. split.
  - assert (n - 1 - k <= Z.log2 q); [|lia]. rewrite <- (Z.log2_pow2 (n - 1 - k)) by lia.
    by apply Z.log2_le_mono.
  - assert (Z.log2 q < n - k + 1); [|lia]. apply Z.log2_lt_pow2; lia.
Qed.

Lemma quotient_value m1 m2 q r s e1 e2 :
  Zpos m1 * 2 ^ s = Zpos m2 * q + r -> 0 <= s ->
  ((inject_Z q + inject_Z r / inject_Z (Zpos m2)) * pow2 (e1 - e2 - s) == value m1 e1 / value m2 e2)%Q.
Proof.
  intros E Hs. unfold value.
  assert (E1 : (inject_Z (Zpos m1) * pow2 s == inject_Z (Zpos m2) * inject_Z q + inject_Z r)%Q).
  { by rewrite pow2_Z, <- !inject_Z_mult, <- inject_Z_plus, E. }
  assert (E2 : (pow2 e1 == pow2 s * pow2 (e1 - e2 - s) * pow2 e2)%Q).
  { rewrite <- !pow2_plus. by replace (s + (e1 - e2 - s) + e2) with e1 by lia. }
  assert (Hm : ~ (inject_Z (Zpos m2) == 0)%Q) by done.
  assert (He : ~ (pow2 e2 == 0)%Q) by (pose proof (pow2_pos e2); lra).
  rewrite E2. apply (Qmult_inj_r _ _ (inject_Z (Zpos m2) * pow2 e2)).
  { intros H0. apply Qmult_integral in H0 as []; done. }
  transitivity ((inject_Z (Zpos m2) * inject_Z q + inject_Z r) * pow2 (e1 - e2 - s) * pow2 e2)%Q;
    [field; done|]. rewrite <- E1. field. done.
Qed.

Lemma div_close m1 e1 m2 e2 :
  -1021 <= magnitude m1 e1 - magnitude m2 e2 <= 1021 ->
  close 1 (f64_div (S754_finite false m1 e1) (S754_finite false m2 e2)) (value m1 e1 / value m2 e2).
Proof.
  unfold magnitude. intros Hd. cbn [f64_div SFdiv xorb]. unfold SFdiv_core_binary.
  pose proof (Zdigits2_bounds (Zpos m1) eq_refl) as H1. pose proof (Zdigits2_bounds (Zpos m2) eq_refl) as H2.
  pose proof (Zdigits2_log2 (Zpos m1) eq_refl). pose proof (Zdigits2_log2 (Zpos m2) eq_refl).
  pose proof (Z.log2_nonneg (Zpos m1)). pose proof (Z.log2_nonneg (Zpos m2)).
  set (d1 := Zdigits2 (Zpos m1)) in *. set (d2 := Zdigits2 (Zpos m2)) in *.
  rewrite fexp_normal by lia. set (e' := Z.min _ _). set (s := e1 - e2 - e').
  assert (Hs : 0 <= s) by lia.
  assert (Em : match s with Z0 => Zpos m1 | Zpos _ => Z.shiftl (Zpos m1) s | Zneg _ => 0 end = Zpos m1 * 2 ^ s).
  { destruct s as [|k|k] eqn:E; [lia|by rewrite Z.shiftl_mul_pow2|lia]. }
  rewrite Em. pose proof (Z_div_mod (Zpos m1 * 2 ^ s) (Zpos m2) eq_refl) as Hqr.
  destruct (Z.div_eucl _ _) as [q r]. destruct Hqr as [Eq Hr].
  destruct (quotient_digits _ _ q r (d1 + s) d2 Eq Hr) as [Hq Hdq]; [|done|lia|].
  { replace (d1 + s - 1) with (d1 - 1 + s) by lia. rewrite !Z.pow_add_r by lia.
    assert (0 < 2 ^ s) by (apply Z.pow_pos_nonneg; lia). nia. }
  eapply close_proper; [|apply (round_close q e' _ _ Hq (new_location_located q r _ Hr)); lia].
  replace e' with (e1 - e2 - s) by lia. by apply quotient_value.
Qed.

Lemma value_magnitude m e : (pow2 (magnitude m e - 1) <= value m e /\ value m e < pow2 (magnitude m e))%Q.
Proof.
  unfold magnitude, value. pose proof (Zdigits2_bounds (Zpos m) eq_refl) as [H1 H2].
  pose proof (Zdigits2_log2 (Zpos m) eq_refl). pose proof (Z.log2_nonneg (Zpos m)). pose proof (pow2_pos e).
  set (d := Zdigits2 _) in *. replace (d + e - 1) with (d - 1 + e) by lia. 
  rewrite !pow2_plus, (pow2_Z (d - 1)), (pow2_Z d) by lia.
  rewrite Zle_Qle in H1. rewrite Zlt_Qlt in H2.
  split; [apply Qmult_le_compat_r; [done|lra]|by apply Qmult_lt_compat_r].
Qed.

Lemma pow2_lt_inv a b : (pow2 a < pow2 b)%Q -> a < b.
Proof.
  intros H. destruct (Z.lt_ge_cases a b) as [|Hle]; [done|].
  apply (Qpower_le_compat_l 2) in Hle; [|done]. unfold pow2 in H. lra.
Qed.

(** The digits of a number that is close to an integer. *)
Lemma close_magnitude n m e :
  0 < n -> (Qabs (value m e - inject_Z n) <= pow2 (-53) * inject_Z n)%Q ->
  0 <= magnitude m e <= Zdigits2 n + 1.
Proof.
  intros Hn Hv. pose proof (value_magnitude m e) as [H1 H2]. pose proof (Zdigits2_bounds n Hn) as [Hb1 Hb2].
  pose proof (Zdigits2_log2 n Hn). pose proof (Z.log2_nonneg n).
  apply Qabs_Qle_condition in Hv. change (pow2 (-53)) with (1 # 9007199254740992) in Hv.
  assert (Hn1 : (1 <= inject_Z n)%Q) by (change 1%Q with (inject_Z 1); rewrite <- Zle_Qle; lia).
  assert (Hn2 : (inject_Z n < pow2 (Zdigits2 n))%Q) by (rewrite pow2_Z by lia; by rewrite <- Zlt_Qlt).
  split.
  - assert (-1 < magnitude m e); [|lia]. apply pow2_lt_inv. change (pow2 (-1)) with (1 # 2). lra.
  - assert (magnitude m e - 1 < Zdigits2 n + 1); [|lia]. apply pow2_lt_inv.
    rewrite (pow2_plus (Zdigits2 n)). change (pow2 1) with 2%Q. lra.
Qed.

Section Errors.
Local Open Scope Q_scope.

(** Three relative errors of 2^-53 make one of less than 4 times as much. *)
Lemma errors_compose (a b va vb rho w v : Q) :
  let u := 1 # 9007199254740992 in
  0 < a -> 0 < b -> 0 < va -> 0 < vb -> w * vb == va -> rho * b == a ->
  - (u * a) <= va - a <= u * a -> - (u * b) <= vb - b <= u * b -> - (u * w) <= v - w <= u * w ->
  - ((4 # 9007199254740992) * rho) <= v - rho <= (4 # 9007199254740992) * rho.
Proof.
  intros u Ha Hb Hva Hvb Ew Er H1 H2 H3.
  assert (Hw : 0 < w) by (apply (Qmult_lt_r 0 w vb); [done|]; rewrite Ew; lra).
  assert (Hr : 0 < rho) by (apply (Qmult_lt_r 0 rho b); [done|]; rewrite Er; lra).
  assert (U : w * (1 - u) <= rho * (1 + u)).
  { apply (Qmult_le_r _ _ b); [done|]. apply Qle_trans with (w * vb); [|rewrite Ew].
    - rewrite <- Qmult_assoc. apply Qmult_le_l; [done|]. lra.
    - apply Qle_trans with ((1 + u) * a); [lra|]. rewrite <- Er. lra. }
  assert (D : rho * (1 - u) <= w * (1 + u)).
  { apply (Qmult_le_r _ _ b); [done|]. apply Qle_trans with (w * vb); [rewrite Ew|].
    - apply Qle_trans with ((1 - u) * a); [rewrite <- Er; lra|lra].
    - rewrite <- Qmult_assoc. apply Qmult_le_l; [done|]. lra. }
  unfold u in *. lra.
Qed.
End Errors.

(** The quotient of two integers, computed in floating point. *)
Lemma ratio_close a b :
  0 < a -> 0 < b -> Zdigits2 a <= 1000 -> Zdigits2 b <= 1000 ->
  close 4 (f64_div (f64_of a) (f64_of b)) (inject_Z a / inject_Z b).
Proof.
  intros Ha Hb Da Db.
  destruct (f64_of_close a Ha) as (m1 & e1 & -> & H1); [lia|].
  destruct (f64_of_close b Hb) as (m2 & e2 & -> & H2); [lia|].
  change (inject_Z 1 * pow2 (-53))%Q with (1 # 9007199254740992) in H1, H2.
  fold (value m1 e1) in H1. fold (value m2 e2) in H2.
  pose proof (close_magnitude a m1 e1 Ha H1). pose proof (close_magnitude b m2 e2 Hb H2).
  destruct (div_close m1 e1 m2 e2) as (m & e & -> & H3); [lia|]. exists m, e. split; [done|].
  change (inject_Z 1 * pow2 (-53))%Q with (1 # 9007199254740992) in H3.
  change (inject_Z 4 * pow2 (-53))%Q with (4 # 9007199254740992).
  apply Qabs_Qle_condition in H1, H2, H3. apply Qabs_Qle_condition.
  pose proof (value_pos m1 e1). pose proof (value_pos m2 e2).
  assert (Ha' : (0 < inject_Z a)%Q) by (change 0%Q with (inject_Z 0); by rewrite <- Zlt_Qlt).
  assert (Hb' : (0 < inject_Z b)%Q) by (change 0%Q with (inject_Z 0); by rewrite <- Zlt_Qlt).
  assert (Ew : (value m1 e1 / value m2 e2 * value m2 e2 == value m1 e1)%Q) by (field; lra).
  assert (Er : (inject_Z a / inject_Z b * inject_Z b == inject_Z a)%Q) by (field; lra).
  set (w := (value m1 e1 / value m2 e2)%Q) in *. set (rho := (inject_Z a / inject_Z b)%Q) in *.
  by apply (errors_compose (inject_Z a) (inject_Z b) (value m1 e1) (value m2 e2) rho w).
Qed.

(** ** Printed quotients *)

Lemma round_half_even_near n d :
  0 < d -> - d <= 2 * (round_half_even n d * d - n) <= d.
Proof.
  intros Hd. unfold round_half_even. pose proof (Z.div_mod n d ltac:(lia)) as E.
  pose proof (Z.mod_pos_bound n d Hd) as Hm. set (q := n / d) in *. set (r := n mod d) in *.
  destruct (Z.compare_spec (2 * r) d); [destruct (Z.even q)| |]; nia.
Qed.

Lemma fixed_digits_near p m e :
  0 <= p ->
  (Qabs (inject_Z (fixed_digits p (S754_finite false m e)) - value m e * inject_Z (10 ^ p)) <= 1 # 2)%Q.
Proof.
  intros Hp. cbn [fixed_digits]. unfold value. apply Qabs_Qle_condition.
  destruct (Z.leb_spec 0 e) as [He|He].
  - rewrite pow2_Z by done. rewrite !inject_Z_mult. lra.
  - set (n := Zpos m * 10 ^ p). pose proof (round_half_even_near n (2 ^ (- e))) as Hn.
    assert (Hd : 0 < 2 ^ (- e)) by (apply Z.pow_pos_nonneg; lia). specialize (Hn Hd).
    set (q := round_half_even n (2 ^ (- e))) in *. set (d := 2 ^ (- e)) in *.
    assert (Ev : (inject_Z (Zpos m) * pow2 e * inject_Z (10 ^ p) * inject_Z d == inject_Z n)%Q).
    { assert (E1 : (pow2 e * inject_Z d == 1)%Q).
      { unfold d. rewrite <- pow2_Z, <- pow2_plus by lia. by replace (e + - e) with 0 by lia. }
      unfold n. rewrite inject_Z_mult.
      transitivity (inject_Z (Zpos m) * inject_Z (10 ^ p) * (pow2 e * inject_Z d))%Q; [ring|].
      rewrite E1. ring. }
    set (y := (inject_Z (Zpos m) * pow2 e * inject_Z (10 ^ p))%Q) in *.
    assert (Hdq : (0 < inject_Z d)%Q) by (change 0%Q with (inject_Z 0); by rewrite <- Zlt_Qlt).
    destruct Hn as [H1 H2]. rewrite Zle_Qle in H1, H2.
    rewrite inject_Z_mult, inject_Z_opp in H1. rewrite inject_Z_mult in H2.
    unfold Z.sub in H1, H2. rewrite inject_Z_plus, inject_Z_mult, inject_Z_opp in H1, H2.
    rewrite <- Ev in H1, H2. change (inject_Z 2) with 2%Q in H1, H2. split; nra.
Qed.

(** The digits of a quotient: off by at most half a unit of the last one, beside the errors of
    the floating-point operations. *)
Lemma printed_ratio p a b :
  0 <= p -> 0 < a -> 0 < b -> Zdigits2 a <= 1000 -> Zdigits2 b <= 1000 ->
  let q := fixed_digits p (f64_div (f64_of a) (f64_of b)) in
  2 ^ 51 * Z.abs (q * b - a * 10 ^ p) <= 2 ^ 50 * b + a * 10 ^ p.
Proof.
  intros Hp Ha Hb Da Db. cbv zeta. destruct (ratio_close a b Ha Hb Da Db) as (m & e & -> & Hv).
  fold (value m e) in Hv. pose proof (fixed_digits_near p m e Hp) as Hq.
  set (n := fixed_digits p _) in *. apply Qabs_Qle_condition in Hv, Hq.
  change (inject_Z 4 * pow2 (-53))%Q with (4 # 9007199254740992) in Hv.
  assert (Hb' : (0 < inject_Z b)%Q) by (change 0%Q with (inject_Z 0); by rewrite <- Zlt_Qlt).
  assert (Er : (inject_Z a / inject_Z b * inject_Z b == inject_Z a)%Q) by (field; lra).
  set (rho := (inject_Z a / inject_Z b)%Q) in *. set (v := value m e) in *.
  assert (Ht : (0 < inject_Z (10 ^ p))%Q).
  { change 0%Q with (inject_Z 0). rewrite <- Zlt_Qlt. apply Z.pow_pos_nonneg; lia. }
  set (t := 10 ^ p) in *.
  assert (E : (inject_Z n * inject_Z b - inject_Z a * inject_Z t
               == (inject_Z n - v * inject_Z t) * inject_Z b + (v - rho) * (inject_Z t * inject_Z b))%Q).
  { rewrite <- Er. ring. }
  assert (Htb : (0 < inject_Z t * inject_Z b)%Q) by (by apply Qmult_lt_0_compat).
  assert (Ea : (rho * (inject_Z t * inject_Z b) == inject_Z a * inject_Z t)%Q) by (rewrite <- Er; ring).
  assert (H1 : (- (1 # 2) * inject_Z b <= (inject_Z n - v * inject_Z t) * inject_Z b
                <= (1 # 2) * inject_Z b)%Q) by (split; (apply Qmult_le_compat_r; lra)).
  assert (H2 : (- (4 # 9007199254740992) * rho * (inject_Z t * inject_Z b)
                <= (v - rho) * (inject_Z t * inject_Z b)
                <= (4 # 9007199254740992) * rho * (inject_Z t * inject_Z b))%Q)
    by (split; (apply Qmult_le_compat_r; lra)).
  rewrite <- !Qmult_assoc, Ea in H2.
  assert (- (2 ^ 50 * b + a * t) <= 2 ^ 51 * (n * b - a * t) <= 2 ^ 50 * b + a * t); [|lia].
  rewrite !Zle_Qle. unfold Z.sub. rewrite !inject_Z_opp, !inject_Z_mult, !inject_Z_plus, !inject_Z_opp, !inject_Z_mult.
  change (inject_Z (2 ^ 50)) with (1125899906842624 # 1). change (inject_Z (2 ^ 51)) with (2251799813685248 # 1).
  lra.
Qed.
