(* ===== verification/Events.v ===== *)
(** * The shared event layout: src/src/bpf/profi_events.h

    Event-type constants, element-size and bucket-bound tables, the structs
    that cross the kernel/userspace boundary, the event classification and the
    three histogram bucket functions, next to their Rust mirror
    src/src/events.rs.  The theorems relate the unrolled C functions to a
    reference search and to the Rust loops. *)

From S2P Require Import Prelude.

Local Open Scope Z_scope.

(** ** Event types *)

Definition EVENT_CUDA_MALLOC : Z := 1.
Definition EVENT_CUDA_FREE : Z := 2.
Definition EVENT_CUDA_MEMCPY : Z := 3.
Definition EVENT_CUDA_LAUNCH_KERNEL : Z := 4.
Definition EVENT_CUDA_MEMCPY_ASYNC : Z := 5.
Definition EVENT_CUDA_MALLOC_ASYNC : Z := 6.
Definition EVENT_CUDA_FREE_ASYNC : Z := 7.
Definition EVENT_CUDA_REGISTER_FUNCTION : Z := 8.
Definition EVENT_NCCL_ALL_REDUCE : Z := 9.
Definition EVENT_NCCL_ALL_GATHER : Z := 10.
Definition EVENT_NCCL_REDUCE_SCATTER : Z := 11.
Definition EVENT_NCCL_BROADCAST : Z := 12.
Definition EVENT_NCCL_SEND : Z := 13.
Definition EVENT_NCCL_RECV : Z := 14.
Definition EVENT_CUDA_STREAM_SYNC : Z := 15.
Definition EVENT_CUDA_EVENT_SYNC : Z := 16.
Definition EVENT_CUDA_MALLOC_HOST : Z := 17.
Definition EVENT_CUDA_FREE_HOST : Z := 18.
Definition EVENT_CUDA_MEMSET : Z := 19.
Definition EVENT_CUDA_MEMSET_ASYNC : Z := 20.
Definition EVENT_CUDA_GRAPH_LAUNCH : Z := 21.
Definition EVENT_CUDA_GRAPH_INSTANTIATE : Z := 22.
Definition EVENT_CUDA_MODULE_LOAD : Z := 23.

(** cudaMemcpyKind values. *)
Definition MEMCPY_H2H : Z := 0.
Definition MEMCPY_H2D : Z := 1.
Definition MEMCPY_D2H : Z := 2.
Definition MEMCPY_D2D : Z := 3.

(** ** Tables *)

Definition NCCL_DTYPE_SIZES : list Z := [1; 1; 4; 4; 2; 4; 8; 8; 8; 2].

Definition NCCL_BUCKET_BOUNDS_NS : list Z :=
  [10000; 50000; 100000; 500000; 1000000; 5000000; 10000000; 50000000;
   100000000; 500000000; 1000000000].

Definition CUDA_BUCKET_BOUNDS_NS : list Z :=
  [1000; 5000; 10000; 50000; 100000; 500000; 1000000; 5000000; 10000000;
   50000000; 100000000; 500000000; 1000000000].

Definition KERNEL_BUCKET_BOUNDS_NS : list Z :=
  [1000; 5000; 10000; 50000; 100000; 500000; 1000000; 10000000].

(** ** Structs *)

Record CudaEvent := mkCudaEvent {
  ce_event_type : Z;      (* __u32 *)
  ce_pid : Z;             (* __u32 *)
  ce_tid : Z;             (* __u32 *)
  ce_memcpy_kind : Z;     (* __u32 *)
  ce_timestamp_ns : Z;    (* __u64 *)
  ce_duration_ns : Z;     (* __u64 *)
  ce_size : Z;            (* __u64 *)
  ce_addr : Z;            (* __u64 *)
  ce_stream : Z;          (* __u64 *)
  ce_nvtx_marker : list Z; (* __u8[16] *)
  ce_comm : list Z;       (* __u8[16] *)
  ce_error_code : Z;      (* __u32 *)
  ce_pad2 : Z             (* __u32 *)
}.

Record KernelRegEvent := mkKernelRegEvent {
  kr_pid : Z;       (* __u32 *)
  kr_pad : Z;       (* __u32 *)
  kr_host_fun : Z;  (* __u64 *)
  kr_name_ptr : Z   (* __u64 *)
}.

Record EntryData := mkEntryData {
  en_timestamp_ns : Z;  (* __u64 *)
  en_arg0 : Z;          (* __u64 *)
  en_arg1 : Z;          (* __u64 *)
  en_arg2 : Z;          (* __u64 *)
  en_event_type : Z;    (* __u32 *)
  en_pad : Z            (* __u32 *)
}.

Record AggKey := mkAggKey {
  ak_event_type : Z;   (* __u32 *)
  ak_pid : Z;          (* __u32 *)
  ak_memcpy_kind : Z;  (* __u32 *)
  ak_error_code : Z;   (* __u32 *)
  ak_stream : Z        (* __u64 *)
}.

Record AggValue := mkAggValue {
  av_count : Z;              (* __u64 *)
  av_duration_sum_ns : Z;    (* __u64 *)
  av_size_sum : Z;           (* __u64 *)
  av_bucket_counts : list Z  (* __u32[14] *)
}.

Record LaunchKey := mkLaunchKey {
  lk_pid : Z;       (* __u32 *)
  lk_pad : Z;       (* __u32 *)
  lk_host_fun : Z;  (* __u64 *)
  lk_stream : Z     (* __u64 *)
}.

Record LaunchAggValue := mkLaunchAggValue {
  lv_count : Z;              (* __u64 *)
  lv_total_duration_ns : Z;  (* __u64 *)
  lv_max_duration_ns : Z;    (* __u64 *)
  lv_bucket_counts : list Z  (* __u32[9] *)
}.

Record NcclAggValue := mkNcclAggValue {
  nv_count : Z;              (* __u64 *)
  nv_duration_sum_ns : Z;    (* __u64 *)
  nv_bytes_sum : Z;          (* __u64 *)
  nv_bucket_counts : list Z  (* __u32[12] *)
}.

#[export] Instance EntryData_eq_dec : EqDecision EntryData.
Proof. solve_decision. Defined.
#[export] Instance CudaEvent_eq_dec : EqDecision CudaEvent.
Proof. solve_decision. Defined.
#[export] Instance KernelRegEvent_eq_dec : EqDecision KernelRegEvent.
Proof. solve_decision. Defined.
#[export] Instance AggValue_eq_dec : EqDecision AggValue.
Proof. solve_decision. Defined.
#[export] Instance LaunchAggValue_eq_dec : EqDecision LaunchAggValue.
Proof. solve_decision. Defined.
#[export] Instance NcclAggValue_eq_dec : EqDecision NcclAggValue.
Proof. solve_decision. Defined.
#[export] Instance AggKey_eq_dec : EqDecision AggKey.
Proof. solve_decision. Defined.
#[export] Instance LaunchKey_eq_dec : EqDecision LaunchKey.
Proof. solve_decision. Defined.

#[export] Instance AggKey_countable : Countable AggKey.
Proof.
  refine (inj_countable'
    (fun k => (ak_event_type k, ak_pid k, ak_memcpy_kind k, ak_error_code k, ak_stream k))
    (fun '(a, b, c, d, e) => mkAggKey a b c d e) _).
  by intros [].
Defined.
#[export] Instance LaunchKey_countable : Countable LaunchKey.
Proof.
  refine (inj_countable'
    (fun k => (lk_pid k, lk_pad k, lk_host_fun k, lk_stream k))
    (fun '(a, b, c, d) => mkLaunchKey a b c d) _).
  by intros [].
Defined.

(** ** Classification *)

Definition profi_is_nccl_event (event_type : Z) : bool :=
  (EVENT_NCCL_ALL_REDUCE <=? event_type) && (event_type <=? EVENT_NCCL_RECV).

Definition profi_is_aggregatable (event_type : Z) : bool :=
  if event_type =? EVENT_CUDA_MALLOC then true
  else if event_type =? EVENT_CUDA_FREE then true
  else if event_type =? EVENT_CUDA_MEMCPY then true
  else if event_type =? EVENT_CUDA_MEMCPY_ASYNC then true
  else if event_type =? EVENT_CUDA_MALLOC_ASYNC then true
  else if event_type =? EVENT_CUDA_FREE_ASYNC then true
  else if event_type =? EVENT_CUDA_MALLOC_HOST then true
  else if event_type =? EVENT_CUDA_FREE_HOST then true
  else if event_type =? EVENT_CUDA_MEMSET then true
  else if event_type =? EVENT_CUDA_MEMSET_ASYNC then true
  else if event_type =? EVENT_CUDA_STREAM_SYNC then true
  else if event_type =? EVENT_CUDA_EVENT_SYNC then true
  else if event_type =? EVENT_CUDA_GRAPH_LAUNCH then true
  else if event_type =? EVENT_CUDA_GRAPH_INSTANTIATE then true
  else if event_type =? EVENT_CUDA_MODULE_LOAD then true
  else false.

(** ** Histogram buckets *)

Definition profi_nccl_bucket_idx (duration_ns : Z) : Z :=
  if duration_ns <=? arr NCCL_BUCKET_BOUNDS_NS 0 then 0
  else if duration_ns <=? arr NCCL_BUCKET_BOUNDS_NS 1 then 1
  else if duration_ns <=? arr NCCL_BUCKET_BOUNDS_NS 2 then 2
  else if duration_ns <=? arr NCCL_BUCKET_BOUNDS_NS 3 then 3
  else if duration_ns <=? arr NCCL_BUCKET_BOUNDS_NS 4 then 4
  else if duration_ns <=? arr NCCL_BUCKET_BOUNDS_NS 5 then 5
  else if duration_ns <=? arr NCCL_BUCKET_BOUNDS_NS 6 then 6
  else if duration_ns <=? arr NCCL_BUCKET_BOUNDS_NS 7 then 7
  else if duration_ns <=? arr NCCL_BUCKET_BOUNDS_NS 8 then 8
  else if duration_ns <=? arr NCCL_BUCKET_BOUNDS_NS 9 then 9
  else if duration_ns <=? arr NCCL_BUCKET_BOUNDS_NS 10 then 10
  else 11.

Definition profi_cuda_bucket_idx (duration_ns : Z) : Z :=
  if duration_ns <=? arr CUDA_BUCKET_BOUNDS_NS 0 then 0
  else if duration_ns <=? arr CUDA_BUCKET_BOUNDS_NS 1 then 1
  else if duration_ns <=? arr CUDA_BUCKET_BOUNDS_NS 2 then 2
  else if duration_ns <=? arr CUDA_BUCKET_BOUNDS_NS 3 then 3
  else if duration_ns <=? arr CUDA_BUCKET_BOUNDS_NS 4 then 4
  else if duration_ns <=? arr CUDA_BUCKET_BOUNDS_NS 5 then 5
  else if duration_ns <=? arr CUDA_BUCKET_BOUNDS_NS 6 then 6
  else if duration_ns <=? arr CUDA_BUCKET_BOUNDS_NS 7 then 7
  else if duration_ns <=? arr CUDA_BUCKET_BOUNDS_NS 8 then 8
  else if duration_ns <=? arr CUDA_BUCKET_BOUNDS_NS 9 then 9
  else if duration_ns <=? arr CUDA_BUCKET_BOUNDS_NS 10 then 10
  else if duration_ns <=? arr CUDA_BUCKET_BOUNDS_NS 11 then 11
  else if duration_ns <=? arr CUDA_BUCKET_BOUNDS_NS 12 then 12
  else 13.

Definition profi_kernel_bucket_idx (duration_ns : Z) : Z :=
  if duration_ns <=? arr KERNEL_BUCKET_BOUNDS_NS 0 then 0
  else if duration_ns <=? arr KERNEL_BUCKET_BOUNDS_NS 1 then 1
  else if duration_ns <=? arr KERNEL_BUCKET_BOUNDS_NS 2 then 2
  else if duration_ns <=? arr KERNEL_BUCKET_BOUNDS_NS 3 then 3
  else if duration_ns <=? arr KERNEL_BUCKET_BOUNDS_NS 4 then 4
  else if duration_ns <=? arr KERNEL_BUCKET_BOUNDS_NS 5 then 5
  else if duration_ns <=? arr KERNEL_BUCKET_BOUNDS_NS 6 then 6
  else if duration_ns <=? arr KERNEL_BUCKET_BOUNDS_NS 7 then 7
  else 8.

(** ** The Rust mirror (src/src/events.rs)

    Userspace reads the maps and ring buffers with its own copy of the tables
    and classification; the definitions below transcribe that copy. *)

Definition rs_NCCL_DTYPE_SIZES : list Z := [1; 1; 4; 4; 2; 4; 8; 8; 8; 2].

Definition rs_NCCL_BUCKET_BOUNDS_NS : list Z :=
  [10000; 50000; 100000; 500000; 1000000; 5000000; 10000000; 50000000;
   100000000; 500000000; 1000000000].

Definition rs_CUDA_BUCKET_BOUNDS_NS : list Z :=
  [1000; 5000; 10000; 50000; 100000; 500000; 1000000; 5000000; 10000000;
   50000000; 100000000; 500000000; 1000000000].

Definition rs_KERNEL_BUCKET_BOUNDS_NS : list Z :=
  [1000; 5000; 10000; 50000; 100000; 500000; 1000000; 10000000].

(** [nccl_bucket_idx]: unrolled, as in the C header. *)
Definition rs_nccl_bucket_idx (duration_ns : Z) : nat :=
  if duration_ns <=? arr rs_NCCL_BUCKET_BOUNDS_NS 0 then 0
  else if duration_ns <=? arr rs_NCCL_BUCKET_BOUNDS_NS 1 then 1
  else if duration_ns <=? arr rs_NCCL_BUCKET_BOUNDS_NS 2 then 2
  else if duration_ns <=? arr rs_NCCL_BUCKET_BOUNDS_NS 3 then 3
  else if duration_ns <=? arr rs_NCCL_BUCKET_BOUNDS_NS 4 then 4
  else if duration_ns <=? arr rs_NCCL_BUCKET_BOUNDS_NS 5 then 5
  else if duration_ns <=? arr rs_NCCL_BUCKET_BOUNDS_NS 6 then 6
  else if duration_ns <=? arr rs_NCCL_BUCKET_BOUNDS_NS 7 then 7
  else if duration_ns <=? arr rs_NCCL_BUCKET_BOUNDS_NS 8 then 8
  else if duration_ns <=? arr rs_NCCL_BUCKET_BOUNDS_NS 9 then 9
  else if duration_ns <=? arr rs_NCCL_BUCKET_BOUNDS_NS 10 then 10
  else 11.

(** [for (i, bound) in BOUNDS.iter().enumerate() { if d <= *bound { return i } }
    BOUNDS.len()], the loop shared by the two functions below. *)
Fixpoint enumerate_find (i : nat) (bounds : list Z) (d : Z) : option nat :=
  match bounds with
  | [] => None
  | bound :: rest => if d <=? bound then Some i else enumerate_find (S i) rest d
  end.

Definition rs_cuda_bucket_idx (duration_ns : Z) : nat :=
  match enumerate_find 0 rs_CUDA_BUCKET_BOUNDS_NS duration_ns with
  | Some i => i
  | None => length rs_CUDA_BUCKET_BOUNDS_NS
  end.

Definition rs_kernel_bucket_idx (duration_ns : Z) : nat :=
  match enumerate_find 0 rs_KERNEL_BUCKET_BOUNDS_NS duration_ns with
  | Some i => i
  | None => length rs_KERNEL_BUCKET_BOUNDS_NS
  end.

Definition rs_is_nccl_event (event_type : Z) : bool :=
  bool_decide (EVENT_NCCL_ALL_REDUCE <= event_type <= EVENT_NCCL_RECV).

Definition rs_is_aggregatable (event_type : Z) : bool :=
  bool_decide (event_type ∈
    [EVENT_CUDA_MALLOC; EVENT_CUDA_FREE; EVENT_CUDA_MEMCPY; EVENT_CUDA_MEMCPY_ASYNC;
     EVENT_CUDA_MALLOC_ASYNC; EVENT_CUDA_FREE_ASYNC; EVENT_CUDA_MALLOC_HOST;
     EVENT_CUDA_FREE_HOST; EVENT_CUDA_MEMSET; EVENT_CUDA_MEMSET_ASYNC;
     EVENT_CUDA_STREAM_SYNC; EVENT_CUDA_EVENT_SYNC; EVENT_CUDA_GRAPH_LAUNCH;
     EVENT_CUDA_GRAPH_INSTANTIATE; EVENT_CUDA_MODULE_LOAD]).

(** ** The reference bucket search

    A histogram with inclusive upper bounds [bounds] puts a value in the first
    bucket whose bound is not below it, and in the +Inf bucket (index
    [length bounds]) when there is none. *)

Fixpoint bucket_ref (bounds : list Z) (d : Z) : nat :=
  match bounds with
  | [] => 0
  | b :: rest => if d <=? b then 0 else S (bucket_ref rest d)
  end.

Lemma bucket_ref_le bounds d : (bucket_ref bounds d <= length bounds)%nat.
Proof. induction bounds; simpl; [lia|]. case_match; lia. Qed.

Lemma bucket_ref_above bounds d i b :
  (i < bucket_ref bounds d)%nat -> bounds !! i = Some b -> b < d.
Proof.
  revert i. induction bounds as [|c rest IH]; intros i; simpl; [lia|].
  case_Zb; [lia|]. destruct i as [|i]; simpl; [intros; simplify_eq; lia|].
  intros. apply (IH i); [lia|done].
Qed.

Lemma bucket_ref_at bounds d b :
  bounds !! bucket_ref bounds d = Some b -> d <= b.
Proof.
  induction bounds as [|c rest IH]; simpl; [done|].
  case_Zb; simpl; [by intros [= ->]|done].
Qed.

Lemma bucket_ref_mono bounds d d' :
  d <= d' -> (bucket_ref bounds d <= bucket_ref bounds d')%nat.
Proof. intros. induction bounds as [|c rest IH]; simpl; [lia|]. Zb_cases. Qed.

Lemma enumerate_find_ref i bounds d :
  default (i + length bounds)%nat (enumerate_find i bounds d) = (i + bucket_ref bounds d)%nat.
Proof.
  revert i. induction bounds as [|c rest IH]; intros i; simpl; [lia|].
  case_Zb; simpl; [lia|]. specialize (IH (S i)).
  replace (i + S (length rest))%nat with (S i + length rest)%nat by lia.
  rewrite IH. lia.
Qed.

Lemma cuda_bucket_idx_ref d :
  profi_cuda_bucket_idx d = Z.of_nat (bucket_ref CUDA_BUCKET_BOUNDS_NS d).
Proof.
  unfold profi_cuda_bucket_idx. arr_consts. unfold CUDA_BUCKET_BOUNDS_NS. cbn [bucket_ref].
  repeat (case_Zb; [done|]). done.
Qed.

Lemma nccl_bucket_idx_ref d :
  profi_nccl_bucket_idx d = Z.of_nat (bucket_ref NCCL_BUCKET_BOUNDS_NS d).
Proof.
  unfold profi_nccl_bucket_idx. arr_consts. unfold NCCL_BUCKET_BOUNDS_NS. cbn [bucket_ref].
  repeat (case_Zb; [done|]). done.
Qed.

Lemma kernel_bucket_idx_ref d :
  profi_kernel_bucket_idx d = Z.of_nat (bucket_ref KERNEL_BUCKET_BOUNDS_NS d).
Proof.
  unfold profi_kernel_bucket_idx. arr_consts. unfold KERNEL_BUCKET_BOUNDS_NS. cbn [bucket_ref].
  repeat (case_Zb; [done|]). done.
Qed.

(** ** The classification *)

Lemma nccl_event_range t :
  profi_is_nccl_event t = true <-> EVENT_NCCL_ALL_REDUCE <= t <= EVENT_NCCL_RECV.
Proof. unfold profi_is_nccl_event. rewrite andb_true_iff, !Z.leb_le. done. Qed.

(** The types are routed exclusively. *)
Lemma agg_not_nccl t : profi_is_aggregatable t = true -> profi_is_nccl_event t = false.
Proof.
  intros Ha. apply not_true_is_false. intros Hn%nccl_event_range.
  assert (t = 9 \/ t = 10 \/ t = 11 \/ t = 12 \/ t = 13 \/ t = 14)
    by (unfold EVENT_NCCL_ALL_REDUCE, EVENT_NCCL_RECV in *; lia).
  destruct_or!; by subst.
Qed.

(** ** The bucket functions, characterised

    Bucket [i] of a histogram with inclusive upper bounds holds the durations
    above the previous bound and not above its own; the last bucket is +Inf. *)
Definition in_bucket (bounds : list Z) (i : nat) (d : Z) : Prop :=
  (i <= length bounds)%nat /\
  (forall j b, (j < i)%nat -> bounds !! j = Some b -> b < d) /\
  (forall b, bounds !! i = Some b -> d <= b).

Lemma bucket_ref_iff bounds d i : bucket_ref bounds d = i <-> in_bucket bounds i d.
Proof.
  split.
  - intros <-. split; [apply bucket_ref_le|]. split; [|apply bucket_ref_at].
    intros j b. apply bucket_ref_above.
  - intros (Hl & Hbelow & Hat). pose proof (bucket_ref_le bounds d) as Hle.
    destruct (lt_eq_lt_dec (bucket_ref bounds d) i) as [[Hlt|?]|Hlt]; [|done|].
    + destruct (lookup_lt_is_Some_2 bounds (bucket_ref bounds d)) as [b Hb]; [lia|].
      apply bucket_ref_at in Hb as Hd. specialize (Hbelow _ _ Hlt Hb). lia.
    + destruct (lookup_lt_is_Some_2 bounds i) as [b Hb]; [lia|].
      apply (bucket_ref_above _ d) in Hb as Hd; [|done]. specialize (Hat b Hb). lia.
Qed.

(** The three unrolled C bucket functions return the index of the bucket
    that holds the duration, the boundary value belonging to its own bucket,
    and the last index (11, 13, 8) above every bound. *)
Lemma bucket_idx_iff d (i : nat) :
  (profi_cuda_bucket_idx d = Z.of_nat i <-> in_bucket CUDA_BUCKET_BOUNDS_NS i d) /\
  (profi_nccl_bucket_idx d = Z.of_nat i <-> in_bucket NCCL_BUCKET_BOUNDS_NS i d) /\
  (profi_kernel_bucket_idx d = Z.of_nat i <-> in_bucket KERNEL_BUCKET_BOUNDS_NS i d).
Proof.
  rewrite cuda_bucket_idx_ref, nccl_bucket_idx_ref, kernel_bucket_idx_ref, <- !bucket_ref_iff.
  split_and!; split; lia.
Qed.

(** The Rust copies of the bucket functions, one unrolled and two loops over
    their own tables, agree with the C functions on every duration. *)
Lemma rust_bucket_idx_agree d :
  Z.of_nat (rs_cuda_bucket_idx d) = profi_cuda_bucket_idx d /\
  Z.of_nat (rs_nccl_bucket_idx d) = profi_nccl_bucket_idx d /\
  Z.of_nat (rs_kernel_bucket_idx d) = profi_kernel_bucket_idx d.
Proof.
  split_and!.
  - rewrite cuda_bucket_idx_ref. f_equal. exact (enumerate_find_ref 0 rs_CUDA_BUCKET_BOUNDS_NS d).
  - unfold rs_nccl_bucket_idx, profi_nccl_bucket_idx.
    change rs_NCCL_BUCKET_BOUNDS_NS with NCCL_BUCKET_BOUNDS_NS. by repeat case_match.
  - rewrite kernel_bucket_idx_ref. f_equal.
    exact (enumerate_find_ref 0 rs_KERNEL_BUCKET_BOUNDS_NS d).
Qed.

(** The route of an event type through the return probe. *)
Inductive route := R_aggregated | R_nccl | R_launch | R_register | R_none.

Definition event_route (t : Z) : route :=
  if profi_is_aggregatable t then R_aggregated
  else if profi_is_nccl_event t then R_nccl
  else if t =? EVENT_CUDA_LAUNCH_KERNEL then R_launch
  else if t =? EVENT_CUDA_REGISTER_FUNCTION then R_register
  else R_none.

(** Splits on the first comparison of the type [t] with a constant. *)
Ltac case_type t :=
  match goal with |- context [t =? ?c] => destruct (Z.eqb_spec t c) as [->|] end.

Lemma agg_list t : profi_is_aggregatable t = rs_is_aggregatable t.
Proof.
  unfold profi_is_aggregatable, rs_is_aggregatable. symmetry.
  repeat (case_type t; [done|]).
  apply bool_decide_false. rewrite !elem_of_cons, elem_of_nil. tauto.
Qed.

(** the classification.  Rust and C classify every type alike, and the
    defined types 1..23, and only they, have a route: the tests for aggregatable
    types, collectives, launches and registrations never overlap. *)
Theorem classification_total t :
  rs_is_aggregatable t = profi_is_aggregatable t /\
  rs_is_nccl_event t = profi_is_nccl_event t /\
  (event_route t <> R_none <-> EVENT_CUDA_MALLOC <= t <= EVENT_CUDA_MODULE_LOAD) /\
  (profi_is_aggregatable t = true -> event_route t = R_aggregated) /\
  (profi_is_nccl_event t = true -> event_route t = R_nccl) /\
  event_route EVENT_CUDA_LAUNCH_KERNEL = R_launch /\
  event_route EVENT_CUDA_REGISTER_FUNCTION = R_register.
Proof.
  split; [by rewrite agg_list|]. split.
  { unfold rs_is_nccl_event. destruct (profi_is_nccl_event t) eqn:E.
    - by apply bool_decide_true, nccl_event_range.
    - apply bool_decide_false. rewrite <- nccl_event_range. congruence. }
  split; [|split; [|split; [|done]]].
  - split.
    + unfold event_route, profi_is_nccl_event, profi_is_aggregatable.
      unfold EVENT_CUDA_MALLOC, EVENT_CUDA_MODULE_LOAD.
      repeat (case_type t; [by intros _|]).
      destruct ((_ <=? t) && (t <=? _)) eqn:E; [|done]. intros _.
      apply (nccl_event_range t) in E. unfold EVENT_NCCL_ALL_REDUCE, EVENT_NCCL_RECV in E. lia.
    + intros Ht. assert (Hin : t ∈ seqZ 1 23).
      { apply elem_of_seqZ. unfold EVENT_CUDA_MALLOC, EVENT_CUDA_MODULE_LOAD in Ht. lia. }
      clear Ht. revert t Hin. apply Forall_forall.
      repeat (apply Forall_cons_2; [by vm_compute|]). apply Forall_nil_2.
  - intros Ha. unfold event_route. by rewrite Ha.
  - intros Hn. unfold event_route. rewrite Hn.
    destruct (profi_is_aggregatable t) eqn:Ha; [|done]. apply agg_not_nccl in Ha. congruence.
Qed.
