(* ===== verification/Runtime.v ===== *)
(** * The BPF runtime the probes run on

    The maps of src/src/bpf/profi.bpf.c as one state record, the map helpers
    the programs call, and the answers of the kernel to one program run.

    The kernel is not part of the repository.  What it decides on its own is
    data of the record [KEnv] (the time, the current CPU and thread, user
    memory, whether a ring buffer has room, which entries an LRU map evicts),
    and every theorem holds for all values of it.  What the kernel documents
    is written out below: an update of a full hash map fails, an update of an
    LRU map may evict other entries, a fresh per-CPU hash entry is zero on the
    other CPUs. *)

From S2P Require Import Prelude Events.

Local Open Scope Z_scope.

(** ** Keys and values declared in profi.bpf.c *)

Record MallocKey := mkMallocKey {
  mk_pid : Z;   (* __u32 *)
  mk_pad : Z;   (* __u32 *)
  mk_addr : Z   (* __u64 *)
}.

#[export] Instance MallocKey_eq_dec : EqDecision MallocKey.
Proof. solve_decision. Defined.
#[export] Instance MallocKey_countable : Countable MallocKey.
Proof.
  refine (inj_countable' (fun k => (mk_pid k, mk_pad k, mk_addr k))
            (fun '(a, b, c) => mkMallocKey a b c) _).
  by intros [].
Defined.

(** [struct nvtx_name_t { __u8 name[64]; }] *)
Record nvtx_name_t := mk_nvtx_name { nvtx_name : list Z }.

(** ** Load-time configuration

    The number of possible CPUs and the [max_entries] of the hash maps, which
    userspace may override before the programs are loaded. *)

Class LoadCfg := {
  NR_CPUS : nat;
  aggregated_max_entries : nat;
  launch_agg_max_entries : nat;
  nccl_agg_max_entries : nat;
  upgraded_pids_max_entries : nat
}.

(** ** The answers of the kernel to one program run *)

(** What an LRU update does besides inserting: it removes the entries
    [lru_evict], or fails with ENOMEM when [lru_fail] is set. *)
Record LruChoice (K : Type) `{Countable K} := mkLruChoice {
  lru_fail : bool;
  lru_evict : gset K
}.
Arguments mkLruChoice {K _ _} _ _.
Arguments lru_fail {K _ _} _.
Arguments lru_evict {K _ _} _.

Record KEnv := mkKEnv {
  env_pid_tgid : Z;               (* bpf_get_current_pid_tgid() *)
  env_ktime : Z;                  (* bpf_ktime_get_ns() *)
  env_cpu : nat;                  (* the CPU the program runs on *)
  env_comm : list Z;              (* bpf_get_current_comm, 16 bytes *)
  env_cookie : Z;                 (* bpf_get_attach_cookie(ctx) *)
  env_rc : Z;                     (* PT_REGS_RC(ctx) *)
  env_sp : Z;                     (* PT_REGS_SP(ctx) *)
  env_user_u64 : Z -> option Z;   (* bpf_probe_read_user of 8 bytes; None: fault *)
  env_user_str : Z -> option (list Z);  (* the C string at an address; None: fault *)
  env_events_room : bool;         (* bpf_ringbuf_reserve(&EVENTS, ..) != NULL *)
  env_kregs_room : bool;          (* bpf_ringbuf_reserve(&KERNEL_REGS, ..) != NULL *)
  env_lru_inflight : LruChoice Z;
  env_lru_malloc_sizes : LruChoice MallocKey;
  env_lru_malloc_ptrs : LruChoice Z;
  env_lru_nvtx : LruChoice Z
}.

(** ** The maps *)

Record BpfState := mkBpfState {
  INFLIGHT : gmap Z EntryData;                      (* LRU_HASH *)
  EVENTS : list CudaEvent;                          (* RINGBUF, oldest first *)
  KERNEL_REGS : list KernelRegEvent;                (* RINGBUF, oldest first *)
  AGGREGATED : gmap AggKey (list AggValue);         (* PERCPU_HASH *)
  LAUNCH_AGG : gmap LaunchKey (list LaunchAggValue);(* PERCPU_HASH *)
  LAUNCH_DROPPED : list Z;                          (* PERCPU_ARRAY, one slot per CPU *)
  DETAILED_LAUNCHES : list Z;                       (* ARRAY *)
  UPGRADED_PIDS : gmap Z Z;                         (* HASH *)
  NCCL_AGG : gmap AggKey (list NcclAggValue);       (* PERCPU_HASH *)
  DROPPED : list Z;                                 (* PERCPU_ARRAY *)
  NVTX_STACK : gmap Z nvtx_name_t;                  (* LRU_HASH *)
  KERNEL_AGG_MODE : list Z;                         (* ARRAY *)
  SAMPLE_RATE : list Z;                             (* ARRAY *)
  SAMPLE_COUNTER : list Z;                          (* PERCPU_ARRAY *)
  MALLOC_SIZES : gmap MallocKey Z;                  (* LRU_HASH *)
  MALLOC_PTRS : gmap Z Z                            (* LRU_HASH *)
}.

(** Functional updates of one map. *)

Definition upd_INFLIGHT (f : gmap Z EntryData -> gmap Z EntryData) (s : BpfState) : BpfState :=
  mkBpfState (f (s.(INFLIGHT))) s.(EVENTS) s.(KERNEL_REGS) s.(AGGREGATED) s.(LAUNCH_AGG)
    s.(LAUNCH_DROPPED) s.(DETAILED_LAUNCHES) s.(UPGRADED_PIDS) s.(NCCL_AGG) s.(DROPPED)
    s.(NVTX_STACK) s.(KERNEL_AGG_MODE) s.(SAMPLE_RATE) s.(SAMPLE_COUNTER)
    s.(MALLOC_SIZES) s.(MALLOC_PTRS).

Definition upd_EVENTS (f : list CudaEvent -> list CudaEvent) (s : BpfState) : BpfState :=
  mkBpfState s.(INFLIGHT) (f (s.(EVENTS))) s.(KERNEL_REGS) s.(AGGREGATED) s.(LAUNCH_AGG)
    s.(LAUNCH_DROPPED) s.(DETAILED_LAUNCHES) s.(UPGRADED_PIDS) s.(NCCL_AGG) s.(DROPPED)
    s.(NVTX_STACK) s.(KERNEL_AGG_MODE) s.(SAMPLE_RATE) s.(SAMPLE_COUNTER)
    s.(MALLOC_SIZES) s.(MALLOC_PTRS).

Definition upd_KERNEL_REGS (f : list KernelRegEvent -> list KernelRegEvent) (s : BpfState) : BpfState :=
  mkBpfState s.(INFLIGHT) s.(EVENTS) (f (s.(KERNEL_REGS))) s.(AGGREGATED) s.(LAUNCH_AGG)
    s.(LAUNCH_DROPPED) s.(DETAILED_LAUNCHES) s.(UPGRADED_PIDS) s.(NCCL_AGG) s.(DROPPED)
    s.(NVTX_STACK) s.(KERNEL_AGG_MODE) s.(SAMPLE_RATE) s.(SAMPLE_COUNTER)
    s.(MALLOC_SIZES) s.(MALLOC_PTRS).

Definition upd_AGGREGATED (f : gmap AggKey (list AggValue) -> gmap AggKey (list AggValue)) (s : BpfState) : BpfState :=
  mkBpfState s.(INFLIGHT) s.(EVENTS) s.(KERNEL_REGS) (f (s.(AGGREGATED))) s.(LAUNCH_AGG)
    s.(LAUNCH_DROPPED) s.(DETAILED_LAUNCHES) s.(UPGRADED_PIDS) s.(NCCL_AGG) s.(DROPPED)
    s.(NVTX_STACK) s.(KERNEL_AGG_MODE) s.(SAMPLE_RATE) s.(SAMPLE_COUNTER)
    s.(MALLOC_SIZES) s.(MALLOC_PTRS).

Definition upd_LAUNCH_AGG (f : gmap LaunchKey (list LaunchAggValue) -> gmap LaunchKey (list LaunchAggValue)) (s : BpfState) : BpfState :=
  mkBpfState s.(INFLIGHT) s.(EVENTS) s.(KERNEL_REGS) s.(AGGREGATED) (f (s.(LAUNCH_AGG)))
    s.(LAUNCH_DROPPED) s.(DETAILED_LAUNCHES) s.(UPGRADED_PIDS) s.(NCCL_AGG) s.(DROPPED)
    s.(NVTX_STACK) s.(KERNEL_AGG_MODE) s.(SAMPLE_RATE) s.(SAMPLE_COUNTER)
    s.(MALLOC_SIZES) s.(MALLOC_PTRS).

Definition upd_LAUNCH_DROPPED (f : list Z -> list Z) (s : BpfState) : BpfState :=
  mkBpfState s.(INFLIGHT) s.(EVENTS) s.(KERNEL_REGS) s.(AGGREGATED) s.(LAUNCH_AGG) (f
    (s.(LAUNCH_DROPPED))) s.(DETAILED_LAUNCHES) s.(UPGRADED_PIDS) s.(NCCL_AGG)
    s.(DROPPED) s.(NVTX_STACK) s.(KERNEL_AGG_MODE) s.(SAMPLE_RATE) s.(SAMPLE_COUNTER)
    s.(MALLOC_SIZES) s.(MALLOC_PTRS).

Definition upd_DETAILED_LAUNCHES (f : list Z -> list Z) (s : BpfState) : BpfState :=
  mkBpfState s.(INFLIGHT) s.(EVENTS) s.(KERNEL_REGS) s.(AGGREGATED) s.(LAUNCH_AGG)
    s.(LAUNCH_DROPPED) (f (s.(DETAILED_LAUNCHES))) s.(UPGRADED_PIDS) s.(NCCL_AGG)
    s.(DROPPED) s.(NVTX_STACK) s.(KERNEL_AGG_MODE) s.(SAMPLE_RATE) s.(SAMPLE_COUNTER)
    s.(MALLOC_SIZES) s.(MALLOC_PTRS).

Definition upd_UPGRADED_PIDS (f : gmap Z Z -> gmap Z Z) (s : BpfState) : BpfState :=
  mkBpfState s.(INFLIGHT) s.(EVENTS) s.(KERNEL_REGS) s.(AGGREGATED) s.(LAUNCH_AGG)
    s.(LAUNCH_DROPPED) s.(DETAILED_LAUNCHES) (f (s.(UPGRADED_PIDS))) s.(NCCL_AGG)
    s.(DROPPED) s.(NVTX_STACK) s.(KERNEL_AGG_MODE) s.(SAMPLE_RATE) s.(SAMPLE_COUNTER)
    s.(MALLOC_SIZES) s.(MALLOC_PTRS).

Definition upd_NCCL_AGG (f : gmap AggKey (list NcclAggValue) -> gmap AggKey (list NcclAggValue)) (s : BpfState) : BpfState :=
  mkBpfState s.(INFLIGHT) s.(EVENTS) s.(KERNEL_REGS) s.(AGGREGATED) s.(LAUNCH_AGG)
    s.(LAUNCH_DROPPED) s.(DETAILED_LAUNCHES) s.(UPGRADED_PIDS) (f (s.(NCCL_AGG)))
    s.(DROPPED) s.(NVTX_STACK) s.(KERNEL_AGG_MODE) s.(SAMPLE_RATE) s.(SAMPLE_COUNTER)
    s.(MALLOC_SIZES) s.(MALLOC_PTRS).

Definition upd_DROPPED (f : list Z -> list Z) (s : BpfState) : BpfState :=
  mkBpfState s.(INFLIGHT) s.(EVENTS) s.(KERNEL_REGS) s.(AGGREGATED) s.(LAUNCH_AGG)
    s.(LAUNCH_DROPPED) s.(DETAILED_LAUNCHES) s.(UPGRADED_PIDS) s.(NCCL_AGG) (f
    (s.(DROPPED))) s.(NVTX_STACK) s.(KERNEL_AGG_MODE) s.(SAMPLE_RATE) s.(SAMPLE_COUNTER)
    s.(MALLOC_SIZES) s.(MALLOC_PTRS).

Definition upd_NVTX_STACK (f : gmap Z nvtx_name_t -> gmap Z nvtx_name_t) (s : BpfState) : BpfState :=
  mkBpfState s.(INFLIGHT) s.(EVENTS) s.(KERNEL_REGS) s.(AGGREGATED) s.(LAUNCH_AGG)
    s.(LAUNCH_DROPPED) s.(DETAILED_LAUNCHES) s.(UPGRADED_PIDS) s.(NCCL_AGG) s.(DROPPED)
    (f (s.(NVTX_STACK))) s.(KERNEL_AGG_MODE) s.(SAMPLE_RATE) s.(SAMPLE_COUNTER)
    s.(MALLOC_SIZES) s.(MALLOC_PTRS).

Definition upd_KERNEL_AGG_MODE (f : list Z -> list Z) (s : BpfState) : BpfState :=
  mkBpfState s.(INFLIGHT) s.(EVENTS) s.(KERNEL_REGS) s.(AGGREGATED) s.(LAUNCH_AGG)
    s.(LAUNCH_DROPPED) s.(DETAILED_LAUNCHES) s.(UPGRADED_PIDS) s.(NCCL_AGG) s.(DROPPED)
    s.(NVTX_STACK) (f (s.(KERNEL_AGG_MODE))) s.(SAMPLE_RATE) s.(SAMPLE_COUNTER)
    s.(MALLOC_SIZES) s.(MALLOC_PTRS).

Definition upd_SAMPLE_RATE (f : list Z -> list Z) (s : BpfState) : BpfState :=
  mkBpfState s.(INFLIGHT) s.(EVENTS) s.(KERNEL_REGS) s.(AGGREGATED) s.(LAUNCH_AGG)
    s.(LAUNCH_DROPPED) s.(DETAILED_LAUNCHES) s.(UPGRADED_PIDS) s.(NCCL_AGG) s.(DROPPED)
    s.(NVTX_STACK) s.(KERNEL_AGG_MODE) (f (s.(SAMPLE_RATE))) s.(SAMPLE_COUNTER)
    s.(MALLOC_SIZES) s.(MALLOC_PTRS).

Definition upd_SAMPLE_COUNTER (f : list Z -> list Z) (s : BpfState) : BpfState :=
  mkBpfState s.(INFLIGHT) s.(EVENTS) s.(KERNEL_REGS) s.(AGGREGATED) s.(LAUNCH_AGG)
    s.(LAUNCH_DROPPED) s.(DETAILED_LAUNCHES) s.(UPGRADED_PIDS) s.(NCCL_AGG) s.(DROPPED)
    s.(NVTX_STACK) s.(KERNEL_AGG_MODE) s.(SAMPLE_RATE) (f (s.(SAMPLE_COUNTER)))
    s.(MALLOC_SIZES) s.(MALLOC_PTRS).

Definition upd_MALLOC_SIZES (f : gmap MallocKey Z -> gmap MallocKey Z) (s : BpfState) : BpfState :=
  mkBpfState s.(INFLIGHT) s.(EVENTS) s.(KERNEL_REGS) s.(AGGREGATED) s.(LAUNCH_AGG)
    s.(LAUNCH_DROPPED) s.(DETAILED_LAUNCHES) s.(UPGRADED_PIDS) s.(NCCL_AGG) s.(DROPPED)
    s.(NVTX_STACK) s.(KERNEL_AGG_MODE) s.(SAMPLE_RATE) s.(SAMPLE_COUNTER) (f
    (s.(MALLOC_SIZES))) s.(MALLOC_PTRS).

Definition upd_MALLOC_PTRS (f : gmap Z Z -> gmap Z Z) (s : BpfState) : BpfState :=
  mkBpfState s.(INFLIGHT) s.(EVENTS) s.(KERNEL_REGS) s.(AGGREGATED) s.(LAUNCH_AGG)
    s.(LAUNCH_DROPPED) s.(DETAILED_LAUNCHES) s.(UPGRADED_PIDS) s.(NCCL_AGG) s.(DROPPED)
    s.(NVTX_STACK) s.(KERNEL_AGG_MODE) s.(SAMPLE_RATE) s.(SAMPLE_COUNTER)
    s.(MALLOC_SIZES) (f (s.(MALLOC_PTRS))).

(** ** Map helpers *)

Section Helpers.
Context {K V : Type} `{Countable K}.

(** [bpf_map_update_elem] with BPF_ANY on an LRU hash. *)
Definition lru_update (ch : LruChoice K) (k : K) (v : V) (m : gmap K V) : gmap K V :=
  if lru_fail ch then m
  else <[k := v]> (filter (fun kv => kv.1 ∉ lru_evict ch) m).

(** [bpf_map_lookup_elem] on a per-CPU hash: the slot of the running CPU. *)
Definition percpu_lookup (cpu : nat) (k : K) (m : gmap K (list V)) : option V :=
  m !! k ≫= fun slots => slots !! cpu.

(** Writing through the pointer that lookup returned. *)
Definition percpu_store (cpu : nat) (k : K) (v : V) (m : gmap K (list V)) : gmap K (list V) :=
  alter (fun slots => <[cpu := v]> slots) k m.

(** [bpf_map_update_elem] with BPF_ANY on a per-CPU hash, for a program that
    runs on [cpu]: an existing entry gets the value in its slot, a new entry
    is zero in the other slots, and a new entry does not fit a full map.  The
    boolean is the success of the call. *)
Definition percpu_update `{LoadCfg} (max_entries : nat) (zero : V) (cpu : nat) (k : K) (v : V)
    (m : gmap K (list V)) : bool * gmap K (list V) :=
  match m !! k with
  | Some slots => (true, <[k := <[cpu := v]> slots]> m)
  | None =>
      if decide (size m < max_entries)%nat
      then (true, <[k := <[cpu := v]> (replicate NR_CPUS zero)]> m)
      else (false, m)
  end.
End Helpers.

(** [bpf_probe_read_user_str(dst, 64, ptr)] into a zeroed 64-byte buffer: at
    most 63 bytes of the string, then zeros; all zeros on a fault. *)
Definition read_user_str64 (e : KEnv) (ptr : Z) : list Z :=
  match env_user_str e ptr with
  | Some str => let bytes := take 63 str in bytes ++ replicate (64 - length bytes) 0
  | None => replicate 64 0
  end.

(** The thread group id and thread id halves of [bpf_get_current_pid_tgid]. *)
Definition pid_of (id : Z) : Z := u32 (Z.shiftr id 32).
Definition tid_of (id : Z) : Z := u32 id.

(** A fresh state: the maps as the loader creates them. *)
Definition init_state `{LoadCfg} : BpfState :=
  {| INFLIGHT := ∅; EVENTS := []; KERNEL_REGS := []; AGGREGATED := ∅; LAUNCH_AGG := ∅;
     LAUNCH_DROPPED := replicate NR_CPUS 0; DETAILED_LAUNCHES := [0]; UPGRADED_PIDS := ∅;
     NCCL_AGG := ∅; DROPPED := replicate NR_CPUS 0; NVTX_STACK := ∅;
     KERNEL_AGG_MODE := [0]; SAMPLE_RATE := [0]; SAMPLE_COUNTER := replicate NR_CPUS 0;
     MALLOC_SIZES := ∅; MALLOC_PTRS := ∅ |}.

(** The writes of userspace at start-up (main.rs): the launch mode, the sampling
    rate when it is above 1, the detailed-launches flag. *)
Definition configure (sample_rate mode detailed : Z) (s : BpfState) : BpfState :=
  let s := upd_KERNEL_AGG_MODE (fun l => <[0%nat := mode]> l) s in
  let s := if 1 <? sample_rate then upd_SAMPLE_RATE (fun l => <[0%nat := sample_rate]> l) s else s in
  upd_DETAILED_LAUNCHES (fun l => <[0%nat := detailed]> l) s.

Definition zero_AggValue : AggValue := mkAggValue 0 0 0 (replicate 14 0).
Definition zero_LaunchAggValue : LaunchAggValue := mkLaunchAggValue 0 0 0 (replicate 9 0).
Definition zero_NcclAggValue : NcclAggValue := mkNcclAggValue 0 0 0 (replicate 12 0).
