(* ===== verification/Probes.v ===== *)
(** * The probe programs of src/src/bpf/profi.bpf.c

    One definition per C function or SEC program, in the order of the file.
    A program takes the parameters BPF_KPROBE gives it, the answers [e] of the
    kernel to this run and the maps [s], and returns the maps.  Every program
    of the file returns 0, so the return value is not part of the result. *)

From S2P Require Import Prelude Events Runtime.

Local Open Scope Z_scope.
Local Open Scope u64_scope.

(** The user-stack argument of index [n >= 6] of the x86-64 calling convention;
    0 when the stack cannot be read. *)
Definition PT_REGS_PARM_STACK (e : KEnv) (n : Z) : Z :=
  default 0 (env_user_u64 e (env_sp e +! 8 * (n - 5))).

(** Element 0 of a one-entry array map; the lookup cannot fail at run time but
    the source handles it. *)
Definition cfg_u32 (map : list Z) : Z :=
  match map !! 0%nat with
  | Some v => v
  | None => 0
  end.

Definition save_entry (event_type arg0 arg1 arg2 : Z) (e : KEnv) (s : BpfState) : BpfState :=
  let key := env_pid_tgid e in
  let entry := {| en_timestamp_ns := env_ktime e; en_arg0 := arg0; en_arg1 := arg1;
                  en_arg2 := arg2; en_event_type := event_type; en_pad := 0 |} in
  let store s := upd_INFLIGHT (lru_update (env_lru_inflight e) key entry) s in
  match INFLIGHT s !! key with
  | Some _ => s
  | None =>
      if profi_is_aggregatable event_type then
        let rate := cfg_u32 (SAMPLE_RATE s) in
        if 1 <? rate then
          match SAMPLE_COUNTER s !! env_cpu e with
          | Some c =>
              let s := upd_SAMPLE_COUNTER (fun l => <[env_cpu e := c +! 1]> l) s in
              if negb (c mod rate =? 0) then s else store s
          | None => store s
          end
        else store s
      else store s
  end.

(** Increment of the running CPU's slot of a drop counter. *)
Definition bump_dropped (cpu : nat) (map : list Z) : list Z :=
  match map !! cpu with
  | Some cnt => <[cpu := cnt +! 1]> map
  | None => map
  end.

(** [if (idx >= 0 && idx < n) bucket_counts[idx] += inc], 32-bit counters. *)
Definition bump_bucket (n idx inc : Z) (bucket_counts : list Z) : list Z :=
  if (0 <=? idx) && (idx <? n)
  then alter (fun c => u32 (c + inc)) (Z.to_nat idx) bucket_counts
  else bucket_counts.

Section EmitExit.
Context `{LoadCfg}.

(** The AGGREGATED branch of [emit_exit]. *)
Definition emit_exit_aggregated (rc pid duration_ns : Z) (entry : EntryData) (e : KEnv)
    (s : BpfState) : BpfState :=
  let rate := cfg_u32 (SAMPLE_RATE s) in
  let sample_mul := if 1 <? rate then rate else 1 in
  let bucket_inc := u32 sample_mul in
  let idx := profi_cuda_bucket_idx duration_ns in
  let key := {| ak_event_type := en_event_type entry; ak_pid := pid;
                ak_memcpy_kind := u32 (en_arg1 entry); ak_error_code := rc;
                ak_stream := en_arg2 entry |} in
  match percpu_lookup (env_cpu e) key (AGGREGATED s) with
  | Some val =>
      let val := {| av_count := av_count val +! sample_mul;
                    av_duration_sum_ns := av_duration_sum_ns val +! (duration_ns *! sample_mul);
                    av_size_sum := av_size_sum val +! (en_arg0 entry *! sample_mul);
                    av_bucket_counts := bump_bucket 14 idx bucket_inc (av_bucket_counts val) |} in
      upd_AGGREGATED (percpu_store (env_cpu e) key val) s
  | None =>
      let new_val := {| av_count := sample_mul;
                        av_duration_sum_ns := duration_ns *! sample_mul;
                        av_size_sum := en_arg0 entry *! sample_mul;
                        av_bucket_counts := bump_bucket 14 idx bucket_inc (replicate 14 0) |} in
      upd_AGGREGATED (fun m => (percpu_update aggregated_max_entries zero_AggValue
                                  (env_cpu e) key new_val m).2) s
  end.

(** The NCCL_AGG branch of [emit_exit]. *)
Definition emit_exit_nccl (rc pid duration_ns : Z) (entry : EntryData) (e : KEnv)
    (s : BpfState) : BpfState :=
  let key := {| ak_event_type := en_event_type entry; ak_pid := pid;
                ak_memcpy_kind := u32 (en_arg1 entry); ak_error_code := rc;
                ak_stream := 0 |} in
  let datatype := en_arg1 entry in
  let dtype_size := if datatype <? 10 then arr NCCL_DTYPE_SIZES (Z.to_nat datatype) else 1 in
  let bytes := en_arg0 entry *! dtype_size in
  let idx := profi_nccl_bucket_idx duration_ns in
  match percpu_lookup (env_cpu e) key (NCCL_AGG s) with
  | Some val =>
      let val := {| nv_count := nv_count val +! 1;
                    nv_duration_sum_ns := nv_duration_sum_ns val +! duration_ns;
                    nv_bytes_sum := nv_bytes_sum val +! bytes;
                    nv_bucket_counts := bump_bucket 12 idx 1 (nv_bucket_counts val) |} in
      upd_NCCL_AGG (percpu_store (env_cpu e) key val) s
  | None =>
      let new_val := {| nv_count := 1; nv_duration_sum_ns := duration_ns;
                        nv_bytes_sum := bytes;
                        nv_bucket_counts := bump_bucket 12 idx 1 (replicate 12 0) |} in
      upd_NCCL_AGG (fun m => (percpu_update nccl_agg_max_entries zero_NcclAggValue
                                (env_cpu e) key new_val m).2) s
  end.

(** The launch mode of a process: 0 for an upgraded process, the global
    KERNEL_AGG_MODE otherwise. *)
Definition launch_mode (pid : Z) (s : BpfState) : Z :=
  let global_mode := cfg_u32 (KERNEL_AGG_MODE s) in
  match UPGRADED_PIDS s !! pid with
  | Some _ => 0
  | None => global_mode
  end.

(** The LAUNCH_AGG update of [emit_exit] for a kernel launch. *)
Definition emit_exit_launch (pid duration_ns : Z) (entry : EntryData) (e : KEnv)
    (s : BpfState) : BpfState :=
  let mode := launch_mode pid s in
  let host_fun := if mode =? 1 then 0 else en_arg0 entry in
  let lkey := {| lk_pid := pid; lk_pad := 0; lk_host_fun := host_fun;
                 lk_stream := en_arg2 entry |} in
  let lidx := profi_kernel_bucket_idx duration_ns in
  match percpu_lookup (env_cpu e) lkey (LAUNCH_AGG s) with
  | Some lval =>
      let lval := {| lv_count := lv_count lval +! 1;
                     lv_total_duration_ns := lv_total_duration_ns lval +! duration_ns;
                     lv_max_duration_ns := if lv_max_duration_ns lval <? duration_ns
                                           then duration_ns else lv_max_duration_ns lval;
                     lv_bucket_counts := bump_bucket 9 lidx 1 (lv_bucket_counts lval) |} in
      upd_LAUNCH_AGG (percpu_store (env_cpu e) lkey lval) s
  | None =>
      let new_val := {| lv_count := 1; lv_total_duration_ns := duration_ns;
                        lv_max_duration_ns := duration_ns;
                        lv_bucket_counts := bump_bucket 9 lidx 1 (replicate 9 0) |} in
      let r := percpu_update launch_agg_max_entries zero_LaunchAggValue
                 (env_cpu e) lkey new_val (LAUNCH_AGG s) in
      let s := upd_LAUNCH_AGG (fun _ => r.2) s in
      if r.1 then s else upd_LAUNCH_DROPPED (bump_dropped (env_cpu e)) s
  end.

(** The ring-buffer tail of [emit_exit]. *)
Definition emit_exit_event (rc pid tid now duration_ns : Z) (entry : EntryData) (e : KEnv)
    (s : BpfState) : BpfState :=
  let id := env_pid_tgid e in
  if negb (env_events_room e) then
    upd_INFLIGHT (delete id) (upd_DROPPED (bump_dropped (env_cpu e)) s)
  else
    let evt := {| ce_event_type := en_event_type entry; ce_pid := pid; ce_tid := tid;
                  ce_memcpy_kind := u32 (en_arg1 entry); ce_timestamp_ns := now;
                  ce_duration_ns := duration_ns; ce_size := en_arg0 entry;
                  ce_addr := en_arg0 entry; ce_stream := en_arg2 entry;
                  ce_nvtx_marker := match NVTX_STACK s !! id with
                                    | Some marker => take 16 (nvtx_name marker)
                                    | None => replicate 16 0
                                    end;
                  ce_comm := env_comm e; ce_error_code := rc; ce_pad2 := 0 |} in
    upd_INFLIGHT (delete id) (upd_EVENTS (fun q => q ++ [evt]) s).

Definition emit_exit (e : KEnv) (s : BpfState) : BpfState :=
  let rc := u32 (env_rc e) in
  let id := env_pid_tgid e in
  let pid := pid_of id in
  let tid := tid_of id in
  match INFLIGHT s !! id with
  | None => s
  | Some entry =>
      let now := env_ktime e in
      let duration_ns := if en_timestamp_ns entry <? now then now - en_timestamp_ns entry else 0 in
      if profi_is_aggregatable (en_event_type entry) then
        upd_INFLIGHT (delete id) (emit_exit_aggregated rc pid duration_ns entry e s)
      else if profi_is_nccl_event (en_event_type entry) then
        upd_INFLIGHT (delete id) (emit_exit_nccl rc pid duration_ns entry e s)
      else if en_event_type entry =? EVENT_CUDA_LAUNCH_KERNEL then
        let mode := launch_mode pid s in
        let s := emit_exit_launch pid duration_ns entry e s in
        let detailed := cfg_u32 (DETAILED_LAUNCHES s) in
        if (mode =? 1) || negb (detailed =? 1)
        then upd_INFLIGHT (delete id) s
        else emit_exit_event rc pid tid now duration_ns entry e s
      else emit_exit_event rc pid tid now duration_ns entry e s
  end.

(** ** Allocation probes *)

Definition cuda_malloc (ptr_to_ptr size : Z) (e : KEnv) (s : BpfState) : BpfState :=
  let id := env_pid_tgid e in
  let s := if negb (ptr_to_ptr =? 0)
           then upd_MALLOC_PTRS (lru_update (env_lru_malloc_ptrs e) id ptr_to_ptr) s else s in
  save_entry EVENT_CUDA_MALLOC size 0 0 e s.

(** The pointer-resolution part common to the two malloc return probes: take
    the saved out-pointer, read the device pointer through it and remember the
    allocation size under it. *)
Definition record_malloc_size (e : KEnv) (s : BpfState) : BpfState :=
  let id := env_pid_tgid e in
  let pid := pid_of id in
  match MALLOC_PTRS s !! id with
  | None => s
  | Some ptr_to_ptr =>
      let s := upd_MALLOC_PTRS (delete id) s in
      match INFLIGHT s !! id with
      | None => s
      | Some entry =>
          match env_user_u64 e ptr_to_ptr with
          | Some dev_ptr =>
              if negb (dev_ptr =? 0) then
                let mk := {| mk_pid := pid; mk_pad := 0; mk_addr := dev_ptr |} in
                let size := en_arg0 entry in
                upd_MALLOC_SIZES (lru_update (env_lru_malloc_sizes e) mk size) s
              else s
          | None => s
          end
      end
  end.

Definition cuda_malloc_ret (e : KEnv) (s : BpfState) : BpfState :=
  emit_exit e (record_malloc_size e s).

(** The size lookup common to the two free probes: the remembered size of the
    pointer, which is forgotten, or 0. *)
Definition take_malloc_size (ptr : Z) (e : KEnv) (s : BpfState) : Z * BpfState :=
  let pid := pid_of (env_pid_tgid e) in
  if negb (ptr =? 0) then
    let mk := {| mk_pid := pid; mk_pad := 0; mk_addr := ptr |} in
    match MALLOC_SIZES s !! mk with
    | Some sz => (sz, upd_MALLOC_SIZES (delete mk) s)
    | None => (0, s)
    end
  else (0, s).

Definition cuda_free (ptr : Z) (e : KEnv) (s : BpfState) : BpfState :=
  let '(freed_size, s) := take_malloc_size ptr e s in
  save_entry EVENT_CUDA_FREE freed_size 0 0 e s.

Definition cuda_free_ret (e : KEnv) (s : BpfState) : BpfState := emit_exit e s.

(** ** Copies and launches *)

Definition cuda_memcpy (dst src count kind : Z) (e : KEnv) (s : BpfState) : BpfState :=
  save_entry EVENT_CUDA_MEMCPY count kind 0 e s.

Definition cuda_memcpy_ret (e : KEnv) (s : BpfState) : BpfState := emit_exit e s.

Definition cuda_memcpy_async (dst src count kind stream : Z) (e : KEnv) (s : BpfState) : BpfState :=
  save_entry EVENT_CUDA_MEMCPY_ASYNC count kind stream e s.

Definition cuda_memcpy_async_ret (e : KEnv) (s : BpfState) : BpfState := emit_exit e s.

Definition cuda_launch_kernel (func : Z) (e : KEnv) (s : BpfState) : BpfState :=
  save_entry EVENT_CUDA_LAUNCH_KERNEL func 0 0 e s.

Definition cuda_launch_kernel_ret (e : KEnv) (s : BpfState) : BpfState := emit_exit e s.

Definition cuda_malloc_async (ptr_to_ptr size stream : Z) (e : KEnv) (s : BpfState) : BpfState :=
  let id := env_pid_tgid e in
  let s := if negb (ptr_to_ptr =? 0)
           then upd_MALLOC_PTRS (lru_update (env_lru_malloc_ptrs e) id ptr_to_ptr) s else s in
  save_entry EVENT_CUDA_MALLOC_ASYNC size 0 stream e s.

Definition cuda_malloc_async_ret (e : KEnv) (s : BpfState) : BpfState :=
  emit_exit e (record_malloc_size e s).

Definition cuda_free_async (ptr stream : Z) (e : KEnv) (s : BpfState) : BpfState :=
  let '(freed_size, s) := take_malloc_size ptr e s in
  save_entry EVENT_CUDA_FREE_ASYNC freed_size 0 stream e s.

Definition cuda_free_async_ret (e : KEnv) (s : BpfState) : BpfState := emit_exit e s.

(** ** Kernel registration *)

Definition cuda_register_function (fat host_fun dev_fun dev_name : Z) (e : KEnv) (s : BpfState) :
    BpfState :=
  if (host_fun =? 0) || (dev_name =? 0) then s
  else if negb (env_kregs_room e) then s
  else upd_KERNEL_REGS (fun q => q ++ [{| kr_pid := pid_of (env_pid_tgid e); kr_pad := 0;
                                          kr_host_fun := host_fun; kr_name_ptr := dev_name |}]) s.

Definition cu_module_get_function (hfunc_ptr hmod name_ptr : Z) (e : KEnv) (s : BpfState) :
    BpfState :=
  if (hfunc_ptr =? 0) || (name_ptr =? 0) then s
  else
    let id := env_pid_tgid e in
    let entry := {| en_timestamp_ns := env_ktime e; en_arg0 := hfunc_ptr; en_arg1 := name_ptr;
                    en_arg2 := 0; en_event_type := EVENT_CUDA_REGISTER_FUNCTION; en_pad := 0 |} in
    upd_INFLIGHT (lru_update (env_lru_inflight e) id entry) s.

Definition cu_module_get_function_ret (e : KEnv) (s : BpfState) : BpfState :=
  let id := env_pid_tgid e in
  let pid := pid_of id in
  match INFLIGHT s !! id with
  | None => s
  | Some en =>
      if negb (en_event_type en =? EVENT_CUDA_REGISTER_FUNCTION) then s
      else
        let hfunc_ptr := en_arg0 en in
        let name_ptr := en_arg1 en in
        match env_user_u64 e hfunc_ptr with
        | None => upd_INFLIGHT (delete id) s
        | Some hfunc =>
            let s := if env_kregs_room e
                     then upd_KERNEL_REGS (fun q => q ++
                            [{| kr_pid := pid; kr_pad := 0; kr_host_fun := hfunc;
                                kr_name_ptr := name_ptr |}]) s
                     else s in
            upd_INFLIGHT (delete id) s
        end
  end.

(** ** Driver launches *)

Definition cu_launch_kernel (func : Z) (e : KEnv) (s : BpfState) : BpfState :=
  save_entry EVENT_CUDA_LAUNCH_KERNEL func 0 0 e s.

Definition cu_launch_kernel_ret (e : KEnv) (s : BpfState) : BpfState := emit_exit e s.

Definition cu_launch_kernel_ex (config func : Z) (e : KEnv) (s : BpfState) : BpfState :=
  save_entry EVENT_CUDA_LAUNCH_KERNEL func 0 0 e s.

Definition cu_launch_kernel_ex_ret (e : KEnv) (s : BpfState) : BpfState := emit_exit e s.

Definition cu_launch_cooperative_kernel (func : Z) (e : KEnv) (s : BpfState) : BpfState :=
  let stream := PT_REGS_PARM_STACK e 8 in
  save_entry EVENT_CUDA_LAUNCH_KERNEL func 0 stream e s.

Definition cu_launch_cooperative_kernel_ret (e : KEnv) (s : BpfState) : BpfState := emit_exit e s.

Definition cu_graph_launch (graph stream : Z) (e : KEnv) (s : BpfState) : BpfState :=
  save_entry EVENT_CUDA_LAUNCH_KERNEL graph 0 stream e s.

Definition cu_graph_launch_ret (e : KEnv) (s : BpfState) : BpfState := emit_exit e s.

(** ** Synchronisation, host memory, memset, graphs, modules *)

Definition cuda_stream_sync (stream : Z) (e : KEnv) (s : BpfState) : BpfState :=
  save_entry EVENT_CUDA_STREAM_SYNC 0 0 stream e s.

Definition cuda_stream_sync_ret (e : KEnv) (s : BpfState) : BpfState := emit_exit e s.

Definition cuda_event_sync (event : Z) (e : KEnv) (s : BpfState) : BpfState :=
  save_entry EVENT_CUDA_EVENT_SYNC event 0 0 e s.

Definition cuda_event_sync_ret (e : KEnv) (s : BpfState) : BpfState := emit_exit e s.

Definition cuda_malloc_host (ptr size : Z) (e : KEnv) (s : BpfState) : BpfState :=
  save_entry EVENT_CUDA_MALLOC_HOST size 0 0 e s.

Definition cuda_malloc_host_ret (e : KEnv) (s : BpfState) : BpfState := emit_exit e s.

Definition cuda_free_host (ptr : Z) (e : KEnv) (s : BpfState) : BpfState :=
  save_entry EVENT_CUDA_FREE_HOST ptr 0 0 e s.

Definition cuda_free_host_ret (e : KEnv) (s : BpfState) : BpfState := emit_exit e s.

Definition cuda_memset (dst value count : Z) (e : KEnv) (s : BpfState) : BpfState :=
  save_entry EVENT_CUDA_MEMSET count 0 0 e s.

Definition cuda_memset_ret (e : KEnv) (s : BpfState) : BpfState := emit_exit e s.

Definition cuda_memset_async (dst value count stream : Z) (e : KEnv) (s : BpfState) : BpfState :=
  save_entry EVENT_CUDA_MEMSET_ASYNC count 0 stream e s.

Definition cuda_memset_async_ret (e : KEnv) (s : BpfState) : BpfState := emit_exit e s.

Definition cuda_graph_launch (graph stream : Z) (e : KEnv) (s : BpfState) : BpfState :=
  save_entry EVENT_CUDA_GRAPH_LAUNCH graph 0 stream e s.

Definition cuda_graph_launch_ret (e : KEnv) (s : BpfState) : BpfState := emit_exit e s.

Definition cuda_graph_instantiate (e : KEnv) (s : BpfState) : BpfState :=
  save_entry EVENT_CUDA_GRAPH_INSTANTIATE 0 0 0 e s.

Definition cuda_graph_instantiate_ret (e : KEnv) (s : BpfState) : BpfState := emit_exit e s.

Definition cu_module_load_data (e : KEnv) (s : BpfState) : BpfState :=
  save_entry EVENT_CUDA_MODULE_LOAD 0 0 0 e s.

Definition cu_module_load_data_ret (e : KEnv) (s : BpfState) : BpfState := emit_exit e s.

(** ** NVTX ranges *)

Definition nvtx_range_push (msg_ptr : Z) (e : KEnv) (s : BpfState) : BpfState :=
  if msg_ptr =? 0 then s
  else
    let id := env_pid_tgid e in
    let name := {| nvtx_name := read_user_str64 e msg_ptr |} in
    upd_NVTX_STACK (lru_update (env_lru_nvtx e) id name) s.

Definition nvtx_range_pop (e : KEnv) (s : BpfState) : BpfState :=
  let id := env_pid_tgid e in
  upd_NVTX_STACK (delete id) s.

(** ** NCCL collectives *)

Definition nccl_count_dtype_3_4 (sb r count datatype : Z) (e : KEnv) (s : BpfState) : BpfState :=
  let event_type := env_cookie e in
  save_entry (u32 event_type) count datatype 0 e s.

Definition nccl_count_dtype_2_3 (b count datatype : Z) (e : KEnv) (s : BpfState) : BpfState :=
  let event_type := env_cookie e in
  save_entry (u32 event_type) count datatype 0 e s.

Definition nccl_multi_ret (e : KEnv) (s : BpfState) : BpfState := emit_exit e s.

Definition nccl_all_reduce (sb r count datatype : Z) (e : KEnv) (s : BpfState) : BpfState :=
  save_entry EVENT_NCCL_ALL_REDUCE count datatype 0 e s.

Definition nccl_all_reduce_ret (e : KEnv) (s : BpfState) : BpfState := emit_exit e s.

Definition nccl_all_gather (sb r count datatype : Z) (e : KEnv) (s : BpfState) : BpfState :=
  save_entry EVENT_NCCL_ALL_GATHER count datatype 0 e s.

Definition nccl_all_gather_ret (e : KEnv) (s : BpfState) : BpfState := emit_exit e s.

Definition nccl_reduce_scatter (sb r count datatype : Z) (e : KEnv) (s : BpfState) : BpfState :=
  save_entry EVENT_NCCL_REDUCE_SCATTER count datatype 0 e s.

Definition nccl_reduce_scatter_ret (e : KEnv) (s : BpfState) : BpfState := emit_exit e s.

Definition nccl_broadcast (sb r count datatype : Z) (e : KEnv) (s : BpfState) : BpfState :=
  save_entry EVENT_NCCL_BROADCAST count datatype 0 e s.

Definition nccl_broadcast_ret (e : KEnv) (s : BpfState) : BpfState := emit_exit e s.

Definition nccl_send (b count datatype : Z) (e : KEnv) (s : BpfState) : BpfState :=
  save_entry EVENT_NCCL_SEND count datatype 0 e s.

Definition nccl_send_ret (e : KEnv) (s : BpfState) : BpfState := emit_exit e s.

Definition nccl_recv (b count datatype : Z) (e : KEnv) (s : BpfState) : BpfState :=
  save_entry EVENT_NCCL_RECV count datatype 0 e s.

Definition nccl_recv_ret (e : KEnv) (s : BpfState) : BpfState := emit_exit e s.

End EmitExit.
