(* ===== verification/Step.v ===== *)
(** * Programs as events, and traces of the tracer

    [probe] enumerates the SEC programs of src/src/bpf/profi.bpf.c with the
    parameters of each run; [run] dispatches to the program.  A trace is the
    sequence of program runs of all threads and CPUs, each with the kernel's
    answers to it: the interleaving is explicit, and a program run is one step.
    The induction principles of this file reduce a property of every program
    to the map updates the programs share. *)

From S2P Require Import Prelude Events Runtime Probes.

Local Open Scope Z_scope.

Inductive probe :=
| P_cuda_malloc (ptr_to_ptr size : Z)
| P_cuda_malloc_ret
| P_cuda_free (ptr : Z)
| P_cuda_free_ret
| P_cuda_memcpy (dst src count kind : Z)
| P_cuda_memcpy_ret
| P_cuda_memcpy_async (dst src count kind stream : Z)
| P_cuda_memcpy_async_ret
| P_cuda_launch_kernel (func : Z)
| P_cuda_launch_kernel_ret
| P_cuda_malloc_async (ptr_to_ptr size stream : Z)
| P_cuda_malloc_async_ret
| P_cuda_free_async (ptr stream : Z)
| P_cuda_free_async_ret
| P_cuda_register_function (fat host_fun dev_fun dev_name : Z)
| P_cu_module_get_function (hfunc_ptr hmod name_ptr : Z)
| P_cu_module_get_function_ret
| P_cu_launch_kernel (func : Z)
| P_cu_launch_kernel_ret
| P_cu_launch_kernel_ex (config func : Z)
| P_cu_launch_kernel_ex_ret
| P_cu_launch_cooperative_kernel (func : Z)
| P_cu_launch_cooperative_kernel_ret
| P_cu_graph_launch (graph stream : Z)
| P_cu_graph_launch_ret
| P_cuda_stream_sync (stream : Z)
| P_cuda_stream_sync_ret
| P_cuda_event_sync (event : Z)
| P_cuda_event_sync_ret
| P_cuda_malloc_host (ptr size : Z)
| P_cuda_malloc_host_ret
| P_cuda_free_host (ptr : Z)
| P_cuda_free_host_ret
| P_cuda_memset (dst value count : Z)
| P_cuda_memset_ret
| P_cuda_memset_async (dst value count stream : Z)
| P_cuda_memset_async_ret
| P_cuda_graph_launch (graph stream : Z)
| P_cuda_graph_launch_ret
| P_cuda_graph_instantiate
| P_cuda_graph_instantiate_ret
| P_cu_module_load_data
| P_cu_module_load_data_ret
| P_nvtx_range_push (msg_ptr : Z)
| P_nvtx_range_pop
| P_nccl_count_dtype_3_4 (sb r count datatype : Z)
| P_nccl_count_dtype_2_3 (b count datatype : Z)
| P_nccl_multi_ret
| P_nccl_all_reduce (sb r count datatype : Z)
| P_nccl_all_reduce_ret
| P_nccl_all_gather (sb r count datatype : Z)
| P_nccl_all_gather_ret
| P_nccl_reduce_scatter (sb r count datatype : Z)
| P_nccl_reduce_scatter_ret
| P_nccl_broadcast (sb r count datatype : Z)
| P_nccl_broadcast_ret
| P_nccl_send (b count datatype : Z)
| P_nccl_send_ret
| P_nccl_recv (b count datatype : Z)
| P_nccl_recv_ret.

Section Run.
Context `{LoadCfg}.

Definition run (p : probe) (e : KEnv) (s : BpfState) : BpfState :=
  match p with
  | P_cuda_malloc ptr_to_ptr size => cuda_malloc ptr_to_ptr size e s
  | P_cuda_malloc_ret => cuda_malloc_ret e s
  | P_cuda_free ptr => cuda_free ptr e s
  | P_cuda_free_ret => cuda_free_ret e s
  | P_cuda_memcpy dst src count kind => cuda_memcpy dst src count kind e s
  | P_cuda_memcpy_ret => cuda_memcpy_ret e s
  | P_cuda_memcpy_async dst src count kind stream => cuda_memcpy_async dst src count kind stream e s
  | P_cuda_memcpy_async_ret => cuda_memcpy_async_ret e s
  | P_cuda_launch_kernel func => cuda_launch_kernel func e s
  | P_cuda_launch_kernel_ret => cuda_launch_kernel_ret e s
  | P_cuda_malloc_async ptr_to_ptr size stream => cuda_malloc_async ptr_to_ptr size stream e s
  | P_cuda_malloc_async_ret => cuda_malloc_async_ret e s
  | P_cuda_free_async ptr stream => cuda_free_async ptr stream e s
  | P_cuda_free_async_ret => cuda_free_async_ret e s
  | P_cuda_register_function fat host_fun dev_fun dev_name => cuda_register_function fat host_fun dev_fun dev_name e s
  | P_cu_module_get_function hfunc_ptr hmod name_ptr => cu_module_get_function hfunc_ptr hmod name_ptr e s
  | P_cu_module_get_function_ret => cu_module_get_function_ret e s
  | P_cu_launch_kernel func => cu_launch_kernel func e s
  | P_cu_launch_kernel_ret => cu_launch_kernel_ret e s
  | P_cu_launch_kernel_ex config func => cu_launch_kernel_ex config func e s
  | P_cu_launch_kernel_ex_ret => cu_launch_kernel_ex_ret e s
  | P_cu_launch_cooperative_kernel func => cu_launch_cooperative_kernel func e s
  | P_cu_launch_cooperative_kernel_ret => cu_launch_cooperative_kernel_ret e s
  | P_cu_graph_launch graph stream => cu_graph_launch graph stream e s
  | P_cu_graph_launch_ret => cu_graph_launch_ret e s
  | P_cuda_stream_sync stream => cuda_stream_sync stream e s
  | P_cuda_stream_sync_ret => cuda_stream_sync_ret e s
  | P_cuda_event_sync event => cuda_event_sync event e s
  | P_cuda_event_sync_ret => cuda_event_sync_ret e s
  | P_cuda_malloc_host ptr size => cuda_malloc_host ptr size e s
  | P_cuda_malloc_host_ret => cuda_malloc_host_ret e s
  | P_cuda_free_host ptr => cuda_free_host ptr e s
  | P_cuda_free_host_ret => cuda_free_host_ret e s
  | P_cuda_memset dst value count => cuda_memset dst value count e s
  | P_cuda_memset_ret => cuda_memset_ret e s
  | P_cuda_memset_async dst value count stream => cuda_memset_async dst value count stream e s
  | P_cuda_memset_async_ret => cuda_memset_async_ret e s
  | P_cuda_graph_launch graph stream => cuda_graph_launch graph stream e s
  | P_cuda_graph_launch_ret => cuda_graph_launch_ret e s
  | P_cuda_graph_instantiate => cuda_graph_instantiate e s
  | P_cuda_graph_instantiate_ret => cuda_graph_instantiate_ret e s
  | P_cu_module_load_data => cu_module_load_data e s
  | P_cu_module_load_data_ret => cu_module_load_data_ret e s
  | P_nvtx_range_push msg_ptr => nvtx_range_push msg_ptr e s
  | P_nvtx_range_pop => nvtx_range_pop e s
  | P_nccl_count_dtype_3_4 sb r count datatype => nccl_count_dtype_3_4 sb r count datatype e s
  | P_nccl_count_dtype_2_3 b count datatype => nccl_count_dtype_2_3 b count datatype e s
  | P_nccl_multi_ret => nccl_multi_ret e s
  | P_nccl_all_reduce sb r count datatype => nccl_all_reduce sb r count datatype e s
  | P_nccl_all_reduce_ret => nccl_all_reduce_ret e s
  | P_nccl_all_gather sb r count datatype => nccl_all_gather sb r count datatype e s
  | P_nccl_all_gather_ret => nccl_all_gather_ret e s
  | P_nccl_reduce_scatter sb r count datatype => nccl_reduce_scatter sb r count datatype e s
  | P_nccl_reduce_scatter_ret => nccl_reduce_scatter_ret e s
  | P_nccl_broadcast sb r count datatype => nccl_broadcast sb r count datatype e s
  | P_nccl_broadcast_ret => nccl_broadcast_ret e s
  | P_nccl_send b count datatype => nccl_send b count datatype e s
  | P_nccl_send_ret => nccl_send_ret e s
  | P_nccl_recv b count datatype => nccl_recv b count datatype e s
  | P_nccl_recv_ret => nccl_recv_ret e s
  end.

(** The return probes that end in [emit_exit]. *)
Definition is_exit (p : probe) : bool :=
  match p with
  | P_cuda_malloc_ret | P_cuda_free_ret | P_cuda_memcpy_ret | P_cuda_memcpy_async_ret
  | P_cuda_launch_kernel_ret | P_cuda_malloc_async_ret | P_cuda_free_async_ret | P_cu_launch_kernel_ret
  | P_cu_launch_kernel_ex_ret | P_cu_launch_cooperative_kernel_ret | P_cu_graph_launch_ret | P_cuda_stream_sync_ret
  | P_cuda_event_sync_ret | P_cuda_malloc_host_ret | P_cuda_free_host_ret | P_cuda_memset_ret
  | P_cuda_memset_async_ret | P_cuda_graph_launch_ret | P_cuda_graph_instantiate_ret | P_cu_module_load_data_ret
  | P_nccl_multi_ret | P_nccl_all_reduce_ret | P_nccl_all_gather_ret | P_nccl_reduce_scatter_ret
  | P_nccl_broadcast_ret | P_nccl_send_ret | P_nccl_recv_ret => true
  | _ => false
  end.
(** The parameters of a program run are 64-bit registers. *)
Definition probe_args (p : probe) : list Z :=
  match p with
  | P_cuda_malloc ptr_to_ptr size => [ptr_to_ptr; size]
  | P_cuda_malloc_ret => []
  | P_cuda_free ptr => [ptr]
  | P_cuda_free_ret => []
  | P_cuda_memcpy dst src count kind => [dst; src; count; kind]
  | P_cuda_memcpy_ret => []
  | P_cuda_memcpy_async dst src count kind stream => [dst; src; count; kind; stream]
  | P_cuda_memcpy_async_ret => []
  | P_cuda_launch_kernel func => [func]
  | P_cuda_launch_kernel_ret => []
  | P_cuda_malloc_async ptr_to_ptr size stream => [ptr_to_ptr; size; stream]
  | P_cuda_malloc_async_ret => []
  | P_cuda_free_async ptr stream => [ptr; stream]
  | P_cuda_free_async_ret => []
  | P_cuda_register_function fat host_fun dev_fun dev_name => [fat; host_fun; dev_fun; dev_name]
  | P_cu_module_get_function hfunc_ptr hmod name_ptr => [hfunc_ptr; hmod; name_ptr]
  | P_cu_module_get_function_ret => []
  | P_cu_launch_kernel func => [func]
  | P_cu_launch_kernel_ret => []
  | P_cu_launch_kernel_ex config func => [config; func]
  | P_cu_launch_kernel_ex_ret => []
  | P_cu_launch_cooperative_kernel func => [func]
  | P_cu_launch_cooperative_kernel_ret => []
  | P_cu_graph_launch graph stream => [graph; stream]
  | P_cu_graph_launch_ret => []
  | P_cuda_stream_sync stream => [stream]
  | P_cuda_stream_sync_ret => []
  | P_cuda_event_sync event => [event]
  | P_cuda_event_sync_ret => []
  | P_cuda_malloc_host ptr size => [ptr; size]
  | P_cuda_malloc_host_ret => []
  | P_cuda_free_host ptr => [ptr]
  | P_cuda_free_host_ret => []
  | P_cuda_memset dst value count => [dst; value; count]
  | P_cuda_memset_ret => []
  | P_cuda_memset_async dst value count stream => [dst; value; count; stream]
  | P_cuda_memset_async_ret => []
  | P_cuda_graph_launch graph stream => [graph; stream]
  | P_cuda_graph_launch_ret => []
  | P_cuda_graph_instantiate => []
  | P_cuda_graph_instantiate_ret => []
  | P_cu_module_load_data => []
  | P_cu_module_load_data_ret => []
  | P_nvtx_range_push msg_ptr => [msg_ptr]
  | P_nvtx_range_pop => []
  | P_nccl_count_dtype_3_4 sb r count datatype => [sb; r; count; datatype]
  | P_nccl_count_dtype_2_3 b count datatype => [b; count; datatype]
  | P_nccl_multi_ret => []
  | P_nccl_all_reduce sb r count datatype => [sb; r; count; datatype]
  | P_nccl_all_reduce_ret => []
  | P_nccl_all_gather sb r count datatype => [sb; r; count; datatype]
  | P_nccl_all_gather_ret => []
  | P_nccl_reduce_scatter sb r count datatype => [sb; r; count; datatype]
  | P_nccl_reduce_scatter_ret => []
  | P_nccl_broadcast sb r count datatype => [sb; r; count; datatype]
  | P_nccl_broadcast_ret => []
  | P_nccl_send b count datatype => [b; count; datatype]
  | P_nccl_send_ret => []
  | P_nccl_recv b count datatype => [b; count; datatype]
  | P_nccl_recv_ret => []
  end.

Definition probe_wf (p : probe) : Prop := Forall (fits 64) (probe_args p).

(** What the kernel guarantees of one run: 64-bit values, an existing CPU, a
    16-byte command name. *)
Record env_wf (e : KEnv) : Prop := {
  ew_id : fits 64 (env_pid_tgid e);
  ew_ktime : fits 64 (env_ktime e);
  ew_cpu : (env_cpu e < NR_CPUS)%nat;
  ew_comm : length (env_comm e) = 16%nat /\ Forall (fits 8) (env_comm e);
  ew_cookie : fits 64 (env_cookie e);
  ew_rc : fits 64 (env_rc e);
  ew_sp : fits 64 (env_sp e);
  ew_user : forall a v, env_user_u64 e a = Some v -> fits 64 v;
  ew_str : forall a l, env_user_str e a = Some l -> Forall (fits 8) l
}.

(** ** Traces *)

Definition trace := list (probe * KEnv).

Fixpoint run_trace (t : trace) (s : BpfState) : BpfState :=
  match t with
  | [] => s
  | (p, e) :: t' => run_trace t' (run p e s)
  end.

Definition trace_wf (t : trace) : Prop := Forall (fun pe => probe_wf pe.1 /\ env_wf pe.2) t.

Lemma trace_wf_snoc t p e :
  trace_wf (t ++ [(p, e)]) <-> trace_wf t /\ probe_wf p /\ env_wf e.
Proof. unfold trace_wf. by rewrite Forall_app, Forall_singleton. Qed.

Lemma run_trace_app t1 t2 s : run_trace (t1 ++ t2) s = run_trace t2 (run_trace t1 s).
Proof. revert s. induction t1 as [|[p e] t1 IH]; simpl; auto. Qed.

(** One step of the traced system, and the states it reaches. *)
Inductive step : BpfState -> BpfState -> Prop :=
| step_probe p e s : probe_wf p -> env_wf e -> step s (run p e s).

Definition reachable (s0 s : BpfState) : Prop := rtc step s0 s.

Lemma trace_reachable t s : trace_wf t -> reachable s (run_trace t s).
Proof.
  intros Ht. revert s. induction Ht as [|[p e] t [Hp He] Ht IH]; intros s; simpl.
  - apply rtc_refl.
  - eapply rtc_l; [by apply step_probe|apply IH].
Qed.

Lemma reachable_inv (I : BpfState -> Prop) s0 s :
  (forall p e s, probe_wf p -> env_wf e -> I s -> I (run p e s)) ->
  I s0 -> reachable s0 s -> I s.
Proof.
  intros Hstep H0 Hr. revert H0. induction Hr as [|s s' s'' Hs Hr IH]; [done|].
  destruct Hs. intros. apply IH. eauto.
Qed.

(** ** From the shared map updates to every program

    A property [I] of the maps survives every program run when it survives the
    two halves of call tracing and each update a program makes outside them. *)
Record ops_preserve (I : BpfState -> Prop) (e : KEnv) : Prop := {
  op_save_entry t a b c s :
    fits 32 t -> fits 64 a -> fits 64 b -> fits 64 c -> I s -> I (save_entry t a b c e s);
  op_emit_exit s : I s -> I (emit_exit e s);
  op_malloc_ptr v s :
    fits 64 v -> I s ->
    I (upd_MALLOC_PTRS (lru_update (env_lru_malloc_ptrs e) (env_pid_tgid e) v) s);
  op_record_size s : I s -> I (record_malloc_size e s);
  op_take_size p s :
    I s -> I (take_malloc_size p e s).2 /\ fits 64 (take_malloc_size p e s).1;
  op_kernel_reg hf np s :
    fits 64 hf -> fits 64 np -> I s ->
    I (upd_KERNEL_REGS (fun q => q ++ [{| kr_pid := pid_of (env_pid_tgid e); kr_pad := 0;
                                          kr_host_fun := hf; kr_name_ptr := np |}]) s);
  op_nvtx_push n s :
    I s -> I (upd_NVTX_STACK (lru_update (env_lru_nvtx e) (env_pid_tgid e)
                                {| nvtx_name := read_user_str64 e n |}) s);
  op_nvtx_pop s : I s -> I (upd_NVTX_STACK (delete (env_pid_tgid e)) s);
  op_module_get a b s :
    fits 64 a -> fits 64 b -> I s ->
    I (upd_INFLIGHT (lru_update (env_lru_inflight e) (env_pid_tgid e)
         {| en_timestamp_ns := env_ktime e; en_arg0 := a; en_arg1 := b; en_arg2 := 0;
            en_event_type := EVENT_CUDA_REGISTER_FUNCTION; en_pad := 0 |}) s);
  op_module_get_ret s : I s -> I (cu_module_get_function_ret e s)
}.

Lemma stack_arg_fits e n : env_wf e -> fits 64 (PT_REGS_PARM_STACK e n).
Proof.
  intros He. unfold PT_REGS_PARM_STACK. destruct (env_user_u64 _ _) eqn:E; simpl.
  - by eapply ew_user.
  - apply fits_0. lia.
Qed.

(** The probes that do not only save an entry or emit an exit. *)
Lemma run_preserves (I : BpfState -> Prop) (e : KEnv) :
  env_wf e -> ops_preserve I e -> forall p s, probe_wf p -> I s -> I (run p e s).
Proof.
  intros He [Hsave Hemit Hptr Hrec Htake Hkreg Hpush Hpop Hget Hgetret] p s Hp HI.
  assert (Hk : fits 32 (u32 (env_cookie e))) by (apply wrap_fits; lia).
  assert (H0 : fits 64 0) by (apply fits_0; lia).
  pose proof (stack_arg_fits e 8 He) as Hst.
  unfold probe_wf in Hp.
  destruct p; unfold probe_args in Hp; rewrite ?Forall_cons in Hp; destruct_and?; unfold run;
    try (apply Hemit; assumption);
    try (apply Hsave; first [assumption | fits_const]).
  - apply Hsave; try assumption; [fits_const|]. case_match; eauto.
  - by apply Hemit, Hrec.
  - unfold cuda_free. destruct (Htake ptr s HI) as [HI' Hf]. destruct take_malloc_size.
    apply Hsave; try assumption. fits_const.
  - apply Hsave; try assumption; [fits_const|]. case_match; eauto.
  - by apply Hemit, Hrec.
  - unfold cuda_free_async. destruct (Htake ptr s HI) as [HI' Hf]. destruct take_malloc_size.
    apply Hsave; try assumption. fits_const.
  - unfold cuda_register_function. repeat case_match; eauto.
  - unfold cu_module_get_function. case_match; eauto.
  - eauto.
  - unfold nvtx_range_push. case_match; eauto.
  - unfold nvtx_range_pop. eauto.
Qed.
End Run.
