(* ===== verification/Demo.v ===== *)
(** * A concrete machine for the witnesses

    Two CPUs, small maps, kernel answers without faults or evictions.  The
    witnesses of the other files evaluate the programs on it. *)

From S2P Require Import Prelude Events Runtime Probes Step.

Local Open Scope Z_scope.

Definition demo_cfg : LoadCfg :=
  {| NR_CPUS := 2; aggregated_max_entries := 4; launch_agg_max_entries := 2;
     nccl_agg_max_entries := 4; upgraded_pids_max_entries := 4 |}.

Definition no_lru {K} `{Countable K} : LruChoice K := mkLruChoice false ∅.

(** Process 7, thread [tid]; user memory holds the device pointer 4096 at
    address 512 and nothing else. *)
Definition demo_env (tid time : Z) (cpu : nat) (rc : Z) : KEnv :=
  {| env_pid_tgid := Z.shiftl 7 32 + tid; env_ktime := time; env_cpu := cpu;
     env_comm := replicate 16 65; env_cookie := EVENT_NCCL_ALL_REDUCE; env_rc := rc;
     env_sp := 1000;
     env_user_u64 := fun a => if a =? 512 then Some 4096 else None;
     env_user_str := fun _ => Some [112; 114; 101];
     env_events_room := true; env_kregs_room := true;
     env_lru_inflight := no_lru; env_lru_malloc_sizes := no_lru;
     env_lru_malloc_ptrs := no_lru; env_lru_nvtx := no_lru |}.

(** The same answers with a full EVENTS ring buffer. *)
Definition no_room (e : KEnv) : KEnv :=
  mkKEnv (env_pid_tgid e) (env_ktime e) (env_cpu e) (env_comm e) (env_cookie e) (env_rc e)
    (env_sp e) (env_user_u64 e) (env_user_str e) false (env_kregs_room e)
    (env_lru_inflight e) (env_lru_malloc_sizes e) (env_lru_malloc_ptrs e) (env_lru_nvtx e).

(** The same answers with one more word in the memory of the process. *)
Definition with_word (addr word : Z) (e : KEnv) : KEnv :=
  mkKEnv (env_pid_tgid e) (env_ktime e) (env_cpu e) (env_comm e) (env_cookie e) (env_rc e)
    (env_sp e) (fun a => if a =? addr then Some word else env_user_u64 e a) (env_user_str e) (env_events_room e)
    (env_kregs_room e) (env_lru_inflight e) (env_lru_malloc_sizes e) (env_lru_malloc_ptrs e) (env_lru_nvtx e).

Lemma demo_env_wf tid time cpu rc :
  0 <= tid < 2 ^ 32 -> fits 64 time -> (cpu < 2)%nat -> fits 64 rc ->
  @env_wf demo_cfg (demo_env tid time cpu rc).
Proof.
  intros Ht Hti Hc Hrc. split; cbn -[replicate Z.shiftl]; try assumption.
  - unfold fits. change (Z.shiftl 7 32) with 30064771072. lia.
  - split; [done|]. apply Forall_replicate. fits_const.
  - fits_const.
  - fits_const.
  - intros a v. case_Zb; [intros [= <-]; fits_const|done].
  - intros a l [= <-]. rewrite !Forall_cons. split_and!; first [fits_const | apply Forall_nil_2].
Qed.

Lemma no_room_wf e : @env_wf demo_cfg e -> @env_wf demo_cfg (no_room e).
Proof. by intros []; split. Qed.

(** Closes [trace_wf] of a concrete trace of demo runs. *)
Ltac demo_trace_wf :=
  repeat first
    [ apply Forall_nil_2
    | apply Forall_cons_2; [split; [apply (bool_decide_unpack _); vm_compute; exact I|];
        repeat apply no_room_wf; apply demo_env_wf; [lia|fits_const|lia|fits_const]|] ].
