(* ===== verification/Invariant.v ===== *)
(** * The well-formedness invariant of the maps

    Every value stored in a map is in the range of its C type, every map holds
    only the event types it is for, the per-CPU maps stay within their
    capacity, and each latency histogram agrees with the call counter next to
    it.  The invariant holds of the freshly loaded maps and every program run
    preserves it. *)

From S2P Require Import Prelude Events Runtime Probes Step Demo.

Local Open Scope Z_scope.

(** ** Well-formed values *)

Record entry_wf (en : EntryData) : Prop := {
  enw_ts : fits 64 (en_timestamp_ns en);
  enw_arg0 : fits 64 (en_arg0 en);
  enw_arg1 : fits 64 (en_arg1 en);
  enw_arg2 : fits 64 (en_arg2 en);
  enw_type : fits 32 (en_event_type en);
  enw_pad : en_pad en = 0
}.

(** A histogram of [n] 32-bit buckets next to a 64-bit counter: the buckets
    add up to the counter, modulo the width of a bucket. *)
Record hist_wf (n : nat) (count : Z) (buckets : list Z) : Prop := {
  hw_count : fits 64 count;
  hw_length : length buckets = n;
  hw_buckets : Forall (fits 32) buckets;
  hw_sum : u32 (sumZ buckets) = u32 count
}.

Definition agg_wf (v : AggValue) : Prop :=
  hist_wf 14 (av_count v) (av_bucket_counts v) /\
  fits 64 (av_duration_sum_ns v) /\ fits 64 (av_size_sum v).

Definition nccl_wf (v : NcclAggValue) : Prop :=
  hist_wf 12 (nv_count v) (nv_bucket_counts v) /\
  fits 64 (nv_duration_sum_ns v) /\ fits 64 (nv_bytes_sum v).

Definition launch_wf (v : LaunchAggValue) : Prop :=
  hist_wf 9 (lv_count v) (lv_bucket_counts v) /\
  fits 64 (lv_total_duration_ns v) /\ fits 64 (lv_max_duration_ns v).

Record aggkey_range (k : AggKey) : Prop := {
  akr_type : fits 32 (ak_event_type k);
  akr_pid : fits 32 (ak_pid k);
  akr_kind : fits 32 (ak_memcpy_kind k);
  akr_err : fits 32 (ak_error_code k);
  akr_stream : fits 64 (ak_stream k)
}.

(** The routing of calls: which keys and events each output map may hold. *)
Definition agg_key_ok (k : AggKey) : Prop :=
  aggkey_range k /\ profi_is_aggregatable (ak_event_type k) = true.

Definition nccl_key_ok (k : AggKey) : Prop :=
  aggkey_range k /\ profi_is_nccl_event (ak_event_type k) = true /\ ak_stream k = 0.

Definition launch_key_ok (k : LaunchKey) : Prop :=
  fits 32 (lk_pid k) /\ lk_pad k = 0 /\ fits 64 (lk_host_fun k) /\ fits 64 (lk_stream k).

Record event_ok (ev : CudaEvent) : Prop := {
  evw_type : fits 32 (ce_event_type ev);
  evw_not_agg : profi_is_aggregatable (ce_event_type ev) = false;
  evw_not_nccl : profi_is_nccl_event (ce_event_type ev) = false;
  evw_pid : fits 32 (ce_pid ev);
  evw_tid : fits 32 (ce_tid ev);
  evw_kind : fits 32 (ce_memcpy_kind ev);
  evw_ts : fits 64 (ce_timestamp_ns ev);
  evw_dur : fits 64 (ce_duration_ns ev);
  evw_size : fits 64 (ce_size ev);
  evw_addr : ce_addr ev = ce_size ev;
  evw_stream : fits 64 (ce_stream ev);
  evw_nvtx : length (ce_nvtx_marker ev) = 16%nat /\ Forall (fits 8) (ce_nvtx_marker ev);
  evw_comm : length (ce_comm ev) = 16%nat /\ Forall (fits 8) (ce_comm ev);
  evw_err : fits 32 (ce_error_code ev);
  evw_pad : ce_pad2 ev = 0
}.

Definition kreg_ok (r : KernelRegEvent) : Prop :=
  fits 32 (kr_pid r) /\ kr_pad r = 0 /\ fits 64 (kr_host_fun r) /\ fits 64 (kr_name_ptr r).

Definition nvtx_ok (n : nvtx_name_t) : Prop :=
  length (nvtx_name n) = 64%nat /\ Forall (fits 8) (nvtx_name n).

(** ** Well-formed maps *)

Definition lru_ok {K V} `{Countable K} (P : V -> Prop) (m : gmap K V) : Prop :=
  map_Forall (fun _ v => P v) m.

Section PerCpu.
Context `{LoadCfg} {K V : Type} `{Countable K}.

Record percpu_ok (cap : nat) (Pk : K -> Prop) (Pv : V -> Prop) (m : gmap K (list V)) : Prop := {
  po_keys : map_Forall (fun k _ => Pk k) m;
  po_slots : map_Forall (fun _ slots => length slots = NR_CPUS /\ Forall Pv slots) m;
  po_size : (size m <= cap)%nat
}.

Definition array_ok (l : list Z) : Prop := length l = NR_CPUS /\ Forall (fits 64) l.

Lemma percpu_ok_empty cap Pk Pv : percpu_ok cap Pk Pv ∅.
Proof. split; [apply map_Forall_empty..|]. rewrite map_size_empty. lia. Qed.

Lemma percpu_ok_lookup cap Pk Pv m cpu k v :
  percpu_ok cap Pk Pv m -> percpu_lookup cpu k m = Some v -> Pk k /\ Pv v.
Proof.
  intros [Hk Hs _] (slots & Hm & Hl)%bind_Some. split; [by apply (Hk k slots)|].
  destruct (Hs k slots Hm) as [_ HF]. by eapply Forall_lookup_1.
Qed.

Lemma percpu_ok_store cap Pk Pv m cpu k v :
  percpu_ok cap Pk Pv m -> Pv v -> percpu_ok cap Pk Pv (percpu_store cpu k v m).
Proof.
  intros [Hk Hs Hsz] Hv. unfold percpu_store. split.
  - intros j slots. rewrite lookup_alter. case_decide; [subst|by apply Hk].
    intros (slots' & E & _)%fmap_Some. by eapply Hk.
  - intros j slots. rewrite lookup_alter. case_decide; [subst|by apply Hs].
    intros (slots' & E & ->)%fmap_Some. destruct (Hs _ _ E). rewrite length_insert.
    split; [done|]. by apply Forall_insert.
  - by rewrite <- size_dom, dom_alter_L, size_dom.
Qed.

Lemma percpu_ok_update cap Pk Pv m zero cpu k v :
  percpu_ok cap Pk Pv m -> Pk k -> Pv zero -> Pv v ->
  percpu_ok cap Pk Pv (percpu_update cap zero cpu k v m).2.
Proof.
  intros [Hk Hs Hsz] Hkk Hz Hv. unfold percpu_update.
  destruct (m !! k) as [slots|] eqn:E; simpl.
  - destruct (Hs _ _ E) as [Hlen HF]. split.
    + by apply map_Forall_insert_2.
    + apply map_Forall_insert_2; [|done]. rewrite length_insert.
      split; [done|]. by apply Forall_insert.
    + by rewrite map_size_insert_Some by eauto.
  - case_decide; [|done]. split; simpl.
    + by apply map_Forall_insert_2.
    + apply map_Forall_insert_2; [|done]. rewrite length_insert, length_replicate.
      split; [done|]. apply Forall_insert; [by apply Forall_replicate|done].
    + rewrite map_size_insert_None by done. lia.
Qed.
End PerCpu.

Lemma lru_ok_update {K V} `{Countable K} (P : V -> Prop) ch (k : K) v (m : gmap K V) :
  lru_ok P m -> P v -> lru_ok P (lru_update ch k v m).
Proof.
  intros Hm Hv. unfold lru_update. case_match; [done|].
  apply map_Forall_insert_2; [done|].
  intros j w [Hj _]%map_lookup_filter_Some. by eapply Hm.
Qed.

Lemma lru_ok_delete {K V} `{Countable K} (P : V -> Prop) (k : K) (m : gmap K V) :
  lru_ok P m -> lru_ok P (delete k m).
Proof. intros Hm. by apply map_Forall_delete. Qed.

Lemma lru_ok_lookup {K V} `{Countable K} (P : V -> Prop) (k : K) v (m : gmap K V) :
  lru_ok P m -> m !! k = Some v -> P v.
Proof. intros Hm Hk. by eapply Hm. Qed.

Create HintDb invdb.
#[export] Hint Resolve percpu_ok_store percpu_ok_update lru_ok_update lru_ok_delete
  percpu_ok_empty : invdb.
#[export] Hint Resolve wrap_fits : invdb.
#[export] Hint Extern 1 (_ <= _) => lia : invdb.

(** ** The invariant *)

Section StateWf.
Context `{LoadCfg}.

Record state_wf (s : BpfState) : Prop := {
  wf_inflight : lru_ok entry_wf (INFLIGHT s);
  wf_events : Forall event_ok (EVENTS s);
  wf_kregs : Forall kreg_ok (KERNEL_REGS s);
  wf_agg : percpu_ok aggregated_max_entries agg_key_ok agg_wf (AGGREGATED s);
  wf_launch : percpu_ok launch_agg_max_entries launch_key_ok launch_wf (LAUNCH_AGG s);
  wf_nccl : percpu_ok nccl_agg_max_entries nccl_key_ok nccl_wf (NCCL_AGG s);
  wf_launch_dropped : array_ok (LAUNCH_DROPPED s);
  wf_dropped : array_ok (DROPPED s);
  wf_counter : array_ok (SAMPLE_COUNTER s);
  wf_nvtx : lru_ok nvtx_ok (NVTX_STACK s);
  wf_rate : Forall (fits 32) (SAMPLE_RATE s);
  wf_malloc_sizes : lru_ok (fits 64) (MALLOC_SIZES s);
  wf_malloc_ptrs : lru_ok (fits 64) (MALLOC_PTRS s)
}.

Lemma hist_wf_zero n : hist_wf n 0 (replicate n 0).
Proof.
  split; [fits_const|apply length_replicate|apply Forall_replicate; fits_const|].
  by rewrite sumZ_replicate_0.
Qed.

Lemma init_state_wf : state_wf init_state.
Proof.
  assert (Ha : array_ok (replicate NR_CPUS 0)).
  { split; [apply length_replicate|apply Forall_replicate; fits_const]. }
  split; simpl; auto with invdb; try apply map_Forall_empty; try apply Forall_nil_2.
  apply Forall_singleton. fits_const.
Qed.

(** ** The histogram update *)

Lemma bump_bucket_in n idx inc l :
  0 <= idx < Z.of_nat n ->
  bump_bucket (Z.of_nat n) idx inc l = alter (fun c => u32 (c + inc)) (Z.to_nat idx) l.
Proof. intros. unfold bump_bucket. Zb_cases; done. Qed.

Lemma sumZ_alter_wrap (l : list Z) (i : nat) inc :
  (i < length l)%nat -> u32 (sumZ (alter (fun c => u32 (c + inc)) i l)) = u32 (sumZ l + inc).
Proof.
  intros [c Hc]%lookup_lt_is_Some_2. rewrite (sumZ_alter _ _ _ _ Hc).
  replace (sumZ l + (u32 (c + inc) - c)) with (sumZ l - c + u32 (c + inc)) by lia.
  wrap_simpl. f_equal. lia.
Qed.

(** One call moves the counter and exactly one bucket by the same amount. *)
Lemma hist_wf_bump n count buckets idx mul :
  hist_wf n count buckets -> 0 <= idx < Z.of_nat n ->
  hist_wf n (u64 (count + mul)) (bump_bucket (Z.of_nat n) idx (u32 mul) buckets).
Proof.
  intros [Hc Hl Hb Hs] Hi. rewrite bump_bucket_in by done. split.
  - apply wrap_fits. lia.
  - by rewrite length_alter.
  - apply Forall_alter; [done|]. intros. apply wrap_fits. lia.
  - rewrite sumZ_alter_wrap by lia. rewrite wrap_narrow by lia.
    apply wrap_add_cong; [done|]. by wrap_simpl.
Qed.

Lemma hist_wf_first n idx mul :
  fits 64 mul -> 0 <= idx < Z.of_nat n ->
  hist_wf n mul (bump_bucket (Z.of_nat n) idx (u32 mul) (replicate n 0)).
Proof.
  intros Hm Hi. pose proof (hist_wf_bump n 0 (replicate n 0) idx mul (hist_wf_zero n) Hi) as Hw.
  by rewrite Z.add_0_l, (wrap_small 64 mul) in Hw.
Qed.

Lemma cuda_idx_range d : 0 <= profi_cuda_bucket_idx d < Z.of_nat 14.
Proof.
  rewrite cuda_bucket_idx_ref. pose proof (bucket_ref_le CUDA_BUCKET_BOUNDS_NS d).
  simpl in *. lia.
Qed.
Lemma nccl_idx_range d : 0 <= profi_nccl_bucket_idx d < Z.of_nat 12.
Proof.
  rewrite nccl_bucket_idx_ref. pose proof (bucket_ref_le NCCL_BUCKET_BOUNDS_NS d).
  simpl in *. lia.
Qed.
Lemma kernel_idx_range d : 0 <= profi_kernel_bucket_idx d < Z.of_nat 9.
Proof.
  rewrite kernel_bucket_idx_ref. pose proof (bucket_ref_le KERNEL_BUCKET_BOUNDS_NS d).
  simpl in *. lia.
Qed.

Lemma cfg_u32_fits l : Forall (fits 32) l -> fits 32 (cfg_u32 l).
Proof.
  intros Hl. unfold cfg_u32. case_match; [|fits_const]. by eapply Forall_lookup_1.
Qed.

Lemma bump_dropped_ok cpu l : array_ok l -> array_ok (bump_dropped cpu l).
Proof.
  intros [Hl HF]. unfold bump_dropped. case_match; [|done]. split.
  - by rewrite length_insert.
  - apply Forall_insert; [done|]. apply wrap_fits. lia.
Qed.

Lemma pid_of_fits id : fits 32 (pid_of id).
Proof. apply wrap_fits. lia. Qed.
Lemma tid_of_fits id : fits 32 (tid_of id).
Proof. apply wrap_fits. lia. Qed.

Lemma call_duration_fits ts now :
  fits 64 ts -> fits 64 now -> fits 64 (if ts <? now then now - ts else 0).
Proof. unfold fits. intros. Zb_cases. Qed.

#[local] Hint Resolve pid_of_fits tid_of_fits cuda_idx_range nccl_idx_range kernel_idx_range
  bump_dropped_ok call_duration_fits : invdb.

(** ** Preservation, program part by program part *)

(** Rebuild the record: all maps but the ones a part updates are unchanged. *)
Ltac wf_frame Hs := destruct Hs; split; simpl; try assumption; auto with invdb.

Lemma wf_upd_inflight f s :
  state_wf s -> lru_ok entry_wf (f (INFLIGHT s)) -> state_wf (upd_INFLIGHT f s).
Proof. intros Hs ?. wf_frame Hs. Qed.

Lemma save_entry_wf e t a b c s :
  env_wf e -> fits 32 t -> fits 64 a -> fits 64 b -> fits 64 c ->
  state_wf s -> state_wf (save_entry t a b c e s).
Proof.
  intros He Ht Ha Hb Hc Hs. unfold save_entry.
  set (entry := mkEntryData _ _ _ _ _ _).
  assert (Hen : entry_wf entry) by (split; try assumption; [by apply ew_ktime|done]).
  assert (Hst : forall s', state_wf s' ->
    state_wf (upd_INFLIGHT (lru_update (env_lru_inflight e) (env_pid_tgid e) entry) s')).
  { intros s' Hs'. apply wf_upd_inflight; [done|]. apply lru_ok_update; [apply Hs'|done]. }
  case_match; [done|]. case_match; [|auto]. case_match; [|auto].
  destruct (SAMPLE_COUNTER s !! env_cpu e) as [c0|] eqn:E; [|auto].
  assert (Hs' : state_wf (upd_SAMPLE_COUNTER (fun l => <[env_cpu e:=u64 (c0 + 1)]> l) s)).
  { destruct (wf_counter s Hs) as [Hlen HF]. wf_frame Hs. split.
    - by rewrite length_insert.
    - apply Forall_insert; auto with invdb. }
  case_match; auto.
Qed.

Lemma emit_exit_aggregated_wf rc pid d entry e s :
  fits 32 rc -> fits 32 pid -> fits 64 d -> entry_wf entry ->
  profi_is_aggregatable (en_event_type entry) = true ->
  state_wf s -> state_wf (emit_exit_aggregated rc pid d entry e s).
Proof.
  intros Hrc Hpid Hd He Hagg Hs. unfold emit_exit_aggregated.
  set (mul := if _ : bool then _ else _). set (key := mkAggKey _ _ _ _ _).
  assert (Hm : fits 64 mul).
  { pose proof (cfg_u32_fits _ (wf_rate s Hs)). unfold mul.
    case_match; [eapply fits_weaken; [done|lia]|fits_const]. }
  assert (Hk : agg_key_ok key).
  { destruct He. split; [split; simpl; auto with invdb|done]. }
  pose proof (wf_agg s Hs) as Hok.
  case_match eqn:E.
  - destruct (percpu_ok_lookup _ _ _ _ _ _ _ Hok E) as [_ [Hh _]].
    wf_frame Hs. apply percpu_ok_store; [done|]. split; simpl; auto with invdb.
    apply (hist_wf_bump 14); auto with invdb.
  - wf_frame Hs. apply percpu_ok_update; try done.
    + split; simpl; [apply (hist_wf_zero 14)|split; fits_const].
    + split; simpl; auto with invdb. apply (hist_wf_first 14); auto with invdb.
Qed.

Lemma nccl_dtype_fits dt :
  fits 64 dt -> fits 64 (if dt <? 10 then arr NCCL_DTYPE_SIZES (Z.to_nat dt) else 1).
Proof.
  intros Hdt. case_match; [|fits_const].
  assert (HF : Forall (fits 64) NCCL_DTYPE_SIZES) by (repeat constructor; fits_const).
  unfold arr. destruct (_ !! _) eqn:E; simpl; [by eapply Forall_lookup_1|fits_const].
Qed.

Lemma emit_exit_nccl_wf rc pid d entry e s :
  fits 32 rc -> fits 32 pid -> fits 64 d -> entry_wf entry ->
  profi_is_nccl_event (en_event_type entry) = true ->
  state_wf s -> state_wf (emit_exit_nccl rc pid d entry e s).
Proof.
  intros Hrc Hpid Hd He Hn Hs. unfold emit_exit_nccl. set (key := mkAggKey _ _ _ _ _).
  assert (Hk : nccl_key_ok key).
  { destruct He. split; [split; simpl; auto with invdb; fits_const|done]. }
  pose proof (wf_nccl s Hs) as Hok.
  case_match eqn:E.
  - destruct (percpu_ok_lookup _ _ _ _ _ _ _ Hok E) as [_ [Hh _]].
    wf_frame Hs. apply percpu_ok_store; [done|]. split; simpl; auto with invdb.
    apply (hist_wf_bump 12 _ _ _ 1); auto with invdb.
  - wf_frame Hs. apply percpu_ok_update; try done.
    + split; simpl; [apply (hist_wf_zero 12)|split; fits_const].
    + split; simpl; auto with invdb. apply (hist_wf_first 12 _ 1); [fits_const|auto with invdb].
Qed.

Lemma emit_exit_launch_wf pid d entry e s :
  fits 32 pid -> fits 64 d -> entry_wf entry ->
  state_wf s -> state_wf (emit_exit_launch pid d entry e s).
Proof.
  intros Hpid Hd He Hs. unfold emit_exit_launch. set (key := mkLaunchKey _ _ _ _).
  assert (Hk : launch_key_ok key).
  { destruct He. split; [done|]. split; [done|]. split; [|done].
    simpl. case_match; [fits_const|done]. }
  pose proof (wf_launch s Hs) as Hok.
  case_match eqn:E.
  - destruct (percpu_ok_lookup _ _ _ _ _ _ _ Hok E) as [_ (Hh & Ht & Hmx)].
    wf_frame Hs. apply percpu_ok_store; [done|]. split; simpl.
    + apply (hist_wf_bump 9 _ _ _ 1); auto with invdb.
    + split; auto with invdb. case_match; done.
  - set (new_val := mkLaunchAggValue _ _ _ _).
    assert (Hnew : percpu_ok launch_agg_max_entries launch_key_ok launch_wf
      (percpu_update launch_agg_max_entries zero_LaunchAggValue (env_cpu e) key new_val
         (LAUNCH_AGG s)).2).
    { apply percpu_ok_update; try done.
      - split; simpl; [apply (hist_wf_zero 9)|split; fits_const].
      - split; simpl; [|done]. apply (hist_wf_first 9 _ 1); [fits_const|auto with invdb]. }
    case_match; wf_frame Hs.
Qed.

Lemma emit_exit_event_wf rc pid tid now d entry e s :
  env_wf e -> fits 32 rc -> fits 32 pid -> fits 32 tid -> fits 64 now -> fits 64 d ->
  entry_wf entry ->
  profi_is_aggregatable (en_event_type entry) = false ->
  profi_is_nccl_event (en_event_type entry) = false ->
  state_wf s -> state_wf (emit_exit_event rc pid tid now d entry e s).
Proof.
  intros He Hrc Hpid Htid Hnow Hd Hen Ha Hn Hs. unfold emit_exit_event.
  case_match; [wf_frame Hs|].
  assert (Hmk : length (match NVTX_STACK s !! env_pid_tgid e with
                        | Some m => take 16 (nvtx_name m) | None => replicate 16 0 end) = 16%nat
    /\ Forall (fits 8) (match NVTX_STACK s !! env_pid_tgid e with
                        | Some m => take 16 (nvtx_name m) | None => replicate 16 0 end)).
  { destruct (NVTX_STACK s !! _) as [m|] eqn:E.
    - destruct (lru_ok_lookup _ _ _ _ (wf_nvtx s Hs) E) as [Hl HF].
      rewrite length_take. split; [lia|by apply Forall_take].
    - split; [done|]. apply Forall_replicate. fits_const. }
  destruct Hen. pose proof (ew_comm _ He). wf_frame Hs.
  apply Forall_app_2; [done|]. apply Forall_singleton. split; simpl; auto with invdb.
Qed.

Lemma emit_exit_wf e s : env_wf e -> state_wf s -> state_wf (emit_exit e s).
Proof.
  intros He Hs. unfold emit_exit.
  destruct (INFLIGHT s !! env_pid_tgid e) as [entry|] eqn:E; [|done].
  pose proof (lru_ok_lookup _ _ _ _ (wf_inflight s Hs) E) as Hen.
  set (d := if _ : bool then _ - _ else _).
  assert (Hd : fits 64 d).
  { apply call_duration_fits; [apply Hen|by apply ew_ktime]. }
  assert (Hdel : forall s', state_wf s' -> state_wf (upd_INFLIGHT (delete (env_pid_tgid e)) s')).
  { intros s' Hs'. apply wf_upd_inflight; [done|]. apply lru_ok_delete, Hs'. }
  destruct (profi_is_aggregatable _) eqn:Ha.
  { apply Hdel, emit_exit_aggregated_wf; auto with invdb. }
  destruct (profi_is_nccl_event _) eqn:Hn.
  { apply Hdel, emit_exit_nccl_wf; auto with invdb. }
  pose proof (ew_ktime _ He).
  case_match; [|apply emit_exit_event_wf; auto with invdb].
  assert (Hs' : state_wf (emit_exit_launch (pid_of (env_pid_tgid e)) d entry e s))
    by (apply emit_exit_launch_wf; auto with invdb).
  case_match; [auto|]. apply emit_exit_event_wf; auto with invdb.
Qed.

Lemma record_malloc_size_wf e s : state_wf s -> state_wf (record_malloc_size e s).
Proof.
  intros Hs. unfold record_malloc_size.
  case_match; [|done]. destruct (INFLIGHT _ !! _) as [en|] eqn:E; simpl in E.
  - pose proof (lru_ok_lookup _ _ _ _ (wf_inflight s Hs) E) as Hen.
    destruct Hen. repeat case_match; wf_frame Hs.
  - wf_frame Hs.
Qed.

Lemma take_malloc_size_wf p e s :
  state_wf s -> state_wf (take_malloc_size p e s).2 /\ fits 64 (take_malloc_size p e s).1.
Proof.
  intros Hs. unfold take_malloc_size. case_match; [|split; [done|fits_const]].
  destruct (MALLOC_SIZES s !! _) as [sz|] eqn:E; [|split; [done|fits_const]].
  split; [wf_frame Hs|]. by eapply lru_ok_lookup; [apply wf_malloc_sizes|].
Qed.

Lemma read_user_str64_ok e p : env_wf e -> nvtx_ok {| nvtx_name := read_user_str64 e p |}.
Proof.
  intros He. unfold nvtx_ok, read_user_str64; cbn [nvtx_name]. case_match eqn:E.
  - pose proof (ew_str _ He _ _ E) as HF.
    rewrite length_app, length_replicate, length_take. split; [lia|].
    apply Forall_app_2; [by apply Forall_take|]. apply Forall_replicate. fits_const.
  - split; [done|]. apply Forall_replicate. fits_const.
Qed.

Lemma kreg_mk_ok id hf np :
  fits 64 hf -> fits 64 np -> kreg_ok (mkKernelRegEvent (pid_of id) 0 hf np).
Proof. intros. split_and!; simpl; auto using pid_of_fits. Qed.

Lemma module_get_ret_wf e s : env_wf e -> state_wf s -> state_wf (cu_module_get_function_ret e s).
Proof.
  intros He Hs. unfold cu_module_get_function_ret.
  destruct (INFLIGHT s !! _) as [en|] eqn:E; [|done].
  pose proof (lru_ok_lookup _ _ _ _ (wf_inflight s Hs) E) as [].
  case_match; [done|]. destruct (env_user_u64 _ _) as [hf|] eqn:Eh; [|wf_frame Hs].
  pose proof (ew_user _ He _ _ Eh). case_match; wf_frame Hs.
  apply Forall_app_2; [done|]. apply Forall_singleton. by apply kreg_mk_ok.
Qed.

Lemma ops_preserve_wf e : env_wf e -> ops_preserve state_wf e.
Proof.
  intros He. split; intros.
  - by apply save_entry_wf.
  - by apply emit_exit_wf.
  - wf_frame H1.
  - by apply record_malloc_size_wf.
  - by apply take_malloc_size_wf.
  - wf_frame H2. apply Forall_app_2; [done|]. apply Forall_singleton. by apply kreg_mk_ok.
  - pose proof (read_user_str64_ok e n He). wf_frame H0.
  - wf_frame H0.
  - apply wf_upd_inflight; [done|]. apply lru_ok_update; [apply H2|].
    split; simpl; try assumption; [by apply ew_ktime|fits_const|fits_const|done].
  - by apply module_get_ret_wf.
Qed.

Lemma run_wf p e s : probe_wf p -> env_wf e -> state_wf s -> state_wf (run p e s).
Proof. intros. apply (run_preserves state_wf e); auto using ops_preserve_wf. Qed.

Lemma run_trace_wf t s : trace_wf t -> state_wf s -> state_wf (run_trace t s).
Proof.
  intros Ht. revert s. induction Ht as [|[p e] t [Hp He] Ht IH]; intros s Hs; [done|].
  simpl. by apply IH, run_wf.
Qed.

(** The start-up writes of userspace keep the maps well formed. *)
Lemma configure_wf rate mode detailed s :
  fits 32 rate -> state_wf s -> state_wf (configure rate mode detailed s).
Proof.
  intros Hr Hs. unfold configure. case_match; destruct Hs; split; try assumption.
  simpl. by apply Forall_insert.
Qed.

Lemma reachable_wf rate mode detailed s :
  fits 32 rate -> reachable (configure rate mode detailed init_state) s -> state_wf s.
Proof.
  intros Hr Hreach. eapply reachable_inv; [| |exact Hreach].
  - intros. by apply run_wf.
  - by apply configure_wf; [|apply init_state_wf].
Qed.

(** C29: type safety of the maps.  In every state that program runs reach from
    the loaded and configured maps, the sampling rate and all values that programs
    store are in the range of their C types (KERNEL_AGG_MODE, DETAILED_LAUNCHES and
    UPGRADED_PIDS, which programs only read, are left out), the fixed-size arrays have their declared lengths, the per-CPU maps
    have one slot per CPU and stay within their capacity, AGGREGATED holds only
    aggregatable types, NCCL_AGG only collectives, and EVENTS neither. *)
Theorem reachable_state_wf rate mode detailed s :
  fits 32 rate -> reachable (configure rate mode detailed init_state) s -> state_wf s.
Proof.
  apply reachable_wf.
Qed.

(** the histograms count every call.  In every reachable state, in every
    slot of the three aggregation maps, the bucket counters add up to the call
    counter modulo 2^32, the width of a bucket. *)
Theorem histograms_match_counts rate mode detailed s cpu :
  fits 32 rate -> reachable (configure rate mode detailed init_state) s ->
  (forall k v, percpu_lookup cpu k (AGGREGATED s) = Some v ->
     length (av_bucket_counts v) = 14%nat /\ u32 (sumZ (av_bucket_counts v)) = u32 (av_count v)) /\
  (forall k v, percpu_lookup cpu k (NCCL_AGG s) = Some v ->
     length (nv_bucket_counts v) = 12%nat /\ u32 (sumZ (nv_bucket_counts v)) = u32 (nv_count v)) /\
  (forall k v, percpu_lookup cpu k (LAUNCH_AGG s) = Some v ->
     length (lv_bucket_counts v) = 9%nat /\ u32 (sumZ (lv_bucket_counts v)) = u32 (lv_count v)).
Proof.
  intros Hr Hs%reachable_wf; [|done].
  split_and!; intros k v E.
  - by destruct (percpu_ok_lookup _ _ _ _ _ _ _ (wf_agg s Hs) E) as [_ [[] _]].
  - by destruct (percpu_ok_lookup _ _ _ _ _ _ _ (wf_nccl s Hs) E) as [_ [[] _]].
  - by destruct (percpu_ok_lookup _ _ _ _ _ _ _ (wf_launch s Hs) E) as [_ [[] _]].
Qed.
End StateWf.

(** ** Witnesses *)

Section Witnesses.
#[local] Existing Instance demo_cfg.

Definition demo_mixed : trace :=
  [(P_cuda_memcpy 0 0 100 1, demo_env 1 1000 0 0);
   (P_cuda_memcpy_ret, demo_env 1 3000 0 0);
   (P_nccl_all_reduce 0 0 256 7, demo_env 2 1000 1 0);
   (P_nccl_all_reduce_ret, demo_env 2 61000 1 0);
   (P_cu_launch_kernel 777, demo_env 2 70000 1 0);
   (P_cu_launch_kernel_ret, demo_env 2 80000 1 0)].

Lemma reachable_state_wf_witness :
  state_wf (run_trace demo_mixed (configure 0 0 1 init_state)) /\
  length (EVENTS (run_trace demo_mixed (configure 0 0 1 init_state))) = 1%nat.
Proof.
  split; [|vm_compute; reflexivity].
  apply (reachable_state_wf 0 0 1); [fits_const|].
  apply trace_reachable. demo_trace_wf.
Defined.

Lemma histograms_match_counts_witness :
  exists v, percpu_lookup 0 (mkAggKey EVENT_CUDA_MEMCPY 7 1 0 0)
      (AGGREGATED (run_trace demo_mixed (configure 0 0 1 init_state))) = Some v /\
    av_count v = 1 /\ u32 (sumZ (av_bucket_counts v)) = u32 (av_count v).
Proof.
  eexists. split; [vm_compute; reflexivity|]. split; [reflexivity|].
  refine (proj2 (proj1 (histograms_match_counts 0 0 1
    (run_trace demo_mixed (configure 0 0 1 init_state)) 0 _ _)
    (mkAggKey EVENT_CUDA_MEMCPY 7 1 0 0) _ _)).
  - fits_const.
  - apply trace_reachable. demo_trace_wf.
  - vm_compute. reflexivity.
Defined.
End Witnesses.
