(* ===== verification/PerCpu.v ===== *)
(** * Totals over the per-CPU maps

    The probes add to the slot of the CPU they run on and userspace reads the
    sum over the slots.  [percpu_acc] is the read-modify-write that all three
    aggregation maps of profi.bpf.c perform, and the lemmas give its effect on
    the total of any additive field, modulo the width of the field. *)

From S2P Require Import Prelude Events Runtime Probes Step Invariant.

Local Open Scope Z_scope.

Section Totals.
Context `{LoadCfg} {K V : Type} `{Countable K}.
Implicit Types (m : gmap K (list V)) (k : K) (v : V).

(** The sum of field [f] over the CPUs at key [k]; 0 at an absent key. *)
Definition pc_total (f : V -> Z) m k : Z := sumZ (f <$> default [] (m !! k)).

Definition percpu_acc (cap : nat) (zero : V) (cpu : nat) (k : K) (upd : V -> V) (new : V)
    (m : gmap K (list V)) : gmap K (list V) :=
  match percpu_lookup cpu k m with
  | Some v => percpu_store cpu k (upd v) m
  | None => (percpu_update cap zero cpu k new m).2
  end.

Lemma percpu_lookup_None cap Pk Pv m cpu k :
  percpu_ok cap Pk Pv m -> (cpu < NR_CPUS)%nat ->
  percpu_lookup cpu k m = None -> m !! k = None.
Proof.
  intros [_ Hs _] Hc. unfold percpu_lookup. destruct (m !! k) as [slots|] eqn:E; [|done].
  destruct (Hs _ _ E) as [Hl _]. simpl. intros Hn%lookup_ge_None. lia.
Qed.

Lemma pc_total_store f m cpu k v v' k' :
  percpu_lookup cpu k m = Some v ->
  pc_total f (percpu_store cpu k v' m) k'
  = pc_total f m k' + (if decide (k = k') then f v' - f v else 0).
Proof.
  intros (slots & Hm & Hl)%bind_Some. unfold pc_total, percpu_store. rewrite lookup_alter.
  case_decide; [subst k'|lia]. rewrite Hm. simpl. by apply sumZ_fmap_insert.
Qed.

Lemma pc_total_new f m cap zero cpu k v k' :
  f zero = 0 -> m !! k = None -> (size m < cap)%nat -> (cpu < NR_CPUS)%nat ->
  pc_total f (percpu_update cap zero cpu k v m).2 k'
  = pc_total f m k' + (if decide (k = k') then f v else 0).
Proof.
  intros Hz Hk Hsz Hc. unfold pc_total, percpu_update. rewrite Hk, decide_True by done. simpl.
  rewrite lookup_insert. case_decide; [subst k'|lia]. rewrite Hk. simpl.
  rewrite (sumZ_fmap_insert f _ _ zero) by (by apply lookup_replicate_2).
  rewrite sumZ_fmap_replicate, Hz. lia.
Qed.

(** The accumulation law: a field that moves by [g] (modulo [2^w]) in the slot
    moves by [g] in the total, at the accumulated key only. *)
Lemma pc_total_acc (w g : Z) (f : V -> Z) cap zero Pk Pv m cpu k upd new k' :
  percpu_ok cap Pk Pv m -> (cpu < NR_CPUS)%nat ->
  (m !! k = None -> size m < cap)%nat ->
  f zero = 0 ->
  (forall v, Pv v -> wrap w (f (upd v)) = wrap w (f v + g)) ->
  wrap w (f new) = wrap w g ->
  wrap w (pc_total f (percpu_acc cap zero cpu k upd new m) k')
  = wrap w (pc_total f m k' + (if decide (k = k') then g else 0)).
Proof.
  intros Hok Hc Hroom Hz Hupd Hnew. unfold percpu_acc.
  destruct (percpu_lookup cpu k m) as [v|] eqn:E.
  - rewrite (pc_total_store f m cpu k v) by done.
    apply wrap_add_cong; [done|]. case_decide; [|done].
    destruct (percpu_ok_lookup _ _ _ _ _ _ _ Hok E) as [_ HPv].
    replace (f (upd v) - f v) with (f (upd v) + - f v) by lia.
    rewrite <- wrap_add_l, (Hupd v HPv), wrap_add_l. f_equal. lia.
  - pose proof (percpu_lookup_None _ _ _ _ _ _ Hok Hc E) as Hn.
    rewrite pc_total_new by auto. apply wrap_add_cong; [done|]. by case_decide.
Qed.

(** Fields only lose by wrapping: the total never exceeds what was added. *)
Lemma pc_total_acc_le (g : Z) (f : V -> Z) cap zero Pk Pv m cpu k upd new k' :
  percpu_ok cap Pk Pv m -> (cpu < NR_CPUS)%nat -> f zero = 0 -> 0 <= g ->
  (forall v, Pv v -> f (upd v) <= f v + g) -> f new <= g ->
  pc_total f (percpu_acc cap zero cpu k upd new m) k'
  <= pc_total f m k' + (if decide (k = k') then g else 0).
Proof.
  intros Hok Hc Hz Hg Hupd Hnew. unfold percpu_acc.
  destruct (percpu_lookup cpu k m) as [v|] eqn:E.
  - rewrite (pc_total_store f m cpu k v) by done. case_decide; [|lia].
    destruct (percpu_ok_lookup _ _ _ _ _ _ _ Hok E) as [_ HPv]. specialize (Hupd v HPv). lia.
  - pose proof (percpu_lookup_None _ _ _ _ _ _ Hok Hc E) as Hn.
    destruct (decide (size m < cap)%nat).
    + rewrite pc_total_new by auto. case_decide; lia.
    + unfold percpu_update. rewrite Hn, decide_False by done. simpl. case_decide; lia.
Qed.

Lemma pc_total_nonneg f cap Pk Pv m k :
  percpu_ok cap Pk Pv m -> (forall v, Pv v -> 0 <= f v) -> 0 <= pc_total f m k.
Proof.
  intros [_ Hs _] Hf. unfold pc_total. destruct (m !! k) as [slots|] eqn:E; [|done]. simpl.
  destruct (Hs _ _ E) as [_ HF]. apply sumZ_nonneg, Forall_fmap. by eapply Forall_impl.
Qed.

(** When the map is full and the key is new, the accumulation is lost. *)
Lemma percpu_acc_full cap zero cpu k upd new m :
  m !! k = None -> (cap <= size m)%nat -> percpu_acc cap zero cpu k upd new m = m.
Proof.
  intros Hk Hsz. unfold percpu_acc, percpu_lookup, percpu_update. rewrite Hk. simpl.
  by rewrite decide_False by lia.
Qed.

Lemma dom_percpu_acc cap zero cpu k upd new m :
  dom (percpu_acc cap zero cpu k upd new m) ⊆ {[ k ]} ∪ dom m.
Proof.
  unfold percpu_acc, percpu_store, percpu_update.
  repeat case_match; simpl; rewrite ?dom_alter_L, ?dom_insert_L; set_solver.
Qed.

(** The accumulated key stays present, other keys are left alone. *)
Lemma percpu_acc_present cap zero cpu k upd new m :
  is_Some (m !! k) -> is_Some (percpu_acc cap zero cpu k upd new m !! k).
Proof.
  intros [slots Hk]. unfold percpu_acc, percpu_store, percpu_update. rewrite Hk.
  case_match; simpl; rewrite ?lookup_alter_eq, ?lookup_insert_eq, ?Hk; eauto.
Qed.

Lemma percpu_acc_other cap zero cpu k upd new m k' :
  k <> k' -> percpu_acc cap zero cpu k upd new m !! k' = m !! k'.
Proof.
  intros Hk. unfold percpu_acc, percpu_store, percpu_update.
  repeat case_match; simpl; rewrite ?lookup_alter_ne, ?lookup_insert_ne by done; done.
Qed.

(** ** Totals over the CPUs and over the keys *)

(** The sum of a field that may depend on the key, as for the keys of one process. *)
Definition keyed_total (f : K -> V -> Z) m : Z :=
  sumZ ((fun kv => sumZ (f kv.1 <$> kv.2)) <$> map_to_list m).

Lemma keyed_total_empty f : keyed_total f (∅ : gmap K (list V)) = 0.
Proof. unfold keyed_total. by rewrite map_to_list_empty. Qed.

Lemma keyed_total_insert_None f m k slots :
  m !! k = None -> keyed_total f (<[k:=slots]> m) = keyed_total f m + sumZ (f k <$> slots).
Proof.
  intros Hk. unfold keyed_total. rewrite map_to_list_insert by done. csimpl. lia.
Qed.

Lemma keyed_total_delete f m k slots :
  m !! k = Some slots -> keyed_total f m = keyed_total f (delete k m) + sumZ (f k <$> slots).
Proof.
  intros Hk. rewrite <- (insert_delete_id m k slots Hk) at 1.
  apply keyed_total_insert_None, lookup_delete_eq.
Qed.

Lemma keyed_total_insert_Some f m k slots slots' :
  m !! k = Some slots ->
  keyed_total f (<[k:=slots']> m)
  = keyed_total f m + (sumZ (f k <$> slots') - sumZ (f k <$> slots)).
Proof.
  intros Hk. rewrite (keyed_total_delete f m k slots Hk), <- insert_delete_eq.
  rewrite keyed_total_insert_None by apply lookup_delete_eq. lia.
Qed.

(** The unconditional accounting law: an accumulation either moves the total by [g]
    or is rejected by a full map, which is then unchanged. *)
Lemma keyed_total_acc (w g : Z) (f : K -> V -> Z) cap zero Pk Pv m cpu k upd new :
  percpu_ok cap Pk Pv m -> (cpu < NR_CPUS)%nat ->
  f k zero = 0 ->
  (forall v, Pv v -> wrap w (f k (upd v)) = wrap w (f k v + g)) ->
  wrap w (f k new) = wrap w g ->
  wrap w (keyed_total f (percpu_acc cap zero cpu k upd new m))
  = wrap w (keyed_total f m
            + if bool_decide (m !! k = None /\ (cap <= size m)%nat) then 0 else g).
Proof.
  intros Hok Hc Hz Hupd Hnew. unfold percpu_acc.
  destruct (percpu_lookup cpu k m) as [v|] eqn:E.
  - pose proof E as (slots & Hm & Hl)%bind_Some.
    rewrite bool_decide_false by (rewrite Hm; by intros [? _]).
    unfold percpu_store. rewrite (alter_alt_Some _ _ _ _ Hm).
    rewrite (keyed_total_insert_Some f m k slots) by done.
    rewrite (sumZ_fmap_insert (f k) _ _ v) by done.
    destruct (percpu_ok_lookup _ _ _ _ _ _ _ Hok E) as [_ HPv].
    apply wrap_add_cong; [done|].
    replace (_ + (f k (upd v) - f k v) - _) with (f k (upd v) + - f k v) by lia.
    rewrite <- wrap_add_l, (Hupd v HPv), wrap_add_l. f_equal. lia.
  - pose proof (percpu_lookup_None _ _ _ _ _ _ Hok Hc E) as Hn.
    unfold percpu_update. rewrite Hn. case_decide; simpl.
    + rewrite bool_decide_false by lia. rewrite keyed_total_insert_None by done.
      rewrite (sumZ_fmap_insert (f k) _ _ zero) by (by apply lookup_replicate_2).
      rewrite sumZ_fmap_replicate, Hz. apply wrap_add_cong; [done|].
      by replace (_ * 0 + (f k new - 0)) with (f k new) by lia.
    + rewrite bool_decide_true by (split; [done|lia]). by rewrite Z.add_0_r.
Qed.

Definition grand_total (f : V -> Z) : gmap K (list V) -> Z := keyed_total (fun _ => f).
End Totals.
