(* ===== verification/Ledger.v ===== *)
(** * The abstract ledger of completed calls, and the refinement

    What the tracer promises: every call it completes is recorded once, with
    its weight, in the output its type is routed to.  The abstract state is the
    list of completed calls, the ledger; [ledger t s] extracts it from a trace.
    The theorems show that the totals a reader of AGGREGATED, NCCL_AGG and
    LAUNCH_AGG sees, the contents of the EVENTS ring buffer and the two drop
    counters are the folds of the ledger that the specification states. *)

From S2P Require Import Prelude Events Runtime Probes Step Invariant PerCpu Demo.

Local Open Scope Z_scope.

(** ** Completed calls *)

(** What is known of a call when its return probe finds the entry: the entry,
    the kernel's answers to the return probe, and the configuration and NVTX
    range in force. *)
Record Completed := mkCompleted {
  cp_entry : EntryData;
  cp_env : KEnv;
  cp_rate : Z;
  cp_mode : Z;
  cp_detailed : Z;
  cp_marker : list Z
}.

Definition cp_type (c : Completed) : Z := en_event_type (cp_entry c).
Definition cp_pid (c : Completed) : Z := pid_of (env_pid_tgid (cp_env c)).

(** The time from the entry probe to the return probe, 0 if the clock did not
    advance. *)
Definition cp_duration (c : Completed) : Z :=
  Z.max 0 (env_ktime (cp_env c) - en_timestamp_ns (cp_entry c)).

(** The number of calls one sampled call stands for. *)
Definition cp_weight (c : Completed) : Z := if 1 <? cp_rate c then cp_rate c else 1.

(** ** Routing *)

Definition cp_agg_key (c : Completed) : option AggKey :=
  if profi_is_aggregatable (cp_type c)
  then Some (mkAggKey (cp_type c) (cp_pid c) (u32 (en_arg1 (cp_entry c)))
               (u32 (env_rc (cp_env c))) (en_arg2 (cp_entry c)))
  else None.

Definition cp_nccl_key (c : Completed) : option AggKey :=
  if profi_is_nccl_event (cp_type c)
  then Some (mkAggKey (cp_type c) (cp_pid c) (u32 (en_arg1 (cp_entry c)))
               (u32 (env_rc (cp_env c))) 0)
  else None.

Definition cp_is_launch (c : Completed) : bool := cp_type c =? EVENT_CUDA_LAUNCH_KERNEL.

(** An anonymous launch ([mode = 1]) is not attributed to a kernel. *)
Definition cp_launch_key (c : Completed) : option LaunchKey :=
  if cp_is_launch c
  then Some (mkLaunchKey (cp_pid c) 0 (if cp_mode c =? 1 then 0 else en_arg0 (cp_entry c))
               (en_arg2 (cp_entry c)))
  else None.

(** Calls that go to the ring buffer: neither aggregatable nor NCCL, and for a
    launch only in full mode with detailed launches. *)
Definition cp_to_ring (c : Completed) : bool :=
  negb (profi_is_aggregatable (cp_type c)) && negb (profi_is_nccl_event (cp_type c)) &&
  (negb (cp_is_launch c) || (negb (cp_mode c =? 1) && (cp_detailed c =? 1))).

Definition cp_event (c : Completed) : CudaEvent :=
  let e := cp_env c in
  let en := cp_entry c in
  {| ce_event_type := en_event_type en; ce_pid := cp_pid c; ce_tid := tid_of (env_pid_tgid e);
     ce_memcpy_kind := u32 (en_arg1 en); ce_timestamp_ns := env_ktime e;
     ce_duration_ns := cp_duration c; ce_size := en_arg0 en; ce_addr := en_arg0 en;
     ce_stream := en_arg2 en; ce_nvtx_marker := cp_marker c; ce_comm := env_comm e;
     ce_error_code := u32 (env_rc e); ce_pad2 := 0 |}.

(** The event a call leaves in the ring buffer, if the buffer has room. *)
Definition cp_ring_event (c : Completed) : option CudaEvent :=
  if cp_to_ring c && env_events_room (cp_env c) then Some (cp_event c) else None.

Definition cp_ring_dropped (c : Completed) : bool :=
  cp_to_ring c && negb (env_events_room (cp_env c)).

(** NCCL payload size in bytes. *)
Definition nccl_dtype_size (datatype : Z) : Z :=
  if datatype <? 10 then arr NCCL_DTYPE_SIZES (Z.to_nat datatype) else 1.

Definition cp_nccl_bytes (c : Completed) : Z :=
  en_arg0 (cp_entry c) * nccl_dtype_size (en_arg1 (cp_entry c)).

(** ** The ledger of a trace *)

Section LedgerDef.
Context `{LoadCfg}.

(** The call a return probe of the current thread would complete. *)
Definition completed_at (e : KEnv) (s : BpfState) : option Completed :=
  match INFLIGHT s !! env_pid_tgid e with
  | Some entry =>
      Some {| cp_entry := entry; cp_env := e; cp_rate := cfg_u32 (SAMPLE_RATE s);
              cp_mode := launch_mode (pid_of (env_pid_tgid e)) s;
              cp_detailed := cfg_u32 (DETAILED_LAUNCHES s);
              cp_marker := match NVTX_STACK s !! env_pid_tgid e with
                           | Some m => take 16 (nvtx_name m)
                           | None => replicate 16 0
                           end |}
  | None => None
  end.

Definition completes (p : probe) (e : KEnv) (s : BpfState) : option Completed :=
  if is_exit p then completed_at e s else None.

Fixpoint ledger (t : trace) (s : BpfState) : list Completed :=
  match t with
  | [] => []
  | (p, e) :: t' => option_list (completes p e s) ++ ledger t' (run p e s)
  end.

Lemma ledger_app t1 t2 s : ledger (t1 ++ t2) s = ledger t1 s ++ ledger t2 (run_trace t1 s).
Proof.
  revert s. induction t1 as [|[p e] t1 IH]; intros s; simpl; [done|].
  by rewrite IH, app_assoc.
Qed.

Lemma ledger_snoc t p e s :
  ledger (t ++ [(p, e)]) s = ledger t s ++ option_list (completes p e (run_trace t s)).
Proof. rewrite ledger_app. simpl. by rewrite app_nil_r. Qed.

(** ** What a program run does to the output maps *)

(** The maps that carry the tracer's output, and the configuration. *)
Definition outputs (s : BpfState) :=
  (AGGREGATED s, NCCL_AGG s, LAUNCH_AGG s, EVENTS s, LAUNCH_DROPPED s, DROPPED s,
   (SAMPLE_RATE s, KERNEL_AGG_MODE s, DETAILED_LAUNCHES s, UPGRADED_PIDS s)).

Lemma save_entry_outputs t a b c e s : outputs (save_entry t a b c e s) = outputs s.
Proof. unfold save_entry. by repeat case_match. Qed.

Lemma record_malloc_size_frame e s :
  outputs (record_malloc_size e s) = outputs s /\
  INFLIGHT (record_malloc_size e s) = INFLIGHT s /\
  NVTX_STACK (record_malloc_size e s) = NVTX_STACK s.
Proof. unfold record_malloc_size. by repeat case_match. Qed.

Lemma take_malloc_size_outputs p e s : outputs (take_malloc_size p e s).2 = outputs s.
Proof. unfold take_malloc_size. by repeat case_match. Qed.

Lemma run_not_exit p e s : is_exit p = false -> outputs (run p e s) = outputs s.
Proof.
  destruct p; try done; intros _; unfold run; try apply save_entry_outputs.
  - unfold cuda_malloc. rewrite save_entry_outputs. by case_match.
  - unfold cuda_free. pose proof (take_malloc_size_outputs ptr e s).
    destruct take_malloc_size. by rewrite save_entry_outputs.
  - unfold cuda_malloc_async. rewrite save_entry_outputs. by case_match.
  - unfold cuda_free_async. pose proof (take_malloc_size_outputs ptr e s).
    destruct take_malloc_size. by rewrite save_entry_outputs.
  - unfold cuda_register_function. by repeat case_match.
  - unfold cu_module_get_function. by repeat case_match.
  - unfold cu_module_get_function_ret. by repeat case_match.
  - unfold nvtx_range_push. by repeat case_match.
Qed.

Lemma run_exit p e s :
  is_exit p = true ->
  exists s', run p e s = emit_exit e s' /\ outputs s' = outputs s /\
             INFLIGHT s' = INFLIGHT s /\ NVTX_STACK s' = NVTX_STACK s /\
             (state_wf s -> state_wf s').
Proof.
  pose proof (record_malloc_size_frame e s) as (Ho & Hi & Hn).
  pose proof (record_malloc_size_wf e s) as Hw.
  destruct p; try done; intros _; first [ by exists s | by exists (record_malloc_size e s) ].
Qed.

(** ** The three accumulations, as functions of the completed call *)

Definition agg_step (c : Completed) (v : AggValue) : AggValue :=
  {| av_count := u64 (av_count v + cp_weight c);
     av_duration_sum_ns := u64 (av_duration_sum_ns v + u64 (cp_duration c * cp_weight c));
     av_size_sum := u64 (av_size_sum v + u64 (en_arg0 (cp_entry c) * cp_weight c));
     av_bucket_counts := bump_bucket 14 (profi_cuda_bucket_idx (cp_duration c))
                           (u32 (cp_weight c)) (av_bucket_counts v) |}.

Definition agg_first (c : Completed) : AggValue :=
  {| av_count := cp_weight c;
     av_duration_sum_ns := u64 (cp_duration c * cp_weight c);
     av_size_sum := u64 (en_arg0 (cp_entry c) * cp_weight c);
     av_bucket_counts := bump_bucket 14 (profi_cuda_bucket_idx (cp_duration c))
                           (u32 (cp_weight c)) (replicate 14 0) |}.

Definition nccl_step (c : Completed) (v : NcclAggValue) : NcclAggValue :=
  {| nv_count := u64 (nv_count v + 1);
     nv_duration_sum_ns := u64 (nv_duration_sum_ns v + cp_duration c);
     nv_bytes_sum := u64 (nv_bytes_sum v + u64 (cp_nccl_bytes c));
     nv_bucket_counts := bump_bucket 12 (profi_nccl_bucket_idx (cp_duration c)) 1
                           (nv_bucket_counts v) |}.

Definition nccl_first (c : Completed) : NcclAggValue :=
  {| nv_count := 1; nv_duration_sum_ns := cp_duration c; nv_bytes_sum := u64 (cp_nccl_bytes c);
     nv_bucket_counts := bump_bucket 12 (profi_nccl_bucket_idx (cp_duration c)) 1
                           (replicate 12 0) |}.

Definition launch_step (c : Completed) (v : LaunchAggValue) : LaunchAggValue :=
  {| lv_count := u64 (lv_count v + 1);
     lv_total_duration_ns := u64 (lv_total_duration_ns v + cp_duration c);
     lv_max_duration_ns := Z.max (lv_max_duration_ns v) (cp_duration c);
     lv_bucket_counts := bump_bucket 9 (profi_kernel_bucket_idx (cp_duration c)) 1
                           (lv_bucket_counts v) |}.

Definition launch_first (c : Completed) : LaunchAggValue :=
  {| lv_count := 1; lv_total_duration_ns := cp_duration c; lv_max_duration_ns := cp_duration c;
     lv_bucket_counts := bump_bucket 9 (profi_kernel_bucket_idx (cp_duration c)) 1
                           (replicate 9 0) |}.

Definition acc_at {K V} `{Countable K} (cap : nat) (zero : V) (cpu : nat) (ok : option K)
    (upd : V -> V) (new : V) (m : gmap K (list V)) : gmap K (list V) :=
  match ok with
  | Some k => percpu_acc cap zero cpu k upd new m
  | None => m
  end.

Lemma duration_max ts now : (if ts <? now then now - ts else 0) = Z.max 0 (now - ts).
Proof. Zb_cases. Qed.

Lemma max_if a b : (if a <? b then b else a) = Z.max a b.
Proof. Zb_cases. Qed.

Lemma agg_not_launch t :
  profi_is_aggregatable t = true -> (t =? EVENT_CUDA_LAUNCH_KERNEL) = false.
Proof. destruct (Z.eqb_spec t EVENT_CUDA_LAUNCH_KERNEL); [by subst|done]. Qed.

Lemma nccl_not_launch t :
  profi_is_nccl_event t = true -> (t =? EVENT_CUDA_LAUNCH_KERNEL) = false.
Proof. destruct (Z.eqb_spec t EVENT_CUDA_LAUNCH_KERNEL); [by subst|done]. Qed.

Lemma emit_exit_none e s : completed_at e s = None -> emit_exit e s = s.
Proof. unfold completed_at, emit_exit. by case_match. Qed.

Lemma emit_exit_AGGREGATED e s c :
  completed_at e s = Some c ->
  AGGREGATED (emit_exit e s)
  = acc_at aggregated_max_entries zero_AggValue (env_cpu e) (cp_agg_key c)
      (agg_step c) (agg_first c) (AGGREGATED s).
Proof.
  unfold completed_at, emit_exit. destruct (INFLIGHT s !! _) as [en|]; [|done].
  intros [= <-]. unfold cp_agg_key, agg_step, agg_first, cp_weight, cp_duration, cp_type, cp_pid; simpl.
  rewrite duration_max. destruct (profi_is_aggregatable _) eqn:Ha; simpl.
  - unfold emit_exit_aggregated, percpu_acc. by case_match.
  - unfold emit_exit_nccl, emit_exit_launch, emit_exit_event. by repeat case_match.
Qed.

Lemma emit_exit_NCCL_AGG e s c :
  completed_at e s = Some c ->
  NCCL_AGG (emit_exit e s)
  = acc_at nccl_agg_max_entries zero_NcclAggValue (env_cpu e) (cp_nccl_key c)
      (nccl_step c) (nccl_first c) (NCCL_AGG s).
Proof.
  unfold completed_at, emit_exit. destruct (INFLIGHT s !! _) as [en|]; [|done].
  intros [= <-]. unfold cp_nccl_key, nccl_step, nccl_first, cp_duration, cp_type, cp_pid; simpl.
  rewrite duration_max. destruct (profi_is_aggregatable _) eqn:Ha; simpl.
  - rewrite (agg_not_nccl _ Ha). unfold emit_exit_aggregated. by case_match.
  - destruct (profi_is_nccl_event _) eqn:Hn; simpl.
    + unfold emit_exit_nccl, percpu_acc. by case_match.
    + unfold emit_exit_launch, emit_exit_event. by repeat case_match.
Qed.

Lemma emit_exit_launch_acc pid d en e s :
  LAUNCH_AGG (emit_exit_launch pid d en e s)
  = percpu_acc launch_agg_max_entries zero_LaunchAggValue (env_cpu e)
      (mkLaunchKey pid 0 (if launch_mode pid s =? 1 then 0 else en_arg0 en) (en_arg2 en))
      (fun v => mkLaunchAggValue (u64 (lv_count v + 1)) (u64 (lv_total_duration_ns v + d))
                  (Z.max (lv_max_duration_ns v) d)
                  (bump_bucket 9 (profi_kernel_bucket_idx d) 1 (lv_bucket_counts v)))
      (mkLaunchAggValue 1 d d (bump_bucket 9 (profi_kernel_bucket_idx d) 1 (replicate 9 0)))
      (LAUNCH_AGG s).
Proof.
  unfold emit_exit_launch, percpu_acc. case_match; [by rewrite max_if|].
  by destruct (percpu_update _ _ _ _ _ _).1.
Qed.

Lemma emit_exit_event_frame rc pid tid now d en e s :
  AGGREGATED (emit_exit_event rc pid tid now d en e s) = AGGREGATED s /\
  NCCL_AGG (emit_exit_event rc pid tid now d en e s) = NCCL_AGG s /\
  LAUNCH_AGG (emit_exit_event rc pid tid now d en e s) = LAUNCH_AGG s /\
  LAUNCH_DROPPED (emit_exit_event rc pid tid now d en e s) = LAUNCH_DROPPED s.
Proof. unfold emit_exit_event. by case_match. Qed.

Lemma emit_exit_LAUNCH_AGG e s c :
  completed_at e s = Some c ->
  LAUNCH_AGG (emit_exit e s)
  = acc_at launch_agg_max_entries zero_LaunchAggValue (env_cpu e) (cp_launch_key c)
      (launch_step c) (launch_first c) (LAUNCH_AGG s).
Proof.
  unfold completed_at, emit_exit. destruct (INFLIGHT s !! _) as [en|]; [|done].
  intros [= <-].
  unfold cp_launch_key, cp_is_launch, launch_step, launch_first, cp_duration,
    cp_type, cp_pid; simpl.
  rewrite duration_max. destruct (profi_is_aggregatable _) eqn:Ha; simpl.
  { rewrite (agg_not_launch _ Ha). unfold emit_exit_aggregated. by case_match. }
  destruct (profi_is_nccl_event _) eqn:Hn; simpl.
  { rewrite (nccl_not_launch _ Hn). unfold emit_exit_nccl. by case_match. }
  destruct (en_event_type en =? EVENT_CUDA_LAUNCH_KERNEL) eqn:Hl.
  - case_match; [|rewrite (proj1 (proj2 (proj2 (emit_exit_event_frame _ _ _ _ _ _ _ _))))];
      simpl; apply emit_exit_launch_acc.
  - unfold emit_exit_event. by repeat case_match.
Qed.

(** ** One program run, through the eyes of one output *)

Lemma completed_at_frame e s s' :
  outputs s' = outputs s -> INFLIGHT s' = INFLIGHT s -> NVTX_STACK s' = NVTX_STACK s ->
  completed_at e s' = completed_at e s.
Proof.
  unfold outputs. intros [= _ _ _ _ _ _ Hr Hm Hd Hu] Hi Hn. unfold completed_at, launch_mode.
  by rewrite Hi, Hn, Hr, Hm, Hd, Hu.
Qed.

(** Any function of the outputs changes only when a call completes, and then
    as [emit_exit] changes it. *)
Lemma run_output {A} (M : BpfState -> A) (F : KEnv -> Completed -> A -> A) p e s :
  (forall s s', outputs s' = outputs s -> M s' = M s) ->
  (forall e s c, completed_at e s = Some c -> M (emit_exit e s) = F e c (M s)) ->
  M (run p e s) = match completes p e s with Some c => F e c (M s) | None => M s end.
Proof.
  intros Hout Hemit. unfold completes. destruct (is_exit p) eqn:Hp.
  - destruct (run_exit p e s Hp) as (s' & -> & Ho & Hi & Hn & _).
    rewrite <- (completed_at_frame e s s' Ho Hi Hn), <- (Hout s s' Ho).
    destruct (completed_at e s') as [c|] eqn:E; [by apply Hemit|].
    by rewrite emit_exit_none.
  - by apply Hout, run_not_exit.
Qed.

Lemma completes_env p e s c : completes p e s = Some c -> cp_env c = e.
Proof. unfold completes, completed_at. by repeat case_match; intros [= <-]. Qed.
End LedgerDef.

(** ** The refinement, for any of the three aggregation maps *)

Section Refine.
Context `{LoadCfg} {K V : Type} `{Countable K}.
Variables (M : BpfState -> gmap K (list V)) (ck : Completed -> option K).
Variables (cap : nat) (zero : V) (upd : Completed -> V -> V) (new : Completed -> V).
Variables (Pk : K -> Prop) (Pv : V -> Prop).
Hypothesis M_outputs : forall s s', outputs s' = outputs s -> M s' = M s.
Hypothesis M_emit : forall e s c, completed_at e s = Some c ->
  M (emit_exit e s) = acc_at cap zero (env_cpu e) (ck c) (upd c) (new c) (M s).
Hypothesis M_wf : forall s, state_wf s -> percpu_ok cap Pk Pv (M s).
Definition ledger_keys (l : list Completed) : gset K := list_to_set (omap ck l).

Lemma run_M p e s :
  M (run p e s) = match completes p e s with
                  | Some c => acc_at cap zero (env_cpu e) (ck c) (upd c) (new c) (M s)
                  | None => M s
                  end.
Proof.
  apply (run_output M (fun e c m => acc_at cap zero (env_cpu e) (ck c) (upd c) (new c) m)); auto.
Qed.

Lemma dom_run_trace t s : dom (M (run_trace t s)) ⊆ dom (M s) ∪ ledger_keys (ledger t s).
Proof.
  induction t as [|[p e] t IH] using rev_ind; simpl; [apply union_subseteq_l|].
  rewrite run_trace_app, ledger_snoc. simpl. rewrite run_M. unfold ledger_keys in *.
  destruct (completes p e _) as [c|]; simpl; [|by rewrite app_nil_r].
  rewrite omap_app, list_to_set_app_L. unfold acc_at. simpl.
  destruct (ck c) as [k|]; simpl; [|by rewrite union_empty_r_L].
  etrans; [apply dom_percpu_acc|]. rewrite (union_comm_L {[k]}), union_assoc_L.
  apply union_mono; [done|]. by rewrite union_empty_r_L.
Qed.

Lemma ledger_keys_app l1 l2 : ledger_keys (l1 ++ l2) = ledger_keys l1 ∪ ledger_keys l2.
Proof. unfold ledger_keys. by rewrite omap_app, list_to_set_app_L. Qed.

Lemma ledger_keys_one c k : ck c = Some k -> ledger_keys [c] = {[ k ]}.
Proof. intros Hk. unfold ledger_keys. simpl. rewrite Hk. apply list_to_set_singleton_L. Qed.

(** The weight [g] of the ledger entries recorded under [k]. *)
Definition ledger_sum (g : Completed -> Z) (k : K) (l : list Completed) : Z :=
  sumZ (g <$> filter (fun c => ck c = Some k) l).

Lemma ledger_sum_app g k l1 l2 :
  ledger_sum g k (l1 ++ l2) = ledger_sum g k l1 + ledger_sum g k l2.
Proof. unfold ledger_sum. by rewrite filter_app, fmap_app, sumZ_app. Qed.

(** A trace adds to the totals of a map what its ledger says. *)
Lemma refine_from (w : Z) (f : V -> Z) (g : Completed -> Z) t s0 k :
  f zero = 0 ->
  (forall c v, Pv v -> wrap w (f (upd c v)) = wrap w (f v + g c)) ->
  (forall c, wrap w (f (new c)) = wrap w (g c)) ->
  trace_wf t -> state_wf s0 ->
  (size (dom (M s0) ∪ ledger_keys (ledger t s0)) <= cap)%nat ->
  wrap w (pc_total f (M (run_trace t s0)) k)
  = wrap w (pc_total f (M s0) k + ledger_sum g k (ledger t s0)).
Proof.
  intros Hz Hupd Hnew Ht Hs0 Hsz. induction t as [|[p e] t IH] using rev_ind.
  { simpl. unfold ledger_sum. simpl. by rewrite Z.add_0_r. }
  apply trace_wf_snoc in Ht as (Ht & Hp & He).
  rewrite ledger_snoc, ledger_keys_app in Hsz.
  rewrite run_trace_app, ledger_snoc, ledger_sum_app. simpl. rewrite run_M.
  pose proof (dom_run_trace t s0) as Hd. set (s := run_trace t s0) in *.
  assert (Hs : state_wf s) by (by apply run_trace_wf).
  assert (Hsz' : (size (dom (M s0) ∪ ledger_keys (ledger t s0)) <= cap)%nat).
  { etrans; [|done]. apply subseteq_size, union_mono_l, union_subseteq_l. }
  specialize (IH Ht Hsz'). rewrite Z.add_assoc.
  destruct (completes p e s) as [c|] eqn:Ec; simpl in *;
    [|unfold ledger_sum at 2; simpl; by rewrite Z.add_0_r].
  unfold acc_at, ledger_sum at 2. rewrite filter_cons, filter_nil.
  destruct (ck c) as [k'|] eqn:Ek; [|rewrite decide_False by done; by rewrite Z.add_0_r].
  rewrite (pc_total_acc w (g c) f cap zero Pk Pv); auto.
  - apply wrap_add_cong; [done|].
    destruct (decide (k' = k)) as [->|Hne]; [rewrite decide_True by done|rewrite decide_False by congruence];
      simpl; f_equal; lia.
  - by apply ew_cpu.
  - intros Hk. assert (k' ∉ dom (M s)) as Hni by (by apply not_elem_of_dom).
    enough (size ({[k']} ∪ dom (M s)) <= cap)%nat as Hle.
    { rewrite size_union in Hle by (by apply disjoint_singleton_l). rewrite size_singleton, size_dom in Hle. lia. }
    etrans; [|exact Hsz]. apply subseteq_size. rewrite (ledger_keys_one c k' Ek).
    rewrite (union_comm_L {[k']}), union_assoc_L. by apply union_mono.
Qed.

Lemma refine_total (w : Z) (f : V -> Z) (g : Completed -> Z) t s0 k :
  M s0 = ∅ -> f zero = 0 ->
  (forall c v, Pv v -> wrap w (f (upd c v)) = wrap w (f v + g c)) ->
  (forall c, wrap w (f (new c)) = wrap w (g c)) ->
  trace_wf t -> state_wf s0 ->
  (size (ledger_keys (ledger t s0)) <= cap)%nat ->
  wrap w (pc_total f (M (run_trace t s0)) k)
  = wrap w (ledger_sum g k (ledger t s0)).
Proof.
  intros HM ? ? ? ? ? Hsz. rewrite (refine_from w f g); auto.
  - rewrite HM. unfold pc_total at 1. by rewrite lookup_empty.
  - rewrite HM, dom_empty_L. by rewrite union_empty_l_L.
Qed.

Lemma refine_le (f : V -> Z) (g : Completed -> Z) t s0 k :
  M s0 = ∅ -> f zero = 0 -> (forall c, 0 <= g c) ->
  (forall c v, Pv v -> f (upd c v) <= f v + g c) -> (forall c, f (new c) <= g c) ->
  trace_wf t -> state_wf s0 ->
  pc_total f (M (run_trace t s0)) k <= ledger_sum g k (ledger t s0).
Proof.
  intros HM Hz Hg Hupd Hnew Ht Hs0. induction t as [|[p e] t IH] using rev_ind.
  { simpl. rewrite HM. unfold pc_total. by rewrite lookup_empty. }
  apply trace_wf_snoc in Ht as (Ht & Hp & He).
  rewrite run_trace_app, ledger_snoc, ledger_sum_app. simpl. rewrite run_M.
  assert (Hs : state_wf (run_trace t s0)) by (by apply run_trace_wf). specialize (IH Ht).
  destruct (completes p e _) as [c|] eqn:Ec; simpl in *;
    [|unfold ledger_sum at 2; simpl; by rewrite Z.add_0_r].
  unfold acc_at, ledger_sum at 2. rewrite filter_cons, filter_nil.
  destruct (ck c) as [k'|] eqn:Ek; [|rewrite decide_False by done; simpl; lia].
  etrans; [apply (pc_total_acc_le (g c) f cap zero Pk Pv); auto; by apply ew_cpu|].
  destruct (decide (k' = k)) as [->|Hne]; [rewrite decide_True by done|rewrite decide_False by congruence];
    simpl; lia.
Qed.

(** A total that fits the field is exact. *)
Lemma refine_exact (w : Z) (f : V -> Z) (g : Completed -> Z) t s0 k :
  M s0 = ∅ -> f zero = 0 -> (forall v, Pv v -> 0 <= f v) -> (forall c, 0 <= g c) ->
  (forall c v, Pv v -> wrap w (f (upd c v)) = wrap w (f v + g c) /\ f (upd c v) <= f v + g c) ->
  (forall c, wrap w (f (new c)) = wrap w (g c) /\ f (new c) <= g c) ->
  trace_wf t -> state_wf s0 ->
  (size (ledger_keys (ledger t s0)) <= cap)%nat ->
  ledger_sum g k (ledger t s0) < 2 ^ w ->
  pc_total f (M (run_trace t s0)) k = ledger_sum g k (ledger t s0).
Proof.
  intros HM Hz Hf Hg Hupd Hnew Ht Hs0 Hsz Hlt.
  assert (Hc : wrap w (pc_total f (M (run_trace t s0)) k) = wrap w (ledger_sum g k (ledger t s0))).
  { apply refine_total; auto; intros; [by apply Hupd|apply Hnew]. }
  assert (Hle : pc_total f (M (run_trace t s0)) k <= ledger_sum g k (ledger t s0)).
  { apply refine_le; auto; intros; [by apply Hupd|apply Hnew]. }
  assert (Hge : 0 <= pc_total f (M (run_trace t s0)) k).
  { apply (pc_total_nonneg f cap Pk Pv); [|done]. apply M_wf. by apply run_trace_wf. }
  rewrite !wrap_small in Hc by (unfold fits; lia). done.
Qed.
End Refine.

(** ** The outputs of a trace are folds of its ledger *)

Lemma bump_bucket_arr n idx inc l (i : nat) :
  length l = n -> 0 <= idx < Z.of_nat n -> (i < n)%nat ->
  u32 (arr (bump_bucket (Z.of_nat n) idx inc l) i)
  = u32 (arr l i + if bool_decide (idx = Z.of_nat i) then inc else 0).
Proof.
  intros Hl Hi Hin. rewrite bump_bucket_in by done. unfold arr.
  rewrite list_lookup_alter. destruct (lookup_lt_is_Some_2 l i) as [x Hx]; [lia|].
  case_decide as Hd.
  - rewrite bool_decide_true by lia. rewrite Hd, Hx. simpl. by wrap_simpl.
  - rewrite bool_decide_false by lia. by rewrite Z.add_0_r.
Qed.

Lemma arr_zeros n i : arr (replicate n 0) i = 0.
Proof. unfold arr. destruct (replicate n 0 !! i) eqn:E; [|done]. by apply lookup_replicate in E as [-> _]. Qed.

Definition agg_bucket (i : nat) (v : AggValue) : Z := arr (av_bucket_counts v) i.
Definition nccl_bucket (i : nat) (v : NcclAggValue) : Z := arr (nv_bucket_counts v) i.
Definition launch_bucket (i : nat) (v : LaunchAggValue) : Z := arr (lv_bucket_counts v) i.

(** The weight a call adds to bucket [i] of a histogram with bounds [bounds]. *)
Definition cp_bucket_weight (bounds : list Z) (w : Completed -> Z) (i : nat) (c : Completed) : Z :=
  if bool_decide (bucket_ref bounds (cp_duration c) = i) then w c else 0.

Lemma hist_bucket_step bounds w c n l inc i :
  n = S (length bounds) -> length l = n -> (i < n)%nat -> u32 inc = u32 (w c) ->
  u32 (arr (bump_bucket (Z.of_nat n) (Z.of_nat (bucket_ref bounds (cp_duration c))) inc l) i)
  = u32 (arr l i + cp_bucket_weight bounds w i c).
Proof.
  intros Hn Hl Hi Hw. pose proof (bucket_ref_le bounds (cp_duration c)).
  rewrite (bump_bucket_arr n) by (done || lia). apply wrap_add_cong; [done|].
  unfold cp_bucket_weight. repeat case_bool_decide; done || lia.
Qed.

Lemma hist_bucket_first bounds w c n inc i :
  n = S (length bounds) -> (i < n)%nat -> u32 inc = u32 (w c) ->
  u32 (arr (bump_bucket (Z.of_nat n) (Z.of_nat (bucket_ref bounds (cp_duration c))) inc
              (replicate n 0)) i)
  = u32 (cp_bucket_weight bounds w i c).
Proof.
  intros Hn Hi Hw. rewrite (hist_bucket_step bounds w) by (done || apply length_replicate).
  by rewrite arr_zeros.
Qed.

Section Folds.
Context `{LoadCfg}.

(** Maps as userspace hands them to the programs: configured, outputs empty. *)
Record fresh (s : BpfState) : Prop := {
  fr_wf : state_wf s;
  fr_agg : AGGREGATED s = ∅;
  fr_nccl : NCCL_AGG s = ∅;
  fr_launch : LAUNCH_AGG s = ∅;
  fr_events : EVENTS s = [];
  fr_dropped : sumZ (DROPPED s) = 0;
  fr_launch_dropped : sumZ (LAUNCH_DROPPED s) = 0
}.

Lemma AGGREGATED_outputs s s' : outputs s' = outputs s -> AGGREGATED s' = AGGREGATED s.
Proof. by intros [=]. Qed.
Lemma NCCL_AGG_outputs s s' : outputs s' = outputs s -> NCCL_AGG s' = NCCL_AGG s.
Proof. by intros [=]. Qed.
Lemma LAUNCH_AGG_outputs s s' : outputs s' = outputs s -> LAUNCH_AGG s' = LAUNCH_AGG s.
Proof. by intros [=]. Qed.

(** The maps after the start-up writes of userspace are fresh. *)
Lemma configure_fresh rate mode detailed :
  fits 32 rate -> fresh (configure rate mode detailed init_state).
Proof.
  intros Hr. pose proof init_state_wf as Hw.
  split; [by apply configure_wf|..]; unfold configure;
    try (by case_match); case_match; apply sumZ_replicate_0.
Qed.

(** C6: refinement of AGGREGATED.  From fresh maps, after any well-formed trace whose completed
    calls have no more distinct keys than AGGREGATED has entries, the per-key totals over the CPUs that a
    reader of the map sees are the sums over the ledger: each completed call of
    an aggregatable type counts once with its sampling weight, its duration and
    size weighted, in the bucket of its duration.  Totals are modulo the width
    of the fields. *)
Theorem aggregated_refines_ledger s0 t k :
  fresh s0 -> trace_wf t ->
  (size (ledger_keys cp_agg_key (ledger t s0)) <= aggregated_max_entries)%nat ->
  let L := ledger t s0 in
  let m := AGGREGATED (run_trace t s0) in
  u64 (pc_total av_count m k) = u64 (ledger_sum cp_agg_key cp_weight k L) /\
  u64 (pc_total av_duration_sum_ns m k)
    = u64 (ledger_sum cp_agg_key (fun c => cp_duration c * cp_weight c) k L) /\
  u64 (pc_total av_size_sum m k)
    = u64 (ledger_sum cp_agg_key (fun c => en_arg0 (cp_entry c) * cp_weight c) k L) /\
  forall i, (i < 14)%nat ->
    u32 (pc_total (agg_bucket i) m k)
    = u32 (ledger_sum cp_agg_key (cp_bucket_weight CUDA_BUCKET_BOUNDS_NS cp_weight i) k L).
Proof.
  intros Hf Ht Hsz L m.
  assert (R := refine_total AGGREGATED cp_agg_key aggregated_max_entries zero_AggValue
    agg_step agg_first agg_key_ok agg_wf AGGREGATED_outputs emit_exit_AGGREGATED wf_agg).
  split_and!; [| | |intros i Hi]; apply R; try (apply Hf); auto; intros; simpl; wrap_simpl; try done.
  - apply arr_zeros.
  - unfold agg_bucket. simpl. rewrite cuda_bucket_idx_ref.
    apply (hist_bucket_step _ _ _ 14); [done|apply H0|done|by wrap_simpl].
  - unfold agg_bucket. simpl. rewrite cuda_bucket_idx_ref.
    apply (hist_bucket_first _ _ _ 14); [done|done|by wrap_simpl].
Qed.

(** refinement of NCCL_AGG.  The per-key totals are the number of completed
    collectives, their total duration and their total payload in bytes (element
    count times element size of the datatype), and each bucket holds the
    collectives of its duration range. *)
Theorem nccl_agg_refines_ledger s0 t k :
  fresh s0 -> trace_wf t ->
  (size (ledger_keys cp_nccl_key (ledger t s0)) <= nccl_agg_max_entries)%nat ->
  let L := ledger t s0 in
  let m := NCCL_AGG (run_trace t s0) in
  u64 (pc_total nv_count m k) = u64 (ledger_sum cp_nccl_key (fun _ => 1) k L) /\
  u64 (pc_total nv_duration_sum_ns m k) = u64 (ledger_sum cp_nccl_key cp_duration k L) /\
  u64 (pc_total nv_bytes_sum m k) = u64 (ledger_sum cp_nccl_key cp_nccl_bytes k L) /\
  forall i, (i < 12)%nat ->
    u32 (pc_total (nccl_bucket i) m k)
    = u32 (ledger_sum cp_nccl_key (cp_bucket_weight NCCL_BUCKET_BOUNDS_NS (fun _ => 1) i) k L).
Proof.
  intros Hf Ht Hsz L m.
  assert (R := refine_total NCCL_AGG cp_nccl_key nccl_agg_max_entries zero_NcclAggValue
    nccl_step nccl_first nccl_key_ok nccl_wf NCCL_AGG_outputs emit_exit_NCCL_AGG wf_nccl).
  split_and!; [| | |intros i Hi]; apply R; try (apply Hf); auto; intros; simpl; wrap_simpl; try done.
  - apply arr_zeros.
  - unfold nccl_bucket. simpl. rewrite nccl_bucket_idx_ref.
    apply (hist_bucket_step _ (fun _ => 1) _ 12); [done|apply H0|done|done].
  - unfold nccl_bucket. simpl. rewrite nccl_bucket_idx_ref.
    by apply (hist_bucket_first _ (fun _ => 1) _ 12).
Qed.

(** C7: refinement of LAUNCH_AGG.  From fresh maps, after any well-formed trace whose completed
    launches have no more distinct keys than LAUNCH_AGG has entries, the per-key totals are the
    number and total duration of the completed kernel launches of the process, kernel (0 in
    anonymous mode) and stream, and each bucket holds the launches of its duration range.
    Totals are modulo the width of the fields. *)
Theorem launch_agg_refines_ledger s0 t k :
  fresh s0 -> trace_wf t ->
  (size (ledger_keys cp_launch_key (ledger t s0)) <= launch_agg_max_entries)%nat ->
  let L := ledger t s0 in
  let m := LAUNCH_AGG (run_trace t s0) in
  u64 (pc_total lv_count m k) = u64 (ledger_sum cp_launch_key (fun _ => 1) k L) /\
  u64 (pc_total lv_total_duration_ns m k) = u64 (ledger_sum cp_launch_key cp_duration k L) /\
  forall i, (i < 9)%nat ->
    u32 (pc_total (launch_bucket i) m k)
    = u32 (ledger_sum cp_launch_key (cp_bucket_weight KERNEL_BUCKET_BOUNDS_NS (fun _ => 1) i) k L).
Proof.
  intros Hf Ht Hsz L m.
  assert (R := refine_total LAUNCH_AGG cp_launch_key launch_agg_max_entries zero_LaunchAggValue
    launch_step launch_first launch_key_ok launch_wf LAUNCH_AGG_outputs emit_exit_LAUNCH_AGG
    wf_launch).
  split_and!; [| |intros i Hi]; apply R; try (apply Hf); auto; intros; simpl; wrap_simpl; try done.
  - apply arr_zeros.
  - unfold launch_bucket. simpl. rewrite kernel_bucket_idx_ref.
    apply (hist_bucket_step _ (fun _ => 1) _ 9); [done|apply H0|done|done].
  - unfold launch_bucket. simpl. rewrite kernel_bucket_idx_ref.
    by apply (hist_bucket_first _ (fun _ => 1) _ 9).
Qed.
End Folds.

(** ** Witnesses *)

Section Witnesses.
#[local] Existing Instance demo_cfg.

(** Two threads copy on two CPUs at sampling rate 2: the second copy of thread 1
    is sampled out. *)
Definition demo_copies : trace :=
  [(P_cuda_memcpy 0 0 100 1, demo_env 1 1000 0 0);
   (P_cuda_memcpy 0 0 300 1, demo_env 2 1100 1 0);
   (P_cuda_memcpy_ret, demo_env 1 3000 0 0);
   (P_cuda_memcpy_ret, demo_env 2 9000 1 0);
   (P_cuda_memcpy 0 0 500 1, demo_env 1 9500 0 0);
   (P_cuda_memcpy_ret, demo_env 1 9900 0 0)].

Definition demo_collectives : trace :=
  [(P_nccl_all_reduce 0 0 256 7, demo_env 1 1000 0 0);
   (P_nccl_multi_ret, demo_env 1 61000 1 0);
   (P_nccl_count_dtype_3_4 0 0 100 4, demo_env 2 1000 0 0);
   (P_nccl_multi_ret, demo_env 2 2000 0 0)].

Definition demo_launches : trace :=
  [(P_cuda_launch_kernel 777, demo_env 1 1000 0 0);
   (P_cuda_launch_kernel_ret, demo_env 1 3000 0 0);
   (P_cu_launch_kernel 777, demo_env 2 1000 1 0);
   (P_cu_launch_kernel_ret, demo_env 2 8000 1 0)].

Lemma aggregated_refines_ledger_witness :
  fresh (configure 2 0 0 init_state) /\
  u64 (pc_total av_count (AGGREGATED (run_trace demo_copies (configure 2 0 0 init_state)))
         (mkAggKey EVENT_CUDA_MEMCPY 7 1 0 0)) = 4.
Proof.
  assert (Hf : fresh (configure 2 0 0 init_state)) by (apply configure_fresh; fits_const).
  split; [exact Hf|].
  destruct (aggregated_refines_ledger (configure 2 0 0 init_state) demo_copies
    (mkAggKey EVENT_CUDA_MEMCPY 7 1 0 0)) as [-> _].
  - exact Hf.
  - demo_trace_wf.
  - apply (bool_decide_unpack _). vm_compute. exact I.
  - vm_compute. reflexivity.
Defined.

Lemma nccl_agg_refines_ledger_witness :
  u64 (pc_total nv_bytes_sum (NCCL_AGG (run_trace demo_collectives (configure 0 0 0 init_state)))
         (mkAggKey EVENT_NCCL_ALL_REDUCE 7 7 0 0)) = 2048.
Proof.
  destruct (nccl_agg_refines_ledger (configure 0 0 0 init_state) demo_collectives
    (mkAggKey EVENT_NCCL_ALL_REDUCE 7 7 0 0)) as (_ & _ & -> & _).
  - apply configure_fresh. fits_const.
  - demo_trace_wf.
  - apply (bool_decide_unpack _). vm_compute. exact I.
  - vm_compute. reflexivity.
Defined.

Lemma launch_agg_refines_ledger_witness :
  u64 (pc_total lv_total_duration_ns
         (LAUNCH_AGG (run_trace demo_launches (configure 0 0 0 init_state)))
         (mkLaunchKey 7 0 777 0)) = 9000.
Proof.
  destruct (launch_agg_refines_ledger (configure 0 0 0 init_state) demo_launches
    (mkLaunchKey 7 0 777 0)) as (_ & -> & _).
  - apply configure_fresh. fits_const.
  - demo_trace_wf.
  - apply (bool_decide_unpack _). vm_compute. exact I.
  - vm_compute. reflexivity.
Defined.
End Witnesses.
