(* ===== verification/RingLedger.v ===== *)
(** * The ring buffer and the drop counters, against the ledger

    Calls that are not aggregated leave one event in EVENTS or one increment in
    DROPPED; kernel launches leave one count in LAUNCH_AGG or one increment in
    LAUNCH_DROPPED.  Nothing is lost without a trace on these two paths. *)

From S2P Require Import Prelude Events Runtime Probes Step Invariant PerCpu Demo Ledger.

Local Open Scope Z_scope.

Section Ring.
Context `{LoadCfg}.

Lemma emit_exit_launch_frame pid d en e s :
  EVENTS (emit_exit_launch pid d en e s) = EVENTS s /\
  DROPPED (emit_exit_launch pid d en e s) = DROPPED s /\
  NVTX_STACK (emit_exit_launch pid d en e s) = NVTX_STACK s /\
  INFLIGHT (emit_exit_launch pid d en e s) = INFLIGHT s /\
  DETAILED_LAUNCHES (emit_exit_launch pid d en e s) = DETAILED_LAUNCHES s.
Proof. unfold emit_exit_launch. by repeat case_match. Qed.

(** What [emit_exit] does to the ring buffer and its drop counter. *)
Lemma emit_exit_ring e s c :
  completed_at e s = Some c ->
  EVENTS (emit_exit e s) = EVENTS s ++ option_list (cp_ring_event c) /\
  DROPPED (emit_exit e s)
  = if cp_ring_dropped c then bump_dropped (env_cpu e) (DROPPED s) else DROPPED s.
Proof.
  unfold completed_at, emit_exit. destruct (INFLIGHT s !! _) as [en|] eqn:Hen; [|done].
  intros [= <-].
  unfold cp_ring_event, cp_ring_dropped, cp_to_ring, cp_is_launch, cp_event, cp_duration, cp_type,
    cp_pid; cbn [cp_entry cp_env cp_mode cp_detailed cp_marker].
  rewrite duration_max.
  destruct (profi_is_aggregatable _) eqn:Ha; cbn [negb andb].
  { unfold emit_exit_aggregated. case_match; simpl; by rewrite app_nil_r. }
  destruct (profi_is_nccl_event _) eqn:Hn; cbn [negb andb].
  { unfold emit_exit_nccl. case_match; simpl; by rewrite app_nil_r. }
  destruct (en_event_type en =? EVENT_CUDA_LAUNCH_KERNEL) eqn:Hl; cbn [negb orb andb].
  - destruct (emit_exit_launch_frame (pid_of (env_pid_tgid e))
      (Z.max 0 (env_ktime e - en_timestamp_ns en)) en e s) as (E1 & E2 & E3 & E4 & E5).
    rewrite E5. destruct (launch_mode _ s =? 1); cbn [negb orb andb].
    { simpl. by rewrite E1, E2, app_nil_r. }
    destruct (cfg_u32 (DETAILED_LAUNCHES s) =? 1); cbn [negb].
    + unfold emit_exit_event. rewrite E3.
      destruct (env_events_room e); simpl; by rewrite E1, E2, ?app_nil_r.
    + simpl. by rewrite E1, E2, app_nil_r.
  - unfold emit_exit_event. destruct (env_events_room e); simpl; by rewrite ?app_nil_r.
Qed.

Lemma run_EVENTS p e s :
  EVENTS (run p e s) = EVENTS s ++ option_list (completes p e s ≫= cp_ring_event).
Proof.
  rewrite (run_output EVENTS (fun _ c q => q ++ option_list (cp_ring_event c))).
  - destruct (completes p e s); simpl; [done|]. by rewrite app_nil_r.
  - by intros ?? [=].
  - intros e' s' c Hc. by apply emit_exit_ring.
Qed.

Lemma run_DROPPED p e s :
  DROPPED (run p e s)
  = match completes p e s with
    | Some c => if cp_ring_dropped c then bump_dropped (env_cpu e) (DROPPED s) else DROPPED s
    | None => DROPPED s
    end.
Proof.
  apply (run_output DROPPED (fun e c l => if cp_ring_dropped c
                                          then bump_dropped (env_cpu e) l else l)).
  - by intros ?? [=].
  - intros e' s' c Hc. by apply emit_exit_ring.
Qed.

Lemma bump_dropped_sum cpu l :
  array_ok l -> (cpu < NR_CPUS)%nat -> u64 (sumZ (bump_dropped cpu l)) = u64 (sumZ l + 1).
Proof.
  intros [Hl _] Hc. unfold bump_dropped.
  destruct (lookup_lt_is_Some_2 l cpu) as [x Hx]; [lia|]. rewrite Hx, (sumZ_insert _ _ x) by done.
  replace (sumZ l + (u64 (x + 1) - x)) with (sumZ l - x + u64 (x + 1)) by lia.
  wrap_simpl. f_equal. lia.
Qed.

Definition countZ {A} (f : A -> bool) (l : list A) : Z :=
  sumZ ((fun x => if f x then 1 else 0) <$> l).

Lemma countZ_app {A} (f : A -> bool) l1 l2 : countZ f (l1 ++ l2) = countZ f l1 + countZ f l2.
Proof. unfold countZ. by rewrite fmap_app, sumZ_app. Qed.

Lemma ring_ledger s0 t :
  fresh s0 -> trace_wf t ->
  EVENTS (run_trace t s0) = omap cp_ring_event (ledger t s0) /\
  u64 (sumZ (DROPPED (run_trace t s0))) = u64 (countZ cp_ring_dropped (ledger t s0)).
Proof.
  intros Hf Ht. induction t as [|[p e] t IH] using rev_ind.
  { simpl. rewrite fr_events, fr_dropped by done. done. }
  apply trace_wf_snoc in Ht as (Ht & Hp & He). destruct (IH Ht) as [IH1 IH2].
  rewrite run_trace_app, ledger_snoc, omap_app, countZ_app. simpl.
  rewrite run_EVENTS, run_DROPPED, IH1.
  assert (Hs : state_wf (run_trace t s0)) by (apply run_trace_wf; [done|apply fr_wf, Hf]).
  destruct (completes p e _) as [c|] eqn:Ec; simpl; [|rewrite app_nil_r; by rewrite Z.add_0_r].
  split; [f_equal; by destruct (cp_ring_event c)|].
  unfold countZ at 2. simpl. destruct (cp_ring_dropped c); simpl; [|by rewrite Z.add_0_r].
  rewrite bump_dropped_sum by (apply wf_dropped || apply ew_cpu; done).
  by apply wrap_add_cong.
Qed.

(** C8: the ring buffer and DROPPED account for every call routed to the ring.
    After any trace from fresh maps, EVENTS holds exactly the events of the
    ring-routed completed calls that found room, in completion order, and the
    DROPPED counters sum to the number that found none. *)
Theorem ring_refines_ledger s0 t :
  fresh s0 -> trace_wf t ->
  EVENTS (run_trace t s0) = omap cp_ring_event (ledger t s0) /\
  u64 (sumZ (DROPPED (run_trace t s0))) = u64 (countZ cp_ring_dropped (ledger t s0)).
Proof. apply ring_ledger. Qed.

(** ** Launches *)

(** LAUNCH_AGG refuses a key it does not hold when it is full. *)
Definition launch_full (k : LaunchKey) (m : gmap LaunchKey (list LaunchAggValue)) : bool :=
  bool_decide (m !! k = None /\ (launch_agg_max_entries <= size m)%nat).

Lemma emit_exit_launch_dropped pid d en e s :
  env_wf e -> state_wf s ->
  LAUNCH_DROPPED (emit_exit_launch pid d en e s)
  = if launch_full (mkLaunchKey pid 0 (if launch_mode pid s =? 1 then 0 else en_arg0 en)
                      (en_arg2 en)) (LAUNCH_AGG s)
    then bump_dropped (env_cpu e) (LAUNCH_DROPPED s) else LAUNCH_DROPPED s.
Proof.
  intros He Hs. unfold emit_exit_launch, launch_full. set (k := mkLaunchKey _ _ _ _).
  destruct (percpu_lookup (env_cpu e) k (LAUNCH_AGG s)) as [v|] eqn:E.
  - apply bind_Some in E as (slots & Hm & _). rewrite bool_decide_false; [done|].
    by rewrite Hm; intros [? _].
  - apply (percpu_lookup_None _ _ _ _ _ _ (wf_launch s Hs) (ew_cpu e He)) in E.
    unfold percpu_update. rewrite E. case_decide; simpl.
    + rewrite bool_decide_false; [done|lia].
    + rewrite bool_decide_true; [done|]. split; [done|lia].
Qed.

(** One completed launch is counted once, in LAUNCH_AGG or in LAUNCH_DROPPED. *)
Lemma emit_exit_launch_account pid d en e s :
  env_wf e -> state_wf s ->
  u64 (grand_total lv_count (LAUNCH_AGG (emit_exit_launch pid d en e s))
       + sumZ (LAUNCH_DROPPED (emit_exit_launch pid d en e s)))
  = u64 (grand_total lv_count (LAUNCH_AGG s) + sumZ (LAUNCH_DROPPED s) + 1).
Proof.
  intros He Hs. rewrite emit_exit_launch_acc, emit_exit_launch_dropped by done.
  set (k := mkLaunchKey _ _ _ _). rewrite <- wrap_add_l.
  unfold grand_total. rewrite (keyed_total_acc 64 1 (fun _ => lv_count) _ _ _ _ _ _ _ _ _ (wf_launch s Hs) (ew_cpu e He));
    [|done|intros; simpl; by wrap_simpl|done].
  fold (launch_full k (LAUNCH_AGG s)). destruct (launch_full k _); wrap_simpl.
  - rewrite <- wrap_add_r, bump_dropped_sum, wrap_add_r by (apply wf_launch_dropped || apply ew_cpu; done).
    f_equal. lia.
  - f_equal. lia.
Qed.

Lemma emit_exit_account e s c :
  env_wf e -> state_wf s -> completed_at e s = Some c ->
  u64 (grand_total lv_count (LAUNCH_AGG (emit_exit e s)) + sumZ (LAUNCH_DROPPED (emit_exit e s)))
  = u64 (grand_total lv_count (LAUNCH_AGG s) + sumZ (LAUNCH_DROPPED s)
         + if cp_is_launch c then 1 else 0).
Proof.
  intros He Hs. unfold completed_at, emit_exit.
  destruct (INFLIGHT s !! _) as [en|]; [|done]. intros [= <-].
  unfold cp_is_launch, cp_type; cbn [cp_entry]. rewrite duration_max.
  destruct (profi_is_aggregatable _) eqn:Ha; simpl.
  { rewrite (agg_not_launch _ Ha), Z.add_0_r. unfold emit_exit_aggregated. by case_match. }
  destruct (profi_is_nccl_event _) eqn:Hn; simpl.
  { rewrite (nccl_not_launch _ Hn), Z.add_0_r. unfold emit_exit_nccl. by case_match. }
  destruct (_ =? EVENT_CUDA_LAUNCH_KERNEL).
  - rewrite <- (emit_exit_launch_account (pid_of (env_pid_tgid e))
      (Z.max 0 (env_ktime e - en_timestamp_ns en)) en e s) by done.
    case_match; [done|]. unfold emit_exit_event. by case_match.
  - rewrite Z.add_0_r. unfold emit_exit_event. by case_match.
Qed.

Lemma run_launch_account p e s :
  env_wf e -> state_wf s ->
  u64 (grand_total lv_count (LAUNCH_AGG (run p e s)) + sumZ (LAUNCH_DROPPED (run p e s)))
  = u64 (grand_total lv_count (LAUNCH_AGG s) + sumZ (LAUNCH_DROPPED s)
         + countZ cp_is_launch (option_list (completes p e s))).
Proof.
  intros He Hs. unfold completes. destruct (is_exit p) eqn:Hp.
  2:{ pose proof (run_not_exit p e s Hp) as [= _ _ -> _ -> _ _ _ _ _].
      unfold countZ. simpl. by rewrite Z.add_0_r. }
  destruct (run_exit p e s Hp) as (s' & -> & Ho & Hi & Hn & Hw).
  rewrite <- (completed_at_frame e s s' Ho Hi Hn). injection Ho as _ _ <- _ <- _ _ _ _ _.
  destruct (completed_at e s') as [c|] eqn:E.
  - rewrite (emit_exit_account e s' c) by auto. unfold countZ. simpl. f_equal. lia.
  - rewrite emit_exit_none by done. unfold countZ. simpl. by rewrite Z.add_0_r.
Qed.

(** C9: no kernel launch is lost silently.  After any trace from fresh maps, and
    whatever the capacity of LAUNCH_AGG, the launches counted in LAUNCH_AGG
    (over all keys and CPUs) and in LAUNCH_DROPPED together are the completed
    launches of the ledger, modulo 2^64. *)
Theorem launches_accounted s0 t :
  fresh s0 -> trace_wf t ->
  u64 (grand_total lv_count (LAUNCH_AGG (run_trace t s0)) + sumZ (LAUNCH_DROPPED (run_trace t s0)))
  = u64 (countZ cp_is_launch (ledger t s0)).
Proof.
  intros Hf Ht. induction t as [|[p e] t IH] using rev_ind.
  { simpl. unfold grand_total. rewrite fr_launch, fr_launch_dropped, keyed_total_empty by done. done. }
  apply trace_wf_snoc in Ht as (Ht & Hp & He). specialize (IH Ht).
  rewrite run_trace_app, ledger_snoc, countZ_app. simpl.
  assert (Hs : state_wf (run_trace t s0)) by (apply run_trace_wf; [done|apply fr_wf, Hf]).
  rewrite run_launch_account by done. by apply wrap_add_cong.
Qed.
End Ring.

(** ** Witnesses *)

Section Witnesses.
#[local] Existing Instance demo_cfg.

(** Three full-mode launches of three kernels with LAUNCH_AGG of capacity 2;
    the ring buffer is full at the second. *)
Definition demo_ring : trace :=
  [(P_cuda_launch_kernel 11, demo_env 1 1000 0 0);
   (P_cuda_launch_kernel_ret, demo_env 1 3000 0 0);
   (P_cuda_launch_kernel 22, demo_env 1 4000 1 0);
   (P_cuda_launch_kernel_ret, no_room (demo_env 1 5000 1 0));
   (P_cuda_launch_kernel 33, demo_env 2 5000 1 0);
   (P_cuda_launch_kernel_ret, demo_env 2 7000 1 0)].

Lemma ring_refines_ledger_witness :
  ce_addr <$> EVENTS (run_trace demo_ring (configure 0 0 1 init_state)) = [11; 33] /\
  u64 (sumZ (DROPPED (run_trace demo_ring (configure 0 0 1 init_state)))) = 1.
Proof.
  destruct (ring_refines_ledger (configure 0 0 1 init_state) demo_ring) as [-> ->].
  - apply configure_fresh. fits_const.
  - demo_trace_wf.
  - split; vm_compute; reflexivity.
Defined.

Lemma launches_accounted_witness :
  u64 (grand_total lv_count (LAUNCH_AGG (run_trace demo_ring (configure 0 0 1 init_state)))
       + sumZ (LAUNCH_DROPPED (run_trace demo_ring (configure 0 0 1 init_state)))) = 3 /\
  sumZ (LAUNCH_DROPPED (run_trace demo_ring (configure 0 0 1 init_state))) = 1.
Proof.
  split; [|vm_compute; reflexivity].
  rewrite (launches_accounted (configure 0 0 1 init_state) demo_ring).
  - vm_compute. reflexivity.
  - apply configure_fresh. fits_const.
  - demo_trace_wf.
Defined.
End Witnesses.
