(* ===== verification/Calls.v ===== *)
(** * Calls: pairing of entry and return probes

    What the INFLIGHT map does for one thread: a return probe clears the
    thread's entry and nothing else, other threads do not touch it, a nested
    wrapper call is recorded once, sampling keeps one call in [rate] with the
    right weight, and allocation sizes find their way to the matching free. *)

From S2P Require Import Prelude Events Runtime Probes Step Invariant PerCpu Demo Ledger.

Local Open Scope Z_scope.

Section Calls.
Context `{LoadCfg}.

(** ** The entry map *)

Lemma emit_exit_INFLIGHT e s : INFLIGHT (emit_exit e s) = delete (env_pid_tgid e) (INFLIGHT s).
Proof.
  unfold emit_exit. destruct (INFLIGHT s !! env_pid_tgid e) as [en|] eqn:E.
  2:{ by rewrite delete_id. }
  set (d := if _ : bool then _ - _ else _).
  assert (HE : forall s' rc pid tid now, INFLIGHT s' = INFLIGHT s ->
    INFLIGHT (emit_exit_event rc pid tid now d en e s') = delete (env_pid_tgid e) (INFLIGHT s)).
  { intros. unfold emit_exit_event. case_match; simpl; congruence. }
  repeat case_match; simpl; try (apply HE); try done.
  - unfold emit_exit_aggregated. by case_match.
  - unfold emit_exit_nccl. by case_match.
  - unfold emit_exit_launch. by repeat case_match.
  - unfold emit_exit_launch. by repeat case_match.
Qed.

(** A return probe never leaks or disturbs entries.  Whatever branch
    [emit_exit] takes (aggregated, NCCL, launch, ring buffer, ring buffer full),
    afterwards the current thread has no entry, every other thread's entry is
    unchanged, and a second return probe of the thread does nothing. *)
Lemma emit_exit_clears_entry e e' s :
  INFLIGHT (emit_exit e s) = delete (env_pid_tgid e) (INFLIGHT s) /\
  (env_pid_tgid e' = env_pid_tgid e -> emit_exit e' (emit_exit e s) = emit_exit e s).
Proof.
  split; [apply emit_exit_INFLIGHT|]. intros Hid. apply emit_exit_none. unfold completed_at.
  by rewrite emit_exit_INFLIGHT, Hid, lookup_delete_eq.
Qed.

(** The sampling decision of [save_entry]. *)
Definition sampled_in (t : Z) (e : KEnv) (s : BpfState) : bool :=
  if profi_is_aggregatable t && (1 <? cfg_u32 (SAMPLE_RATE s)) then
    match SAMPLE_COUNTER s !! env_cpu e with
    | Some c => c mod cfg_u32 (SAMPLE_RATE s) =? 0
    | None => true
    end
  else true.

Definition entry_of (t a b c : Z) (e : KEnv) : EntryData := mkEntryData (env_ktime e) a b c t 0.

Lemma save_entry_INFLIGHT t a b c e s :
  INFLIGHT (save_entry t a b c e s)
  = match INFLIGHT s !! env_pid_tgid e with
    | Some _ => INFLIGHT s
    | None => if sampled_in t e s
              then lru_update (env_lru_inflight e) (env_pid_tgid e) (entry_of t a b c e) (INFLIGHT s)
              else INFLIGHT s
    end.
Proof.
  unfold save_entry, sampled_in. destruct (INFLIGHT s !! _); [done|].
  destruct (profi_is_aggregatable t); simpl; [|done]. destruct (1 <? _); simpl; [|done].
  destruct (SAMPLE_COUNTER s !! _); simpl; [|done]. by destruct (_ =? 0).
Qed.

Lemma save_entry_guard t a b c e s en :
  INFLIGHT s !! env_pid_tgid e = Some en -> save_entry t a b c e s = s.
Proof. intros E. unfold save_entry. by rewrite E. Qed.

Lemma lru_update_lookup {K V} `{Countable K} (ch : LruChoice K) (k : K) (v : V) (m : gmap K V) :
  lru_fail ch = false -> lru_update ch k v m !! k = Some v.
Proof. intros Hf. unfold lru_update. rewrite Hf. apply lookup_insert_eq. Qed.

Lemma lru_update_other {K V} `{Countable K} (ch : LruChoice K) (k j : K) (v : V) (m : gmap K V) :
  k <> j -> j ∉ lru_evict ch -> lru_update ch k v m !! j = m !! j.
Proof.
  intros Hne Hj. unfold lru_update. case_match; [done|]. rewrite lookup_insert_ne by done.
  destruct (m !! j) as [w|] eqn:E.
  - by apply map_lookup_filter_Some.
  - apply map_lookup_filter_None. by left.
Qed.

(** ** Other threads *)

Definition spares (id : Z) (e : KEnv) : Prop :=
  env_pid_tgid e <> id /\ id ∉ lru_evict (env_lru_inflight e).

Lemma save_entry_other t a b c e s id :
  spares id e -> INFLIGHT (save_entry t a b c e s) !! id = INFLIGHT s !! id.
Proof.
  intros [Hne Hev]. rewrite save_entry_INFLIGHT. repeat case_match; try done.
  by apply lru_update_other.
Qed.

Lemma run_other p e s id : spares id e -> INFLIGHT (run p e s) !! id = INFLIGHT s !! id.
Proof.
  intros Hsp. pose proof Hsp as [Hne Hev]. destruct p; unfold run;
    try (by apply save_entry_other);
    try (rewrite emit_exit_INFLIGHT, lookup_delete_ne by done; done).
  - unfold cuda_malloc. rewrite save_entry_other by done. by case_match.
  - unfold cuda_malloc_ret. rewrite emit_exit_INFLIGHT, lookup_delete_ne by done.
    by rewrite (proj1 (proj2 (record_malloc_size_frame e s))).
  - unfold cuda_free, take_malloc_size. repeat case_match; simplify_eq; by rewrite save_entry_other.
  - unfold cuda_malloc_async. rewrite save_entry_other by done. by case_match.
  - unfold cuda_malloc_async_ret. rewrite emit_exit_INFLIGHT, lookup_delete_ne by done.
    by rewrite (proj1 (proj2 (record_malloc_size_frame e s))).
  - unfold cuda_free_async, take_malloc_size.
    repeat case_match; simplify_eq; by rewrite save_entry_other.
  - unfold cuda_register_function. by repeat case_match.
  - unfold cu_module_get_function. case_match; [done|]. simpl. by apply lru_update_other.
  - unfold cu_module_get_function_ret. repeat case_match; simpl; rewrite ?lookup_delete_ne; done.
  - unfold nvtx_range_push. by case_match.
  - done.
Qed.

Lemma run_trace_other t s id :
  Forall (fun pe => spares id pe.2) t -> INFLIGHT (run_trace t s) !! id = INFLIGHT s !! id.
Proof.
  intros Ht. revert s. induction Ht as [|[p e] t Hsp Ht IH]; intros s; simpl; [done|].
  rewrite IH. by apply run_other.
Qed.

(** ** Entry probes

    The event type and the three saved arguments of an entry probe; the size of a free is the
    one that is remembered for the pointer. *)
Definition opens (p : probe) (e : KEnv) (s : BpfState) : option (Z * Z * Z * Z) :=
  match p with
  | P_cuda_free ptr => Some (EVENT_CUDA_FREE, (take_malloc_size ptr e s).1, 0, 0)
  | P_cuda_free_async ptr stream => Some (EVENT_CUDA_FREE_ASYNC, (take_malloc_size ptr e s).1, 0, stream)
  | P_cuda_malloc _ size => Some (EVENT_CUDA_MALLOC, size, 0, 0)
  | P_cuda_memcpy _ _ count kind => Some (EVENT_CUDA_MEMCPY, count, kind, 0)
  | P_cuda_memcpy_async _ _ count kind stream => Some (EVENT_CUDA_MEMCPY_ASYNC, count, kind, stream)
  | P_cuda_launch_kernel func => Some (EVENT_CUDA_LAUNCH_KERNEL, func, 0, 0)
  | P_cuda_malloc_async _ size stream => Some (EVENT_CUDA_MALLOC_ASYNC, size, 0, stream)
  | P_cu_launch_kernel func => Some (EVENT_CUDA_LAUNCH_KERNEL, func, 0, 0)
  | P_cu_launch_kernel_ex _ func => Some (EVENT_CUDA_LAUNCH_KERNEL, func, 0, 0)
  | P_cu_launch_cooperative_kernel func => Some (EVENT_CUDA_LAUNCH_KERNEL, func, 0, (PT_REGS_PARM_STACK e 8))
  | P_cu_graph_launch graph stream => Some (EVENT_CUDA_LAUNCH_KERNEL, graph, 0, stream)
  | P_cuda_stream_sync stream => Some (EVENT_CUDA_STREAM_SYNC, 0, 0, stream)
  | P_cuda_event_sync event => Some (EVENT_CUDA_EVENT_SYNC, event, 0, 0)
  | P_cuda_malloc_host _ size => Some (EVENT_CUDA_MALLOC_HOST, size, 0, 0)
  | P_cuda_free_host ptr => Some (EVENT_CUDA_FREE_HOST, ptr, 0, 0)
  | P_cuda_memset _ _ count => Some (EVENT_CUDA_MEMSET, count, 0, 0)
  | P_cuda_memset_async _ _ count stream => Some (EVENT_CUDA_MEMSET_ASYNC, count, 0, stream)
  | P_cuda_graph_launch graph stream => Some (EVENT_CUDA_GRAPH_LAUNCH, graph, 0, stream)
  | P_cuda_graph_instantiate => Some (EVENT_CUDA_GRAPH_INSTANTIATE, 0, 0, 0)
  | P_cu_module_load_data => Some (EVENT_CUDA_MODULE_LOAD, 0, 0, 0)
  | P_nccl_count_dtype_3_4 _ _ count datatype => Some ((u32 (env_cookie e)), count, datatype, 0)
  | P_nccl_count_dtype_2_3 _ count datatype => Some ((u32 (env_cookie e)), count, datatype, 0)
  | P_nccl_all_reduce _ _ count datatype => Some (EVENT_NCCL_ALL_REDUCE, count, datatype, 0)
  | P_nccl_all_gather _ _ count datatype => Some (EVENT_NCCL_ALL_GATHER, count, datatype, 0)
  | P_nccl_reduce_scatter _ _ count datatype => Some (EVENT_NCCL_REDUCE_SCATTER, count, datatype, 0)
  | P_nccl_broadcast _ _ count datatype => Some (EVENT_NCCL_BROADCAST, count, datatype, 0)
  | P_nccl_send _ count datatype => Some (EVENT_NCCL_SEND, count, datatype, 0)
  | P_nccl_recv _ count datatype => Some (EVENT_NCCL_RECV, count, datatype, 0)
  | _ => None
  end.

Lemma take_malloc_size_frame ptr e s :
  INFLIGHT (take_malloc_size ptr e s).2 = INFLIGHT s /\
  SAMPLE_RATE (take_malloc_size ptr e s).2 = SAMPLE_RATE s /\
  SAMPLE_COUNTER (take_malloc_size ptr e s).2 = SAMPLE_COUNTER s.
Proof. unfold take_malloc_size. by repeat case_match. Qed.

Lemma opens_run p e s t a b c :
  opens p e s = Some (t, a, b, c) ->
  exists s', run p e s = save_entry t a b c e s' /\ INFLIGHT s' = INFLIGHT s /\
             SAMPLE_RATE s' = SAMPLE_RATE s /\ SAMPLE_COUNTER s' = SAMPLE_COUNTER s.
Proof.
  destruct p; try done; intros [= <- <- <- <-]; unfold run;
    first [ by exists s
          | unfold cuda_free, cuda_free_async; pose proof (take_malloc_size_frame ptr e s) as (? & ? & ?);
            destruct (take_malloc_size ptr e s) as [sz s']; by exists s'
          | eexists; split; [reflexivity|]; by case_match ].
Qed.

Lemma opens_INFLIGHT p e s t a b c :
  opens p e s = Some (t, a, b, c) ->
  INFLIGHT (run p e s)
  = match INFLIGHT s !! env_pid_tgid e with
    | Some _ => INFLIGHT s
    | None => if sampled_in t e s
              then lru_update (env_lru_inflight e) (env_pid_tgid e) (entry_of t a b c e) (INFLIGHT s)
              else INFLIGHT s
    end.
Proof.
  intros (s' & -> & Hi & Hr & Hc)%opens_run. rewrite save_entry_INFLIGHT.
  unfold sampled_in. by rewrite Hi, Hr, Hc.
Qed.

Lemma exit_INFLIGHT p e s :
  is_exit p = true -> INFLIGHT (run p e s) = delete (env_pid_tgid e) (INFLIGHT s).
Proof.
  intros (s' & -> & _ & Hi & _)%(run_exit p e s). by rewrite emit_exit_INFLIGHT, Hi.
Qed.

Lemma completes_exit p e s en :
  is_exit p = true -> INFLIGHT s !! env_pid_tgid e = Some en ->
  exists c, completes p e s = Some c /\ cp_entry c = en /\ cp_env c = e /\
            cp_rate c = cfg_u32 (SAMPLE_RATE s).
Proof. intros Hp Hen. unfold completes, completed_at. rewrite Hp, Hen. by eexists. Qed.

Lemma completes_none p e s : INFLIGHT s !! env_pid_tgid e = None -> completes p e s = None.
Proof. intros Hen. unfold completes, completed_at. rewrite Hen. by case_match. Qed.

(** Programs that leave the entry of their own thread alone: all but the return probes and the two
    of cuModuleGetFunction, which use the entry of the thread for themselves. *)
Definition leaves_entry (p : probe) : bool :=
  match p with
  | P_cu_module_get_function _ _ _ | P_cu_module_get_function_ret => false
  | _ => negb (is_exit p)
  end.

Definition keeps_entry (id : Z) (pe : probe * KEnv) : Prop :=
  spares id pe.2 \/ env_pid_tgid pe.2 = id /\ leaves_entry pe.1 = true.

Lemma run_own p e s en :
  leaves_entry p = true -> INFLIGHT s !! env_pid_tgid e = Some en ->
  INFLIGHT (run p e s) !! env_pid_tgid e = Some en.
Proof.
  intros Hp Hen. destruct (opens p e s) as [[[[t a] b] c]|] eqn:Ho.
  - by rewrite (opens_INFLIGHT _ _ _ _ _ _ _ Ho), Hen.
  - destruct p; try done; unfold run.
    + unfold cuda_register_function. by repeat case_match.
    + unfold nvtx_range_push. by case_match.
Qed.

Lemma run_trace_keeps_entry t s id en :
  Forall (keeps_entry id) t -> INFLIGHT s !! id = Some en -> INFLIGHT (run_trace t s) !! id = Some en.
Proof.
  intros Ht. revert s. induction Ht as [|[p e] t Hk Ht IH]; intros s Hs; simpl; [done|]. apply IH.
  destruct Hk as [Hsp|[<- Hl]]; [by rewrite run_other|by apply run_own].
Qed.

(** C10: pairing.  A thread with no call in flight enters a traced function, the call is sampled
    in and INFLIGHT takes its entry.  Other threads run whatever probes meanwhile, on any CPU, none
    of which evicts the entry; the thread itself may enter further traced functions, but runs no
    return probe and no probe of cuModuleGetFunction.  Then its next return probe completes
    exactly this call: the ledger gets the type and the arguments seen at entry (of a free, the
    size remembered for the pointer) and the time between the two probes, and the thread has no
    entry any more. *)
Theorem call_pairing p1 e1 t' p2 e2 s t a b c :
  opens p1 e1 s = Some (t, a, b, c) ->
  is_exit p2 = true -> env_pid_tgid e2 = env_pid_tgid e1 ->
  INFLIGHT s !! env_pid_tgid e1 = None ->
  sampled_in t e1 s = true -> lru_fail (env_lru_inflight e1) = false ->
  Forall (keeps_entry (env_pid_tgid e1)) t' ->
  exists r, completes p2 e2 (run_trace ((p1, e1) :: t') s) = Some r /\
    cp_entry r = mkEntryData (env_ktime e1) a b c t 0 /\
    cp_duration r = Z.max 0 (env_ktime e2 - env_ktime e1) /\
    INFLIGHT (run_trace ((p1, e1) :: t' ++ [(p2, e2)]) s) !! env_pid_tgid e1 = None.
Proof.
  intros Hop Hex Hid Hnone Hsam Hlru Hsp. simpl.
  assert (Hen : INFLIGHT (run_trace t' (run p1 e1 s)) !! env_pid_tgid e2
                = Some (entry_of t a b c e1)).
  { rewrite Hid. apply run_trace_keeps_entry; [done|].
    rewrite (opens_INFLIGHT _ _ _ _ _ _ _ Hop), Hnone, Hsam. by apply lru_update_lookup. }
  destruct (completes_exit p2 e2 _ _ Hex Hen) as (r & Hr & Hr1 & Hr2 & _).
  exists r. split; [done|]. split; [done|]. split.
  - unfold cp_duration. by rewrite Hr1, Hr2.
  - rewrite run_trace_app. simpl. rewrite exit_INFLIGHT by done. by rewrite Hid, lookup_delete_eq.
Qed.

(** a wrapper and the function it calls are recorded once.  When an entry
    probe fires inside a traced call of the same thread, both return probes
    together complete one call: the inner return probe completes the outer
    call's entry and the outer return probe completes nothing.  The recorded
    duration ends at the inner return. *)
Theorem nested_call_recorded_once p1 e1 p2 e2 x2 e3 x1 e4 s t a b c t2 a2 b2 c2 :
  opens p1 e1 s = Some (t, a, b, c) -> opens p2 e2 (run p1 e1 s) = Some (t2, a2, b2, c2) ->
  is_exit x1 = true -> is_exit x2 = true ->
  env_pid_tgid e2 = env_pid_tgid e1 -> env_pid_tgid e3 = env_pid_tgid e1 ->
  env_pid_tgid e4 = env_pid_tgid e1 ->
  INFLIGHT s !! env_pid_tgid e1 = None ->
  sampled_in t e1 s = true -> lru_fail (env_lru_inflight e1) = false ->
  exists r, ledger [(p1, e1); (p2, e2); (x2, e3); (x1, e4)] s = [r] /\
    cp_entry r = mkEntryData (env_ktime e1) a b c t 0 /\ cp_env r = e3.
Proof.
  intros Ho1 Ho2 Hx1 Hx2 H2 H3 H4 Hnone Hsam Hlru.
  assert (He1 : INFLIGHT (run p1 e1 s) !! env_pid_tgid e1 = Some (entry_of t a b c e1)).
  { rewrite (opens_INFLIGHT _ _ _ _ _ _ _ Ho1), Hnone, Hsam. by apply lru_update_lookup. }
  assert (He2 : INFLIGHT (run p2 e2 (run p1 e1 s)) !! env_pid_tgid e1 = Some (entry_of t a b c e1)).
  { by rewrite (opens_INFLIGHT _ _ _ _ _ _ _ Ho2), H2, He1. }
  assert (Hn1 : completes p1 e1 s = None) by (by apply completes_none).
  assert (Hn2 : completes p2 e2 (run p1 e1 s) = None).
  { unfold completes. destruct p2; try done; by simpl in Ho2. }
  rewrite <- H3 in He2.
  destruct (completes_exit x2 e3 _ _ Hx2 He2) as (r & Hr & Hr1 & Hr2 & _).
  exists r. split; [|done]. cbn [ledger]. rewrite Hn1, Hn2, Hr, completes_none; [done|].
  rewrite exit_INFLIGHT by done. by rewrite H4, H3, lookup_delete_eq.
Qed.

(** ** Sampling *)

(** One call of a thread: its entry probe and its return probe. *)
Record call := mkCall { call_in : probe; call_env : KEnv; call_out : probe; call_env' : KEnv }.

Definition call_trace (k : call) : trace :=
  [(call_in k, call_env k); (call_out k, call_env' k)].

(** A call of thread [id] to an aggregatable function, entered on [cpu]. *)
Record agg_call (id : Z) (cpu : nat) (k : call) : Prop := {
  ac_opens : exists t, profi_is_aggregatable t = true /\
    forall s, exists a b c, opens (call_in k) (call_env k) s = Some (t, a, b, c);
  ac_exit : is_exit (call_out k) = true;
  ac_id : env_pid_tgid (call_env k) = id;
  ac_id' : env_pid_tgid (call_env' k) = id;
  ac_cpu : env_cpu (call_env k) = cpu;
  ac_lru : lru_fail (env_lru_inflight (call_env k)) = false
}.

Lemma emit_exit_counter e s : SAMPLE_COUNTER (emit_exit e s) = SAMPLE_COUNTER s.
Proof.
  unfold emit_exit, emit_exit_aggregated, emit_exit_nccl, emit_exit_launch, emit_exit_event.
  by repeat case_match.
Qed.

Lemma exit_counter p e s : is_exit p = true -> SAMPLE_COUNTER (run p e s) = SAMPLE_COUNTER s.
Proof.
  assert (Hr : SAMPLE_COUNTER (record_malloc_size e s) = SAMPLE_COUNTER s).
  { unfold record_malloc_size. by repeat case_match. }
  destruct p; try done; intros _; unfold run;
    first [apply emit_exit_counter | by (etrans; [apply emit_exit_counter|])].
Qed.

Lemma exit_rate p e s : is_exit p = true -> SAMPLE_RATE (run p e s) = SAMPLE_RATE s.
Proof.
  intros (s' & -> & Ho & _)%(run_exit p e s). injection Ho as _ _ _ _ _ _ <- _ _ _.
  unfold emit_exit, emit_exit_aggregated, emit_exit_nccl, emit_exit_launch, emit_exit_event.
  by repeat case_match.
Qed.

(** One call under sampling: recorded iff the CPU's counter is a multiple of
    the rate, and the counter advances by one. *)
Lemma sampled_call id cpu k s r c0 :
  agg_call id cpu k -> cfg_u32 (SAMPLE_RATE s) = r -> 1 < r ->
  SAMPLE_COUNTER s !! cpu = Some c0 -> 0 <= c0 -> c0 + 1 < 2 ^ 64 ->
  INFLIGHT s !! id = None ->
  let s' := run_trace (call_trace k) s in
  SAMPLE_RATE s' = SAMPLE_RATE s /\ SAMPLE_COUNTER s' !! cpu = Some (c0 + 1) /\
  INFLIGHT s' !! id = None /\
  cp_weight <$> ledger (call_trace k) s = if c0 mod r =? 0 then [r] else [].
Proof.
  intros [(t & Hagg & Ho) Hex Hid Hid' Hcpu Hlru] Hr Hr1 Hc0 Hpos Hlt Hnone.
  destruct (Ho s) as (a & b & c & Hop). clear Ho.
  unfold call_trace. cbn [run_trace ledger]. destruct (opens_run _ _ s _ _ _ _ Hop)
    as (s0 & Hrun & Hi & Hra & Hco).
  assert (Hsam : sampled_in t (call_env k) s = (c0 mod r =? 0)).
  { unfold sampled_in. rewrite Hagg, Hr. rewrite (proj2 (Z.ltb_lt 1 r)) by lia. simpl.
    by rewrite Hcpu, Hc0. }
  assert (Hent : SAMPLE_RATE (run (call_in k) (call_env k) s) = SAMPLE_RATE s /\
                 SAMPLE_COUNTER (run (call_in k) (call_env k) s) !! cpu = Some (c0 + 1)).
  { rewrite Hrun. unfold save_entry. rewrite Hi, Hid, Hnone, Hagg, Hra, Hr.
    rewrite (proj2 (Z.ltb_lt 1 r)) by lia. rewrite Hco, Hcpu, Hc0.
    assert (Hl : <[cpu:=u64 (c0 + 1)]> (SAMPLE_COUNTER s) !! cpu = Some (c0 + 1)).
    { rewrite list_lookup_insert_eq by (by eapply lookup_lt_Some).
      f_equal. apply wrap_small. unfold fits. lia. }
    case_match; simpl; rewrite Hra, Hco; done. }
  destruct Hent as [Hrate Hcnt].
  rewrite exit_rate, exit_counter, exit_INFLIGHT by done. rewrite Hid'.
  split_and!; [done|done|apply lookup_delete_eq|].
  rewrite completes_none by (by rewrite Hid). simpl. rewrite app_nil_r.
  pose proof (opens_INFLIGHT _ _ s _ _ _ _ Hop) as Hin. rewrite Hid, Hnone, Hsam in Hin.
  destruct (c0 mod r =? 0).
  - assert (Hen : INFLIGHT (run (call_in k) (call_env k) s) !! env_pid_tgid (call_env' k)
                  = Some (entry_of t a b c (call_env k))).
    { rewrite Hin, Hid'. by apply lru_update_lookup. }
    destruct (completes_exit _ _ _ _ Hex Hen) as (q & -> & _ & _ & Hq).
    rewrite Hrate, Hr in Hq. simpl. unfold cp_weight. rewrite Hq.
    by rewrite (proj2 (Z.ltb_lt 1 r)) by lia.
  - by rewrite completes_none by (by rewrite Hin, Hid').
Qed.

(** Number of multiples of [r] below [x]. *)
Definition multiples_below (r x : Z) : Z := (x + r - 1) / r.

Lemma multiples_below_succ r x :
  1 < r -> 0 <= x -> multiples_below r (x + 1)
  = multiples_below r x + if x mod r =? 0 then 1 else 0.
Proof.
  intros Hr Hx. unfold multiples_below.
  pose proof (Z.div_mod x r ltac:(lia)) as Hdm. pose proof (Z.mod_pos_bound x r ltac:(lia)) as Hmb.
  case_Zb.
  - rewrite <- (Z.div_unique (x + 1 + r - 1) r (x / r + 1) 0) by lia.
    rewrite <- (Z.div_unique (x + r - 1) r (x / r) (r - 1)) by lia. lia.
  - rewrite <- (Z.div_unique (x + 1 + r - 1) r (x / r + 1) (x mod r)) by lia.
    rewrite <- (Z.div_unique (x + r - 1) r (x / r + 1) (x mod r - 1)) by lia. lia.
Qed.

Lemma sampling_sum id cpu ks s r c0 :
  Forall (agg_call id cpu) ks -> cfg_u32 (SAMPLE_RATE s) = r -> 1 < r ->
  SAMPLE_COUNTER s !! cpu = Some c0 -> 0 <= c0 -> c0 + Z.of_nat (length ks) < 2 ^ 64 ->
  INFLIGHT s !! id = None ->
  sumZ (cp_weight <$> ledger (mjoin (call_trace <$> ks)) s)
  = r * (multiples_below r (c0 + Z.of_nat (length ks)) - multiples_below r c0).
Proof.
  intros Hks Hr Hr1. revert s c0 Hr.
  induction Hks as [|k ks Hk Hks IH]; intros s c0 Hr Hc0 Hpos Hlt Hnone.
  { simpl. rewrite Z.add_0_r. lia. }
  cbn [length] in Hlt.
  destruct (sampled_call id cpu k s r c0) as (HA & HB & HC & HD); auto; [lia|].
  change (mjoin (call_trace <$> k :: ks)) with (call_trace k ++ mjoin (call_trace <$> ks)).
  rewrite ledger_app, fmap_app, sumZ_app, HD. cbn [length].
  rewrite (IH _ (c0 + 1)); [|by rewrite HA|done|lia|lia|done].
  replace (c0 + Z.of_nat (S (length ks))) with (c0 + 1 + Z.of_nat (length ks)) by lia.
  rewrite (multiples_below_succ r c0) by lia. case_Zb; simpl; lia.
Qed.

(** C32: sampling on one CPU is unbiased to within one period.  A thread with no call in flight
    makes [n] calls of aggregatable functions one after the other, entering all of them on the
    same CPU, at a sampling rate [r] above 1, and no other probe runs in between; INFLIGHT takes
    the entries, and the counter of the CPU does not wrap.  Then the weights of the recorded calls
    add up to a multiple of [r] that differs from [n] by less than [r]. *)
Theorem sampling_weight_error id cpu ks s r c0 :
  Forall (agg_call id cpu) ks -> cfg_u32 (SAMPLE_RATE s) = r -> 1 < r ->
  SAMPLE_COUNTER s !! cpu = Some c0 -> 0 <= c0 -> c0 + Z.of_nat (length ks) < 2 ^ 64 ->
  INFLIGHT s !! id = None ->
  let n := Z.of_nat (length ks) in
  let w := sumZ (cp_weight <$> ledger (mjoin (call_trace <$> ks)) s) in
  n - r < w < n + r /\ (r | w).
Proof.
  intros Hks Hr Hr1 Hc0 Hpos Hlt Hnone n w.
  assert (Hw : w = r * (multiples_below r (c0 + n) - multiples_below r c0))
    by (by eapply sampling_sum).
  rewrite Hw. split; [|by exists (multiples_below r (c0 + n) - multiples_below r c0); lia].
  unfold multiples_below.
  pose proof (Z.div_mod (c0 + n + r - 1) r ltac:(lia)).
  pose proof (Z.mod_pos_bound (c0 + n + r - 1) r ltac:(lia)).
  pose proof (Z.div_mod (c0 + r - 1) r ltac:(lia)).
  pose proof (Z.mod_pos_bound (c0 + r - 1) r ltac:(lia)).
  lia.
Qed.
End Calls.

(** ** Witnesses *)

Section Witnesses.
#[local] Existing Instance demo_cfg.

Lemma call_pairing_witness :
  exists r, completes P_cuda_memcpy_ret (demo_env 1 3000 1 0)
      (run_trace [(P_cuda_memcpy 0 0 100 1, demo_env 1 1000 0 0);
                  (P_cuda_stream_sync 5, demo_env 2 1500 0 0);
                  (P_cuda_memset 0 0 8, demo_env 1 1600 0 0)] init_state) = Some r /\
    cp_duration r = 2000.
Proof.
  destruct (call_pairing (P_cuda_memcpy 0 0 100 1) (demo_env 1 1000 0 0)
    [(P_cuda_stream_sync 5, demo_env 2 1500 0 0); (P_cuda_memset 0 0 8, demo_env 1 1600 0 0)] P_cuda_memcpy_ret (demo_env 1 3000 1 0)
    init_state EVENT_CUDA_MEMCPY 100 1 0) as (r & Hr & _ & Hd & _); try reflexivity.
  - apply Forall_cons_2; [left|apply Forall_singleton; right; split; reflexivity].
    split; [apply (bool_decide_unpack _); vm_compute; exact I|]. apply not_elem_of_empty.
  - exists r. split; [exact Hr|]. rewrite Hd. reflexivity.
Defined.

(** cudaLaunchKernel calling cuLaunchKernel: one record, of the outer call. *)
Lemma nested_call_recorded_once_witness :
  exists r, ledger [(P_cuda_launch_kernel 11, demo_env 1 1000 0 0);
                    (P_cu_launch_kernel 99, demo_env 1 1100 0 0);
                    (P_cu_launch_kernel_ret, demo_env 1 1200 0 0);
                    (P_cuda_launch_kernel_ret, demo_env 1 5000 0 0)] init_state = [r] /\
    cp_entry r = mkEntryData 1000 11 0 0 EVENT_CUDA_LAUNCH_KERNEL 0 /\ cp_duration r = 200.
Proof.
  destruct (nested_call_recorded_once (P_cuda_launch_kernel 11) (demo_env 1 1000 0 0)
    (P_cu_launch_kernel 99) (demo_env 1 1100 0 0) P_cu_launch_kernel_ret (demo_env 1 1200 0 0)
    P_cuda_launch_kernel_ret (demo_env 1 5000 0 0) init_state
    EVENT_CUDA_LAUNCH_KERNEL 11 0 0 EVENT_CUDA_LAUNCH_KERNEL 99 0 0)
    as (r & Hl & He & Hv); try reflexivity.
  exists r. split; [exact Hl|]. split; [exact He|].
  unfold cp_duration. rewrite He, Hv. reflexivity.
Defined.

Definition demo_call (n : Z) : call :=
  mkCall (P_cuda_memcpy 0 0 n 1) (demo_env 1 (1000 * n) 0 0)
         P_cuda_memcpy_ret (demo_env 1 (1000 * n + 500) 1 0).

(** Five calls at rate 3: two are recorded, with weight 6. *)
Lemma sampling_weight_error_witness :
  let w := sumZ (cp_weight <$> ledger (mjoin (call_trace <$> (demo_call <$> [1; 2; 3; 4; 5])))
                   (configure 3 0 0 init_state)) in
  5 - 3 < w < 5 + 3 /\ w = 6.
Proof.
  intros w. split; [|vm_compute; reflexivity].
  destruct (sampling_weight_error (Z.shiftl 7 32 + 1) 0 (demo_call <$> [1; 2; 3; 4; 5])
    (configure 3 0 0 init_state) 3 0) as [Hb _].
  - apply Forall_fmap, Forall_forall. intros n _. split; try reflexivity.
    exists EVENT_CUDA_MEMCPY. split; [reflexivity|]. intros s. exists n, 1, 0. reflexivity.
  - reflexivity.
  - lia.
  - reflexivity.
  - lia.
  - rewrite length_fmap. simpl. lia.
  - reflexivity.
  - rewrite length_fmap in Hb. exact Hb.
Defined.
End Witnesses.
