(* ===== verification/Alloc.v ===== *)
(** * Allocation sizes

    cudaFree is not told the size of what it frees, so the malloc return probes
    remember sizes by device pointer in MALLOC_SIZES and the free probes take
    them back.  The theorems state when the size survives the trip and when it
    does not. *)

From S2P Require Import Prelude Events Runtime Probes Step Invariant PerCpu Demo Ledger Calls.

Local Open Scope Z_scope.

Section Alloc.
Context `{LoadCfg}.

Definition alloc_key (id addr : Z) : MallocKey := mkMallocKey (pid_of id) 0 addr.

(** ** What each program does to MALLOC_SIZES *)

Lemma save_entry_MALLOC t a b c e s :
  MALLOC_SIZES (save_entry t a b c e s) = MALLOC_SIZES s /\
  MALLOC_PTRS (save_entry t a b c e s) = MALLOC_PTRS s.
Proof. unfold save_entry. by repeat case_match. Qed.

Lemma emit_exit_MALLOC e s :
  MALLOC_SIZES (emit_exit e s) = MALLOC_SIZES s /\ MALLOC_PTRS (emit_exit e s) = MALLOC_PTRS s.
Proof.
  unfold emit_exit, emit_exit_aggregated, emit_exit_nccl, emit_exit_launch, emit_exit_event.
  by repeat case_match.
Qed.

Lemma record_malloc_size_sizes e s pp en d :
  MALLOC_PTRS s !! env_pid_tgid e = Some pp ->
  INFLIGHT s !! env_pid_tgid e = Some en ->
  env_user_u64 e pp = Some d -> d <> 0 ->
  MALLOC_SIZES (record_malloc_size e s)
  = lru_update (env_lru_malloc_sizes e) (alloc_key (env_pid_tgid e) d) (en_arg0 en) (MALLOC_SIZES s).
Proof.
  intros Hp Hi Hd Hne. unfold record_malloc_size. rewrite Hp. simpl. rewrite Hi, Hd.
  by rewrite (proj2 (Z.eqb_neq d 0) Hne).
Qed.

Lemma record_malloc_size_no_entry e s :
  INFLIGHT s !! env_pid_tgid e = None -> MALLOC_SIZES (record_malloc_size e s) = MALLOC_SIZES s.
Proof. intros Hi. unfold record_malloc_size. case_match; [|done]. simpl. by rewrite Hi. Qed.

Lemma take_malloc_size_hit ptr e s sz :
  ptr <> 0 -> MALLOC_SIZES s !! alloc_key (env_pid_tgid e) ptr = Some sz ->
  take_malloc_size ptr e s = (sz, upd_MALLOC_SIZES (delete (alloc_key (env_pid_tgid e) ptr)) s).
Proof.
  intros Hne Hk. unfold take_malloc_size, alloc_key in *. rewrite (proj2 (Z.eqb_neq ptr 0) Hne).
  simpl. by rewrite Hk.
Qed.

(** ** The two mallocs and the two frees *)

Definition malloc_probe (pp size : Z) (p : probe) : Prop :=
  p = P_cuda_malloc pp size \/ exists stream, p = P_cuda_malloc_async pp size stream.
Definition malloc_ret_probe (p : probe) : Prop :=
  p = P_cuda_malloc_ret \/ p = P_cuda_malloc_async_ret.
Definition free_probe (ptr : Z) (p : probe) : Prop :=
  p = P_cuda_free ptr \/ exists stream, p = P_cuda_free_async ptr stream.

(** The event type a malloc or free probe saves. *)
Definition alloc_event (p : probe) : Z :=
  match p with
  | P_cuda_malloc _ _ => EVENT_CUDA_MALLOC
  | P_cuda_malloc_async _ _ _ => EVENT_CUDA_MALLOC_ASYNC
  | P_cuda_free _ => EVENT_CUDA_FREE
  | _ => EVENT_CUDA_FREE_ASYNC
  end.

Lemma malloc_in pp size p e s :
  malloc_probe pp size p -> pp <> 0 ->
  lru_fail (env_lru_malloc_ptrs e) = false -> lru_fail (env_lru_inflight e) = false ->
  INFLIGHT s !! env_pid_tgid e = None ->
  MALLOC_SIZES (run p e s) = MALLOC_SIZES s /\
  MALLOC_PTRS (run p e s) !! env_pid_tgid e = Some pp /\
  match INFLIGHT (run p e s) !! env_pid_tgid e with
  | Some en => sampled_in (alloc_event p) e s = true /\ en_arg0 en = size
  | None => sampled_in (alloc_event p) e s = false
  end.
Proof.
  intros Hp Hne Hlp Hli Hnone.
  assert (Hop : exists stream, opens p e s = Some (alloc_event p, size, 0, stream)).
  { destruct Hp as [->|[stream ->]]; simpl; eauto. }
  destruct Hop as [stream Hop]. rewrite (opens_INFLIGHT _ _ _ _ _ _ _ Hop), Hnone.
  assert (HM : MALLOC_SIZES (run p e s) = MALLOC_SIZES s /\
               MALLOC_PTRS (run p e s) !! env_pid_tgid e = Some pp).
  { destruct Hp as [->|[stream' ->]]; unfold run, cuda_malloc, cuda_malloc_async;
      rewrite (proj2 (Z.eqb_neq pp 0) Hne); simpl;
      rewrite (proj1 (save_entry_MALLOC _ _ _ _ _ _)), (proj2 (save_entry_MALLOC _ _ _ _ _ _));
      simpl; by rewrite lru_update_lookup. }
  destruct HM as [HM1 HM2]. split; [done|]. split; [done|].
  destruct (sampled_in _ e s); [by rewrite lru_update_lookup|by rewrite Hnone].
Qed.

Lemma malloc_ret_sizes p e s :
  malloc_ret_probe p -> MALLOC_SIZES (run p e s) = MALLOC_SIZES (record_malloc_size e s).
Proof.
  intros [->| ->]; unfold run, cuda_malloc_ret, cuda_malloc_async_ret;
    apply (proj1 (emit_exit_MALLOC _ _)).
Qed.

Lemma free_in ptr p e s sz :
  free_probe ptr p -> ptr <> 0 ->
  MALLOC_SIZES s !! alloc_key (env_pid_tgid e) ptr = Some sz ->
  exists stream s', run p e s = save_entry (alloc_event p) sz 0 stream e s' /\
    s' = upd_MALLOC_SIZES (delete (alloc_key (env_pid_tgid e) ptr)) s.
Proof.
  intros Hp Hne Hk. destruct Hp as [->|[stream ->]]; unfold run, cuda_free, cuda_free_async;
    rewrite (take_malloc_size_hit ptr e s sz) by done; by repeat eexists.
Qed.

(** ** Other activity between malloc and free *)

(** The allocation whose size a malloc return remembers: the word at the address that the entry
    probe of the thread saw; and the allocation whose size a free takes. *)
Definition records (p : probe) (e : KEnv) (s : BpfState) : option MallocKey :=
  match p with
  | P_cuda_malloc_ret | P_cuda_malloc_async_ret =>
      pp ← MALLOC_PTRS s !! env_pid_tgid e;
      d ← env_user_u64 e pp;
      Some (alloc_key (env_pid_tgid e) d)
  | _ => None
  end.

Definition takes (p : probe) (e : KEnv) : option MallocKey :=
  match p with
  | P_cuda_free ptr | P_cuda_free_async ptr _ => Some (alloc_key (env_pid_tgid e) ptr)
  | _ => None
  end.

(** A program run that does not concern allocation [mk]: no malloc of the process returns the same
    address, the process does not free it, and its size is not evicted. *)
Definition keeps_alloc (mk : MallocKey) (p : probe) (e : KEnv) (s : BpfState) : Prop :=
  (mk ∉ lru_evict (env_lru_malloc_sizes e)) /\ takes p e <> Some mk /\ records p e s <> Some mk.

Fixpoint trace_keeps_alloc (mk : MallocKey) (t : trace) (s : BpfState) : Prop :=
  match t with
  | [] => True
  | (p, e) :: t => keeps_alloc mk p e s /\ trace_keeps_alloc mk t (run p e s)
  end.

Lemma record_keeps mk p e s :
  malloc_ret_probe p -> keeps_alloc mk p e s ->
  MALLOC_SIZES (record_malloc_size e s) !! mk = MALLOC_SIZES s !! mk.
Proof.
  intros Hp (Hev & _ & Hr). unfold record_malloc_size.
  destruct (MALLOC_PTRS s !! _) as [pp|] eqn:Ep; [|done]. simpl.
  destruct (INFLIGHT s !! _) as [en|]; [|done].
  destruct (env_user_u64 e pp) as [d|] eqn:Ed; [|done]. case_match; [|done]. simpl.
  apply lru_update_other; [|done]. intros <-. apply Hr.
  destruct Hp as [->| ->]; unfold records; rewrite Ep; simpl; by rewrite Ed.
Qed.

Lemma take_keeps mk p e s ptr :
  takes p e = Some (alloc_key (env_pid_tgid e) ptr) -> keeps_alloc mk p e s ->
  MALLOC_SIZES (take_malloc_size ptr e s).2 !! mk = MALLOC_SIZES s !! mk.
Proof.
  intros Ht (_ & Hn & _). unfold take_malloc_size.
  case_match; [|done]. destruct (MALLOC_SIZES s !! _) eqn:E; [|done]. simpl.
  apply lookup_delete_ne. intros <-. by apply Hn.
Qed.

Lemma save_entry_keeps t a b c e s mk :
  MALLOC_SIZES (save_entry t a b c e s) !! mk = MALLOC_SIZES s !! mk.
Proof. by rewrite (proj1 (save_entry_MALLOC _ _ _ _ _ _)). Qed.

Lemma emit_exit_keeps e s mk : MALLOC_SIZES (emit_exit e s) !! mk = MALLOC_SIZES s !! mk.
Proof. by rewrite (proj1 (emit_exit_MALLOC _ _)). Qed.

Lemma run_keeps_alloc mk p e s :
  keeps_alloc mk p e s -> MALLOC_SIZES (run p e s) !! mk = MALLOC_SIZES s !! mk.
Proof.
  intros Hk. destruct p; unfold run;
    try (apply save_entry_keeps); try (apply emit_exit_keeps).
  - unfold cuda_malloc. rewrite save_entry_keeps. by case_match.
  - unfold cuda_malloc_ret. rewrite emit_exit_keeps. eapply record_keeps; [by left|done].
  - unfold cuda_free. assert (Ht : MALLOC_SIZES (take_malloc_size ptr e s).2 !! mk = MALLOC_SIZES s !! mk) by (eapply take_keeps; [|exact Hk]; done).
    destruct take_malloc_size. by rewrite save_entry_keeps.
  - unfold cuda_malloc_async. rewrite save_entry_keeps. by case_match.
  - unfold cuda_malloc_async_ret. rewrite emit_exit_keeps. eapply record_keeps; [by right|done].
  - unfold cuda_free_async. assert (Ht : MALLOC_SIZES (take_malloc_size ptr e s).2 !! mk = MALLOC_SIZES s !! mk) by (eapply take_keeps; [|exact Hk]; done).
    destruct take_malloc_size. by rewrite save_entry_keeps.
  - unfold cuda_register_function. by repeat case_match.
  - unfold cu_module_get_function. by case_match.
  - unfold cu_module_get_function_ret. by repeat case_match.
  - unfold nvtx_range_push. by case_match.
  - done.
Qed.

Lemma run_trace_keeps_alloc mk t s :
  trace_keeps_alloc mk t s -> MALLOC_SIZES (run_trace t s) !! mk = MALLOC_SIZES s !! mk.
Proof.
  revert s. induction t as [|[p e] t IH]; intros s; simpl; [done|].
  intros [Hk Ht]. rewrite IH by done. by apply run_keeps_alloc.
Qed.

(** C31: the size round trip.  A thread with no call in flight calls cudaMalloc or
    cudaMallocAsync for [size] bytes, the call is sampled in, the three LRU maps take its entries,
    and the call stores device pointer [d], which its return probe can read.  Then anything
    happens that does not concern this allocation: no other malloc of the process returns [d], the
    process does not free [d], and MALLOC_SIZES does not evict its size.  After that a
    cudaFree or cudaFreeAsync of [d] by the same process, on any thread that has no call in
    flight, that is sampled in and whose entry INFLIGHT takes, opens a call that carries exactly
    [size] bytes, and the remembered size is gone, so freeing twice does not count twice. *)
Theorem malloc_free_roundtrip p1 e1 p2 e2 t p3 e3 s pp size d :
  malloc_probe pp size p1 -> malloc_ret_probe p2 -> free_probe d p3 ->
  pp <> 0 -> d <> 0 ->
  env_pid_tgid e2 = env_pid_tgid e1 -> pid_of (env_pid_tgid e3) = pid_of (env_pid_tgid e1) ->
  INFLIGHT s !! env_pid_tgid e1 = None -> sampled_in (alloc_event p1) e1 s = true ->
  lru_fail (env_lru_malloc_ptrs e1) = false -> lru_fail (env_lru_inflight e1) = false ->
  lru_fail (env_lru_malloc_sizes e2) = false ->
  env_user_u64 e2 pp = Some d ->
  trace_keeps_alloc (alloc_key (env_pid_tgid e1) d) t (run_trace [(p1, e1); (p2, e2)] s) ->
  let s2 := run_trace ((p1, e1) :: (p2, e2) :: t) s in
  INFLIGHT s2 !! env_pid_tgid e3 = None -> sampled_in (alloc_event p3) e3 s2 = true ->
  lru_fail (env_lru_inflight e3) = false ->
  exists en, INFLIGHT (run p3 e3 s2) !! env_pid_tgid e3 = Some en /\
    en_arg0 en = size /\ en_event_type en = alloc_event p3 /\
    MALLOC_SIZES (run p3 e3 s2) !! alloc_key (env_pid_tgid e3) d = None.
Proof.
  intros Hm Hr Hf Hpp Hd Hid2 Hpid Hnone Hsam Hl1 Hl2 Hl3 Hu Ht s2 Hn3 Hs3 Hl4.
  destruct (malloc_in pp size p1 e1 s) as (HM1 & HM2 & HM3); auto.
  destruct (INFLIGHT (run p1 e1 s) !! env_pid_tgid e1) as [en1|] eqn:Een; [|congruence].
  destruct HM3 as [_ Hsz].
  assert (Hkey : alloc_key (env_pid_tgid e3) d = alloc_key (env_pid_tgid e1) d)
    by (unfold alloc_key; by rewrite Hpid).
  assert (Hs2 : MALLOC_SIZES s2 !! alloc_key (env_pid_tgid e3) d = Some size).
  { unfold s2. cbn [run_trace]. rewrite Hkey, run_trace_keeps_alloc by done.
    rewrite malloc_ret_sizes by done.
    rewrite (record_malloc_size_sizes e2 _ pp en1 d) by (rewrite ?Hid2; done).
    rewrite Hid2, Hsz. by apply lru_update_lookup. }
  destruct (free_in d p3 e3 s2 size Hf Hd Hs2) as (stream & s' & -> & ->).
  rewrite save_entry_INFLIGHT, (proj1 (save_entry_MALLOC _ _ _ _ _ _)). simpl.
  rewrite Hn3. unfold sampled_in in *. simpl. rewrite Hs3.
  eexists. rewrite lru_update_lookup by done. split; [done|].
  split; [done|]. split; [done|]. apply lookup_delete_eq.
Qed.
End Alloc.

(** ** Witnesses *)

Section Witnesses.
#[local] Existing Instance demo_cfg.

(** Thread 1 allocates 640 bytes, thread 3 allocates 64 bytes elsewhere, then thread 2 frees. *)
Definition roundtrip_middle : trace :=
  [(P_cuda_malloc 520 64, demo_env 3 2500 1 0);
   (P_cuda_malloc_ret, with_word 520 8192 (demo_env 3 3000 1 0))].

Lemma malloc_free_roundtrip_witness :
  exists en, INFLIGHT (run (P_cuda_free 4096) (demo_env 2 5000 0 0)
    (run_trace ((P_cuda_malloc 512 640, demo_env 1 1000 0 0) ::
                (P_cuda_malloc_ret, demo_env 1 2000 0 0) :: roundtrip_middle) init_state))
    !! env_pid_tgid (demo_env 2 5000 0 0) = Some en /\ en_arg0 en = 640.
Proof.
  destruct (malloc_free_roundtrip (P_cuda_malloc 512 640) (demo_env 1 1000 0 0) P_cuda_malloc_ret
    (demo_env 1 2000 0 0) roundtrip_middle
    (P_cuda_free 4096) (demo_env 2 5000 0 0) init_state 512 640 4096)
    as (en & Hen & Ha & _).
  - by left.
  - by left.
  - by left.
  - done.
  - done.
  - reflexivity.
  - vm_compute. reflexivity.
  - vm_compute. reflexivity.
  - vm_compute. reflexivity.
  - reflexivity.
  - reflexivity.
  - reflexivity.
  - reflexivity.
  - unfold roundtrip_middle. cbn [trace_keeps_alloc]. unfold keeps_alloc.
    repeat split; apply (bool_decide_unpack _); vm_compute; exact I.
  - vm_compute. reflexivity.
  - vm_compute. reflexivity.
  - reflexivity.
  - exists en. split; [|exact Ha]. exact Hen.
Defined.
End Witnesses.
