(* ===== verification/Modes.v ===== *)
(** * Launch modes, clobbered entries and lost sizes

    How the mode flags steer kernel launches, and three behaviours of the
    probes that lose information: an entry overwritten by cuModuleGetFunction,
    an allocation whose entry was sampled out, an aggregate rejected by a full
    map. *)

From S2P Require Import Prelude Events Runtime Probes Step Demo Invariant PerCpu Ledger.
From S2P Require Import RingLedger Calls Alloc.

Local Open Scope Z_scope.

Section Modes.
Context `{LoadCfg}.

(** ** The configuration is constant under program runs *)

Definition config (s : BpfState) :=
  (SAMPLE_RATE s, KERNEL_AGG_MODE s, DETAILED_LAUNCHES s, UPGRADED_PIDS s).

Lemma emit_exit_config e s : config (emit_exit e s) = config s.
Proof.
  unfold emit_exit, emit_exit_aggregated, emit_exit_nccl, emit_exit_launch, emit_exit_event.
  by repeat case_match.
Qed.

Lemma outputs_config s s' : outputs s' = outputs s -> config s' = config s.
Proof. unfold outputs, config. congruence. Qed.

Lemma run_config p e s : config (run p e s) = config s.
Proof.
  destruct (is_exit p) eqn:Hp.
  - destruct (run_exit p e s Hp) as (s' & -> & Ho & _). rewrite emit_exit_config.
    by apply outputs_config.
  - by apply outputs_config, run_not_exit.
Qed.

Lemma run_trace_config t s : config (run_trace t s) = config s.
Proof.
  revert s. induction t as [|[p e] t IH]; intros s; simpl; [done|]. by rewrite IH, run_config.
Qed.

Lemma launch_mode_config s s' pid : config s' = config s -> launch_mode pid s' = launch_mode pid s.
Proof. intros [= _ Hm _ Hu]. unfold launch_mode. by rewrite Hm, Hu. Qed.

(** Every ledger entry was made under the configuration of the trace. *)
Lemma ledger_config t s :
  Forall (fun c => cp_rate c = cfg_u32 (SAMPLE_RATE s) /\
                   cp_mode c = launch_mode (cp_pid c) s /\
                   cp_detailed c = cfg_u32 (DETAILED_LAUNCHES s)) (ledger t s).
Proof.
  induction t as [|[p e] t IH] using rev_ind; [apply Forall_nil_2|].
  rewrite ledger_snoc. apply Forall_app_2; [done|].
  pose proof (run_trace_config t s) as Hc. set (s1 := run_trace t s) in *.
  unfold completes, completed_at. destruct (is_exit p); [|apply Forall_nil_2].
  destruct (INFLIGHT s1 !! _) as [en|]; [|apply Forall_nil_2].
  apply Forall_singleton. unfold cp_pid. cbn [cp_rate cp_mode cp_detailed cp_env].
  rewrite (launch_mode_config s s1) by done. by injection Hc as -> _ -> _.
Qed.

Lemma run_trace_EVENTS t s : EVENTS (run_trace t s) = EVENTS s ++ omap cp_ring_event (ledger t s).
Proof.
  revert s. induction t as [|[p e] t IH]; intros s; simpl; [by rewrite app_nil_r|].
  rewrite IH, run_EVENTS, omap_app, <- app_assoc. do 2 f_equal.
  by destruct (completes p e s) as [c|]; simpl; [destruct (cp_ring_event c)|].
Qed.

(** C37: anonymous mode.  When the launch mode of the tracer is anonymous and no
    process is upgraded, then whatever the detailed-launches flag says, no
    kernel launch ever reaches the ring buffer and LAUNCH_AGG never holds a
    kernel address. *)
Theorem anonymous_mode_hides_kernels s0 t :
  fresh s0 -> cfg_u32 (KERNEL_AGG_MODE s0) = 1 -> UPGRADED_PIDS s0 = ∅ ->
  Forall (fun ev => ce_event_type ev <> EVENT_CUDA_LAUNCH_KERNEL) (EVENTS (run_trace t s0)) /\
  map_Forall (fun k _ => lk_host_fun k = 0) (LAUNCH_AGG (run_trace t s0)).
Proof.
  intros Hf Hm Hu.
  assert (Hmode : forall c, c ∈ ledger t s0 -> cp_mode c = 1).
  { intros c Hc. pose proof (ledger_config t s0) as HF.
    destruct (proj1 (Forall_forall _ _) HF c Hc) as (_ & -> & _).
    unfold launch_mode. by rewrite Hu, lookup_empty. }
  split.
  - rewrite run_trace_EVENTS, fr_events by done. simpl. apply Forall_forall.
    intros ev (c & Hc & Hev)%list_elem_of_omap. specialize (Hmode c Hc).
    unfold cp_ring_event, cp_to_ring, cp_is_launch in Hev. rewrite Hmode in Hev. simpl in Hev.
    rewrite orb_false_r in Hev. case_match eqn:E; simplify_eq.
    apply andb_true_iff in E as [[_ E]%andb_true_iff _]. unfold cp_event; simpl.
    by apply negb_true_iff, Z.eqb_neq in E.
  - intros k slots Hk. apply elem_of_dom_2 in Hk.
    apply (dom_run_trace LAUNCH_AGG cp_launch_key launch_agg_max_entries zero_LaunchAggValue
      launch_step launch_first LAUNCH_AGG_outputs emit_exit_LAUNCH_AGG) in Hk.
    rewrite fr_launch, dom_empty_L, union_empty_l_L in Hk by done. apply elem_of_list_to_set, list_elem_of_omap in Hk as (c & Hc & Hk).
    specialize (Hmode c Hc).
    unfold cp_launch_key in Hk. rewrite Hmode in Hk. simpl in Hk. by case_match; simplify_eq/=.
Qed.

(** An upgraded process is traced in full.  While a process is listed in
    UPGRADED_PIDS, the global anonymous mode does not apply to its launches:
    the launch is accumulated under its kernel address and, with detailed
    launches on and room in the buffer, its event is in the ring buffer. *)
Lemma upgraded_launch_full_mode p e s en v :
  is_exit p = true -> INFLIGHT s !! env_pid_tgid e = Some en ->
  en_event_type en = EVENT_CUDA_LAUNCH_KERNEL ->
  UPGRADED_PIDS s !! pid_of (env_pid_tgid e) = Some v ->
  cfg_u32 (DETAILED_LAUNCHES s) = 1 -> env_events_room e = true ->
  exists c, completes p e s = Some c /\
    cp_launch_key c = Some (mkLaunchKey (pid_of (env_pid_tgid e)) 0 (en_arg0 en) (en_arg2 en)) /\
    EVENTS (run p e s) = EVENTS s ++ [cp_event c] /\ ce_addr (cp_event c) = en_arg0 en.
Proof.
  intros Hp Hen Hty Hup Hdet Hroom. unfold completes, completed_at. rewrite Hp, Hen.
  eexists. split; [reflexivity|].
  assert (Hmode : launch_mode (pid_of (env_pid_tgid e)) s = 0)
    by (unfold launch_mode; by rewrite Hup).
  split; [|split; [|done]].
  - unfold cp_launch_key, cp_is_launch, cp_type. cbn [cp_entry cp_mode]. by rewrite Hty, Hmode.
  - rewrite run_EVENTS. unfold completes, completed_at. rewrite Hp, Hen. simpl.
    unfold cp_ring_event, cp_to_ring, cp_is_launch, cp_type.
    cbn [cp_entry cp_mode cp_detailed cp_env]. by rewrite Hty, Hmode, Hdet, Hroom.
Qed.

(** ** Lost information *)

(** a cuModuleGetFunction inside a traced call discards the call.  Its entry
    probe has no recursion guard: it replaces the outer entry, its return probe
    deletes the replacement, and the outer return probe completes nothing. *)
Theorem module_get_function_discards_outer p1 e1 hp hm np e2 e3 p4 e4 s t a b c :
  opens p1 e1 s = Some (t, a, b, c) -> is_exit p4 = true -> hp <> 0 -> np <> 0 ->
  env_pid_tgid e2 = env_pid_tgid e1 -> env_pid_tgid e3 = env_pid_tgid e1 ->
  env_pid_tgid e4 = env_pid_tgid e1 ->
  INFLIGHT s !! env_pid_tgid e1 = None -> lru_fail (env_lru_inflight e2) = false ->
  ledger [(p1, e1); (P_cu_module_get_function hp hm np, e2);
          (P_cu_module_get_function_ret, e3); (p4, e4)] s = [].
Proof.
  intros Hop Hex Hhp Hnp H2 H3 H4 Hnone Hlru. cbn [ledger].
  rewrite (completes_none p1) by done.
  set (s1 := run p1 e1 s).
  change (completes (P_cu_module_get_function hp hm np) e2 s1) with (@None Completed).
  change (completes P_cu_module_get_function_ret e3
    (run (P_cu_module_get_function hp hm np) e2 s1)) with (@None Completed).
  rewrite completes_none; [done|]. rewrite H4. unfold run at 1, cu_module_get_function_ret.
  assert (Hi : INFLIGHT (run (P_cu_module_get_function hp hm np) e2 s1) !! env_pid_tgid e3
    = Some (mkEntryData (env_ktime e2) hp np 0 EVENT_CUDA_REGISTER_FUNCTION 0)).
  { unfold run, cu_module_get_function.
    rewrite (proj2 (Z.eqb_neq hp 0) Hhp), (proj2 (Z.eqb_neq np 0) Hnp). simpl.
    rewrite H3, <- H2. by apply lru_update_lookup. }
  rewrite Hi. simpl. rewrite H3. case_match; apply lookup_delete_eq.
Qed.

(** an allocation that sampling skips is never sized.  When the entry probe
    of a malloc is sampled out, its return probe does not remember the size, so
    MALLOC_SIZES is as before the call and the later free of the pointer
    carries 0 bytes. *)
Theorem sampled_out_malloc_unsized p1 e1 p2 e2 p3 e3 s pp size d :
  malloc_probe pp size p1 -> malloc_ret_probe p2 -> free_probe d p3 ->
  pp <> 0 -> env_pid_tgid e2 = env_pid_tgid e1 ->
  INFLIGHT s !! env_pid_tgid e1 = None -> sampled_in (alloc_event p1) e1 s = false ->
  lru_fail (env_lru_malloc_ptrs e1) = false -> lru_fail (env_lru_inflight e1) = false ->
  MALLOC_SIZES s !! alloc_key (env_pid_tgid e3) d = None ->
  let s2 := run_trace [(p1, e1); (p2, e2)] s in
  MALLOC_SIZES s2 = MALLOC_SIZES s /\ (take_malloc_size d e3 s2).1 = 0.
Proof.
  intros Hm Hr Hf Hpp Hid Hnone Hsam Hl1 Hl2 Hfresh. cbn [run_trace].
  destruct (malloc_in pp size p1 e1 s) as (HM1 & _ & HM3); auto.
  destruct (INFLIGHT (run p1 e1 s) !! env_pid_tgid e1) as [en|] eqn:Een.
  { destruct HM3. congruence. }
  assert (HM : MALLOC_SIZES (run p2 e2 (run p1 e1 s)) = MALLOC_SIZES s).
  { rewrite malloc_ret_sizes by done. rewrite record_malloc_size_no_entry; [done|by rewrite Hid]. }
  split; [done|]. unfold take_malloc_size. case_match; [|done].
  rewrite HM. unfold alloc_key in Hfresh. by rewrite Hfresh.
Qed.

(** an aggregatable call with a new key is lost when AGGREGATED is full:
    no map changes but INFLIGHT, and neither drop counter moves. *)
Theorem aggregated_full_drops_silently p e s en c k :
  is_exit p = true ->
  INFLIGHT s !! env_pid_tgid e = Some en -> completes p e s = Some c ->
  cp_agg_key c = Some k -> AGGREGATED s !! k = None ->
  (aggregated_max_entries <= size (AGGREGATED s))%nat ->
  outputs (run p e s) = outputs s.
Proof.
  intros Hp Hen Hc Hk Hnone Hfull.
  destruct (run_exit p e s Hp) as (s' & -> & Ho & Hi & _).
  rewrite <- Ho. pose proof Ho as [= HA _ _ _ _ _ _ _ _ _].
  unfold completes, completed_at in Hc. rewrite Hp, Hen in Hc. injection Hc as <-.
  unfold cp_agg_key, cp_type, cp_pid in Hk. cbn [cp_entry cp_env] in Hk.
  unfold emit_exit. rewrite Hi, Hen. case_match; [|done]. injection Hk as Hk.
  unfold emit_exit_aggregated. rewrite Hk. unfold percpu_lookup. rewrite HA, Hnone.
  unfold outputs. simpl. unfold percpu_update. rewrite HA, Hnone, decide_False by lia. done.
Qed.
End Modes.

(** ** Witnesses *)

Section Witnesses.
#[local] Existing Instance demo_cfg.

(** Anonymous mode with detailed launches on: two launches, nothing in the ring. *)
Lemma anonymous_mode_hides_kernels_witness :
  Forall (fun ev => ce_event_type ev <> EVENT_CUDA_LAUNCH_KERNEL)
    (EVENTS (run_trace demo_launches (configure 0 1 1 init_state))) /\
  dom (LAUNCH_AGG (run_trace demo_launches (configure 0 1 1 init_state)))
  = {[ mkLaunchKey 7 0 0 0 ]}.
Proof.
  destruct (anonymous_mode_hides_kernels (configure 0 1 1 init_state) demo_launches) as [He _].
  - apply configure_fresh. fits_const.
  - reflexivity.
  - reflexivity.
  - split; [exact He|]. vm_compute. reflexivity.
Defined.

Lemma module_get_function_discards_outer_witness :
  ledger [(P_cu_module_load_data, demo_env 1 1000 0 0);
          (P_cu_module_get_function 512 9 64, demo_env 1 1500 0 0);
          (P_cu_module_get_function_ret, demo_env 1 1600 0 0);
          (P_cu_module_load_data_ret, demo_env 1 2000 0 0)] init_state = [].
Proof.
  apply (module_get_function_discards_outer _ _ _ _ _ _ _ _ _ _ EVENT_CUDA_MODULE_LOAD 0 0 0).
  - reflexivity.
  - reflexivity.
  - done.
  - done.
  - reflexivity.
  - reflexivity.
  - reflexivity.
  - vm_compute. reflexivity.
  - reflexivity.
Defined.

(** Rate 2: the second allocation is skipped, its free carries 0 bytes. *)
Lemma sampled_out_malloc_unsized_witness :
  let s := upd_SAMPLE_COUNTER (fun _ => [1; 0]) (configure 2 0 0 init_state) in
  (take_malloc_size 4096 (demo_env 2 5000 0 0)
     (run_trace [(P_cuda_malloc 512 640, demo_env 1 1000 0 0);
                 (P_cuda_malloc_ret, demo_env 1 2000 0 0)] s)).1 = 0.
Proof.
  intros s.
  destruct (sampled_out_malloc_unsized (P_cuda_malloc 512 640) (demo_env 1 1000 0 0)
    P_cuda_malloc_ret (demo_env 1 2000 0 0) (P_cuda_free 4096) (demo_env 2 5000 0 0)
    s 512 640 4096) as [_ Hz].
  - by left.
  - by left.
  - by left.
  - done.
  - reflexivity.
  - vm_compute. reflexivity.
  - vm_compute. reflexivity.
  - reflexivity.
  - reflexivity.
  - vm_compute. reflexivity.
  - exact Hz.
Defined.

(** AGGREGATED of capacity 4 holding four copy kinds; a memset finds it full. *)
Definition demo_fill : trace :=
  flat_map (fun k => [(P_cuda_memcpy 0 0 100 k, demo_env 1 1000 0 0);
                      (P_cuda_memcpy_ret, demo_env 1 3000 0 0)]) [0; 1; 2; 3]
  ++ [(P_cuda_memset 0 0 100, demo_env 1 4000 0 0)].

Lemma aggregated_full_drops_silently_witness :
  outputs (run P_cuda_memset_ret (demo_env 1 5000 0 0) (run_trace demo_fill init_state))
  = outputs (run_trace demo_fill init_state).
Proof.
  eapply (aggregated_full_drops_silently _ _ _ (mkEntryData 4000 100 0 0 EVENT_CUDA_MEMSET 0)).
  - reflexivity.
  - vm_compute. reflexivity.
  - vm_compute. reflexivity.
  - vm_compute. reflexivity.
  - vm_compute. reflexivity.
  - apply (bool_decide_unpack _). vm_compute. exact I.
Defined.
End Witnesses.
