(* ===== verification/CLayout.v ===== *)
(** * C data layout on x86-64

    The sizes, alignments and member offsets of C types under the System V
    x86-64 ABI: natural alignment, bit-fields that do not straddle a storage
    unit of their declared type, packed records, unions, arrays.  It is the
    layout both clang (for the BPF programs, whose word size and alignments are
    those of x86-64) and Rust's repr(C) (for userspace) use.  The theorems show that the
    computed layouts are sound: members in order, disjoint, aligned, inside the
    record, and with the least padding that allows it. *)

From stdpp Require Import strings.
From S2P Require Import Prelude.

Local Open Scope Z_scope.

(** A member: its name (empty when anonymous), its type and the width of a
    bit-field. *)
#[warnings="-register-all"]
Inductive ctype :=
| TInt (bytes : Z)
| TPtr (pointee : string)
| TArr (n : Z) (elem : ctype)
| TStruct (packed : bool) (members : list (string * ctype * option Z))
| TUnion (packed : bool) (members : list (string * ctype * option Z)).

Definition fld (name : string) (t : ctype) : string * ctype * option Z := (name, t, None).
Definition bits (name : string) (t : ctype) (w : Z) : string * ctype * option Z := (name, t, Some w).

(** ** The layout of one record, from the sizes of its members *)

Definition align_up (x a : Z) : Z := (x + a - 1) / a * a.

Record mem := mkMem { m_name : string; m_size : Z; m_align : Z; m_bits : option Z }.

Definition m_width (m : mem) : Z :=
  match m_bits m with Some w => w | None => 8 * m_size m end.

(** The bit offset of a member that follows [pos] used bits. *)
Definition place (packed : bool) (m : mem) (pos : Z) : Z :=
  if packed then match m_bits m with Some _ => pos | None => align_up pos 8 end
  else match m_bits m with
       | None => align_up pos (8 * m_align m)
       | Some w =>
           if (w =? 0) || (8 * m_size m <? pos mod (8 * m_size m) + w)
           then align_up pos (8 * m_align m) else pos
       end.

(** The members with their bit offsets. *)
Fixpoint slots (packed : bool) (ms : list mem) (pos : Z) : list (mem * Z) :=
  match ms with
  | [] => []
  | m :: ms' => let o := place packed m pos in (m, o) :: slots packed ms' (o + m_width m)
  end.

Fixpoint slots_end (packed : bool) (ms : list mem) (pos : Z) : Z :=
  match ms with
  | [] => pos
  | m :: ms' => slots_end packed ms' (place packed m pos + m_width m)
  end.

(** An unnamed bit-field is padding and does not raise the alignment. *)
Definition m_raises (m : mem) : bool :=
  match m_bits m with Some _ => negb (String.eqb (m_name m) EmptyString) | None => true end.

Definition rec_align (packed : bool) (ms : list mem) : Z :=
  if packed then 1 else foldr (fun m a => if m_raises m then Z.max (m_align m) a else a) 1 ms.

Definition struct_size (packed : bool) (ms : list mem) : Z :=
  align_up (slots_end packed ms 0) (8 * rec_align packed ms) / 8.

Definition union_size (packed : bool) (ms : list mem) : Z :=
  align_up (foldr (fun m s => Z.max (m_width m) s) 0 ms) (8 * rec_align packed ms) / 8.

(** ** Sizes, alignments and offsets of types *)

Fixpoint size_align (t : ctype) : Z * Z :=
  let mems := map (fun f : string * ctype * option Z =>
    let sa := size_align f.1.2 in mkMem f.1.1 sa.1 sa.2 f.2) in
  match t with
  | TInt n => (n, n)
  | TPtr _ => (8, 8)
  | TArr n t => let sa := size_align t in (n * sa.1, sa.2)
  | TStruct pk fs => let ms := mems fs in (struct_size pk ms, rec_align pk ms)
  | TUnion pk fs => let ms := mems fs in (union_size pk ms, rec_align pk ms)
  end.

Definition sizeof (t : ctype) : Z := (size_align t).1.
Definition alignof (t : ctype) : Z := (size_align t).2.

Definition mem_of (f : string * ctype * option Z) : mem :=
  let sa := size_align f.1.2 in mkMem f.1.1 sa.1 sa.2 f.2.

(** The members of a record type with their bit offsets; all at 0 in a union. *)
Definition members_at (t : ctype) : list ((string * ctype * option Z) * Z) :=
  match t with
  | TStruct pk fs => zip fs (snd <$> slots pk (mem_of <$> fs) 0)
  | TUnion _ fs => (fun f => (f, 0)) <$> fs
  | _ => []
  end.

(** [offsetof(t, name)] in bytes and the type of the member; an anonymous member
    of record type is searched through, [depth] levels deep.  C has no offset of
    a bit-field. *)
Fixpoint find_member (depth : nat) (t : ctype) (name : string) : option (Z * ctype) :=
  match depth with
  | O => None
  | S depth =>
      (fix go l :=
         match l with
         | [] => None
         | ((_, _, Some _), _) :: l' => go l'
         | ((n, ft, None), o) :: l' =>
             if String.eqb n name then Some (o / 8, ft)
             else
               match (if String.eqb n EmptyString then find_member depth ft name else None) with
               | Some (o', t') => Some (o / 8 + o', t')
               | None => go l'
               end
         end) (members_at t)
  end.

Definition offsetof (t : ctype) (name : string) : option Z := fst <$> find_member 8 t name.
Definition member_size (t : ctype) (name : string) : option Z :=
  (fun r => sizeof r.2) <$> find_member 8 t name.

(** ** Well-formed types *)

(** A member fits the layout rules: a positive alignment that divides the size,
    and a bit-field no wider than its type, a naturally aligned integer. *)
Record mem_ok (m : mem) : Prop := {
  mo_align : 0 < m_align m;
  mo_size : 0 <= m_size m;
  mo_div : m_size m mod m_align m = 0;
  mo_bits : forall w, m_bits m = Some w -> 0 <= w <= 8 * m_size m /\ m_size m = m_align m
}.

Fixpoint ctype_ok (t : ctype) : bool :=
  let ok_bits f :=
    match f.1.2, f.2 with
    | TInt n, Some w => (0 <=? w) && (w <=? 8 * n)
    | _, Some _ => false
    | _, None => true
    end in
  match t with
  | TInt n => 0 <? n
  | TPtr _ => true
  | TArr n t => (0 <=? n) && ctype_ok t
  | TStruct _ fs | TUnion _ fs => forallb (fun f : string * ctype * option Z => ctype_ok f.1.2 && ok_bits f) fs
  end.

(** ** Rounding up *)

Lemma align_up_spec x a : 0 < a -> x <= align_up x a < x + a /\ align_up x a mod a = 0.
Proof.
  intros Ha. unfold align_up. rewrite Z.mod_mul by lia. split; [|done].
  pose proof (Z.div_mod (x + a - 1) a ltac:(lia)) as E.
  pose proof (Z.mod_pos_bound (x + a - 1) a Ha). lia.
Qed.

Lemma align_up_least x a y : 0 < a -> x <= y -> y mod a = 0 -> align_up x a <= y.
Proof.
  intros Ha Hxy Hy. apply Z.div_exact in Hy; [|lia]. unfold align_up. rewrite Hy.
  rewrite (Z.mul_comm a). apply Z.mul_le_mono_nonneg_r; [lia|].
  apply Z.lt_succ_r, Z.div_lt_upper_bound; [done|]. nia.
Qed.

Lemma rec_align_pos packed ms : 1 <= rec_align packed ms.
Proof.
  unfold rec_align. case_match; [done|]. induction ms as [|m ms IH]; simpl; [done|].
  case_match; lia.
Qed.

(** ** One record *)

Lemma place_ge packed m pos : mem_ok m -> pos <= place packed m pos.
Proof.
  intros Hm. pose proof (mo_align m Hm). unfold place.
  repeat case_match; try lia;
    match goal with |- _ <= align_up _ ?a => pose proof (align_up_spec pos a); lia end.
Qed.

Lemma m_width_nonneg m : mem_ok m -> 0 <= m_width m.
Proof.
  intros Hm. unfold m_width. destruct (m_bits m) as [w|] eqn:E.
  - by apply (mo_bits m Hm) in E as [[? _] _].
  - pose proof (mo_size m Hm). lia.
Qed.

Lemma slots_end_ge packed ms pos : Forall mem_ok ms -> pos <= slots_end packed ms pos.
Proof.
  intros Hms. revert pos. induction Hms as [|m ms Hm Hms IH]; intros pos; simpl; [lia|].
  pose proof (place_ge packed m pos Hm). pose proof (m_width_nonneg m Hm).
  specialize (IH (place packed m pos + m_width m)). lia.
Qed.

(** Every slot lies between the start and the end of the slots. *)
Lemma slots_within packed ms pos m o :
  Forall mem_ok ms -> (m, o) ∈ slots packed ms pos ->
  pos <= o /\ o + m_width m <= slots_end packed ms pos.
Proof.
  intros Hms. revert pos. induction Hms as [|m' ms Hm Hms IH]; intros pos; simpl.
  { by rewrite elem_of_nil. }
  pose proof (place_ge packed m' pos Hm). pose proof (m_width_nonneg m' Hm).
  rewrite elem_of_cons. intros [[= -> ->]|Hin].
  - pose proof (slots_end_ge packed ms (place packed m' pos + m_width m') Hms). lia.
  - apply IH in Hin. lia.
Qed.

Lemma slots_fst packed ms pos : fst <$> slots packed ms pos = ms.
Proof. revert pos. induction ms as [|m ms IH]; intros pos; simpl; [done|]. by rewrite IH. Qed.

(** The alignment a member asks for at bit offset [o]. *)
Definition slot_aligned (m : mem) (o : Z) : Prop :=
  match m_bits m with
  | None => o mod (8 * m_align m) = 0
  | Some w => o mod (8 * m_size m) + w <= 8 * m_size m
  end.

Lemma place_aligned m pos : mem_ok m -> slot_aligned m (place false m pos).
Proof.
  intros Hm. pose proof (mo_align m Hm) as Ha. unfold slot_aligned, place.
  destruct (m_bits m) as [w|] eqn:E; [|by apply align_up_spec; lia].
  destruct (mo_bits m Hm w E) as [Hw Hsz].
  destruct (_ || _) eqn:C.
  - rewrite Hsz. rewrite (proj2 (align_up_spec pos (8 * m_align m) ltac:(lia))). lia.
  - apply orb_false_iff in C as [_ C%Z.ltb_ge]. lia.
Qed.

(** Two members of a list of slots, the first before the second. *)
Definition before (a b : mem * Z) : Prop := a.2 + m_width a.1 <= b.2.

Lemma slots_sorted packed ms pos : Forall mem_ok ms -> StronglySorted before (slots packed ms pos).
Proof.
  intros Hms. revert pos. induction Hms as [|m ms Hm Hms IH]; intros pos; simpl; [constructor|].
  constructor; [apply IH|]. apply Forall_forall. intros [m' o'] Hin.
  apply slots_within in Hin as [Hge _]; [|done]. unfold before; simpl. lia.
Qed.

Lemma slots_aligned ms pos m o :
  Forall mem_ok ms -> (m, o) ∈ slots false ms pos -> slot_aligned m o.
Proof.
  intros Hms. revert pos. induction Hms as [|m' ms Hm Hms IH]; intros pos; simpl.
  { by rewrite elem_of_nil. }
  rewrite elem_of_cons. intros [[= -> ->]|Hin]; [by apply place_aligned|by eapply IH].
Qed.

Lemma slots_byte packed ms pos m o :
  Forall mem_ok ms -> (m, o) ∈ slots packed ms pos -> m_bits m = None -> o mod 8 = 0.
Proof.
  intros Hms. revert pos. induction Hms as [|m' ms Hm Hms IH]; intros pos; simpl.
  { by rewrite elem_of_nil. }
  rewrite elem_of_cons. intros [[= -> ->]|Hin] Hb; [|by eapply IH].
  unfold place. rewrite Hb. case_match; [by apply align_up_spec|].
  unfold align_up. rewrite (Z.mul_comm 8), Z.mul_assoc. by apply Z.mod_mul.
Qed.

Lemma struct_size_bits packed ms :
  Forall mem_ok ms ->
  slots_end packed ms 0 <= 8 * struct_size packed ms < slots_end packed ms 0 + 8 * rec_align packed ms /\
  struct_size packed ms mod rec_align packed ms = 0.
Proof.
  intros Hms. pose proof (rec_align_pos packed ms) as Ha. unfold struct_size.
  set (a := rec_align packed ms) in *. set (n := slots_end packed ms 0).
  pose proof (align_up_spec n (8 * a) ltac:(lia)) as [Hr _].
  unfold align_up in *. rewrite Z.mul_assoc, (Z.mul_comm _ 8), <- Z.mul_assoc in *.
  rewrite (Z.mul_comm 8 (_ * a)), Z.div_mul, Z.mod_mul by lia. lia.
Qed.

(** ** All types *)

Section CtypeInd.
Variable P : ctype -> Prop.
Hypothesis P_int : forall n, P (TInt n).
Hypothesis P_ptr : forall s, P (TPtr s).
Hypothesis P_arr : forall n t, P t -> P (TArr n t).
Hypothesis P_struct : forall pk fs, Forall (fun f => P f.1.2) fs -> P (TStruct pk fs).
Hypothesis P_union : forall pk fs, Forall (fun f => P f.1.2) fs -> P (TUnion pk fs).

(** Induction with hypotheses for the members. *)
Fixpoint ctype_members_ind (t : ctype) : P t :=
  let all := fix all (fs : list (string * ctype * option Z)) : Forall (fun f => P f.1.2) fs :=
    match fs with
    | [] => Forall_nil_2 _
    | f :: fs => Forall_cons_2 _ _ _ (ctype_members_ind f.1.2) (all fs)
    end in
  match t with
  | TInt n => P_int n
  | TPtr s => P_ptr s
  | TArr n t => P_arr n t (ctype_members_ind t)
  | TStruct pk fs => P_struct pk fs (all fs)
  | TUnion pk fs => P_union pk fs (all fs)
  end.
End CtypeInd.

Definition type_ok (t : ctype) : Prop :=
  0 < alignof t /\ 0 <= sizeof t /\ sizeof t mod alignof t = 0.

Lemma mem_of_ok fs :
  Forall (fun f => ctype_ok f.1.2 = true -> type_ok f.1.2) fs ->
  ctype_ok (TStruct false fs) = true -> Forall mem_ok (mem_of <$> fs).
Proof.
  intros Hfs Hok. simpl in Hok. apply Forall_fmap. induction Hfs as [|[[n t] b] fs Ht Hfs IH];
    [apply Forall_nil_2|]. simpl in *. apply andb_true_iff in Hok as [[H1 H2]%andb_true_iff H3].
  apply Forall_cons_2; [|by apply IH]. destruct (Ht H1) as (Ha & Hs & Hd).
  split; simpl; try done. intros w ->. destruct t as [k| | | |]; try done.
  apply andb_true_iff in H2 as [?%Z.leb_le ?%Z.leb_le]. by unfold sizeof; simpl.
Qed.

Lemma union_size_bits packed ms :
  let w := foldr (fun m s => Z.max (m_width m) s) 0 ms in
  w <= 8 * union_size packed ms < w + 8 * rec_align packed ms /\
  union_size packed ms mod rec_align packed ms = 0.
Proof.
  intros w. pose proof (rec_align_pos packed ms) as Ha. unfold union_size. fold w.
  set (a := rec_align packed ms) in *.
  pose proof (align_up_spec w (8 * a) ltac:(lia)) as [Hr _].
  unfold align_up in *. rewrite Z.mul_assoc, (Z.mul_comm _ 8), <- Z.mul_assoc in *.
  rewrite (Z.mul_comm 8 (_ * a)), Z.div_mul, Z.mod_mul by lia. lia.
Qed.

Lemma union_width_ge ms m :
  m ∈ ms -> 0 <= m_width m <= foldr (fun m s => Z.max (m_width m) s) 0 ms \/ m_width m < 0.
Proof.
  induction ms as [|m' ms IH]; rewrite ?elem_of_nil, ?elem_of_cons; [done|].
  intros [->|Hin]; simpl; [lia|]. apply IH in Hin. lia.
Qed.

Lemma type_ok_all t : ctype_ok t = true -> type_ok t.
Proof.
  induction t as [n|s|n t IH|pk fs IH|pk fs IH] using ctype_members_ind; intros Hok.
  - apply Z.ltb_lt in Hok. unfold type_ok, sizeof, alignof; simpl. rewrite Z.mod_same; lia.
  - done.
  - apply andb_true_iff in Hok as [Hn%Z.leb_le Ht]. destruct (IH Ht) as (Ha & Hs & Hd).
    unfold type_ok, sizeof, alignof in *; simpl. split; [done|]. split; [lia|].
    by rewrite <- Z.mul_mod_idemp_r, Hd, Z.mul_0_r by lia.
  - apply (mem_of_ok fs IH) in Hok. unfold type_ok, sizeof, alignof; simpl.
    change (map _ fs) with (mem_of <$> fs).
    pose proof (rec_align_pos pk (mem_of <$> fs)).
    pose proof (struct_size_bits pk (mem_of <$> fs) Hok) as [??].
    pose proof (slots_end_ge pk (mem_of <$> fs) 0 Hok). split_and!; [lia|lia|done].
  - unfold type_ok, sizeof, alignof; simpl. change (map _ fs) with (mem_of <$> fs).
    pose proof (rec_align_pos pk (mem_of <$> fs)).
    pose proof (union_size_bits pk (mem_of <$> fs)) as [Hw ?].
    assert (0 <= foldr (fun m s => Z.max (m_width m) s) 0 (mem_of <$> fs)).
    { clear. induction (mem_of <$> fs); simpl; lia. }
    split_and!; [lia|lia|done].
Qed.

Lemma struct_mems_ok pk fs : ctype_ok (TStruct pk fs) = true -> Forall mem_ok (mem_of <$> fs).
Proof.
  intros Hok. apply mem_of_ok; [|done]. apply Forall_forall. intros f _. apply type_ok_all.
Qed.

(** Layouts are sound.  For every well-formed struct type, packed or not,
    with bit-fields and nested records: the members are laid out in order
    without overlap, inside the size of the struct; unless the struct is packed
    each member is aligned for its type and no bit-field straddles a storage
    unit; and the size is a multiple of the alignment with less than one
    alignment unit of tail padding. *)
Lemma struct_layout_sound pk fs :
  ctype_ok (TStruct pk fs) = true ->
  let S := TStruct pk fs in
  let L := slots pk (mem_of <$> fs) 0 in
  fst <$> L = mem_of <$> fs /\
  StronglySorted before L /\
  (forall m o, (m, o) ∈ L -> 0 <= o /\ o + m_width m <= 8 * sizeof S) /\
  (pk = false -> forall m o, (m, o) ∈ L -> slot_aligned m o) /\
  sizeof S mod alignof S = 0 /\
  8 * sizeof S < slots_end pk (mem_of <$> fs) 0 + 8 * alignof S.
Proof.
  intros Hok S L. pose proof (struct_mems_ok pk fs Hok) as Hms.
  pose proof (struct_size_bits pk _ Hms) as [Hb Hd].
  change (sizeof S) with (struct_size pk (mem_of <$> fs)).
  change (alignof S) with (rec_align pk (mem_of <$> fs)).
  split_and!; [| | | |done|lia].
  - apply slots_fst.
  - by apply slots_sorted.
  - intros m o Hin. apply slots_within in Hin; [lia|done].
  - intros -> m o Hin. by eapply slots_aligned.
Qed.

(** ** Offsets *)

Lemma find_member_unfold depth t name r :
  find_member (S depth) t name = Some r ->
  exists n ft o, ((n, ft, None), o) ∈ members_at t /\
    (r = (o / 8, ft) \/
     exists o' t', find_member depth ft name = Some (o', t') /\ r = (o / 8 + o', t')).
Proof.
  cbn [find_member]. induction (members_at t) as [|[[[n ft] w] o] l IH]; [done|].
  destruct w as [w|].
  { intros (n' & ft' & o' & Hin & Hr)%IH. exists n', ft', o'. split; [by right|done]. }
  destruct (String.eqb n name).
  { intros [= <-]. exists n, ft, o. split; [by left|by left]. }
  destruct (if String.eqb n EmptyString then _ else _) as [[o' t']|] eqn:E.
  - intros [= <-]. case_match; [|done]. exists n, ft, o. split; [by left|]. right. by exists o', t'.
  - intros (n' & ft' & o' & Hin & Hr)%IH. exists n', ft', o'. split; [by right|done].
Qed.

Lemma ok_member pk fs n ft w :
  ctype_ok (TStruct pk fs) = true -> (n, ft, w) ∈ fs -> ctype_ok ft = true.
Proof.
  simpl. rewrite forallb_forall. intros Hfs Hm%list_elem_of_In%Hfs. simpl in Hm.
  by apply andb_true_iff in Hm as [? _].
Qed.

Lemma zip_slot pk fs f o :
  (f, o) ∈ zip fs (snd <$> slots pk (mem_of <$> fs) 0) ->
  (mem_of f, o) ∈ slots pk (mem_of <$> fs) 0.
Proof.
  intros [i Hi]%list_elem_of_lookup. apply lookup_zip_with_Some in Hi as (f' & o' & [= <- <-] & Hf & Ho).
  apply list_lookup_fmap_Some in Ho as ([m o'] & -> & Hs).
  apply list_elem_of_lookup. exists i. rewrite Hs. cbn [snd]. do 2 f_equal.
  assert (E : (fst <$> slots pk (mem_of <$> fs) 0) !! i = (mem_of <$> fs) !! i)
    by (by rewrite slots_fst).
  rewrite (list_lookup_fmap fst), Hs, list_lookup_fmap, Hf in E. simpl in E. congruence.
Qed.

(** A member that is not a bit-field starts at a byte and lies in its record. *)
Lemma members_at_bounds t n ft o :
  ctype_ok t = true -> ((n, ft, None), o) ∈ members_at t ->
  ctype_ok ft = true /\ 0 <= o /\ o mod 8 = 0 /\ o + 8 * sizeof ft <= 8 * sizeof t.
Proof.
  intros Hok Hin.
  destruct t as [| | |pk fs|pk fs]; try by apply elem_of_nil in Hin.
  - pose proof (struct_mems_ok pk fs Hok) as Hms. unfold members_at in Hin.
    pose proof (zip_slot _ _ _ _ Hin) as Hs.
    split; [apply (ok_member pk fs n ft None Hok); by apply elem_of_zip_l in Hin|].
    pose proof (slots_within _ _ _ _ _ Hms Hs) as [H1 H2].
    pose proof (struct_size_bits pk _ Hms) as [H3 _].
    split; [done|]. split; [by eapply slots_byte|].
    change (sizeof (TStruct pk fs)) with (struct_size pk (mem_of <$> fs)).
    change (m_width (mem_of (n, ft, None))) with (8 * sizeof ft) in H2. lia.
  - unfold members_at in Hin. apply list_elem_of_fmap in Hin as (f & [= <- ->] & Hin).
    split; [by apply (ok_member pk fs n ft None)|]. split; [done|]. split; [done|].
    pose proof (union_size_bits pk (mem_of <$> fs)) as [H3 _].
    assert (Hm : mem_of (n, ft, None) ∈ mem_of <$> fs) by (by apply list_elem_of_fmap_2).
    apply union_width_ge in Hm. change (m_width (mem_of (n, ft, None))) with (8 * sizeof ft) in Hm.
    pose proof (type_ok_all ft (ok_member pk fs _ _ _ Hok Hin)) as (_ & Hs & _).
    change (sizeof (TUnion pk fs)) with (union_size pk (mem_of <$> fs)). lia.
Qed.

(** Offsets are in bounds.  Whenever [offsetof(t, name)] is defined for a
    well-formed type, through any nesting of anonymous structs and unions, the
    member with its full size lies inside the type. *)
Lemma find_member_bounds depth t name o ft :
  ctype_ok t = true -> find_member depth t name = Some (o, ft) ->
  ctype_ok ft = true /\ 0 <= o /\ o + sizeof ft <= sizeof t.
Proof.
  revert t o. induction depth as [|depth IH]; intros t o Hok; [done|].
  intros (n & mt & off & Hin & Hr)%find_member_unfold.
  destruct (members_at_bounds t n mt off Hok Hin) as (Hmt & H0 & H8 & Hle).
  apply Z.div_exact in H8; [|done].
  destruct Hr as [[= -> ->]|(o' & t' & Hf & [= -> ->])]; [split_and!; [done|lia|lia]|].
  destruct (IH mt o' Hmt Hf) as (? & ? & ?). split_and!; [done|lia|lia].
Qed.
