(* ===== verification/KernelTask.v ===== *)
(** * Kernel process types: src/src/bpf/vmlinux.h, process part

    The C types of the kernel's type dump that describe a traced thread, as
    [ctype] descriptions: the saved registers a uprobe program gets ([pt_regs]),
    the task ([task_struct], which bpf_get_current_pid_tgid and
    bpf_get_current_comm read) and its address space ([mm_struct], [vm_area_struct]), signals,
    credentials and pid namespace, with every
    type they contain by value.  One definition per struct, union or typedef of
    the dump, prefixed [s_], [u_] or [t_]; a pointer keeps the name of its
    target, which the layout does not depend on. *)

From stdpp Require Import strings.
From S2P Require Import Prelude CLayout.

Local Open Scope Z_scope.

(** ** The arithmetic types of the x86-64 ABI *)

Definition c_char : ctype := TInt 1.
Definition c_schar : ctype := TInt 1.
Definition c_uchar : ctype := TInt 1.
Definition c_bool : ctype := TInt 1.
Definition c_short : ctype := TInt 2.
Definition c_ushort : ctype := TInt 2.
Definition c_int : ctype := TInt 4.
Definition c_uint : ctype := TInt 4.
Definition c_enum : ctype := TInt 4.
Definition c_long : ctype := TInt 8.
Definition c_ulong : ctype := TInt 8.
Definition c_llong : ctype := TInt 8.
Definition c_ullong : ctype := TInt 8.

(** ** Types of the dump *)

Abbreviation t___u16 := c_ushort.
Abbreviation t_u16 := t___u16.
Abbreviation t___u64 := c_ullong.
Abbreviation t_u64 := t___u64.
Abbreviation s_fred_cs := (TStruct false [bits "cs" t_u64 16; bits "sl" t_u64 2;
  bits "wfe" t_u64 1]).
Definition s_fred_ss : ctype := TStruct false [bits "ss" t_u64 16; bits "sti" t_u64 1;
  bits "swevent" t_u64 1; bits "nmi" t_u64 1; bits EmptyString c_int 13; bits "vector" t_u64 8;
  bits EmptyString c_short 8; bits "type" t_u64 4; bits EmptyString c_char 4;
  bits "enclave" t_u64 1; bits "lm" t_u64 1; bits "nested" t_u64 1; bits EmptyString c_char 1;
  bits "insnlen" t_u64 4].
Definition s_pt_regs : ctype := TStruct false [fld "r15" c_ulong; fld "r14" c_ulong;
  fld "r13" c_ulong; fld "r12" c_ulong; fld "bp" c_ulong; fld "bx" c_ulong; fld "r11" c_ulong;
  fld "r10" c_ulong; fld "r9" c_ulong; fld "r8" c_ulong; fld "ax" c_ulong; fld "cx" c_ulong;
  fld "dx" c_ulong; fld "si" c_ulong; fld "di" c_ulong; fld "orig_ax" c_ulong; fld "ip" c_ulong;
  fld EmptyString (TUnion false [fld "cs" t_u16; fld "csx" t_u64; fld "fred_cs" s_fred_cs]);
  fld "flags" c_ulong; fld "sp" c_ulong; fld EmptyString (TUnion false [fld "ss" t_u16;
  fld "ssx" t_u64; fld "fred_ss" s_fred_ss])].
Abbreviation t___u32 := c_uint.
Abbreviation t_u32 := t___u32.
Definition s_thread_info : ctype := TStruct false [fld "flags" c_ulong;
  fld "syscall_work" c_ulong; fld "status" t_u32; fld "cpu" t_u32].
Abbreviation t_atomic_t := (TStruct false [fld "counter" c_int]).
Abbreviation s_refcount_struct := (TStruct false [fld "refs" t_atomic_t]).
Abbreviation t_refcount_t := s_refcount_struct.
Abbreviation s_llist_node := (TStruct false [fld "next" (TPtr "struct llist_node")]).
Definition s___call_single_node : ctype := TStruct false [fld "llist" s_llist_node;
  fld EmptyString (TUnion false [fld "u_flags" c_uint; fld "a_flags" t_atomic_t]);
  fld "src" t_u16; fld "dst" t_u16].
Abbreviation s_load_weight := (TStruct false [fld "weight" c_ulong;
  fld "inv_weight" t_u32]).
Definition s_rb_node : ctype := TStruct false [fld "__rb_parent_color" c_ulong;
  fld "rb_right" (TPtr "struct rb_node"); fld "rb_left" (TPtr "struct rb_node")].
Abbreviation s_list_head := (TStruct false [fld "next" (TPtr "struct list_head");
  fld "prev" (TPtr "struct list_head")]).
Abbreviation t___s64 := c_llong.
Abbreviation t_s64 := t___s64.
Definition s_sched_avg : ctype := TStruct false [fld "last_update_time" t_u64;
  fld "load_sum" t_u64; fld "runnable_sum" t_u64; fld "util_sum" t_u32;
  fld "period_contrib" t_u32; fld "load_avg" c_ulong; fld "runnable_avg" c_ulong;
  fld "util_avg" c_ulong; fld "util_est" c_uint].
Definition s_sched_entity : ctype := TStruct false [fld "load" s_load_weight;
  fld "run_node" s_rb_node; fld "deadline" t_u64; fld "min_vruntime" t_u64;
  fld "group_node" s_list_head; fld "on_rq" c_uint; fld "exec_start" t_u64;
  fld "sum_exec_runtime" t_u64; fld "prev_sum_exec_runtime" t_u64; fld "vruntime" t_u64;
  fld "vlag" t_s64; fld "slice" t_u64; fld "nr_migrations" t_u64; fld "depth" c_int;
  fld "parent" (TPtr "struct sched_entity"); fld "cfs_rq" (TPtr "struct cfs_rq");
  fld "my_q" (TPtr "struct cfs_rq"); fld "runnable_weight" c_ulong; bits EmptyString c_long 64;
  bits EmptyString c_long 64; fld "avg" s_sched_avg].
Definition s_sched_rt_entity : ctype := TStruct false [fld "run_list" s_list_head;
  fld "timeout" c_ulong; fld "watchdog_stamp" c_ulong; fld "time_slice" c_uint;
  fld "on_rq" c_ushort; fld "on_list" c_ushort; fld "back" (TPtr "struct sched_rt_entity")].
Abbreviation t_ktime_t := t_s64.
Abbreviation s_timerqueue_node := (TStruct false [fld "node" s_rb_node;
  fld "expires" t_ktime_t]).
Abbreviation t___u8 := c_uchar.
Abbreviation t_u8 := t___u8.
Definition s_hrtimer : ctype := TStruct false [fld "node" s_timerqueue_node;
  fld "_softexpires" t_ktime_t; fld "function" (TPtr "fn");
  fld "base" (TPtr "struct hrtimer_clock_base"); fld "state" t_u8; fld "is_rel" t_u8;
  fld "is_soft" t_u8; fld "is_hard" t_u8].
Abbreviation t_dl_server_has_tasks_f := (TPtr "fn").
Abbreviation t_dl_server_pick_f := (TPtr "fn").
Definition s_sched_dl_entity : ctype := TStruct false [fld "rb_node" s_rb_node;
  fld "dl_runtime" t_u64; fld "dl_deadline" t_u64; fld "dl_period" t_u64; fld "dl_bw" t_u64;
  fld "dl_density" t_u64; fld "runtime" t_s64; fld "deadline" t_u64; fld "flags" c_uint;
  bits "dl_throttled" c_uint 1; bits "dl_yielded" c_uint 1; bits "dl_non_contending" c_uint 1;
  bits "dl_overrun" c_uint 1; bits "dl_server" c_uint 1; fld "dl_timer" s_hrtimer;
  fld "inactive_timer" s_hrtimer; fld "rq" (TPtr "struct rq");
  fld "server_has_tasks" t_dl_server_has_tasks_f; fld "server_pick" t_dl_server_pick_f;
  fld "pi_se" (TPtr "struct sched_dl_entity")].
Abbreviation s_uclamp_se := (TStruct false [bits "value" c_uint 11;
  bits "bucket_id" c_uint 3; bits "active" c_uint 1; bits "user_defined" c_uint 1]).
Definition s_sched_statistics : ctype := TStruct false [fld "wait_start" t_u64;
  fld "wait_max" t_u64; fld "wait_count" t_u64; fld "wait_sum" t_u64; fld "iowait_count" t_u64;
  fld "iowait_sum" t_u64; fld "sleep_start" t_u64; fld "sleep_max" t_u64;
  fld "sum_sleep_runtime" t_s64; fld "block_start" t_u64; fld "block_max" t_u64;
  fld "sum_block_runtime" t_s64; fld "exec_max" t_s64; fld "slice_max" t_u64;
  fld "nr_migrations_cold" t_u64; fld "nr_failed_migrations_affine" t_u64;
  fld "nr_failed_migrations_running" t_u64; fld "nr_failed_migrations_hot" t_u64;
  fld "nr_forced_migrations" t_u64; fld "nr_wakeups" t_u64; fld "nr_wakeups_sync" t_u64;
  fld "nr_wakeups_migrate" t_u64; fld "nr_wakeups_local" t_u64; fld "nr_wakeups_remote" t_u64;
  fld "nr_wakeups_affine" t_u64; fld "nr_wakeups_affine_attempts" t_u64;
  fld "nr_wakeups_passive" t_u64; fld "nr_wakeups_idle" t_u64; fld "core_forceidle_sum" t_u64;
  bits EmptyString c_long 64; bits EmptyString c_long 64; bits EmptyString c_long 64].
Abbreviation s_hlist_head := (TStruct false [fld "first" (TPtr "struct hlist_node")]).
Abbreviation s_cpumask := (TStruct false [fld "bits" (TArr 128 c_ulong)]).
Abbreviation t_cpumask_t := s_cpumask.
Definition u_rcu_special : ctype := TUnion false [fld "b" (TStruct false [fld "blocked" t_u8;
  fld "need_qs" t_u8; fld "exp_hint" t_u8; fld "need_mb" t_u8]); fld "s" t_u32].
Abbreviation s_sched_info := (TStruct false [fld "pcount" c_ulong;
  fld "run_delay" c_ullong; fld "last_arrival" c_ullong; fld "last_queued" c_ullong]).
Abbreviation s_plist_node := (TStruct false [fld "prio" c_int; fld "prio_list" s_list_head;
  fld "node_list" s_list_head]).
Abbreviation t___kernel_clockid_t := c_int.
Abbreviation t_clockid_t := t___kernel_clockid_t.
Definition s_restart_block : ctype := TStruct false [fld "arch_data" c_ulong;
  fld "fn" (TPtr "fn");
  fld EmptyString (TUnion false [fld "futex" (TStruct false [fld "uaddr" (TPtr "u32");
  fld "val" t_u32; fld "flags" t_u32; fld "bitset" t_u32; fld "time" t_u64;
  fld "uaddr2" (TPtr "u32")]); fld "nanosleep" (TStruct false [fld "clockid" t_clockid_t;
  fld "type" c_enum;
  fld EmptyString (TUnion false [fld "rmtp" (TPtr "struct __kernel_timespec");
  fld "compat_rmtp" (TPtr "struct old_timespec32")]); fld "expires" t_u64]);
  fld "poll" (TStruct false [fld "ufds" (TPtr "struct pollfd"); fld "nfds" c_int;
  fld "has_timeout" c_int; fld "tv_sec" c_ulong; fld "tv_nsec" c_ulong])])].
Abbreviation t___kernel_pid_t := c_int.
Abbreviation t_pid_t := t___kernel_pid_t.
Abbreviation s_hlist_node := (TStruct false [fld "next" (TPtr "struct hlist_node");
  fld "pprev" (TPtr "struct hlist_node")]).
Definition s_qspinlock : ctype :=
  TStruct false [fld EmptyString (TUnion false [fld "val" t_atomic_t;
  fld EmptyString (TStruct false [fld "locked" t_u8; fld "pending" t_u8]);
  fld EmptyString (TStruct false [fld "locked_pending" t_u16; fld "tail" t_u16])])].
Abbreviation t_arch_spinlock_t := s_qspinlock.
Abbreviation s_raw_spinlock := (TStruct false [fld "raw_lock" t_arch_spinlock_t]).
Abbreviation t_raw_spinlock_t := s_raw_spinlock.
Abbreviation s_prev_cputime := (TStruct false [fld "utime" t_u64; fld "stime" t_u64;
  fld "lock" t_raw_spinlock_t]).
Abbreviation s_seqcount := (TStruct false [fld "sequence" c_uint]).
Abbreviation t_seqcount_t := s_seqcount.
Definition s_vtime : ctype := TStruct false [fld "seqcount" t_seqcount_t;
  fld "starttime" c_ullong; fld "state" c_enum; fld "cpu" c_uint; fld "utime" t_u64;
  fld "stime" t_u64; fld "gtime" t_u64].
Abbreviation s_rb_root := (TStruct false [fld "rb_node" (TPtr "struct rb_node")]).
Abbreviation s_rb_root_cached := (TStruct false [fld "rb_root" s_rb_root;
  fld "rb_leftmost" (TPtr "struct rb_node")]).
Abbreviation s_timerqueue_head := (TStruct false [fld "rb_root" s_rb_root_cached]).
Abbreviation s_posix_cputimer_base := (TStruct false [fld "nextevt" t_u64;
  fld "tqhead" s_timerqueue_head]).
Abbreviation s_posix_cputimers := (TStruct false [fld "bases" (TArr 3 s_posix_cputimer_base); fld "timers_active" c_uint;
  fld "expiry_active" c_uint]).
Abbreviation s_callback_head := (TStruct false [fld "next" (TPtr "struct callback_head");
  fld "func" (TPtr "fn")]).
Abbreviation t_atomic64_t := (TStruct false [fld "counter" t_s64]).
Abbreviation t_atomic_long_t := t_atomic64_t.
Abbreviation s_optimistic_spin_queue := (TStruct false [fld "tail" t_atomic_t]).
Definition s_mutex : ctype := TStruct false [fld "owner" t_atomic_long_t;
  fld "wait_lock" t_raw_spinlock_t; fld "osq" s_optimistic_spin_queue;
  fld "wait_list" s_list_head].
Abbreviation s_posix_cputimers_work := (TStruct false [fld "work" s_callback_head;
  fld "mutex" s_mutex; fld "scheduled" c_uint]).
Abbreviation s_sysv_sem := (TStruct false [fld "undo_list" (TPtr "struct sem_undo_list")]).
Abbreviation s_sysv_shm := (TStruct false [fld "shm_clist" s_list_head]).
Abbreviation t_sigset_t := (TStruct false [fld "sig" (TArr 1 c_ulong)]).
Abbreviation s_sigpending := (TStruct false [fld "list" s_list_head;
  fld "signal" t_sigset_t]).
Abbreviation t___kernel_ulong_t := c_ulong.
Abbreviation t___kernel_size_t := t___kernel_ulong_t.
Abbreviation t_size_t := t___kernel_size_t.
Abbreviation t___kernel_uid32_t := c_uint.
Abbreviation t_uid_t := t___kernel_uid32_t.
Abbreviation t_kuid_t := (TStruct false [fld "val" t_uid_t]).
Abbreviation s_seccomp := (TStruct false [fld "mode" c_int; fld "filter_count" t_atomic_t;
  fld "filter" (TPtr "struct seccomp_filter")]).
Abbreviation t_bool := c_bool.
Abbreviation s_syscall_user_dispatch := (TStruct false [fld "selector" (TPtr "char");
  fld "offset" c_ulong; fld "len" c_ulong; fld "on_dispatch" t_bool]).
Definition s_spinlock : ctype :=
  TStruct false [fld EmptyString (TUnion false [fld "rlock" s_raw_spinlock])].
Abbreviation t_spinlock_t := s_spinlock.
Abbreviation s_wake_q_node := (TStruct false [fld "next" (TPtr "struct wake_q_node")]).
Definition s_task_io_accounting : ctype := TStruct false [fld "rchar" t_u64; fld "wchar" t_u64;
  fld "syscr" t_u64; fld "syscw" t_u64; fld "read_bytes" t_u64; fld "write_bytes" t_u64;
  fld "cancelled_write_bytes" t_u64].
Abbreviation t_nodemask_t := (TStruct false [fld "bits" (TArr 16 c_ulong)]).
Abbreviation s_seqcount_spinlock := (TStruct false [fld "seqcount" t_seqcount_t]).
Abbreviation t_seqcount_spinlock_t := s_seqcount_spinlock.
Abbreviation s_arch_tlbflush_unmap_batch := (TStruct false [fld "cpumask" s_cpumask]).
Abbreviation s_tlbflush_unmap_batch := (TStruct false [fld "arch" s_arch_tlbflush_unmap_batch; fld "flush_required" t_bool;
  fld "writable" t_bool]).
Abbreviation s_page_frag := (TStruct false [fld "page" (TPtr "struct page");
  fld "offset" t___u32; fld "size" t___u32]).
Abbreviation s_latency_record := (TStruct false [fld "backtrace" (TArr 12 c_ulong);
  fld "count" c_uint; fld "time" c_ulong; fld "max" c_ulong]).
Abbreviation t_gfp_t := c_uint.
Abbreviation s_kmap_ctrl := (TStruct false []).
Definition s_timer_list : ctype := TStruct false [fld "entry" s_hlist_node;
  fld "expires" c_ulong; fld "function" (TPtr "fn"); fld "flags" t_u32].
Abbreviation s_llist_head := (TStruct false [fld "first" (TPtr "struct llist_node")]).
Abbreviation s_da_monitor := (TStruct false [fld "monitoring" t_bool;
  fld "curr_state" c_uint]).
Abbreviation u_rv_task_monitor := (TUnion false [fld "da_mon" s_da_monitor]).
Definition s_desc_struct : ctype := TStruct false [fld "limit0" t_u16; fld "base0" t_u16;
  bits "base1" t_u16 8; bits "type" t_u16 4; bits "s" t_u16 1; bits "dpl" t_u16 2;
  bits "p" t_u16 1; bits "limit1" t_u16 4; bits "avl" t_u16 1; bits "l" t_u16 1;
  bits "d" t_u16 1; bits "g" t_u16 1; bits "base2" t_u16 8].
Abbreviation s_thread_shstk := (TStruct false [fld "base" t_u64; fld "size" t_u64]).
Abbreviation s_fpu_state_perm := (TStruct false [fld "__state_perm" t_u64;
  fld "__state_size" c_uint; fld "__user_state_size" c_uint]).
Definition s_fregs_state : ctype := TStruct false [fld "cwd" t_u32; fld "swd" t_u32;
  fld "twd" t_u32; fld "fip" t_u32; fld "fcs" t_u32; fld "foo" t_u32; fld "fos" t_u32;
  fld "st_space" (TArr 20 t_u32); fld "status" t_u32].
Definition s_fxregs_state : ctype := TStruct false [fld "cwd" t_u16; fld "swd" t_u16;
  fld "twd" t_u16; fld "fop" t_u16;
  fld EmptyString (TUnion false [fld EmptyString (TStruct false [fld "rip" t_u64;
  fld "rdp" t_u64]); fld EmptyString (TStruct false [fld "fip" t_u32; fld "fcs" t_u32;
  fld "foo" t_u32; fld "fos" t_u32])]); fld "mxcsr" t_u32; fld "mxcsr_mask" t_u32;
  fld "st_space" (TArr 32 t_u32); fld "xmm_space" (TArr 64 t_u32);
  fld "padding" (TArr 12 t_u32); fld EmptyString (TUnion false [fld "padding1" (TArr 12 t_u32);
  fld "sw_reserved" (TArr 12 t_u32)])].
Definition s_swregs_state : ctype := TStruct false [fld "cwd" t_u32; fld "swd" t_u32;
  fld "twd" t_u32; fld "fip" t_u32; fld "fcs" t_u32; fld "foo" t_u32; fld "fos" t_u32;
  fld "st_space" (TArr 20 t_u32); fld "ftop" t_u8; fld "changed" t_u8; fld "lookahead" t_u8;
  fld "no_update" t_u8; fld "rm" t_u8; fld "alimit" t_u8;
  fld "info" (TPtr "struct math_emu_info"); fld "entry_eip" t_u32].
Abbreviation s_xstate_header := (TStruct false [fld "xfeatures" t_u64;
  fld "xcomp_bv" t_u64; fld "reserved" (TArr 6 t_u64)]).
Abbreviation s_xregs_state := (TStruct false [fld "i387" s_fxregs_state;
  fld "header" s_xstate_header; fld "extended_state_area" (TArr 0 t_u8)]).
Definition u_fpregs_state : ctype := TUnion false [fld "fsave" s_fregs_state;
  fld "fxsave" s_fxregs_state; fld "soft" s_swregs_state; fld "xsave" s_xregs_state;
  fld "__padding" (TArr 4096 t_u8)].
Definition s_fpstate : ctype := TStruct false [fld "size" c_uint; fld "user_size" c_uint;
  fld "xfeatures" t_u64; fld "user_xfeatures" t_u64; fld "xfd" t_u64; bits "is_valloc" c_uint 1;
  bits "is_guest" c_uint 1; bits "is_confidential" c_uint 1; bits "in_use" c_uint 1;
  bits EmptyString c_long 64; bits EmptyString c_long 64; bits EmptyString c_long 64;
  fld "regs" u_fpregs_state].
Definition s_fpu : ctype := TStruct false [fld "last_cpu" c_uint;
  fld "avx512_timestamp" c_ulong; fld "fpstate" (TPtr "struct fpstate");
  fld "__task_fpstate" (TPtr "struct fpstate"); fld "perm" s_fpu_state_perm;
  fld "guest_perm" s_fpu_state_perm; fld "__fpstate" s_fpstate].
Definition s_thread_struct : ctype := TStruct false [fld "tls_array" (TArr 3 s_desc_struct);
  fld "sp" c_ulong; fld "es" c_ushort; fld "ds" c_ushort; fld "fsindex" c_ushort;
  fld "gsindex" c_ushort; fld "fsbase" c_ulong; fld "gsbase" c_ulong;
  fld "ptrace_bps" (TArr 4 (TPtr "struct perf_event")); fld "virtual_dr6" c_ulong;
  fld "ptrace_dr7" c_ulong; fld "cr2" c_ulong; fld "trap_nr" c_ulong; fld "error_code" c_ulong;
  fld "io_bitmap" (TPtr "struct io_bitmap"); fld "iopl_emul" c_ulong; bits "iopl_warn" c_uint 1;
  fld "pkru" t_u32; fld "features" c_ulong; fld "features_locked" c_ulong;
  fld "shstk" s_thread_shstk; bits EmptyString c_long 64; fld "fpu" s_fpu].
Definition s_task_struct_part1 : list (string * ctype * option Z) :=
  [fld "thread_info" s_thread_info; fld "__state" c_uint; fld "saved_state" c_uint;
  fld "stack" (TPtr "void"); fld "usage" t_refcount_t; fld "flags" c_uint; fld "ptrace" c_uint;
  fld "on_cpu" c_int; fld "wake_entry" s___call_single_node; fld "wakee_flips" c_uint;
  fld "wakee_flip_decay_ts" c_ulong; fld "last_wakee" (TPtr "struct task_struct");
  fld "recent_used_cpu" c_int; fld "wake_cpu" c_int; fld "on_rq" c_int; fld "prio" c_int;
  fld "static_prio" c_int; fld "normal_prio" c_int; fld "rt_priority" c_uint;
  fld "se" s_sched_entity; fld "rt" s_sched_rt_entity; fld "dl" s_sched_dl_entity;
  fld "dl_server" (TPtr "struct sched_dl_entity");
  fld "sched_class" (TPtr "struct sched_class"); fld "core_node" s_rb_node;
  fld "core_cookie" c_ulong; fld "core_occupation" c_uint;
  fld "sched_task_group" (TPtr "struct task_group"); fld "uclamp_req" (TArr 2 s_uclamp_se);
  fld "uclamp" (TArr 2 s_uclamp_se); bits EmptyString c_long 64; fld "stats" s_sched_statistics;
  fld "preempt_notifiers" s_hlist_head; fld "btrace_seq" c_uint; fld "policy" c_uint;
  fld "nr_cpus_allowed" c_int; fld "cpus_ptr" (TPtr "cpumask_t");
  fld "user_cpus_ptr" (TPtr "cpumask_t"); fld "cpus_mask" t_cpumask_t;
  fld "migration_pending" (TPtr "void"); fld "migration_disabled" c_ushort;
  fld "migration_flags" c_ushort; fld "rcu_read_lock_nesting" c_int;
  fld "rcu_read_unlock_special" u_rcu_special; fld "rcu_node_entry" s_list_head;
  fld "rcu_blocked_node" (TPtr "struct rcu_node"); fld "rcu_tasks_nvcsw" c_ulong;
  fld "rcu_tasks_holdout" t_u8; fld "rcu_tasks_idx" t_u8; fld "rcu_tasks_idle_cpu" c_int;
  fld "rcu_tasks_holdout_list" s_list_head; fld "rcu_tasks_exit_cpu" c_int;
  fld "rcu_tasks_exit_list" s_list_head; fld "trc_reader_nesting" c_int;
  fld "trc_ipi_to_cpu" c_int; fld "trc_reader_special" u_rcu_special;
  fld "trc_holdout_list" s_list_head; fld "trc_blkd_node" s_list_head; fld "trc_blkd_cpu" c_int;
  fld "sched_info" s_sched_info; fld "tasks" s_list_head; fld "pushable_tasks" s_plist_node;
  fld "pushable_dl_tasks" s_rb_node; fld "mm" (TPtr "struct mm_struct");
  fld "active_mm" (TPtr "struct mm_struct");
  fld "faults_disabled_mapping" (TPtr "struct address_space"); fld "exit_state" c_int;
  fld "exit_code" c_int; fld "exit_signal" c_int; fld "pdeath_signal" c_int;
  fld "jobctl" c_ulong; fld "personality" c_uint; bits "sched_reset_on_fork" c_uint 1;
  bits "sched_contributes_to_load" c_uint 1; bits "sched_migrated" c_uint 1;
  bits "sched_task_hot" c_uint 1; bits EmptyString c_long 28;
  bits "sched_remote_wakeup" c_uint 1; bits "sched_rt_mutex" c_uint 1;
  bits "in_execve" c_uint 1; bits "in_iowait" c_uint 1; bits "restore_sigmask" c_uint 1;
  bits "in_user_fault" c_uint 1; bits "in_lru_fault" c_uint 1;
  bits "no_cgroup_migration" c_uint 1; bits "frozen" c_uint 1; bits "use_memdelay" c_uint 1;
  bits "in_memstall" c_uint 1; bits "in_eventfd" c_uint 1; bits "pasid_activated" c_uint 1;
  bits "reported_split_lock" c_uint 1; bits "in_thrashing" c_uint 1; fld "atomic_flags" c_ulong;
  fld "restart_block" s_restart_block; fld "pid" t_pid_t; fld "tgid" t_pid_t;
  fld "stack_canary" c_ulong; fld "real_parent" (TPtr "struct task_struct");
  fld "parent" (TPtr "struct task_struct"); fld "children" s_list_head;
  fld "sibling" s_list_head; fld "group_leader" (TPtr "struct task_struct");
  fld "ptraced" s_list_head; fld "ptrace_entry" s_list_head;
  fld "thread_pid" (TPtr "struct pid"); fld "pid_links" (TArr 4 s_hlist_node);
  fld "thread_node" s_list_head; fld "vfork_done" (TPtr "struct completion");
  fld "set_child_tid" (TPtr "int"); fld "clear_child_tid" (TPtr "int");
  fld "worker_private" (TPtr "void"); fld "utime" t_u64; fld "stime" t_u64; fld "gtime" t_u64;
  fld "prev_cputime" s_prev_cputime; fld "vtime" s_vtime; fld "tick_dep_mask" t_atomic_t;
  fld "nvcsw" c_ulong; fld "nivcsw" c_ulong; fld "start_time" t_u64; fld "start_boottime" t_u64;
  fld "min_flt" c_ulong; fld "maj_flt" c_ulong; fld "posix_cputimers" s_posix_cputimers;
  fld "posix_cputimers_work" s_posix_cputimers_work; fld "ptracer_cred" (TPtr "struct cred");
  fld "real_cred" (TPtr "struct cred"); fld "cred" (TPtr "struct cred");
  fld "cached_requested_key" (TPtr "struct key"); fld "comm" (TArr 16 c_char);
  fld "nameidata" (TPtr "struct nameidata"); fld "sysvsem" s_sysv_sem; fld "sysvshm" s_sysv_shm;
  fld "last_switch_count" c_ulong; fld "last_switch_time" c_ulong;
  fld "fs" (TPtr "struct fs_struct"); fld "files" (TPtr "struct files_struct");
  fld "io_uring" (TPtr "struct io_uring_task"); fld "nsproxy" (TPtr "struct nsproxy");
  fld "signal" (TPtr "struct signal_struct")].
Definition s_task_struct_part2 : list (string * ctype * option Z) :=
  [fld "sighand" (TPtr "struct sighand_struct"); fld "blocked" t_sigset_t;
  fld "real_blocked" t_sigset_t; fld "saved_sigmask" t_sigset_t; fld "pending" s_sigpending;
  fld "sas_ss_sp" c_ulong; fld "sas_ss_size" t_size_t; fld "sas_ss_flags" c_uint;
  fld "task_works" (TPtr "struct callback_head");
  fld "audit_context" (TPtr "struct audit_context"); fld "loginuid" t_kuid_t;
  fld "sessionid" c_uint; fld "seccomp" s_seccomp;
  fld "syscall_dispatch" s_syscall_user_dispatch; fld "parent_exec_id" t_u64;
  fld "self_exec_id" t_u64; fld "alloc_lock" t_spinlock_t; fld "pi_lock" t_raw_spinlock_t;
  fld "wake_q" s_wake_q_node; fld "pi_waiters" s_rb_root_cached;
  fld "pi_top_task" (TPtr "struct task_struct");
  fld "pi_blocked_on" (TPtr "struct rt_mutex_waiter"); fld "in_ubsan" c_uint;
  fld "journal_info" (TPtr "void"); fld "bio_list" (TPtr "struct bio_list");
  fld "plug" (TPtr "struct blk_plug"); fld "reclaim_state" (TPtr "struct reclaim_state");
  fld "io_context" (TPtr "struct io_context");
  fld "capture_control" (TPtr "struct capture_control"); fld "ptrace_message" c_ulong;
  fld "last_siginfo" (TPtr "kernel_siginfo_t"); fld "ioac" s_task_io_accounting;
  fld "psi_flags" c_uint; fld "acct_rss_mem1" t_u64; fld "acct_vm_mem1" t_u64;
  fld "acct_timexpd" t_u64; fld "mems_allowed" t_nodemask_t;
  fld "mems_allowed_seq" t_seqcount_spinlock_t; fld "cpuset_mem_spread_rotor" c_int;
  fld "cpuset_slab_spread_rotor" c_int; fld "cgroups" (TPtr "struct css_set");
  fld "cg_list" s_list_head; fld "closid" t_u32; fld "rmid" t_u32;
  fld "robust_list" (TPtr "struct robust_list_head");
  fld "compat_robust_list" (TPtr "struct compat_robust_list_head");
  fld "pi_state_list" s_list_head; fld "pi_state_cache" (TPtr "struct futex_pi_state");
  fld "futex_exit_mutex" s_mutex; fld "futex_state" c_uint;
  fld "perf_event_ctxp" (TPtr "struct perf_event_context"); fld "perf_event_mutex" s_mutex;
  fld "perf_event_list" s_list_head; fld "mempolicy" (TPtr "struct mempolicy");
  fld "il_prev" c_short; fld "pref_node_fork" c_short; fld "numa_scan_seq" c_int;
  fld "numa_scan_period" c_uint; fld "numa_scan_period_max" c_uint;
  fld "numa_preferred_nid" c_int; fld "numa_migrate_retry" c_ulong; fld "node_stamp" t_u64;
  fld "last_task_numa_placement" t_u64; fld "last_sum_exec_runtime" t_u64;
  fld "numa_work" s_callback_head; fld "numa_group" (TPtr "struct numa_group");
  fld "numa_faults" (TPtr "long unsigned int"); fld "total_numa_faults" c_ulong;
  fld "numa_faults_locality" (TArr 3 c_ulong); fld "numa_pages_migrated" c_ulong;
  fld "rseq" (TPtr "struct rseq"); fld "rseq_len" t_u32; fld "rseq_sig" t_u32;
  fld "rseq_event_mask" c_ulong; fld "mm_cid" c_int; fld "last_mm_cid" c_int;
  fld "migrate_from_cpu" c_int; fld "mm_cid_active" c_int; fld "cid_work" s_callback_head;
  fld "tlb_ubc" s_tlbflush_unmap_batch; fld "splice_pipe" (TPtr "struct pipe_inode_info");
  fld "task_frag" s_page_frag; fld "delays" (TPtr "struct task_delay_info");
  fld "nr_dirtied" c_int; fld "nr_dirtied_pause" c_int; fld "dirty_paused_when" c_ulong;
  fld "latency_record_count" c_int; fld "latency_record" (TArr 32 s_latency_record);
  fld "timer_slack_ns" t_u64; fld "default_timer_slack_ns" t_u64; fld "curr_ret_stack" c_int;
  fld "curr_ret_depth" c_int; fld "ret_stack" (TPtr "struct ftrace_ret_stack");
  fld "ftrace_timestamp" c_ullong; fld "trace_overrun" t_atomic_t;
  fld "tracing_graph_pause" t_atomic_t; fld "trace_recursion" c_ulong;
  fld "memcg_in_oom" (TPtr "struct mem_cgroup"); fld "memcg_oom_gfp_mask" t_gfp_t;
  fld "memcg_oom_order" c_int; fld "memcg_nr_pages_over_high" c_uint;
  fld "active_memcg" (TPtr "struct mem_cgroup"); fld "objcg" (TPtr "struct obj_cgroup");
  fld "throttle_disk" (TPtr "struct gendisk"); fld "utask" (TPtr "struct uprobe_task");
  fld "sequential_io" c_uint; fld "sequential_io_avg" c_uint; fld "kmap_ctrl" s_kmap_ctrl;
  fld "rcu" s_callback_head; fld "rcu_users" t_refcount_t; fld "pagefault_disabled" c_int;
  fld "oom_reaper_list" (TPtr "struct task_struct"); fld "oom_reaper_timer" s_timer_list;
  fld "stack_vm_area" (TPtr "struct vm_struct"); fld "stack_refcount" t_refcount_t;
  fld "patch_state" c_int; fld "security" (TPtr "void");
  fld "bpf_storage" (TPtr "struct bpf_local_storage");
  fld "bpf_ctx" (TPtr "struct bpf_run_ctx"); fld "mce_vaddr" (TPtr "void");
  fld "mce_kflags" t___u64; fld "mce_addr" t_u64; bits "mce_ripv" t___u64 1;
  bits "mce_whole_page" t___u64 1; bits "__mce_reserved" t___u64 62;
  fld "mce_kill_me" s_callback_head; fld "mce_count" c_int;
  fld "kretprobe_instances" s_llist_head; fld "rethooks" s_llist_head;
  fld "l1d_flush_kill" s_callback_head; fld "rv" (TArr 1 u_rv_task_monitor);
  fld "user_event_mm" (TPtr "struct user_event_mm"); fld "thread" s_thread_struct].
Definition s_task_struct : ctype := TStruct false (s_task_struct_part1 ++ s_task_struct_part2).
Abbreviation t_lockdep_map_p := (TStruct false []).
Definition s_maple_tree : ctype :=
  TStruct false [fld EmptyString (TUnion false [fld "ma_lock" t_spinlock_t;
  fld "ma_external_lock" t_lockdep_map_p]); fld "ma_flags" c_uint; fld "ma_root" (TPtr "void")].
Definition s_rw_semaphore : ctype := TStruct false [fld "count" t_atomic_long_t;
  fld "owner" t_atomic_long_t; fld "osq" s_optimistic_spin_queue;
  fld "wait_lock" t_raw_spinlock_t; fld "wait_list" s_list_head].
Abbreviation s_percpu_counter := (TStruct false [fld "lock" t_raw_spinlock_t;
  fld "count" t_s64; fld "list" s_list_head; fld "counters" (TPtr "s32")]).
Abbreviation t___s16 := c_short.
Abbreviation t_s16 := t___s16.
Definition t_mm_context_t : ctype := TStruct false [fld "ctx_id" t_u64;
  fld "tlb_gen" t_atomic64_t; fld "next_trim_cpumask" c_ulong; fld "ldt_usr_sem" s_rw_semaphore;
  fld "ldt" (TPtr "struct ldt_struct"); fld "flags" c_ulong; fld "lock" s_mutex;
  fld "vdso" (TPtr "void"); fld "vdso_image" (TPtr "struct vdso_image");
  fld "perf_rdpmc_allowed" t_atomic_t; fld "pkey_allocation_map" t_u16;
  fld "execute_only_pkey" t_s16].
Abbreviation s_uprobes_state := (TStruct false [fld "xol_area" (TPtr "struct xol_area")]).
Abbreviation t_work_func_t := (TPtr "fn").
Definition s_work_struct : ctype := TStruct false [fld "data" t_atomic_long_t;
  fld "entry" s_list_head; fld "func" t_work_func_t].
Definition s_mm_struct : ctype :=
  TStruct false [fld EmptyString (TStruct false [fld EmptyString (TStruct false ([fld "mm_count" t_atomic_t] ++
  replicate 7 (bits EmptyString c_long 64))); fld "mm_mt" s_maple_tree;
  fld "get_unmapped_area" (TPtr "fn"); fld "mmap_base" c_ulong; fld "mmap_legacy_base" c_ulong;
  fld "mmap_compat_base" c_ulong; fld "mmap_compat_legacy_base" c_ulong;
  fld "task_size" c_ulong; fld "pgd" (TPtr "pgd_t"); fld "membarrier_state" t_atomic_t;
  fld "mm_users" t_atomic_t; fld "pcpu_cid" (TPtr "struct mm_cid");
  fld "mm_cid_next_scan" c_ulong; fld "pgtables_bytes" t_atomic_long_t; fld "map_count" c_int;
  fld "page_table_lock" t_spinlock_t; fld "mmap_lock" s_rw_semaphore; fld "mmlist" s_list_head;
  fld "mm_lock_seq" c_int; fld "hiwater_rss" c_ulong; fld "hiwater_vm" c_ulong;
  fld "total_vm" c_ulong; fld "locked_vm" c_ulong; fld "pinned_vm" t_atomic64_t;
  fld "data_vm" c_ulong; fld "exec_vm" c_ulong; fld "stack_vm" c_ulong; fld "def_flags" c_ulong;
  fld "write_protect_seq" t_seqcount_t; fld "arg_lock" t_spinlock_t; fld "start_code" c_ulong;
  fld "end_code" c_ulong; fld "start_data" c_ulong; fld "end_data" c_ulong;
  fld "start_brk" c_ulong; fld "brk" c_ulong; fld "start_stack" c_ulong;
  fld "arg_start" c_ulong; fld "arg_end" c_ulong; fld "env_start" c_ulong;
  fld "env_end" c_ulong; fld "saved_auxv" (TArr 52 c_ulong);
  fld "rss_stat" (TArr 4 s_percpu_counter); fld "binfmt" (TPtr "struct linux_binfmt");
  fld "context" t_mm_context_t; fld "flags" c_ulong; fld "ioctx_lock" t_spinlock_t;
  fld "ioctx_table" (TPtr "struct kioctx_table"); fld "owner" (TPtr "struct task_struct");
  fld "user_ns" (TPtr "struct user_namespace"); fld "exe_file" (TPtr "struct file");
  fld "notifier_subscriptions" (TPtr "struct mmu_notifier_subscriptions");
  fld "numa_next_scan" c_ulong; fld "numa_scan_offset" c_ulong; fld "numa_scan_seq" c_int;
  fld "tlb_flush_pending" t_atomic_t; fld "tlb_flush_batched" t_atomic_t;
  fld "uprobes_state" s_uprobes_state; fld "hugetlb_usage" t_atomic_long_t;
  fld "async_put_work" s_work_struct; fld "iommu_mm" (TPtr "struct iommu_mm_data");
  fld "ksm_merging_pages" c_ulong; fld "ksm_rmap_items" c_ulong;
  fld "ksm_zero_pages" t_atomic_long_t; fld "lru_gen" (TStruct false [fld "list" s_list_head;
  fld "bitmap" c_ulong; fld "memcg" (TPtr "struct mem_cgroup")]); bits EmptyString c_long 64;
  bits EmptyString c_long 64]); fld "cpu_bitmap" (TArr 0 c_ulong)].
Abbreviation t_pgprotval_t := c_ulong.
Abbreviation s_pgprot := (TStruct false [fld "pgprot" t_pgprotval_t]).
Abbreviation t_pgprot_t := s_pgprot.
Abbreviation t_vm_flags_t := c_ulong.
Abbreviation s_vm_userfaultfd_ctx := (TStruct false [fld "ctx" (TPtr "struct userfaultfd_ctx")]).
Definition s_vm_area_struct : ctype :=
  TStruct false [fld EmptyString (TUnion false [fld EmptyString (TStruct false [fld "vm_start" c_ulong;
  fld "vm_end" c_ulong]); fld "vm_rcu" s_callback_head]); fld "vm_mm" (TPtr "struct mm_struct");
  fld "vm_page_prot" t_pgprot_t; fld EmptyString (TUnion false [fld "vm_flags" t_vm_flags_t;
  fld "__vm_flags" t_vm_flags_t]); fld "vm_lock_seq" c_int;
  fld "vm_lock" (TPtr "struct vma_lock"); fld "detached" t_bool;
  fld "shared" (TStruct false [fld "rb" s_rb_node; fld "rb_subtree_last" c_ulong]);
  fld "anon_vma_chain" s_list_head; fld "anon_vma" (TPtr "struct anon_vma");
  fld "vm_ops" (TPtr "struct vm_operations_struct"); fld "vm_pgoff" c_ulong;
  fld "vm_file" (TPtr "struct file"); fld "vm_private_data" (TPtr "void");
  fld "anon_name" (TPtr "struct anon_vma_name"); fld "swap_readahead_info" t_atomic_long_t;
  fld "vm_policy" (TPtr "struct mempolicy"); fld "numab_state" (TPtr "struct vma_numab_state");
  fld "vm_userfaultfd_ctx" s_vm_userfaultfd_ctx].
Abbreviation s_wait_queue_head := (TStruct false [fld "lock" t_spinlock_t;
  fld "head" s_list_head]).
Abbreviation t_wait_queue_head_t := s_wait_queue_head.
Abbreviation s_cpu_itimer := (TStruct false [fld "expires" t_u64; fld "incr" t_u64]).
Abbreviation s_task_cputime_atomic := (TStruct false [fld "utime" t_atomic64_t;
  fld "stime" t_atomic64_t; fld "sum_exec_runtime" t_atomic64_t]).
Abbreviation s_thread_group_cputimer := (TStruct false [fld "cputime_atomic" s_task_cputime_atomic]).
Abbreviation t_seqlock_t := (TStruct false [fld "seqcount" t_seqcount_spinlock_t;
  fld "lock" t_spinlock_t]).
Abbreviation s_rlimit := (TStruct false [fld "rlim_cur" t___kernel_ulong_t;
  fld "rlim_max" t___kernel_ulong_t]).
Definition s_pacct_struct : ctype := TStruct false [fld "ac_flag" c_int;
  fld "ac_exitcode" c_long; fld "ac_mem" c_ulong; fld "ac_utime" t_u64; fld "ac_stime" t_u64;
  fld "ac_minflt" c_ulong; fld "ac_majflt" c_ulong].
Definition s_signal_struct : ctype := TStruct false [fld "sigcnt" t_refcount_t;
  fld "live" t_atomic_t; fld "nr_threads" c_int; fld "quick_threads" c_int;
  fld "thread_head" s_list_head; fld "wait_chldexit" t_wait_queue_head_t;
  fld "curr_target" (TPtr "struct task_struct"); fld "shared_pending" s_sigpending;
  fld "multiprocess" s_hlist_head; fld "group_exit_code" c_int; fld "notify_count" c_int;
  fld "group_exec_task" (TPtr "struct task_struct"); fld "group_stop_count" c_int;
  fld "flags" c_uint; fld "core_state" (TPtr "struct core_state");
  bits "is_child_subreaper" c_uint 1; bits "has_child_subreaper" c_uint 1;
  fld "next_posix_timer_id" c_uint; fld "posix_timers" s_list_head; fld "real_timer" s_hrtimer;
  fld "it_real_incr" t_ktime_t; fld "it" (TArr 2 s_cpu_itimer);
  fld "cputimer" s_thread_group_cputimer; fld "posix_cputimers" s_posix_cputimers;
  fld "pids" (TArr 4 (TPtr "struct pid")); fld "tick_dep_mask" t_atomic_t;
  fld "tty_old_pgrp" (TPtr "struct pid"); fld "leader" c_int;
  fld "tty" (TPtr "struct tty_struct"); fld "autogroup" (TPtr "struct autogroup");
  fld "stats_lock" t_seqlock_t; fld "utime" t_u64; fld "stime" t_u64; fld "cutime" t_u64;
  fld "cstime" t_u64; fld "gtime" t_u64; fld "cgtime" t_u64; fld "prev_cputime" s_prev_cputime;
  fld "nvcsw" c_ulong; fld "nivcsw" c_ulong; fld "cnvcsw" c_ulong; fld "cnivcsw" c_ulong;
  fld "min_flt" c_ulong; fld "maj_flt" c_ulong; fld "cmin_flt" c_ulong; fld "cmaj_flt" c_ulong;
  fld "inblock" c_ulong; fld "oublock" c_ulong; fld "cinblock" c_ulong; fld "coublock" c_ulong;
  fld "maxrss" c_ulong; fld "cmaxrss" c_ulong; fld "ioac" s_task_io_accounting;
  fld "sum_sched_runtime" c_ullong; fld "rlim" (TArr 16 s_rlimit); fld "pacct" s_pacct_struct;
  fld "stats" (TPtr "struct taskstats"); fld "audit_tty" c_uint;
  fld "tty_audit_buf" (TPtr "struct tty_audit_buf"); fld "oom_flag_origin" t_bool;
  fld "oom_score_adj" c_short; fld "oom_score_adj_min" c_short;
  fld "oom_mm" (TPtr "struct mm_struct"); fld "cred_guard_mutex" s_mutex;
  fld "exec_update_lock" s_rw_semaphore].
Abbreviation t___kernel_gid32_t := c_uint.
Abbreviation t_gid_t := t___kernel_gid32_t.
Abbreviation t_kgid_t := (TStruct false [fld "val" t_gid_t]).
Abbreviation t_kernel_cap_t := (TStruct false [fld "val" t_u64]).
Definition s_cred : ctype := TStruct false [fld "usage" t_atomic_long_t; fld "uid" t_kuid_t;
  fld "gid" t_kgid_t; fld "suid" t_kuid_t; fld "sgid" t_kgid_t; fld "euid" t_kuid_t;
  fld "egid" t_kgid_t; fld "fsuid" t_kuid_t; fld "fsgid" t_kgid_t; fld "securebits" c_uint;
  fld "cap_inheritable" t_kernel_cap_t; fld "cap_permitted" t_kernel_cap_t;
  fld "cap_effective" t_kernel_cap_t; fld "cap_bset" t_kernel_cap_t;
  fld "cap_ambient" t_kernel_cap_t; fld "jit_keyring" c_uchar;
  fld "session_keyring" (TPtr "struct key"); fld "process_keyring" (TPtr "struct key");
  fld "thread_keyring" (TPtr "struct key"); fld "request_key_auth" (TPtr "struct key");
  fld "security" (TPtr "void"); fld "user" (TPtr "struct user_struct");
  fld "user_ns" (TPtr "struct user_namespace"); fld "ucounts" (TPtr "struct ucounts");
  fld "group_info" (TPtr "struct group_info");
  fld EmptyString (TUnion false [fld "non_rcu" c_int; fld "rcu" s_callback_head])].
Abbreviation s_xarray := (TStruct false [fld "xa_lock" t_spinlock_t;
  fld "xa_flags" t_gfp_t; fld "xa_head" (TPtr "void")]).
Abbreviation s_idr := (TStruct false [fld "idr_rt" s_xarray; fld "idr_base" c_uint;
  fld "idr_next" c_uint]).
Abbreviation s_ns_common := (TStruct false [fld "stashed" t_atomic_long_t;
  fld "ops" (TPtr "struct proc_ns_operations"); fld "inum" c_uint; fld "count" t_refcount_t]).
Definition s_pid_namespace : ctype := TStruct false [fld "idr" s_idr; fld "rcu" s_callback_head;
  fld "pid_allocated" c_uint; fld "child_reaper" (TPtr "struct task_struct");
  fld "pid_cachep" (TPtr "struct kmem_cache"); fld "level" c_uint;
  fld "parent" (TPtr "struct pid_namespace"); fld "bacct" (TPtr "struct fs_pin");
  fld "user_ns" (TPtr "struct user_namespace"); fld "ucounts" (TPtr "struct ucounts");
  fld "reboot" c_int; fld "ns" s_ns_common; fld "memfd_noexec_scope" c_int].
