(* ===== verification/KernelBpf.v ===== *)
(** * Kernel BPF types: src/src/bpf/vmlinux.h, BPF part

    The C types of the kernel's type dump that carry the tracer inside the
    kernel: the hash, LRU, array and ring-buffer maps behind the maps of
    profi.bpf.c, programs and the verifier's state for them, uprobes, trace and perf
    events and links, the bpf(2) argument block, and the enumerations of map types, program types, attach types,
    helpers, commands and update flags.  Same conventions as KernelTask.v. *)

From stdpp Require Import strings.
From S2P Require Import Prelude CLayout KernelTask.

Local Open Scope Z_scope.

(** ** Enumerations *)

Definition e_bpf_map_type : list (string * Z) := [("BPF_MAP_TYPE_UNSPEC", 0);
  ("BPF_MAP_TYPE_HASH", 1); ("BPF_MAP_TYPE_ARRAY", 2); ("BPF_MAP_TYPE_PROG_ARRAY", 3);
  ("BPF_MAP_TYPE_PERF_EVENT_ARRAY", 4); ("BPF_MAP_TYPE_PERCPU_HASH", 5);
  ("BPF_MAP_TYPE_PERCPU_ARRAY", 6); ("BPF_MAP_TYPE_STACK_TRACE", 7);
  ("BPF_MAP_TYPE_CGROUP_ARRAY", 8); ("BPF_MAP_TYPE_LRU_HASH", 9);
  ("BPF_MAP_TYPE_LRU_PERCPU_HASH", 10); ("BPF_MAP_TYPE_LPM_TRIE", 11);
  ("BPF_MAP_TYPE_ARRAY_OF_MAPS", 12); ("BPF_MAP_TYPE_HASH_OF_MAPS", 13);
  ("BPF_MAP_TYPE_DEVMAP", 14); ("BPF_MAP_TYPE_SOCKMAP", 15); ("BPF_MAP_TYPE_CPUMAP", 16);
  ("BPF_MAP_TYPE_XSKMAP", 17); ("BPF_MAP_TYPE_SOCKHASH", 18);
  ("BPF_MAP_TYPE_CGROUP_STORAGE_DEPRECATED", 19); ("BPF_MAP_TYPE_CGROUP_STORAGE", 19);
  ("BPF_MAP_TYPE_REUSEPORT_SOCKARRAY", 20);
  ("BPF_MAP_TYPE_PERCPU_CGROUP_STORAGE_DEPRECATED", 21);
  ("BPF_MAP_TYPE_PERCPU_CGROUP_STORAGE", 21); ("BPF_MAP_TYPE_QUEUE", 22);
  ("BPF_MAP_TYPE_STACK", 23); ("BPF_MAP_TYPE_SK_STORAGE", 24); ("BPF_MAP_TYPE_DEVMAP_HASH", 25);
  ("BPF_MAP_TYPE_STRUCT_OPS", 26); ("BPF_MAP_TYPE_RINGBUF", 27);
  ("BPF_MAP_TYPE_INODE_STORAGE", 28); ("BPF_MAP_TYPE_TASK_STORAGE", 29);
  ("BPF_MAP_TYPE_BLOOM_FILTER", 30); ("BPF_MAP_TYPE_USER_RINGBUF", 31);
  ("BPF_MAP_TYPE_CGRP_STORAGE", 32)].

Definition e_bpf_prog_type : list (string * Z) := [("BPF_PROG_TYPE_UNSPEC", 0);
  ("BPF_PROG_TYPE_SOCKET_FILTER", 1); ("BPF_PROG_TYPE_KPROBE", 2);
  ("BPF_PROG_TYPE_SCHED_CLS", 3); ("BPF_PROG_TYPE_SCHED_ACT", 4);
  ("BPF_PROG_TYPE_TRACEPOINT", 5); ("BPF_PROG_TYPE_XDP", 6); ("BPF_PROG_TYPE_PERF_EVENT", 7);
  ("BPF_PROG_TYPE_CGROUP_SKB", 8); ("BPF_PROG_TYPE_CGROUP_SOCK", 9);
  ("BPF_PROG_TYPE_LWT_IN", 10); ("BPF_PROG_TYPE_LWT_OUT", 11); ("BPF_PROG_TYPE_LWT_XMIT", 12);
  ("BPF_PROG_TYPE_SOCK_OPS", 13); ("BPF_PROG_TYPE_SK_SKB", 14);
  ("BPF_PROG_TYPE_CGROUP_DEVICE", 15); ("BPF_PROG_TYPE_SK_MSG", 16);
  ("BPF_PROG_TYPE_RAW_TRACEPOINT", 17); ("BPF_PROG_TYPE_CGROUP_SOCK_ADDR", 18);
  ("BPF_PROG_TYPE_LWT_SEG6LOCAL", 19); ("BPF_PROG_TYPE_LIRC_MODE2", 20);
  ("BPF_PROG_TYPE_SK_REUSEPORT", 21); ("BPF_PROG_TYPE_FLOW_DISSECTOR", 22);
  ("BPF_PROG_TYPE_CGROUP_SYSCTL", 23); ("BPF_PROG_TYPE_RAW_TRACEPOINT_WRITABLE", 24);
  ("BPF_PROG_TYPE_CGROUP_SOCKOPT", 25); ("BPF_PROG_TYPE_TRACING", 26);
  ("BPF_PROG_TYPE_STRUCT_OPS", 27); ("BPF_PROG_TYPE_EXT", 28); ("BPF_PROG_TYPE_LSM", 29);
  ("BPF_PROG_TYPE_SK_LOOKUP", 30); ("BPF_PROG_TYPE_SYSCALL", 31);
  ("BPF_PROG_TYPE_NETFILTER", 32)].

Definition e_bpf_attach_type : list (string * Z) := [("BPF_CGROUP_INET_INGRESS", 0);
  ("BPF_CGROUP_INET_EGRESS", 1); ("BPF_CGROUP_INET_SOCK_CREATE", 2); ("BPF_CGROUP_SOCK_OPS", 3);
  ("BPF_SK_SKB_STREAM_PARSER", 4); ("BPF_SK_SKB_STREAM_VERDICT", 5); ("BPF_CGROUP_DEVICE", 6);
  ("BPF_SK_MSG_VERDICT", 7); ("BPF_CGROUP_INET4_BIND", 8); ("BPF_CGROUP_INET6_BIND", 9);
  ("BPF_CGROUP_INET4_CONNECT", 10); ("BPF_CGROUP_INET6_CONNECT", 11);
  ("BPF_CGROUP_INET4_POST_BIND", 12); ("BPF_CGROUP_INET6_POST_BIND", 13);
  ("BPF_CGROUP_UDP4_SENDMSG", 14); ("BPF_CGROUP_UDP6_SENDMSG", 15); ("BPF_LIRC_MODE2", 16);
  ("BPF_FLOW_DISSECTOR", 17); ("BPF_CGROUP_SYSCTL", 18); ("BPF_CGROUP_UDP4_RECVMSG", 19);
  ("BPF_CGROUP_UDP6_RECVMSG", 20); ("BPF_CGROUP_GETSOCKOPT", 21); ("BPF_CGROUP_SETSOCKOPT", 22);
  ("BPF_TRACE_RAW_TP", 23); ("BPF_TRACE_FENTRY", 24); ("BPF_TRACE_FEXIT", 25);
  ("BPF_MODIFY_RETURN", 26); ("BPF_LSM_MAC", 27); ("BPF_TRACE_ITER", 28);
  ("BPF_CGROUP_INET4_GETPEERNAME", 29); ("BPF_CGROUP_INET6_GETPEERNAME", 30);
  ("BPF_CGROUP_INET4_GETSOCKNAME", 31); ("BPF_CGROUP_INET6_GETSOCKNAME", 32);
  ("BPF_XDP_DEVMAP", 33); ("BPF_CGROUP_INET_SOCK_RELEASE", 34); ("BPF_XDP_CPUMAP", 35);
  ("BPF_SK_LOOKUP", 36); ("BPF_XDP", 37); ("BPF_SK_SKB_VERDICT", 38);
  ("BPF_SK_REUSEPORT_SELECT", 39); ("BPF_SK_REUSEPORT_SELECT_OR_MIGRATE", 40);
  ("BPF_PERF_EVENT", 41); ("BPF_TRACE_KPROBE_MULTI", 42); ("BPF_LSM_CGROUP", 43);
  ("BPF_STRUCT_OPS", 44); ("BPF_NETFILTER", 45); ("BPF_TCX_INGRESS", 46);
  ("BPF_TCX_EGRESS", 47); ("BPF_TRACE_UPROBE_MULTI", 48); ("BPF_CGROUP_UNIX_CONNECT", 49);
  ("BPF_CGROUP_UNIX_SENDMSG", 50); ("BPF_CGROUP_UNIX_RECVMSG", 51);
  ("BPF_CGROUP_UNIX_GETPEERNAME", 52); ("BPF_CGROUP_UNIX_GETSOCKNAME", 53);
  ("BPF_NETKIT_PRIMARY", 54); ("BPF_NETKIT_PEER", 55); ("__MAX_BPF_ATTACH_TYPE", 56)].

Definition e_bpf_link_type : list (string * Z) := [("BPF_LINK_TYPE_UNSPEC", 0);
  ("BPF_LINK_TYPE_RAW_TRACEPOINT", 1); ("BPF_LINK_TYPE_TRACING", 2);
  ("BPF_LINK_TYPE_CGROUP", 3); ("BPF_LINK_TYPE_ITER", 4); ("BPF_LINK_TYPE_NETNS", 5);
  ("BPF_LINK_TYPE_XDP", 6); ("BPF_LINK_TYPE_PERF_EVENT", 7); ("BPF_LINK_TYPE_KPROBE_MULTI", 8);
  ("BPF_LINK_TYPE_STRUCT_OPS", 9); ("BPF_LINK_TYPE_NETFILTER", 10); ("BPF_LINK_TYPE_TCX", 11);
  ("BPF_LINK_TYPE_UPROBE_MULTI", 12); ("BPF_LINK_TYPE_NETKIT", 13);
  ("__MAX_BPF_LINK_TYPE", 14)].

Definition e_bpf_func_id : list (string * Z) := [("BPF_FUNC_unspec", 0);
  ("BPF_FUNC_map_lookup_elem", 1); ("BPF_FUNC_map_update_elem", 2);
  ("BPF_FUNC_map_delete_elem", 3); ("BPF_FUNC_probe_read", 4); ("BPF_FUNC_ktime_get_ns", 5);
  ("BPF_FUNC_trace_printk", 6); ("BPF_FUNC_get_prandom_u32", 7);
  ("BPF_FUNC_get_smp_processor_id", 8); ("BPF_FUNC_skb_store_bytes", 9);
  ("BPF_FUNC_l3_csum_replace", 10); ("BPF_FUNC_l4_csum_replace", 11);
  ("BPF_FUNC_tail_call", 12); ("BPF_FUNC_clone_redirect", 13);
  ("BPF_FUNC_get_current_pid_tgid", 14); ("BPF_FUNC_get_current_uid_gid", 15);
  ("BPF_FUNC_get_current_comm", 16); ("BPF_FUNC_get_cgroup_classid", 17);
  ("BPF_FUNC_skb_vlan_push", 18); ("BPF_FUNC_skb_vlan_pop", 19);
  ("BPF_FUNC_skb_get_tunnel_key", 20); ("BPF_FUNC_skb_set_tunnel_key", 21);
  ("BPF_FUNC_perf_event_read", 22); ("BPF_FUNC_redirect", 23); ("BPF_FUNC_get_route_realm", 24);
  ("BPF_FUNC_perf_event_output", 25); ("BPF_FUNC_skb_load_bytes", 26);
  ("BPF_FUNC_get_stackid", 27); ("BPF_FUNC_csum_diff", 28); ("BPF_FUNC_skb_get_tunnel_opt", 29);
  ("BPF_FUNC_skb_set_tunnel_opt", 30); ("BPF_FUNC_skb_change_proto", 31);
  ("BPF_FUNC_skb_change_type", 32); ("BPF_FUNC_skb_under_cgroup", 33);
  ("BPF_FUNC_get_hash_recalc", 34); ("BPF_FUNC_get_current_task", 35);
  ("BPF_FUNC_probe_write_user", 36); ("BPF_FUNC_current_task_under_cgroup", 37);
  ("BPF_FUNC_skb_change_tail", 38); ("BPF_FUNC_skb_pull_data", 39);
  ("BPF_FUNC_csum_update", 40); ("BPF_FUNC_set_hash_invalid", 41);
  ("BPF_FUNC_get_numa_node_id", 42); ("BPF_FUNC_skb_change_head", 43);
  ("BPF_FUNC_xdp_adjust_head", 44); ("BPF_FUNC_probe_read_str", 45);
  ("BPF_FUNC_get_socket_cookie", 46); ("BPF_FUNC_get_socket_uid", 47);
  ("BPF_FUNC_set_hash", 48); ("BPF_FUNC_setsockopt", 49); ("BPF_FUNC_skb_adjust_room", 50);
  ("BPF_FUNC_redirect_map", 51); ("BPF_FUNC_sk_redirect_map", 52);
  ("BPF_FUNC_sock_map_update", 53); ("BPF_FUNC_xdp_adjust_meta", 54);
  ("BPF_FUNC_perf_event_read_value", 55); ("BPF_FUNC_perf_prog_read_value", 56);
  ("BPF_FUNC_getsockopt", 57); ("BPF_FUNC_override_return", 58);
  ("BPF_FUNC_sock_ops_cb_flags_set", 59); ("BPF_FUNC_msg_redirect_map", 60);
  ("BPF_FUNC_msg_apply_bytes", 61); ("BPF_FUNC_msg_cork_bytes", 62);
  ("BPF_FUNC_msg_pull_data", 63); ("BPF_FUNC_bind", 64); ("BPF_FUNC_xdp_adjust_tail", 65);
  ("BPF_FUNC_skb_get_xfrm_state", 66); ("BPF_FUNC_get_stack", 67);
  ("BPF_FUNC_skb_load_bytes_relative", 68); ("BPF_FUNC_fib_lookup", 69);
  ("BPF_FUNC_sock_hash_update", 70); ("BPF_FUNC_msg_redirect_hash", 71);
  ("BPF_FUNC_sk_redirect_hash", 72); ("BPF_FUNC_lwt_push_encap", 73);
  ("BPF_FUNC_lwt_seg6_store_bytes", 74); ("BPF_FUNC_lwt_seg6_adjust_srh", 75);
  ("BPF_FUNC_lwt_seg6_action", 76); ("BPF_FUNC_rc_repeat", 77); ("BPF_FUNC_rc_keydown", 78);
  ("BPF_FUNC_skb_cgroup_id", 79); ("BPF_FUNC_get_current_cgroup_id", 80);
  ("BPF_FUNC_get_local_storage", 81); ("BPF_FUNC_sk_select_reuseport", 82);
  ("BPF_FUNC_skb_ancestor_cgroup_id", 83); ("BPF_FUNC_sk_lookup_tcp", 84);
  ("BPF_FUNC_sk_lookup_udp", 85); ("BPF_FUNC_sk_release", 86); ("BPF_FUNC_map_push_elem", 87);
  ("BPF_FUNC_map_pop_elem", 88); ("BPF_FUNC_map_peek_elem", 89); ("BPF_FUNC_msg_push_data", 90);
  ("BPF_FUNC_msg_pop_data", 91); ("BPF_FUNC_rc_pointer_rel", 92); ("BPF_FUNC_spin_lock", 93);
  ("BPF_FUNC_spin_unlock", 94); ("BPF_FUNC_sk_fullsock", 95); ("BPF_FUNC_tcp_sock", 96);
  ("BPF_FUNC_skb_ecn_set_ce", 97); ("BPF_FUNC_get_listener_sock", 98);
  ("BPF_FUNC_skc_lookup_tcp", 99); ("BPF_FUNC_tcp_check_syncookie", 100);
  ("BPF_FUNC_sysctl_get_name", 101); ("BPF_FUNC_sysctl_get_current_value", 102);
  ("BPF_FUNC_sysctl_get_new_value", 103); ("BPF_FUNC_sysctl_set_new_value", 104);
  ("BPF_FUNC_strtol", 105); ("BPF_FUNC_strtoul", 106); ("BPF_FUNC_sk_storage_get", 107);
  ("BPF_FUNC_sk_storage_delete", 108); ("BPF_FUNC_send_signal", 109);
  ("BPF_FUNC_tcp_gen_syncookie", 110); ("BPF_FUNC_skb_output", 111);
  ("BPF_FUNC_probe_read_user", 112); ("BPF_FUNC_probe_read_kernel", 113);
  ("BPF_FUNC_probe_read_user_str", 114); ("BPF_FUNC_probe_read_kernel_str", 115);
  ("BPF_FUNC_tcp_send_ack", 116); ("BPF_FUNC_send_signal_thread", 117);
  ("BPF_FUNC_jiffies64", 118); ("BPF_FUNC_read_branch_records", 119);
  ("BPF_FUNC_get_ns_current_pid_tgid", 120); ("BPF_FUNC_xdp_output", 121);
  ("BPF_FUNC_get_netns_cookie", 122); ("BPF_FUNC_get_current_ancestor_cgroup_id", 123);
  ("BPF_FUNC_sk_assign", 124); ("BPF_FUNC_ktime_get_boot_ns", 125);
  ("BPF_FUNC_seq_printf", 126); ("BPF_FUNC_seq_write", 127); ("BPF_FUNC_sk_cgroup_id", 128);
  ("BPF_FUNC_sk_ancestor_cgroup_id", 129); ("BPF_FUNC_ringbuf_output", 130);
  ("BPF_FUNC_ringbuf_reserve", 131); ("BPF_FUNC_ringbuf_submit", 132);
  ("BPF_FUNC_ringbuf_discard", 133); ("BPF_FUNC_ringbuf_query", 134);
  ("BPF_FUNC_csum_level", 135); ("BPF_FUNC_skc_to_tcp6_sock", 136);
  ("BPF_FUNC_skc_to_tcp_sock", 137); ("BPF_FUNC_skc_to_tcp_timewait_sock", 138);
  ("BPF_FUNC_skc_to_tcp_request_sock", 139); ("BPF_FUNC_skc_to_udp6_sock", 140);
  ("BPF_FUNC_get_task_stack", 141); ("BPF_FUNC_load_hdr_opt", 142);
  ("BPF_FUNC_store_hdr_opt", 143); ("BPF_FUNC_reserve_hdr_opt", 144);
  ("BPF_FUNC_inode_storage_get", 145); ("BPF_FUNC_inode_storage_delete", 146);
  ("BPF_FUNC_d_path", 147); ("BPF_FUNC_copy_from_user", 148); ("BPF_FUNC_snprintf_btf", 149);
  ("BPF_FUNC_seq_printf_btf", 150); ("BPF_FUNC_skb_cgroup_classid", 151);
  ("BPF_FUNC_redirect_neigh", 152); ("BPF_FUNC_per_cpu_ptr", 153);
  ("BPF_FUNC_this_cpu_ptr", 154); ("BPF_FUNC_redirect_peer", 155);
  ("BPF_FUNC_task_storage_get", 156); ("BPF_FUNC_task_storage_delete", 157);
  ("BPF_FUNC_get_current_task_btf", 158); ("BPF_FUNC_bprm_opts_set", 159);
  ("BPF_FUNC_ktime_get_coarse_ns", 160); ("BPF_FUNC_ima_inode_hash", 161);
  ("BPF_FUNC_sock_from_file", 162); ("BPF_FUNC_check_mtu", 163);
  ("BPF_FUNC_for_each_map_elem", 164); ("BPF_FUNC_snprintf", 165); ("BPF_FUNC_sys_bpf", 166);
  ("BPF_FUNC_btf_find_by_name_kind", 167); ("BPF_FUNC_sys_close", 168);
  ("BPF_FUNC_timer_init", 169); ("BPF_FUNC_timer_set_callback", 170);
  ("BPF_FUNC_timer_start", 171); ("BPF_FUNC_timer_cancel", 172); ("BPF_FUNC_get_func_ip", 173);
  ("BPF_FUNC_get_attach_cookie", 174); ("BPF_FUNC_task_pt_regs", 175);
  ("BPF_FUNC_get_branch_snapshot", 176); ("BPF_FUNC_trace_vprintk", 177);
  ("BPF_FUNC_skc_to_unix_sock", 178); ("BPF_FUNC_kallsyms_lookup_name", 179);
  ("BPF_FUNC_find_vma", 180); ("BPF_FUNC_loop", 181); ("BPF_FUNC_strncmp", 182);
  ("BPF_FUNC_get_func_arg", 183); ("BPF_FUNC_get_func_ret", 184);
  ("BPF_FUNC_get_func_arg_cnt", 185); ("BPF_FUNC_get_retval", 186);
  ("BPF_FUNC_set_retval", 187); ("BPF_FUNC_xdp_get_buff_len", 188);
  ("BPF_FUNC_xdp_load_bytes", 189); ("BPF_FUNC_xdp_store_bytes", 190);
  ("BPF_FUNC_copy_from_user_task", 191); ("BPF_FUNC_skb_set_tstamp", 192);
  ("BPF_FUNC_ima_file_hash", 193); ("BPF_FUNC_kptr_xchg", 194);
  ("BPF_FUNC_map_lookup_percpu_elem", 195); ("BPF_FUNC_skc_to_mptcp_sock", 196);
  ("BPF_FUNC_dynptr_from_mem", 197); ("BPF_FUNC_ringbuf_reserve_dynptr", 198);
  ("BPF_FUNC_ringbuf_submit_dynptr", 199); ("BPF_FUNC_ringbuf_discard_dynptr", 200);
  ("BPF_FUNC_dynptr_read", 201); ("BPF_FUNC_dynptr_write", 202); ("BPF_FUNC_dynptr_data", 203);
  ("BPF_FUNC_tcp_raw_gen_syncookie_ipv4", 204); ("BPF_FUNC_tcp_raw_gen_syncookie_ipv6", 205);
  ("BPF_FUNC_tcp_raw_check_syncookie_ipv4", 206);
  ("BPF_FUNC_tcp_raw_check_syncookie_ipv6", 207); ("BPF_FUNC_ktime_get_tai_ns", 208);
  ("BPF_FUNC_user_ringbuf_drain", 209); ("BPF_FUNC_cgrp_storage_get", 210);
  ("BPF_FUNC_cgrp_storage_delete", 211); ("__BPF_FUNC_MAX_ID", 212)].

Definition e_bpf_cmd : list (string * Z) := [("BPF_MAP_CREATE", 0); ("BPF_MAP_LOOKUP_ELEM", 1);
  ("BPF_MAP_UPDATE_ELEM", 2); ("BPF_MAP_DELETE_ELEM", 3); ("BPF_MAP_GET_NEXT_KEY", 4);
  ("BPF_PROG_LOAD", 5); ("BPF_OBJ_PIN", 6); ("BPF_OBJ_GET", 7); ("BPF_PROG_ATTACH", 8);
  ("BPF_PROG_DETACH", 9); ("BPF_PROG_TEST_RUN", 10); ("BPF_PROG_RUN", 10);
  ("BPF_PROG_GET_NEXT_ID", 11); ("BPF_MAP_GET_NEXT_ID", 12); ("BPF_PROG_GET_FD_BY_ID", 13);
  ("BPF_MAP_GET_FD_BY_ID", 14); ("BPF_OBJ_GET_INFO_BY_FD", 15); ("BPF_PROG_QUERY", 16);
  ("BPF_RAW_TRACEPOINT_OPEN", 17); ("BPF_BTF_LOAD", 18); ("BPF_BTF_GET_FD_BY_ID", 19);
  ("BPF_TASK_FD_QUERY", 20); ("BPF_MAP_LOOKUP_AND_DELETE_ELEM", 21); ("BPF_MAP_FREEZE", 22);
  ("BPF_BTF_GET_NEXT_ID", 23); ("BPF_MAP_LOOKUP_BATCH", 24);
  ("BPF_MAP_LOOKUP_AND_DELETE_BATCH", 25); ("BPF_MAP_UPDATE_BATCH", 26);
  ("BPF_MAP_DELETE_BATCH", 27); ("BPF_LINK_CREATE", 28); ("BPF_LINK_UPDATE", 29);
  ("BPF_LINK_GET_FD_BY_ID", 30); ("BPF_LINK_GET_NEXT_ID", 31); ("BPF_ENABLE_STATS", 32);
  ("BPF_ITER_CREATE", 33); ("BPF_LINK_DETACH", 34); ("BPF_PROG_BIND_MAP", 35)].

Definition e_bpf_update_flags : list (string * Z) := [("BPF_ANY", 0); ("BPF_NOEXIST", 1);
  ("BPF_EXIST", 2); ("BPF_F_LOCK", 4)].

(** ** Types of the dump *)

Definition s_bpf_map : ctype := TStruct false ([fld "ops" (TPtr "struct bpf_map_ops");
  fld "inner_map_meta" (TPtr "struct bpf_map"); fld "security" (TPtr "void");
  fld "map_type" c_enum; fld "key_size" t_u32; fld "value_size" t_u32; fld "max_entries" t_u32;
  fld "map_extra" t_u64; fld "map_flags" t_u32; fld "id" t_u32;
  fld "record" (TPtr "struct btf_record"); fld "numa_node" c_int; fld "btf_key_type_id" t_u32;
  fld "btf_value_type_id" t_u32; fld "btf_vmlinux_value_type_id" t_u32;
  fld "btf" (TPtr "struct btf"); fld "objcg" (TPtr "struct obj_cgroup");
  fld "name" (TArr 16 c_char); bits EmptyString c_long 64; bits EmptyString c_long 64;
  fld "refcnt" t_atomic64_t; fld "usercnt" t_atomic64_t;
  fld EmptyString (TUnion false [fld "work" s_work_struct; fld "rcu" s_callback_head]);
  fld "freeze_mutex" s_mutex; fld "writecnt" t_atomic64_t;
  fld "owner" (TStruct false [fld "attach_func_proto" (TPtr "struct btf_type");
  fld "lock" t_spinlock_t; fld "type" c_enum; fld "jited" t_bool; fld "xdp_has_frags" t_bool]);
  fld "bypass_spec_v1" t_bool; fld "frozen" t_bool; fld "free_after_mult_rcu_gp" t_bool;
  fld "free_after_rcu_gp" t_bool; fld "sleepable_refcnt" t_atomic64_t;
  fld "elem_count" (TPtr "s64")] ++ replicate 7 (bits EmptyString c_long 64)).
Definition s_bpf_mem_alloc : ctype :=
  TStruct false [fld "caches" (TPtr "struct bpf_mem_caches");
  fld "cache" (TPtr "struct bpf_mem_cache"); fld "objcg" (TPtr "struct obj_cgroup");
  fld "percpu" t_bool; fld "work" s_work_struct].
Abbreviation s_pcpu_freelist_head := (TStruct false [fld "first" (TPtr "struct pcpu_freelist_node"); fld "lock" t_raw_spinlock_t]).
Abbreviation s_pcpu_freelist := (TStruct false [fld "freelist" (TPtr "struct pcpu_freelist_head");
  fld "extralist" s_pcpu_freelist_head]).
Definition s_bpf_lru_list : ctype := TStruct false ([fld "lists" (TArr 3 s_list_head);
  fld "counts" (TArr 2 c_uint); fld "next_inactive_rotation" (TPtr "struct list_head");
  fld "lock" t_raw_spinlock_t] ++ replicate 7 (bits EmptyString c_long 64)).
Definition s_bpf_common_lru : ctype := TStruct false ([fld "lru_list" s_bpf_lru_list;
  fld "local_list" (TPtr "struct bpf_lru_locallist")] ++
  replicate 7 (bits EmptyString c_long 64)).
Abbreviation t_del_from_htab_func := (TPtr "fn").
Definition s_bpf_lru : ctype :=
  TStruct false ([fld EmptyString (TUnion false [fld "common_lru" s_bpf_common_lru;
  fld "percpu_lru" (TPtr "struct bpf_lru_list")]); fld "del_from_htab" t_del_from_htab_func;
  fld "del_arg" (TPtr "void"); fld "hash_offset" c_uint; fld "target_free" c_uint;
  fld "nr_scans" c_uint; fld "percpu" t_bool] ++ replicate 4 (bits EmptyString c_long 64)).
Abbreviation s_lock_class_key := (TStruct false []).
Definition s_bpf_htab : ctype := TStruct false ([fld "map" s_bpf_map; fld "ma" s_bpf_mem_alloc;
  fld "pcpu_ma" s_bpf_mem_alloc; fld "buckets" (TPtr "struct bucket");
  fld "elems" (TPtr "void")] ++ replicate 6 (bits EmptyString c_long 64) ++
  [fld EmptyString (TUnion false [fld "freelist" s_pcpu_freelist; fld "lru" s_bpf_lru]);
  fld "extra_elems" (TPtr "struct htab_elem"); fld "pcount" s_percpu_counter;
  fld "count" t_atomic_t; fld "use_percpu_counter" t_bool; fld "n_buckets" t_u32;
  fld "elem_size" t_u32; fld "hashrnd" t_u32; fld "lockdep_key" s_lock_class_key;
  fld "map_locked" (TArr 8 (TPtr "int"))] ++ replicate 7 (bits EmptyString c_long 64)).
Definition s_bpf_ringbuf_map : ctype := TStruct false ([fld "map" s_bpf_map;
  fld "rb" (TPtr "struct bpf_ringbuf")] ++ replicate 7 (bits EmptyString c_long 64)).
Abbreviation s_rcuwait := (TStruct false [fld "task" (TPtr "struct task_struct")]).
Abbreviation s_irq_work := (TStruct false [fld "node" s___call_single_node;
  fld "func" (TPtr "fn"); fld "irqwait" s_rcuwait]).
Definition s_bpf_ringbuf : ctype := TStruct false ([fld "waitq" t_wait_queue_head_t;
  fld "work" s_irq_work; fld "mask" t_u64; fld "pages" (TPtr "struct page");
  fld "nr_pages" c_int] ++ replicate 6 (bits EmptyString c_long 64) ++
  [fld "spinlock" t_raw_spinlock_t] ++ replicate 7 (bits EmptyString c_long 64) ++
  [fld "busy" t_atomic_t] ++ replicate 487 (bits EmptyString c_long 64) ++
  [fld "consumer_pos" c_ulong] ++ replicate 511 (bits EmptyString c_long 64) ++
  [fld "producer_pos" c_ulong; fld "pending_pos" c_ulong] ++
  replicate 510 (bits EmptyString c_long 64) ++ [fld "data" (TArr 0 c_char)]).
Definition s_bpf_array : ctype := TStruct false ([fld "map" s_bpf_map; fld "elem_size" t_u32;
  fld "index_mask" t_u32; fld "aux" (TPtr "struct bpf_array_aux");
  fld EmptyString (TUnion false [fld EmptyString (TStruct false [fld "__empty_value" (TStruct false []);
  fld "value" (TArr 0 c_char)]);
  fld EmptyString (TStruct false [fld "__empty_ptrs" (TStruct false []);
  fld "ptrs" (TArr 0 (TPtr "void"))]);
  fld EmptyString (TStruct false [fld "__empty_pptrs" (TStruct false []);
  fld "pptrs" (TArr 0 (TPtr "void"))])])] ++ replicate 6 (bits EmptyString c_long 64)).
Abbreviation s_sock_filter := (TStruct false [fld "code" t___u16; fld "jt" t___u8;
  fld "jf" t___u8; fld "k" t___u32]).
Abbreviation t___s32 := c_int.
Definition s_bpf_insn : ctype := TStruct false [fld "code" t___u8; bits "dst_reg" t___u8 4;
  bits "src_reg" t___u8 4; fld "off" t___s16; fld "imm" t___s32].
Definition s_bpf_prog : ctype := TStruct false [fld "pages" t_u16; bits "jited" t_u16 1;
  bits "jit_requested" t_u16 1; bits "gpl_compatible" t_u16 1; bits "cb_access" t_u16 1;
  bits "dst_needed" t_u16 1; bits "blinding_requested" t_u16 1; bits "blinded" t_u16 1;
  bits "is_func" t_u16 1; bits "kprobe_override" t_u16 1; bits "has_callchain_buf" t_u16 1;
  bits "enforce_expected_attach_type" t_u16 1; bits "call_get_stack" t_u16 1;
  bits "call_get_func_ip" t_u16 1; bits "tstamp_type_access" t_u16 1; fld "type" c_enum;
  fld "expected_attach_type" c_enum; fld "len" t_u32; fld "jited_len" t_u32;
  fld "tag" (TArr 8 t_u8); fld "stats" (TPtr "struct bpf_prog_stats");
  fld "active" (TPtr "int"); fld "bpf_func" (TPtr "fn"); fld "aux" (TPtr "struct bpf_prog_aux");
  fld "orig_prog" (TPtr "struct sock_fprog_kern");
  fld EmptyString (TUnion false [fld EmptyString (TStruct false [fld "__empty_insns" (TStruct false []);
  fld "insns" (TArr 0 s_sock_filter)]);
  fld EmptyString (TStruct false [fld "__empty_insnsi" (TStruct false []);
  fld "insnsi" (TArr 0 s_bpf_insn)])])].
Abbreviation s_latch_tree_node := (TStruct false [fld "node" (TArr 2 s_rb_node)]).
Definition s_bpf_ksym : ctype := TStruct false [fld "start" c_ulong; fld "end" c_ulong;
  fld "name" (TArr 512 c_char); fld "lnode" s_list_head; fld "tnode" s_latch_tree_node;
  fld "prog" t_bool].
Definition s_bpf_prog_aux : ctype := TStruct false [fld "refcnt" t_atomic64_t;
  fld "used_map_cnt" t_u32; fld "used_btf_cnt" t_u32; fld "max_ctx_offset" t_u32;
  fld "max_pkt_offset" t_u32; fld "max_tp_access" t_u32; fld "stack_depth" t_u32;
  fld "id" t_u32; fld "func_cnt" t_u32; fld "real_func_cnt" t_u32; fld "func_idx" t_u32;
  fld "attach_btf_id" t_u32; fld "ctx_arg_info_size" t_u32; fld "max_rdonly_access" t_u32;
  fld "max_rdwr_access" t_u32; fld "attach_btf" (TPtr "struct btf");
  fld "ctx_arg_info" (TPtr "struct bpf_ctx_arg_aux"); fld "dst_mutex" s_mutex;
  fld "dst_prog" (TPtr "struct bpf_prog"); fld "dst_trampoline" (TPtr "struct bpf_trampoline");
  fld "saved_dst_prog_type" c_enum; fld "saved_dst_attach_type" c_enum;
  fld "verifier_zext" t_bool; fld "dev_bound" t_bool; fld "offload_requested" t_bool;
  fld "attach_btf_trace" t_bool; fld "attach_tracing_prog" t_bool;
  fld "func_proto_unreliable" t_bool; fld "sleepable" t_bool; fld "tail_call_reachable" t_bool;
  fld "xdp_has_frags" t_bool; fld "exception_cb" t_bool; fld "exception_boundary" t_bool;
  fld "is_extended" t_bool; fld "prog_array_member_cnt" t_u64; fld "ext_mutex" s_mutex;
  fld "attach_func_proto" (TPtr "struct btf_type"); fld "attach_func_name" (TPtr "char");
  fld "func" (TPtr "struct bpf_prog"); fld "jit_data" (TPtr "void");
  fld "poke_tab" (TPtr "struct bpf_jit_poke_descriptor");
  fld "kfunc_tab" (TPtr "struct bpf_kfunc_desc_tab");
  fld "kfunc_btf_tab" (TPtr "struct bpf_kfunc_btf_tab"); fld "size_poke_tab" t_u32;
  fld "ksym" s_bpf_ksym; fld "ops" (TPtr "struct bpf_prog_ops");
  fld "used_maps" (TPtr "struct bpf_map"); fld "used_maps_mutex" s_mutex;
  fld "used_btfs" (TPtr "struct btf_mod_pair"); fld "prog" (TPtr "struct bpf_prog");
  fld "user" (TPtr "struct user_struct"); fld "load_time" t_u64; fld "verified_insns" t_u32;
  fld "cgroup_atype" c_int; fld "cgroup_storage" (TArr 2 (TPtr "struct bpf_map"));
  fld "name" (TArr 16 c_char); fld "bpf_exception_cb" (TPtr "fn"); fld "security" (TPtr "void");
  fld "offload" (TPtr "struct bpf_prog_offload"); fld "btf" (TPtr "struct btf");
  fld "func_info" (TPtr "struct bpf_func_info");
  fld "func_info_aux" (TPtr "struct bpf_func_info_aux");
  fld "linfo" (TPtr "struct bpf_line_info"); fld "jited_linfo" (TPtr "void");
  fld "func_info_cnt" t_u32; fld "nr_linfo" t_u32; fld "linfo_idx" t_u32;
  fld "mod" (TPtr "struct module"); fld "num_exentries" t_u32;
  fld "extable" (TPtr "struct exception_table_entry");
  fld EmptyString (TUnion false [fld "work" s_work_struct; fld "rcu" s_callback_head])].
Abbreviation t___kernel_loff_t := c_llong.
Abbreviation t_loff_t := t___kernel_loff_t.
Abbreviation t_s32 := t___s32.
Definition s_arch_uprobe : ctype :=
  TStruct false [fld EmptyString (TUnion false [fld "insn" (TArr 16 t_u8);
  fld "ixol" (TArr 16 t_u8)]); fld "ops" (TPtr "struct uprobe_xol_ops");
  fld EmptyString (TUnion false [fld "branch" (TStruct false [fld "offs" t_s32; fld "ilen" t_u8;
  fld "opc1" t_u8]); fld "defparam" (TStruct false [fld "fixups" t_u8; fld "ilen" t_u8]);
  fld "push" (TStruct false [fld "reg_offset" t_u8; fld "ilen" t_u8])])].
Definition s_uprobe : ctype := TStruct false [fld "rb_node" s_rb_node; fld "ref" t_refcount_t;
  fld "register_rwsem" s_rw_semaphore; fld "consumer_rwsem" s_rw_semaphore;
  fld "pending_list" s_list_head; fld "consumers" (TPtr "struct uprobe_consumer");
  fld "inode" (TPtr "struct inode"); fld "offset" t_loff_t; fld "ref_ctr_offset" t_loff_t;
  fld "flags" c_ulong; fld "arch" s_arch_uprobe].
Definition u_bpf_attr_part1 : list (string * ctype * option Z) :=
  [fld EmptyString (TStruct false [fld "map_type" t___u32; fld "key_size" t___u32;
  fld "value_size" t___u32; fld "max_entries" t___u32; fld "map_flags" t___u32;
  fld "inner_map_fd" t___u32; fld "numa_node" t___u32; fld "map_name" (TArr 16 c_char);
  fld "map_ifindex" t___u32; fld "btf_fd" t___u32; fld "btf_key_type_id" t___u32;
  fld "btf_value_type_id" t___u32; fld "btf_vmlinux_value_type_id" t___u32;
  fld "map_extra" t___u64]); fld EmptyString (TStruct false [fld "map_fd" t___u32;
  fld "key" t___u64; fld EmptyString (TUnion false [fld "value" t___u64;
  fld "next_key" t___u64]); fld "flags" t___u64]);
  fld "batch" (TStruct false [fld "in_batch" t___u64; fld "out_batch" t___u64;
  fld "keys" t___u64; fld "values" t___u64; fld "count" t___u32; fld "map_fd" t___u32;
  fld "elem_flags" t___u64; fld "flags" t___u64]);
  fld EmptyString (TStruct false [fld "prog_type" t___u32; fld "insn_cnt" t___u32;
  fld "insns" t___u64; fld "license" t___u64; fld "log_level" t___u32; fld "log_size" t___u32;
  fld "log_buf" t___u64; fld "kern_version" t___u32; fld "prog_flags" t___u32;
  fld "prog_name" (TArr 16 c_char); fld "prog_ifindex" t___u32;
  fld "expected_attach_type" t___u32; fld "prog_btf_fd" t___u32;
  fld "func_info_rec_size" t___u32; fld "func_info" t___u64; fld "func_info_cnt" t___u32;
  fld "line_info_rec_size" t___u32; fld "line_info" t___u64; fld "line_info_cnt" t___u32;
  fld "attach_btf_id" t___u32; fld EmptyString (TUnion false [fld "attach_prog_fd" t___u32;
  fld "attach_btf_obj_fd" t___u32]); fld "core_relo_cnt" t___u32; fld "fd_array" t___u64;
  fld "core_relos" t___u64; fld "core_relo_rec_size" t___u32; fld "log_true_size" t___u32]);
  fld EmptyString (TStruct false [fld "pathname" t___u64; fld "bpf_fd" t___u32;
  fld "file_flags" t___u32; fld "path_fd" t___s32]);
  fld EmptyString (TStruct false [fld EmptyString (TUnion false [fld "target_fd" t___u32;
  fld "target_ifindex" t___u32]); fld "attach_bpf_fd" t___u32; fld "attach_type" t___u32;
  fld "attach_flags" t___u32; fld "replace_bpf_fd" t___u32;
  fld EmptyString (TUnion false [fld "relative_fd" t___u32; fld "relative_id" t___u32]);
  fld "expected_revision" t___u64]); fld "test" (TStruct false [fld "prog_fd" t___u32;
  fld "retval" t___u32; fld "data_size_in" t___u32; fld "data_size_out" t___u32;
  fld "data_in" t___u64; fld "data_out" t___u64; fld "repeat" t___u32; fld "duration" t___u32;
  fld "ctx_size_in" t___u32; fld "ctx_size_out" t___u32; fld "ctx_in" t___u64;
  fld "ctx_out" t___u64; fld "flags" t___u32; fld "cpu" t___u32; fld "batch_size" t___u32]);
  fld EmptyString (TStruct false [fld EmptyString (TUnion false [fld "start_id" t___u32;
  fld "prog_id" t___u32; fld "map_id" t___u32; fld "btf_id" t___u32; fld "link_id" t___u32]);
  fld "next_id" t___u32; fld "open_flags" t___u32]);
  fld "info" (TStruct false [fld "bpf_fd" t___u32; fld "info_len" t___u32; fld "info" t___u64]);
  fld "query" (TStruct false [fld EmptyString (TUnion false [fld "target_fd" t___u32;
  fld "target_ifindex" t___u32]); fld "attach_type" t___u32; fld "query_flags" t___u32;
  fld "attach_flags" t___u32; fld "prog_ids" t___u64;
  fld EmptyString (TUnion false [fld "prog_cnt" t___u32; fld "count" t___u32]);
  fld "prog_attach_flags" t___u64; fld "link_ids" t___u64; fld "link_attach_flags" t___u64;
  fld "revision" t___u64])].
Definition u_bpf_attr_part2 : list (string * ctype * option Z) :=
  [fld "raw_tracepoint" (TStruct false [fld "name" t___u64; fld "prog_fd" t___u32]);
  fld EmptyString (TStruct false [fld "btf" t___u64; fld "btf_log_buf" t___u64;
  fld "btf_size" t___u32; fld "btf_log_size" t___u32; fld "btf_log_level" t___u32;
  fld "btf_log_true_size" t___u32]); fld "task_fd_query" (TStruct false [fld "pid" t___u32;
  fld "fd" t___u32; fld "flags" t___u32; fld "buf_len" t___u32; fld "buf" t___u64;
  fld "prog_id" t___u32; fld "fd_type" t___u32; fld "probe_offset" t___u64;
  fld "probe_addr" t___u64]);
  fld "link_create" (TStruct false [fld EmptyString (TUnion false [fld "prog_fd" t___u32;
  fld "map_fd" t___u32]); fld EmptyString (TUnion false [fld "target_fd" t___u32;
  fld "target_ifindex" t___u32]); fld "attach_type" t___u32; fld "flags" t___u32;
  fld EmptyString (TUnion false [fld "target_btf_id" t___u32;
  fld EmptyString (TStruct false [fld "iter_info" t___u64; fld "iter_info_len" t___u32]);
  fld "perf_event" (TStruct false [fld "bpf_cookie" t___u64]);
  fld "kprobe_multi" (TStruct false [fld "flags" t___u32; fld "cnt" t___u32; fld "syms" t___u64;
  fld "addrs" t___u64; fld "cookies" t___u64]);
  fld "tracing" (TStruct false [fld "target_btf_id" t___u32; fld "cookie" t___u64]);
  fld "netfilter" (TStruct false [fld "pf" t___u32; fld "hooknum" t___u32;
  fld "priority" t___s32; fld "flags" t___u32]);
  fld "tcx" (TStruct false [fld EmptyString (TUnion false [fld "relative_fd" t___u32;
  fld "relative_id" t___u32]); fld "expected_revision" t___u64]);
  fld "uprobe_multi" (TStruct false [fld "path" t___u64; fld "offsets" t___u64;
  fld "ref_ctr_offsets" t___u64; fld "cookies" t___u64; fld "cnt" t___u32; fld "flags" t___u32;
  fld "pid" t___u32]);
  fld "netkit" (TStruct false [fld EmptyString (TUnion false [fld "relative_fd" t___u32;
  fld "relative_id" t___u32]); fld "expected_revision" t___u64])])]);
  fld "link_update" (TStruct false [fld "link_fd" t___u32;
  fld EmptyString (TUnion false [fld "new_prog_fd" t___u32; fld "new_map_fd" t___u32]);
  fld "flags" t___u32; fld EmptyString (TUnion false [fld "old_prog_fd" t___u32;
  fld "old_map_fd" t___u32])]); fld "link_detach" (TStruct false [fld "link_fd" t___u32]);
  fld "enable_stats" (TStruct false [fld "type" t___u32]);
  fld "iter_create" (TStruct false [fld "link_fd" t___u32; fld "flags" t___u32]);
  fld "prog_bind_map" (TStruct false [fld "prog_fd" t___u32; fld "map_fd" t___u32;
  fld "flags" t___u32])].
Definition u_bpf_attr : ctype := TUnion false (u_bpf_attr_part1 ++ u_bpf_attr_part2).
Abbreviation t_local_t := (TStruct false [fld "a" t_atomic_long_t]).
Abbreviation t_local64_t := (TStruct false [fld "a" t_local_t]).
Definition s_perf_event_attr : ctype := TStruct false [fld "type" t___u32; fld "size" t___u32;
  fld "config" t___u64; fld EmptyString (TUnion false [fld "sample_period" t___u64;
  fld "sample_freq" t___u64]); fld "sample_type" t___u64; fld "read_format" t___u64;
  bits "disabled" t___u64 1; bits "inherit" t___u64 1; bits "pinned" t___u64 1;
  bits "exclusive" t___u64 1; bits "exclude_user" t___u64 1; bits "exclude_kernel" t___u64 1;
  bits "exclude_hv" t___u64 1; bits "exclude_idle" t___u64 1; bits "mmap" t___u64 1;
  bits "comm" t___u64 1; bits "freq" t___u64 1; bits "inherit_stat" t___u64 1;
  bits "enable_on_exec" t___u64 1; bits "task" t___u64 1; bits "watermark" t___u64 1;
  bits "precise_ip" t___u64 2; bits "mmap_data" t___u64 1; bits "sample_id_all" t___u64 1;
  bits "exclude_host" t___u64 1; bits "exclude_guest" t___u64 1;
  bits "exclude_callchain_kernel" t___u64 1; bits "exclude_callchain_user" t___u64 1;
  bits "mmap2" t___u64 1; bits "comm_exec" t___u64 1; bits "use_clockid" t___u64 1;
  bits "context_switch" t___u64 1; bits "write_backward" t___u64 1; bits "namespaces" t___u64 1;
  bits "ksymbol" t___u64 1; bits "bpf_event" t___u64 1; bits "aux_output" t___u64 1;
  bits "cgroup" t___u64 1; bits "text_poke" t___u64 1; bits "build_id" t___u64 1;
  bits "inherit_thread" t___u64 1; bits "remove_on_exec" t___u64 1; bits "sigtrap" t___u64 1;
  bits "__reserved_1" t___u64 26; fld EmptyString (TUnion false [fld "wakeup_events" t___u32;
  fld "wakeup_watermark" t___u32]); fld "bp_type" t___u32;
  fld EmptyString (TUnion false [fld "bp_addr" t___u64; fld "kprobe_func" t___u64;
  fld "uprobe_path" t___u64; fld "config1" t___u64]);
  fld EmptyString (TUnion false [fld "bp_len" t___u64; fld "kprobe_addr" t___u64;
  fld "probe_offset" t___u64; fld "config2" t___u64]); fld "branch_sample_type" t___u64;
  fld "sample_regs_user" t___u64; fld "sample_stack_user" t___u32; fld "clockid" t___s32;
  fld "sample_regs_intr" t___u64; fld "aux_watermark" t___u32; fld "sample_max_stack" t___u16;
  fld "__reserved_2" t___u16; fld "aux_sample_size" t___u32; fld "__reserved_3" t___u32;
  fld "sig_data" t___u64; fld "config3" t___u64].
Abbreviation s_hw_perf_event_extra := (TStruct false [fld "config" t_u64; fld "reg" c_uint;
  fld "alloc" c_int; fld "idx" c_int]).
Abbreviation s_arch_hw_breakpoint := (TStruct false [fld "address" c_ulong;
  fld "mask" c_ulong; fld "len" t_u8; fld "type" t_u8]).
Abbreviation s_rhash_head := (TStruct false [fld "next" (TPtr "struct rhash_head")]).
Abbreviation s_rhlist_head := (TStruct false [fld "rhead" s_rhash_head;
  fld "next" (TPtr "struct rhlist_head")]).
Definition s_hw_perf_event : ctype :=
  TStruct false [fld EmptyString (TUnion false [fld EmptyString (TStruct false [fld "config" t_u64;
  fld "last_tag" t_u64; fld "config_base" c_ulong; fld "event_base" c_ulong;
  fld "event_base_rdpmc" c_int; fld "idx" c_int; fld "last_cpu" c_int; fld "flags" c_int;
  fld "extra_reg" s_hw_perf_event_extra; fld "branch_reg" s_hw_perf_event_extra]);
  fld EmptyString (TStruct false [fld "hrtimer" s_hrtimer]);
  fld EmptyString (TStruct false [fld "tp_list" s_list_head]);
  fld EmptyString (TStruct false [fld "pwr_acc" t_u64; fld "ptsc" t_u64]);
  fld EmptyString (TStruct false [fld "info" s_arch_hw_breakpoint;
  fld "bp_list" s_rhlist_head]); fld EmptyString (TStruct false [fld "iommu_bank" t_u8;
  fld "iommu_cntr" t_u8; fld "padding" t_u16; fld "conf" t_u64; fld "conf1" t_u64])]);
  fld "target" (TPtr "struct task_struct"); fld "addr_filters" (TPtr "void");
  fld "addr_filters_gen" c_ulong; fld "state" c_int; fld "prev_count" t_local64_t;
  fld "sample_period" t_u64;
  fld EmptyString (TUnion false [fld EmptyString (TStruct false [fld "last_period" t_u64;
  fld "period_left" t_local64_t]); fld EmptyString (TStruct false [fld "saved_metric" t_u64;
  fld "saved_slots" t_u64])]); fld "interrupts_seq" t_u64; fld "interrupts" t_u64;
  fld "freq_time_stamp" t_u64; fld "freq_count_stamp" t_u64].
Abbreviation s_perf_addr_filters_head := (TStruct false [fld "list" s_list_head;
  fld "lock" t_raw_spinlock_t; fld "nr_file_filters" c_uint]).
Abbreviation t_perf_overflow_handler_t := (TPtr "fn").
Abbreviation t_ftrace_func_t := (TPtr "fn").
Abbreviation s_ftrace_ops_hash := (TStruct false [fld "notrace_hash" (TPtr "struct ftrace_hash");
  fld "filter_hash" (TPtr "struct ftrace_hash"); fld "regex_lock" s_mutex]).
Abbreviation t_ftrace_ops_func_t := (TPtr "fn").
Definition s_ftrace_ops : ctype := TStruct false [fld "func" t_ftrace_func_t;
  fld "next" (TPtr "struct ftrace_ops"); fld "flags" c_ulong; fld "private" (TPtr "void");
  fld "saved_func" t_ftrace_func_t; fld "local_hash" s_ftrace_ops_hash;
  fld "func_hash" (TPtr "struct ftrace_ops_hash"); fld "old_hash" s_ftrace_ops_hash;
  fld "trampoline" c_ulong; fld "trampoline_size" c_ulong; fld "list" s_list_head;
  fld "ops_func" t_ftrace_ops_func_t; fld "direct_call" c_ulong].
Definition s_perf_event : ctype := TStruct false [fld "event_entry" s_list_head;
  fld "sibling_list" s_list_head; fld "active_list" s_list_head; fld "group_node" s_rb_node;
  fld "group_index" t_u64; fld "migrate_entry" s_list_head; fld "hlist_entry" s_hlist_node;
  fld "active_entry" s_list_head; fld "nr_siblings" c_int; fld "event_caps" c_int;
  fld "group_caps" c_int; fld "group_generation" c_uint;
  fld "group_leader" (TPtr "struct perf_event"); fld "pmu" (TPtr "struct pmu");
  fld "pmu_private" (TPtr "void"); fld "state" c_enum; fld "attach_state" c_uint;
  fld "count" t_local64_t; fld "child_count" t_atomic64_t; fld "total_time_enabled" t_u64;
  fld "total_time_running" t_u64; fld "tstamp" t_u64; fld "attr" s_perf_event_attr;
  fld "header_size" t_u16; fld "id_header_size" t_u16; fld "read_size" t_u16;
  fld "hw" s_hw_perf_event; fld "ctx" (TPtr "struct perf_event_context");
  fld "pmu_ctx" (TPtr "struct perf_event_pmu_context"); fld "refcount" t_atomic_long_t;
  fld "child_total_time_enabled" t_atomic64_t; fld "child_total_time_running" t_atomic64_t;
  fld "child_mutex" s_mutex; fld "child_list" s_list_head;
  fld "parent" (TPtr "struct perf_event"); fld "oncpu" c_int; fld "cpu" c_int;
  fld "owner_entry" s_list_head; fld "owner" (TPtr "struct task_struct");
  fld "mmap_mutex" s_mutex; fld "mmap_count" t_atomic_t; fld "rb" (TPtr "struct perf_buffer");
  fld "rb_entry" s_list_head; fld "rcu_batches" c_ulong; fld "rcu_pending" c_int;
  fld "waitq" t_wait_queue_head_t; fld "fasync" (TPtr "struct fasync_struct");
  fld "pending_wakeup" c_uint; fld "pending_kill" c_uint; fld "pending_disable" c_uint;
  fld "pending_sigtrap" c_uint; fld "pending_addr" c_ulong; fld "pending_irq" s_irq_work;
  fld "pending_task" s_callback_head; fld "pending_work" c_uint;
  fld "pending_work_wait" s_rcuwait; fld "event_limit" t_atomic_t;
  fld "addr_filters" s_perf_addr_filters_head;
  fld "addr_filter_ranges" (TPtr "struct perf_addr_filter_range");
  fld "addr_filters_gen" c_ulong; fld "aux_event" (TPtr "struct perf_event");
  fld "destroy" (TPtr "fn"); fld "callback_head" s_callback_head;
  fld "ns" (TPtr "struct pid_namespace"); fld "id" t_u64; fld "lost_samples" t_atomic64_t;
  fld "clock" (TPtr "fn"); fld "overflow_handler" t_perf_overflow_handler_t;
  fld "overflow_handler_context" (TPtr "void");
  fld "orig_overflow_handler" t_perf_overflow_handler_t; fld "prog" (TPtr "struct bpf_prog");
  fld "bpf_cookie" t_u64; fld "tp_event" (TPtr "struct trace_event_call");
  fld "filter" (TPtr "struct event_filter"); fld "ftrace_ops" s_ftrace_ops;
  fld "cgrp" (TPtr "struct perf_cgroup"); fld "security" (TPtr "void");
  fld "sb_list" s_list_head; fld "orig_type" t___u32].
Abbreviation s_path := (TStruct false [fld "mnt" (TPtr "struct vfsmount");
  fld "dentry" (TPtr "struct dentry")]).
Definition s_bpf_link : ctype := TStruct false [fld "refcnt" t_atomic64_t; fld "id" t_u32;
  fld "type" c_enum; fld "ops" (TPtr "struct bpf_link_ops");
  fld "prog" (TPtr "struct bpf_prog"); fld EmptyString (TUnion false [fld "rcu" s_callback_head;
  fld "work" s_work_struct])].
Definition s_bpf_uprobe_multi_link : ctype := TStruct false [fld "path" s_path;
  fld "link" s_bpf_link; fld "cnt" t_u32; fld "flags" t_u32;
  fld "uprobes" (TPtr "struct bpf_uprobe"); fld "task" (TPtr "struct task_struct")].
Abbreviation s_bpf_run_ctx := (TStruct false []).
Abbreviation s_bpf_trace_run_ctx := (TStruct false [fld "run_ctx" s_bpf_run_ctx;
  fld "bpf_cookie" t_u64; fld "is_uprobe" t_bool]).
Definition s_bpf_map_ops : ctype := TStruct false [fld "map_alloc_check" (TPtr "fn");
  fld "map_alloc" (TPtr "fn"); fld "map_release" (TPtr "fn"); fld "map_free" (TPtr "fn");
  fld "map_get_next_key" (TPtr "fn"); fld "map_release_uref" (TPtr "fn");
  fld "map_lookup_elem_sys_only" (TPtr "fn"); fld "map_lookup_batch" (TPtr "fn");
  fld "map_lookup_and_delete_elem" (TPtr "fn"); fld "map_lookup_and_delete_batch" (TPtr "fn");
  fld "map_update_batch" (TPtr "fn"); fld "map_delete_batch" (TPtr "fn");
  fld "map_lookup_elem" (TPtr "fn"); fld "map_update_elem" (TPtr "fn");
  fld "map_delete_elem" (TPtr "fn"); fld "map_push_elem" (TPtr "fn");
  fld "map_pop_elem" (TPtr "fn"); fld "map_peek_elem" (TPtr "fn");
  fld "map_lookup_percpu_elem" (TPtr "fn"); fld "map_fd_get_ptr" (TPtr "fn");
  fld "map_fd_put_ptr" (TPtr "fn"); fld "map_gen_lookup" (TPtr "fn");
  fld "map_fd_sys_lookup_elem" (TPtr "fn"); fld "map_seq_show_elem" (TPtr "fn");
  fld "map_check_btf" (TPtr "fn"); fld "map_poke_track" (TPtr "fn");
  fld "map_poke_untrack" (TPtr "fn"); fld "map_poke_run" (TPtr "fn");
  fld "map_direct_value_addr" (TPtr "fn"); fld "map_direct_value_meta" (TPtr "fn");
  fld "map_mmap" (TPtr "fn"); fld "map_poll" (TPtr "fn");
  fld "map_local_storage_charge" (TPtr "fn"); fld "map_local_storage_uncharge" (TPtr "fn");
  fld "map_owner_storage_ptr" (TPtr "fn"); fld "map_redirect" (TPtr "fn");
  fld "map_meta_equal" (TPtr "fn"); fld "map_set_for_each_callback_args" (TPtr "fn");
  fld "map_for_each_callback" (TPtr "fn"); fld "map_mem_usage" (TPtr "fn");
  fld "map_btf_id" (TPtr "int"); fld "iter_seq_info" (TPtr "struct bpf_iter_seq_info")].
Abbreviation s_arch_uprobe_task := (TStruct false [fld "saved_scratch_register" c_ulong;
  fld "saved_trap_nr" c_uint; fld "saved_tf" c_uint]).
Definition s_uprobe_task : ctype := TStruct false [fld "state" c_enum;
  fld EmptyString (TUnion false [fld EmptyString (TStruct false [fld "autask" s_arch_uprobe_task;
  fld "vaddr" c_ulong]); fld EmptyString (TStruct false [fld "dup_xol_work" s_callback_head;
  fld "dup_xol_addr" c_ulong])]); fld "active_uprobe" (TPtr "struct uprobe");
  fld "xol_vaddr" c_ulong; fld "auprobe" (TPtr "struct arch_uprobe");
  fld "return_instances" (TPtr "struct return_instance"); fld "depth" c_uint].
Abbreviation s_dyn_event := (TStruct false [fld "list" s_list_head;
  fld "ops" (TPtr "struct dyn_event_operations")]).
Abbreviation s_uprobe_consumer := (TStruct false [fld "handler" (TPtr "fn");
  fld "ret_handler" (TPtr "fn"); fld "filter" (TPtr "fn");
  fld "next" (TPtr "struct uprobe_consumer")]).
Abbreviation t___kernel_long_t := c_long.
Abbreviation t___kernel_ssize_t := t___kernel_long_t.
Abbreviation t_ssize_t := t___kernel_ssize_t.
Definition s_probe_arg : ctype := TStruct false [fld "code" (TPtr "struct fetch_insn");
  fld "dynamic" t_bool; fld "offset" c_uint; fld "count" c_uint; fld "name" (TPtr "char");
  fld "comm" (TPtr "char"); fld "fmt" (TPtr "char"); fld "type" (TPtr "struct fetch_type")].
Definition s_trace_probe : ctype := TStruct false [fld "list" s_list_head;
  fld "event" (TPtr "struct trace_probe_event"); fld "size" t_ssize_t; fld "nr_args" c_uint;
  fld "entry_arg" (TPtr "struct probe_entry_arg"); fld "args" (TArr 0 s_probe_arg)].
Definition s_trace_uprobe : ctype := TStruct false [fld "devent" s_dyn_event;
  fld "consumer" s_uprobe_consumer; fld "path" s_path; fld "inode" (TPtr "struct inode");
  fld "filename" (TPtr "char"); fld "offset" c_ulong; fld "ref_ctr_offset" c_ulong;
  fld "nhit" c_ulong; fld "tp" s_trace_probe].
Abbreviation s_trace_event := (TStruct false [fld "node" s_hlist_node; fld "type" c_int;
  fld "funcs" (TPtr "struct trace_event_functions")]).
Definition s_trace_event_call : ctype := TStruct false [fld "list" s_list_head;
  fld "class" (TPtr "struct trace_event_class");
  fld EmptyString (TUnion false [fld "name" (TPtr "char");
  fld "tp" (TPtr "struct tracepoint")]); fld "event" s_trace_event;
  fld "print_fmt" (TPtr "char"); fld "filter" (TPtr "struct event_filter");
  fld EmptyString (TUnion false [fld "module" (TPtr "void"); fld "refcnt" t_atomic_t]);
  fld "data" (TPtr "void"); fld "flags" c_int; fld "perf_refcount" c_int;
  fld "perf_events" (TPtr "struct hlist_head"); fld "prog_array" (TPtr "struct bpf_prog_array");
  fld "perf_perm" (TPtr "fn")].
Definition s_pmu : ctype := TStruct false [fld "entry" s_list_head;
  fld "module" (TPtr "struct module"); fld "dev" (TPtr "struct device");
  fld "parent" (TPtr "struct device"); fld "attr_groups" (TPtr "struct attribute_group");
  fld "attr_update" (TPtr "struct attribute_group"); fld "name" (TPtr "char"); fld "type" c_int;
  fld "capabilities" c_int; fld "pmu_disable_count" (TPtr "int");
  fld "cpu_pmu_context" (TPtr "struct perf_cpu_pmu_context"); fld "exclusive_cnt" t_atomic_t;
  fld "task_ctx_nr" c_int; fld "hrtimer_interval_ms" c_int; fld "nr_addr_filters" c_uint;
  fld "pmu_enable" (TPtr "fn"); fld "pmu_disable" (TPtr "fn"); fld "event_init" (TPtr "fn");
  fld "event_mapped" (TPtr "fn"); fld "event_unmapped" (TPtr "fn"); fld "add" (TPtr "fn");
  fld "del" (TPtr "fn"); fld "start" (TPtr "fn"); fld "stop" (TPtr "fn");
  fld "read" (TPtr "fn"); fld "start_txn" (TPtr "fn"); fld "commit_txn" (TPtr "fn");
  fld "cancel_txn" (TPtr "fn"); fld "event_idx" (TPtr "fn"); fld "sched_task" (TPtr "fn");
  fld "task_ctx_cache" (TPtr "struct kmem_cache"); fld "swap_task_ctx" (TPtr "fn");
  fld "setup_aux" (TPtr "fn"); fld "free_aux" (TPtr "fn"); fld "snapshot_aux" (TPtr "fn");
  fld "addr_filters_validate" (TPtr "fn"); fld "addr_filters_sync" (TPtr "fn");
  fld "aux_output_match" (TPtr "fn"); fld "filter" (TPtr "fn"); fld "check_period" (TPtr "fn")].
Abbreviation s_perf_event_groups := (TStruct false [fld "tree" s_rb_root;
  fld "index" t_u64]).
Definition s_perf_event_context : ctype := TStruct false [fld "lock" t_raw_spinlock_t;
  fld "mutex" s_mutex; fld "pmu_ctx_list" s_list_head; fld "pinned_groups" s_perf_event_groups;
  fld "flexible_groups" s_perf_event_groups; fld "event_list" s_list_head;
  fld "nr_events" c_int; fld "nr_user" c_int; fld "is_active" c_int; fld "nr_task_data" c_int;
  fld "nr_stat" c_int; fld "nr_freq" c_int; fld "rotate_disable" c_int;
  fld "refcount" t_refcount_t; fld "task" (TPtr "struct task_struct"); fld "time" t_u64;
  fld "timestamp" t_u64; fld "timeoffset" t_u64;
  fld "parent_ctx" (TPtr "struct perf_event_context"); fld "parent_gen" t_u64;
  fld "generation" t_u64; fld "pin_count" c_int; fld "nr_cgroups" c_int;
  fld "callback_head" s_callback_head; fld "nr_pending" t_local_t].
Definition s_btf_header : ctype := TStruct false [fld "magic" t___u16; fld "version" t___u8;
  fld "flags" t___u8; fld "hdr_len" t___u32; fld "type_off" t___u32; fld "type_len" t___u32;
  fld "str_off" t___u32; fld "str_len" t___u32].
Definition s_btf : ctype := TStruct false [fld "data" (TPtr "void");
  fld "types" (TPtr "struct btf_type"); fld "resolved_ids" (TPtr "u32");
  fld "resolved_sizes" (TPtr "u32"); fld "strings" (TPtr "char");
  fld "nohdr_data" (TPtr "void"); fld "hdr" s_btf_header; fld "nr_types" t_u32;
  fld "types_size" t_u32; fld "data_size" t_u32; fld "refcnt" t_refcount_t; fld "id" t_u32;
  fld "rcu" s_callback_head; fld "kfunc_set_tab" (TPtr "struct btf_kfunc_set_tab");
  fld "dtor_kfunc_tab" (TPtr "struct btf_id_dtor_kfunc_tab");
  fld "struct_meta_tab" (TPtr "struct btf_struct_metas"); fld "base_btf" (TPtr "struct btf");
  fld "start_id" t_u32; fld "start_str_off" t_u32; fld "name" (TArr 56 c_char);
  fld "kernel_btf" t_bool].
Abbreviation s_btf_mod_pair := (TStruct false [fld "btf" (TPtr "struct btf");
  fld "module" (TPtr "struct module")]).
Definition s_bpf_verifier_log : ctype := TStruct false [fld "start_pos" t_u64;
  fld "end_pos" t_u64; fld "ubuf" (TPtr "char"); fld "level" t_u32; fld "len_total" t_u32;
  fld "len_max" t_u32; fld "kbuf" (TArr 1024 c_char)].
Abbreviation s_bpf_subprog_arg_info := (TStruct false [fld "arg_type" c_enum;
  fld EmptyString (TUnion false [fld "mem_size" t_u32])]).
Definition s_bpf_subprog_info : ctype := TStruct false [fld "start" t_u32;
  fld "linfo_idx" t_u32; fld "stack_depth" t_u16; bits "has_tail_call" t_bool 1;
  bits "tail_call_reachable" t_bool 1; bits "has_ld_abs" t_bool 1; bits "is_cb" t_bool 1;
  bits "is_async_cb" t_bool 1; bits "is_exception_cb" t_bool 1; bits "args_cached" t_bool 1;
  fld "arg_cnt" t_u8; fld "args" (TArr 5 s_bpf_subprog_arg_info)].
Abbreviation s_bpf_id_pair := (TStruct false [fld "old" t_u32; fld "cur" t_u32]).
Abbreviation s_bpf_idmap := (TStruct false [fld "tmp_id_gen" t_u32;
  fld "map" (TArr 600 s_bpf_id_pair)]).
Abbreviation s_bpf_idset := (TStruct false [fld "count" t_u32; fld "ids" (TArr 600 t_u32)]).
Abbreviation s_backtrack_state := (TStruct false [fld "env" (TPtr "struct bpf_verifier_env"); fld "frame" t_u32;
  fld "reg_masks" (TArr 8 t_u32); fld "stack_masks" (TArr 8 t_u64)]).
Definition t_sockptr_t : ctype :=
  TStruct false [fld EmptyString (TUnion false [fld "kernel" (TPtr "void");
  fld "user" (TPtr "void")]); bits "is_kernel" t_bool 1].
Abbreviation t_bpfptr_t := t_sockptr_t.
Abbreviation s_tnum := (TStruct false [fld "value" t_u64; fld "mask" t_u64]).
Definition s_bpf_reg_state : ctype := TStruct false [fld "type" c_enum; fld "off" t_s32;
  fld EmptyString (TUnion false [fld "range" c_int;
  fld EmptyString (TStruct false [fld "map_ptr" (TPtr "struct bpf_map"); fld "map_uid" t_u32]);
  fld EmptyString (TStruct false [fld "btf" (TPtr "struct btf"); fld "btf_id" t_u32]);
  fld EmptyString (TStruct false [fld "mem_size" t_u32; fld "dynptr_id" t_u32]);
  fld "dynptr" (TStruct false [fld "type" c_enum; fld "first_slot" t_bool]);
  fld "iter" (TStruct false [fld "btf" (TPtr "struct btf"); fld "btf_id" t_u32;
  bits "state" c_enum 2; bits "depth" c_int 30]); fld "raw" (TStruct false [fld "raw1" c_ulong;
  fld "raw2" c_ulong]); fld "subprogno" t_u32]); fld "var_off" s_tnum; fld "smin_value" t_s64;
  fld "smax_value" t_s64; fld "umin_value" t_u64; fld "umax_value" t_u64;
  fld "s32_min_value" t_s32; fld "s32_max_value" t_s32; fld "u32_min_value" t_u32;
  fld "u32_max_value" t_u32; fld "id" t_u32; fld "ref_obj_id" t_u32;
  fld "parent" (TPtr "struct bpf_reg_state"); fld "frameno" t_u32; fld "subreg_def" t_s32;
  fld "live" c_enum; fld "precise" t_bool].
Definition s_bpf_verifier_env : ctype := TStruct false [fld "insn_idx" t_u32;
  fld "prev_insn_idx" t_u32; fld "prog" (TPtr "struct bpf_prog");
  fld "ops" (TPtr "struct bpf_verifier_ops");
  fld "head" (TPtr "struct bpf_verifier_stack_elem"); fld "stack_size" c_int;
  fld "strict_alignment" t_bool; fld "test_state_freq" t_bool; fld "test_reg_invariants" t_bool;
  fld "cur_state" (TPtr "struct bpf_verifier_state");
  fld "explored_states" (TPtr "struct bpf_verifier_state_list");
  fld "free_list" (TPtr "struct bpf_verifier_state_list");
  fld "used_maps" (TArr 64 (TPtr "struct bpf_map")); fld "used_btfs" (TArr 64 s_btf_mod_pair);
  fld "used_map_cnt" t_u32; fld "used_btf_cnt" t_u32; fld "id_gen" t_u32;
  fld "hidden_subprog_cnt" t_u32; fld "exception_callback_subprog" c_int;
  fld "explore_alu_limits" t_bool; fld "allow_ptr_leaks" t_bool;
  fld "allow_uninit_stack" t_bool; fld "bpf_capable" t_bool; fld "bypass_spec_v1" t_bool;
  fld "bypass_spec_v4" t_bool; fld "seen_direct_write" t_bool; fld "seen_exception" t_bool;
  fld "insn_aux_data" (TPtr "struct bpf_insn_aux_data");
  fld "prev_linfo" (TPtr "struct bpf_line_info"); fld "log" s_bpf_verifier_log;
  fld "subprog_info" (TArr 258 s_bpf_subprog_info);
  fld EmptyString (TUnion false [fld "idmap_scratch" s_bpf_idmap;
  fld "idset_scratch" s_bpf_idset]); fld "cfg" (TStruct false [fld "insn_state" (TPtr "int");
  fld "insn_stack" (TPtr "int"); fld "cur_stack" c_int]); fld "bt" s_backtrack_state;
  fld "insn_hist" (TPtr "struct bpf_insn_hist_entry");
  fld "cur_hist_ent" (TPtr "struct bpf_insn_hist_entry"); fld "insn_hist_cap" t_u32;
  fld "pass_cnt" t_u32; fld "subprog_cnt" t_u32; fld "prev_insn_processed" t_u32;
  fld "insn_processed" t_u32; fld "prev_jmps_processed" t_u32; fld "jmps_processed" t_u32;
  fld "verification_time" t_u64; fld "max_states_per_insn" t_u32; fld "total_states" t_u32;
  fld "peak_states" t_u32; fld "longest_mark_read_walk" t_u32; fld "fd_array" t_bpfptr_t;
  fld "scratched_regs" t_u32; fld "scratched_stack_slots" t_u64; fld "prev_log_pos" t_u64;
  fld "prev_insn_print_pos" t_u64; fld "fake_reg" (TArr 2 s_bpf_reg_state);
  fld "tmp_str_buf" (TArr 320 c_char)].
