(* ===== verification/Layouts.v ===== *)
(** * Layouts of the shared structs and of the kernel interface

    The C types of src/src/bpf/profi_events.h and profi.bpf.c as layout
    descriptions, the compile-time layout asserts of src/src/events.rs, the map
    definitions of profi.bpf.c, and what the type dump vmlinux.h fixes about the
    kernel objects the programs touch. *)

From stdpp Require Import strings.
From S2P Require Import Prelude CLayout KernelTask KernelBpf.

Local Open Scope Z_scope.

(** ** profi_events.h and profi.bpf.c *)

(** The three integer typedefs of profi_events.h. *)
Definition pe_u8 : ctype := c_uchar.
Definition pe_u32 : ctype := c_uint.
Definition pe_u64 : ctype := c_ullong.

Definition cl_CudaEvent : ctype := TStruct false
  [fld "event_type" pe_u32; fld "pid" pe_u32; fld "tid" pe_u32; fld "memcpy_kind" pe_u32;
   fld "timestamp_ns" pe_u64; fld "duration_ns" pe_u64; fld "size" pe_u64; fld "addr" pe_u64;
   fld "stream" pe_u64; fld "nvtx_marker" (TArr 16 pe_u8); fld "comm" (TArr 16 pe_u8);
   fld "error_code" pe_u32; fld "_pad2" pe_u32].

Definition cl_KernelRegEvent : ctype := TStruct false
  [fld "pid" pe_u32; fld "_pad" pe_u32; fld "host_fun" pe_u64; fld "name_ptr" pe_u64].

Definition cl_EntryData : ctype := TStruct false
  [fld "timestamp_ns" pe_u64; fld "arg0" pe_u64; fld "arg1" pe_u64; fld "arg2" pe_u64;
   fld "event_type" pe_u32; fld "_pad" pe_u32].

Definition cl_AggKey : ctype := TStruct false
  [fld "event_type" pe_u32; fld "pid" pe_u32; fld "memcpy_kind" pe_u32; fld "error_code" pe_u32;
   fld "stream" pe_u64].

Definition cl_AggValue : ctype := TStruct false
  [fld "count" pe_u64; fld "duration_sum_ns" pe_u64; fld "size_sum" pe_u64;
   fld "bucket_counts" (TArr 14 pe_u32)].

Definition cl_LaunchKey : ctype := TStruct false
  [fld "pid" pe_u32; fld "_pad" pe_u32; fld "host_fun" pe_u64; fld "stream" pe_u64].

Definition cl_LaunchAggValue : ctype := TStruct false
  [fld "count" pe_u64; fld "total_duration_ns" pe_u64; fld "max_duration_ns" pe_u64;
   fld "bucket_counts" (TArr 9 pe_u32)].

Definition cl_NcclAggValue : ctype := TStruct false
  [fld "count" pe_u64; fld "duration_sum_ns" pe_u64; fld "bytes_sum" pe_u64;
   fld "bucket_counts" (TArr 12 pe_u32)].

Definition cl_MallocKey : ctype := TStruct false
  [fld "pid" pe_u32; fld "_pad" pe_u32; fld "addr" pe_u64].

Definition cl_nvtx_name_t : ctype := TStruct false [fld "name" (TArr 64 pe_u8)].

(** ** The repr(C) mirrors in events.rs

    Rust lays a repr(C) struct out as C does. *)

Definition rs_u8 : ctype := TInt 1.
Definition rs_u32 : ctype := TInt 4.
Definition rs_u64 : ctype := TInt 8.

Definition rs_CudaEvent : ctype := TStruct false
  [fld "event_type" rs_u32; fld "pid" rs_u32; fld "tid" rs_u32; fld "memcpy_kind" rs_u32;
   fld "timestamp_ns" rs_u64; fld "duration_ns" rs_u64; fld "size" rs_u64; fld "addr" rs_u64;
   fld "stream" rs_u64; fld "nvtx_marker" (TArr 16 rs_u8); fld "comm" (TArr 16 rs_u8);
   fld "error_code" rs_u32; fld "_pad2" rs_u32].

Definition rs_KernelRegEvent : ctype := TStruct false
  [fld "pid" rs_u32; fld "_pad" rs_u32; fld "host_fun" rs_u64; fld "name_ptr" rs_u64].

Definition rs_EntryData : ctype := TStruct false
  [fld "timestamp_ns" rs_u64; fld "arg0" rs_u64; fld "arg1" rs_u64; fld "arg2" rs_u64;
   fld "event_type" rs_u32; fld "_pad" rs_u32].

Definition rs_AggKey : ctype := TStruct false
  [fld "event_type" rs_u32; fld "pid" rs_u32; fld "memcpy_kind" rs_u32; fld "error_code" rs_u32;
   fld "stream" rs_u64].

Definition rs_AggValue : ctype := TStruct false
  [fld "count" rs_u64; fld "duration_sum_ns" rs_u64; fld "size_sum" rs_u64;
   fld "bucket_counts" (TArr 14 rs_u32)].

Definition rs_LaunchKey : ctype := TStruct false
  [fld "pid" rs_u32; fld "_pad" rs_u32; fld "host_fun" rs_u64; fld "stream" rs_u64].

Definition rs_LaunchAggValue : ctype := TStruct false
  [fld "count" rs_u64; fld "total_duration_ns" rs_u64; fld "max_duration_ns" rs_u64;
   fld "bucket_counts" (TArr 9 rs_u32)].

Definition rs_NcclAggValue : ctype := TStruct false
  [fld "count" rs_u64; fld "duration_sum_ns" rs_u64; fld "bytes_sum" rs_u64;
   fld "bucket_counts" (TArr 12 rs_u32)].

(** The layout asserts of events.rs: sizes, and offsets in field order. *)

Definition rs_layout_asserts : list (ctype * Z * list (string * Z)) :=
  [(rs_CudaEvent, 96,
    [("event_type", 0); ("pid", 4); ("tid", 8); ("memcpy_kind", 12); ("timestamp_ns", 16);
     ("duration_ns", 24); ("size", 32); ("addr", 40); ("stream", 48); ("nvtx_marker", 56);
     ("comm", 72); ("error_code", 88); ("_pad2", 92)]);
   (rs_KernelRegEvent, 24, [("pid", 0); ("_pad", 4); ("host_fun", 8); ("name_ptr", 16)]);
   (rs_EntryData, 40,
    [("timestamp_ns", 0); ("arg0", 8); ("arg1", 16); ("arg2", 24); ("event_type", 32);
     ("_pad", 36)]);
   (rs_AggKey, 24,
    [("event_type", 0); ("pid", 4); ("memcpy_kind", 8); ("error_code", 12); ("stream", 16)]);
   (rs_AggValue, 80,
    [("count", 0); ("duration_sum_ns", 8); ("size_sum", 16); ("bucket_counts", 24)]);
   (rs_LaunchKey, 24, [("pid", 0); ("_pad", 4); ("host_fun", 8); ("stream", 16)]);
   (rs_LaunchAggValue, 64,
    [("count", 0); ("total_duration_ns", 8); ("max_duration_ns", 16); ("bucket_counts", 24)]);
   (rs_NcclAggValue, 72,
    [("count", 0); ("duration_sum_ns", 8); ("bytes_sum", 16); ("bucket_counts", 24)])].

(** The number of padding bits of a struct type. *)
Definition padding_bits (t : ctype) : Z :=
  match t with
  | TStruct _ fs => 8 * sizeof t - sumZ ((fun f => m_width (mem_of f)) <$> fs)
  | _ => 0
  end.

(** ** The map definitions of profi.bpf.c *)

Record MapDef := mkMapDef {
  md_name : string;
  md_type : string;
  md_max_entries : Z;
  md_key : option ctype;
  md_value : option ctype
}.

Definition profi_maps : list MapDef :=
  [mkMapDef "INFLIGHT" "BPF_MAP_TYPE_LRU_HASH" 10240 (Some pe_u64) (Some cl_EntryData);
   mkMapDef "EVENTS" "BPF_MAP_TYPE_RINGBUF" (2 * 1024 * 1024) None None;
   mkMapDef "KERNEL_REGS" "BPF_MAP_TYPE_RINGBUF" (256 * 1024) None None;
   mkMapDef "AGGREGATED" "BPF_MAP_TYPE_PERCPU_HASH" 2048 (Some cl_AggKey) (Some cl_AggValue);
   mkMapDef "LAUNCH_AGG" "BPF_MAP_TYPE_PERCPU_HASH" 8192
     (Some cl_LaunchKey) (Some cl_LaunchAggValue);
   mkMapDef "LAUNCH_DROPPED" "BPF_MAP_TYPE_PERCPU_ARRAY" 1 (Some pe_u32) (Some pe_u64);
   mkMapDef "DETAILED_LAUNCHES" "BPF_MAP_TYPE_ARRAY" 1 (Some pe_u32) (Some pe_u32);
   mkMapDef "UPGRADED_PIDS" "BPF_MAP_TYPE_HASH" 1024 (Some pe_u32) (Some pe_u8);
   mkMapDef "NCCL_AGG" "BPF_MAP_TYPE_PERCPU_HASH" 1024 (Some cl_AggKey) (Some cl_NcclAggValue);
   mkMapDef "DROPPED" "BPF_MAP_TYPE_PERCPU_ARRAY" 1 (Some pe_u32) (Some pe_u64);
   mkMapDef "NVTX_STACK" "BPF_MAP_TYPE_LRU_HASH" 1024 (Some pe_u64) (Some cl_nvtx_name_t);
   mkMapDef "KERNEL_AGG_MODE" "BPF_MAP_TYPE_ARRAY" 1 (Some pe_u32) (Some pe_u32);
   mkMapDef "SAMPLE_RATE" "BPF_MAP_TYPE_ARRAY" 1 (Some pe_u32) (Some pe_u32);
   mkMapDef "SAMPLE_COUNTER" "BPF_MAP_TYPE_PERCPU_ARRAY" 1 (Some pe_u32) (Some pe_u64);
   mkMapDef "MALLOC_SIZES" "BPF_MAP_TYPE_LRU_HASH" 131072 (Some cl_MallocKey) (Some pe_u64);
   mkMapDef "MALLOC_PTRS" "BPF_MAP_TYPE_LRU_HASH" 512 (Some pe_u64) (Some pe_u64)].

Fixpoint member_named {A} (name : string) (l : list (string * A)) : option A :=
  match l with
  | [] => None
  | (n, v) :: l' => if String.eqb n name then Some v else member_named name l'
  end.

(** Keys of hash maps are compared byte by byte, so padding would make equal
    keys differ. *)
Definition key_has_no_padding (m : MapDef) : bool :=
  match md_key m with Some k => padding_bits k =? 0 | None => true end.

(** ** Theorems *)

(** The asserts of events.rs hold of its structs, and name every field of them, in order. *)
Lemma rust_asserts_hold :
  Forall (fun '(t, size, offs) =>
    ctype_ok t = true /\ sizeof t = size /\
    (fun f => f.1.1.1) <$> members_at t = fst <$> offs /\
    Forall (fun '(name, o) => offsetof t name = Some o) offs) rs_layout_asserts.
Proof.
  unfold rs_layout_asserts.
  repeat (apply Forall_cons_2; [split_and!; [reflexivity|reflexivity|reflexivity|];
    repeat (apply Forall_cons_2; [reflexivity|]); apply Forall_nil_2|]); apply Forall_nil_2.
Qed.

(** The maps have names of their own and types of enum bpf_map_type, and no key of a map has
    padding bytes, so that two keys with equal fields are the same key.  Among the
    values only LaunchAggValue has padding: its last 4 bytes. *)
Lemma map_definitions_ok :
  Forall (fun m => is_Some (member_named (md_type m) e_bpf_map_type) /\ key_has_no_padding m = true) profi_maps /\
  NoDup (md_name <$> profi_maps) /\
  (fun '(t, _, _) => padding_bits t) <$> rs_layout_asserts = [0; 0; 0; 0; 0; 0; 32; 0] /\
  slots_end false (mem_of <$> [fld "count" pe_u64; fld "total_duration_ns" pe_u64;
    fld "max_duration_ns" pe_u64; fld "bucket_counts" (TArr 9 pe_u32)]) 0 = 8 * 60.
Proof.
  split_and!; [|apply (bool_decide_unpack _); vm_compute; exact I|reflexivity|reflexivity].
  unfold profi_maps. repeat (apply Forall_cons_2; [split; [by eexists|reflexivity]|]). apply Forall_nil_2.
Qed.

(** The record types of the development: kernel objects and shared structs. *)
Definition record_types : list ctype :=
  [s_pt_regs; s_task_struct; s_mm_struct; s_vm_area_struct; s_signal_struct; s_cred;
   s_pid_namespace; s_uprobe_task; s_trace_uprobe; s_trace_event_call; s_pmu;
   s_perf_event_context; s_btf; s_bpf_verifier_env; s_bpf_map; s_bpf_htab; s_bpf_array; s_bpf_ringbuf;
   s_bpf_ringbuf_map; s_bpf_prog; s_bpf_prog_aux; s_uprobe; s_perf_event;
   s_bpf_uprobe_multi_link; s_bpf_trace_run_ctx; s_bpf_map_ops; u_bpf_attr; cl_MallocKey;
   cl_nvtx_name_t] ++ ((fun '(t, _, _) => t) <$> rs_layout_asserts).

Lemma record_types_ok t : t ∈ record_types -> ctype_ok t = true.
Proof.
  assert (Hok : forallb ctype_ok record_types = true) by (vm_compute; reflexivity).
  rewrite forallb_forall in Hok. intros Hin. by apply Hok, list_elem_of_In.
Qed.

(** the modelled kernel objects and shared structs have sound layouts.  In
    each of them that is a struct the members follow one another without
    overlap inside the size, each aligned for its type and no bit-field across
    a storage unit; and in all of them, unions included, every member that
    offsetof finds, through anonymous records too, lies inside the object. *)
Theorem layouts_sound t :
  t ∈ record_types ->
  (forall fs, t = TStruct false fs ->
     let L := slots false (mem_of <$> fs) 0 in
     StronglySorted before L /\
     forall m o, (m, o) ∈ L -> 0 <= o /\ o + m_width m <= 8 * sizeof t /\ slot_aligned m o) /\
  (forall name o ft, find_member 8 t name = Some (o, ft) ->
     0 <= o /\ o + sizeof ft <= sizeof t /\ sizeof ft mod alignof ft = 0) /\
  sizeof t mod alignof t = 0.
Proof.
  intros Hok%record_types_ok. split; [|split].
  - intros fs ->. destruct (struct_layout_sound false fs Hok) as (_ & Hs & Hb & Ha & _).
    split; [done|]. intros m o Hm. destruct (Hb m o Hm). split_and!; [done|done|by apply Ha].
  - intros name o ft Hm. destruct (find_member_bounds 8 t name o ft Hok Hm) as (Hft & ? & ?).
    destruct (type_ok_all ft Hft) as (_ & _ & ?). done.
  - by destruct (type_ok_all t Hok) as (_ & _ & ?).
Qed.

(** The kernel objects the programs depend on.  The registers that BPF_KPROBE
    arguments, PT_REGS_RC and PT_REGS_SP read are 8-byte words at the offsets of
    the x86-64 ABI; a thread and a process id are 4 bytes each, which
    bpf_get_current_pid_tgid packs into 64 bits; a command name has the 16 bytes
    of CudaEvent.comm; and the explicit padding of the ring buffer puts the
    consumer position, the producer position and the data on pages of their
    own. *)
Lemma kernel_abi :
  (fun r => (offsetof s_pt_regs r, member_size s_pt_regs r)) <$>
    ["di"; "si"; "dx"; "cx"; "r8"; "r9"; "ax"; "sp"]
  = [(Some 112, Some 8); (Some 104, Some 8); (Some 96, Some 8); (Some 88, Some 8);
     (Some 72, Some 8); (Some 64, Some 8); (Some 80, Some 8); (Some 152, Some 8)] /\
  sizeof s_pt_regs = 168 /\
  member_size s_task_struct "pid" = Some 4 /\ member_size s_task_struct "tgid" = Some 4 /\
  member_size s_task_struct "comm" = member_size cl_CudaEvent "comm" /\
  offsetof s_bpf_ringbuf "consumer_pos" = Some (1 * 4096) /\
  offsetof s_bpf_ringbuf "producer_pos" = Some (2 * 4096) /\
  offsetof s_bpf_ringbuf "data" = Some (3 * 4096) /\ sizeof s_bpf_ringbuf = 3 * 4096.
Proof. split_and!; vm_compute; reflexivity. Qed.

(** ** Witness *)

Lemma layouts_sound_witness :
  find_member 8 s_task_struct "comm" = Some (3032, TArr 16 c_char) /\
  3032 + sizeof (TArr 16 c_char) <= sizeof s_task_struct.
Proof.
  assert (Hf : find_member 8 s_task_struct "comm" = Some (3032, TArr 16 c_char))
    by (vm_compute; reflexivity).
  split; [exact Hf|].
  destruct (layouts_sound s_task_struct) as (_ & Hm & _); [right; left|].
  apply (Hm "comm"). exact Hf.
Defined.
