(* ===== verification/Wire.v ===== *)
(** * Bytes between kernel and userspace

    The programs store C structs in map values and ring-buffer records;
    userspace reads them back as the repr(C) structs of src/src/events.rs with read_unaligned
    (src/src/main.rs: the ring-buffer callbacks, drain_percpu_hash).  Values of
    a C type are encoded little-endian at the offsets of the C layout, with zero
    padding; decoding reads each member at its offset in the Rust struct.  [Wire] is the
    interface a shared struct gives to its readers; the law is that what is read, by field
    name, is what was written. *)

From stdpp Require Import strings.
From S2P Require Import Prelude CLayout KernelTask KernelBpf Layouts Events Runtime Probes Step.
From S2P Require Import Demo Invariant.

Local Open Scope Z_scope.

(** ** Little-endian integers *)

Fixpoint le_bytes (n : nat) (z : Z) : list Z :=
  match n with
  | O => []
  | S n => z mod 256 :: le_bytes n (z / 256)
  end.

Fixpoint le_val (bs : list Z) : Z :=
  match bs with
  | [] => 0
  | b :: bs => b + 256 * le_val bs
  end.

Lemma length_le_bytes n z : length (le_bytes n z) = n.
Proof. revert z. induction n as [|n IH]; intros z; simpl; [done|]. by rewrite IH. Qed.

Lemma le_val_bytes n z : 0 <= z < 2 ^ (8 * Z.of_nat n) -> le_val (le_bytes n z) = z.
Proof.
  revert z. induction n as [|n IH]; intros z Hz; simpl.
  { change (2 ^ (8 * Z.of_nat 0)) with 1 in Hz. lia. }
  rewrite IH.
  - pose proof (Z.div_mod z 256). lia.
  - replace (8 * Z.of_nat (S n)) with (8 + 8 * Z.of_nat n) in Hz by lia.
    rewrite Z.pow_add_r in Hz by lia. change (2 ^ 8) with 256 in Hz.
    split; [apply Z.div_pos; lia|]. apply Z.div_lt_upper_bound; lia.
Qed.

(** ** Values of C types *)

#[warnings="-register-all"]
Inductive cval := VInt (z : Z) | VSeq (vs : list cval).

(** Concatenation of parts at byte offsets [offs], zeros between them. *)
Fixpoint lay (parts : list (list Z)) (offs : list Z) (pos : Z) : list Z :=
  match parts, offs with
  | p :: parts, o :: offs =>
      replicate (Z.to_nat (o - pos)) 0 ++ p ++ lay parts offs (o + Z.of_nat (length p))
  | _, _ => []
  end.

Definition pad_to (n : Z) (bs : list Z) : list Z :=
  bs ++ replicate (Z.to_nat n - length bs) 0.

(** The byte offsets of the members of a struct. *)
Definition byte_offsets (pk : bool) (fs : list (string * ctype * option Z)) : list Z :=
  (fun mo => mo.2 / 8) <$> slots pk (mem_of <$> fs) 0.

Fixpoint encode (t : ctype) (v : cval) : list Z :=
  match t, v with
  | TInt n, VInt z => le_bytes (Z.to_nat n) z
  | TPtr _, VInt z => le_bytes 8 z
  | TArr _ t, VSeq vs => concat (map (encode t) vs)
  | TStruct pk fs, VSeq vs =>
      let parts := (fix go fs vs :=
        match fs, vs with
        | f :: fs, v :: vs => encode f.1.2 v :: go fs vs
        | _, _ => []
        end) fs vs in
      pad_to (sizeof t) (lay parts (byte_offsets pk fs) 0)
  | _, _ => []
  end.

(** The bytes [o .. o + n) of a buffer. *)
Definition slice (o n : Z) (bs : list Z) : list Z := take (Z.to_nat n) (drop (Z.to_nat o) bs).

Fixpoint decode (t : ctype) (bs : list Z) : cval :=
  match t with
  | TInt n => VInt (le_val (take (Z.to_nat n) bs))
  | TPtr _ => VInt (le_val (take 8 bs))
  | TArr n t =>
      VSeq (map (fun i => decode t (slice (Z.of_nat i * sizeof t) (sizeof t) bs))
                (seq 0 (Z.to_nat n)))
  | TStruct pk fs =>
      VSeq ((fix go (fs : list (string * ctype * option Z)) offs :=
        match fs, offs with
        | f :: fs, o :: offs => decode f.1.2 (slice o (sizeof f.1.2) bs) :: go fs offs
        | _, _ => []
        end) fs (byte_offsets pk fs))
  | TUnion _ _ => VSeq []
  end.

(** A value of a type without bit-fields and unions. *)
Fixpoint has_type (t : ctype) (v : cval) : Prop :=
  match t, v with
  | TInt n, VInt z => 0 <= z < 2 ^ (8 * n)
  | TPtr _, VInt z => 0 <= z < 2 ^ 64
  | TArr n t, VSeq vs => 0 < sizeof t /\ Z.of_nat (length vs) = n /\ Forall (has_type t) vs
  | TStruct _ fs, VSeq vs =>
      (fix go fs vs :=
        match fs, vs with
        | f :: fs, v :: vs => (f.2 = None /\ has_type f.1.2 v) /\ go fs vs
        | [], [] => True
        | _, _ => False
        end) fs vs
  | _, _ => False
  end.

(** ** Round trip *)

Definition encode_members (fs : list (string * ctype * option Z)) (vs : list cval) : list (list Z) :=
  zip_with (fun f v => encode f.1.2 v) fs vs.

Definition member_typed (f : string * ctype * option Z) (v : cval) : Prop :=
  f.2 = None /\ has_type f.1.2 v.

Lemma encode_struct pk fs vs :
  encode (TStruct pk fs) (VSeq vs)
  = pad_to (sizeof (TStruct pk fs)) (lay (encode_members fs vs) (byte_offsets pk fs) 0).
Proof.
  reflexivity.
Qed.

Lemma decode_struct pk fs bs :
  decode (TStruct pk fs) bs
  = VSeq (zip_with (fun f o => decode f.1.2 (slice o (sizeof f.1.2) bs)) fs (byte_offsets pk fs)).
Proof.
  reflexivity.
Qed.

Lemma has_type_struct pk fs vs : has_type (TStruct pk fs) (VSeq vs) <-> Forall2 member_typed fs vs.
Proof.
  cbn [has_type]. revert vs. induction fs as [|f fs IH]; intros [|v vs]; simpl.
  - split; [constructor|done].
  - split; [done|]. by inversion 1.
  - split; [done|]. by inversion 1.
  - rewrite IH. split; [intros [? ?]; by constructor|by inversion 1].
Qed.

Lemma drop_app_exact {A} (l k : list A) n : n = length l -> drop n (l ++ k) = k.
Proof. intros ->. by rewrite drop_app_length. Qed.

(** A part laid out at [o] is found at [o]. *)
Lemma lay_slice pk fs vs pos pre tail :
  Forall2 (fun f v => f.2 = None /\ Z.of_nat (length (encode f.1.2 v)) = sizeof f.1.2) fs vs ->
  Forall mem_ok (mem_of <$> fs) -> pos mod 8 = 0 -> Z.of_nat (length pre) = pos / 8 -> 0 <= pos ->
  let offs := (fun mo => mo.2 / 8) <$> slots pk (mem_of <$> fs) pos in
  Z.of_nat (length (pre ++ lay (encode_members fs vs) offs (pos / 8)))
    = slots_end pk (mem_of <$> fs) pos / 8 /\
  slots_end pk (mem_of <$> fs) pos mod 8 = 0 /\
  Forall2 (fun fv o =>
    slice o (sizeof fv.1.1.2) (pre ++ lay (encode_members fs vs) offs (pos / 8) ++ tail)
    = encode fv.1.1.2 fv.2) (zip fs vs) offs.
Proof.
  intros Hfv. revert pos pre. induction Hfv as [|f v fs vs [Hb Hlen] Hfv IH];
    intros pos pre Hms Hp Hpre Hpos; simpl.
  { rewrite app_nil_r. split; [done|]. split; [done|constructor]. }
  apply Forall_cons in Hms as [Hm Hms].
  set (o := place pk (mem_of f) pos). set (w := m_width (mem_of f)).
  assert (Hw : w = 8 * sizeof f.1.2) by (unfold w, m_width; simpl; by rewrite Hb).
  pose proof (place_ge pk _ pos Hm) as Hge. fold o in Hge.
  assert (Ho : o mod 8 = 0).
  { apply (slots_byte pk [mem_of f] pos (mem_of f) o); [by constructor|by left|done]. }
  assert (Hs : 0 <= sizeof f.1.2) by apply (mo_size _ Hm).
  apply Z.div_exact in Ho; [|done]. apply Z.div_exact in Hp; [|done].
  set (ob := o / 8) in *. set (pb := pos / 8) in *.
  assert (Hnext : (o + w) / 8 = ob + Z.of_nat (length (encode f.1.2 v))).
  { rewrite Hlen, Hw, Ho. rewrite <- Z.mul_add_distr_l, (Z.mul_comm 8). by apply Z.div_mul. }
  set (pre' := pre ++ replicate (Z.to_nat (ob - pb)) 0 ++ encode f.1.2 v).
  destruct (IH (o + w) pre') as (I1 & I2 & I3).
  { done. }
  { rewrite Hw, Ho, <- Z.mul_add_distr_l, (Z.mul_comm 8). by apply Z.mod_mul. }
  { rewrite Hnext. unfold pre'. rewrite !length_app, length_replicate. lia. }
  { rewrite Hw. lia. }
  rewrite Hnext in I1, I3. unfold pre' in I1, I3. rewrite <- !app_assoc in I1, I3.
  split; [done|]. split; [done|]. constructor; [|by rewrite <- !app_assoc].
  cbn [fst snd]. unfold slice. fold ob. rewrite <- !app_assoc, app_assoc.
  rewrite drop_app_exact by (rewrite length_app, length_replicate; lia).
  rewrite <- Hlen, Nat2Z.id. apply take_app_length.
Qed.

(** Equal-sized parts, concatenated, are found at multiples of the size. *)
Lemma concat_slices (k : Z) (parts : list (list Z)) pre :
  0 < k -> Forall (fun p => Z.of_nat (length p) = k) parts -> Z.of_nat (length pre) mod k = 0 ->
  map (fun i => slice (Z.of_nat i * k) k (pre ++ concat parts))
      (seq (Z.to_nat (Z.of_nat (length pre) / k)) (length parts)) = parts.
Proof.
  intros Hk Hparts. revert pre. induction Hparts as [|p parts Hp Hparts IH]; intros pre Hpre; [done|].
  cbn [length seq map concat]. f_equal.
  - unfold slice. rewrite Z2Nat.id by (apply Z.div_pos; lia).
    apply Z.div_exact in Hpre; [|lia].
    rewrite drop_app_exact by (rewrite Z.mul_comm, <- Hpre; lia).
    rewrite <- Hp, Nat2Z.id. apply take_app_length.
  - specialize (IH (pre ++ p)).
    assert (Hlen : Z.of_nat (length (pre ++ p)) = Z.of_nat (length pre) + 1 * k)
      by (rewrite length_app; lia).
    rewrite Hlen, Z_mod_plus, Z_div_plus in IH by lia.
    replace (Z.to_nat (Z.of_nat (length pre) / k + 1))
      with (S (Z.to_nat (Z.of_nat (length pre) / k))) in IH
      by (assert (0 <= Z.of_nat (length pre) / k) by (apply Z.div_pos; lia); lia).
    rewrite <- app_assoc in IH. by apply IH.
Qed.

Lemma length_concat_const (k : Z) (parts : list (list Z)) :
  Forall (fun p => Z.of_nat (length p) = k) parts ->
  Z.of_nat (length (concat parts)) = Z.of_nat (length parts) * k.
Proof. induction 1 as [|p parts Hp _ IH]; simpl; [done|]. rewrite length_app. lia. Qed.

Definition roundtrips (t : ctype) : Prop :=
  forall v, ctype_ok t = true -> has_type t v ->
    Z.of_nat (length (encode t v)) = sizeof t /\ decode t (encode t v) = v.

Lemma roundtrips_arr n t : roundtrips t -> roundtrips (TArr n t).
Proof.
  intros IH [z|vs] Hok Hty; [done|]. apply andb_true_iff in Hok as [_ Hok].
  destruct Hty as (Hs & Hn & Hvs).
  assert (Hp : Forall (fun p => Z.of_nat (length p) = sizeof t) (map (encode t) vs)).
  { apply Forall_fmap. eapply Forall_impl; [exact Hvs|]. intros v Hv. by apply IH. }
  cbn [encode decode]. split.
  { rewrite (length_concat_const (sizeof t)) by done. rewrite length_map, Hn. done. }
  f_equal. pose proof (concat_slices (sizeof t) _ [] Hs Hp eq_refl) as E.
  rewrite <- Hn, Nat2Z.id. rewrite length_map in E.
  change (length (@nil Z)) with 0%nat in E. rewrite Z.div_0_l in E by lia.
  change (Z.to_nat 0) with 0%nat in E.
  etransitivity; [symmetry; apply (map_map _ (decode t))|].
  etransitivity; [exact (f_equal (map (decode t)) E)|]. rewrite map_map.
  transitivity (map (fun v => v) vs); [|apply map_id].
  apply map_ext_in. intros v Hv. apply IH; [done|].
  rewrite List.Forall_forall in Hvs. by apply Hvs.
Qed.

Lemma roundtrips_struct pk fs :
  Forall (fun f => roundtrips f.1.2) fs -> roundtrips (TStruct pk fs).
Proof.
  intros IH [z|vs] Hok Hty; [done|]. apply has_type_struct in Hty.
  pose proof (struct_mems_ok pk fs Hok) as Hms.
  assert (Hrt : Forall2 (fun f v => f.2 = None /\
    Z.of_nat (length (encode f.1.2 v)) = sizeof f.1.2 /\ decode f.1.2 (encode f.1.2 v) = v) fs vs).
  { assert (Hf : Forall (fun f => ctype_ok f.1.2 = true) fs).
    { apply Forall_forall. intros [[n t] w] Hin. by apply (ok_member pk fs n t w). }
    clear Hok Hms. induction Hty as [|f v fs vs [Hb Hv] Hty IHt]; [constructor|].
    apply Forall_cons in IH as [IHf IH], Hf as [Hf Hfs].
    constructor; [|by apply IHt]. destruct (IHf v Hf Hv). done. }
  destruct (lay_slice pk fs vs 0 [] (replicate (Z.to_nat (sizeof (TStruct pk fs)) - length
    (lay (encode_members fs vs) (byte_offsets pk fs) 0)) 0)) as (L1 & L2 & L3); [|done..|].
  { eapply Forall2_impl; [exact Hrt|]. by intros f v (? & ? & ?). }
  rewrite encode_struct, decode_struct. unfold pad_to. fold (byte_offsets pk fs) in L1, L3.
  change (0 / 8) with 0 in L1, L3. rewrite app_nil_l in L1, L3. split.
  - rewrite length_app, length_replicate. pose proof (struct_size_bits pk _ Hms) as [Hsz _].
    change (sizeof (TStruct pk fs)) with (struct_size pk (mem_of <$> fs)).
    apply Z.div_exact in L2; [|done]. lia.
  - f_equal. set (bs := lay _ _ _ ++ _) in L3 |- *. clearbody bs. clear L1 L2 Hms IH Hok Hty.
    revert L3. generalize (byte_offsets pk fs). induction Hrt as [|f v fs vs (? & ? & Hd) Hrt IHr];
      intros offs; [done|].
    inversion 1 as [|? o ? offs' E1 E2]; subst. cbn in E1. simpl. rewrite E1. f_equal; [done|].
    by apply IHr.
Qed.

Lemma roundtrips_all t : roundtrips t.
Proof.
  induction t as [n|s|n t IH|pk fs IH|pk fs IH] using ctype_members_ind.
  - intros [z|vs] Hok Hty; [|done]. apply Z.ltb_lt in Hok. simpl in Hty.
    cbn [encode decode]. rewrite length_le_bytes, take_ge by (rewrite length_le_bytes; lia).
    rewrite le_val_bytes by (rewrite Z2Nat.id by lia; done). split; [|done].
    unfold sizeof; simpl. lia.
  - intros [z|vs] _ Hty; [|done]. cbn [encode decode].
    rewrite length_le_bytes, take_ge by (rewrite length_le_bytes; lia).
    by rewrite le_val_bytes.
  - by apply roundtrips_arr.
  - by apply roundtrips_struct.
  - by intros v _ [].
Qed.

(** ** Shared structs *)

(** The value of a struct type whose members are given by name, and the members of a value. *)
Definition write_struct (t : ctype) (members : list (string * cval)) : cval :=
  match t with
  | TStruct _ fs => VSeq ((fun f => default (VSeq []) (member_named f.1.1 members)) <$> fs)
  | _ => VSeq []
  end.

Definition read_member (t : ctype) (v : cval) (name : string) : option cval :=
  match t, v with
  | TStruct _ fs, VSeq vs => member_named name (zip ((fun f => f.1.1) <$> fs) vs)
  | _, _ => None
  end.

(** What a shared struct promises to its readers: the C struct that the programs write, its
    mirror in events.rs that userspace reads, whether userspace insists on the exact length, the
    values of the members by name, and the way back. *)
Class Wire (A : Type) := {
  wire_type : ctype;
  rust_type : ctype;
  wire_exact : bool;
  wire_wf : A -> Prop;
  members : A -> list (string * cval);
  of_members : (string -> option cval) -> option A;
  wire_type_ok : ctype_ok wire_type = true;
  wire_mirror : rust_type = wire_type;
  wire_typed : forall a, wire_wf a -> has_type wire_type (write_struct wire_type (members a));
  wire_law : forall a, of_members (read_member rust_type (write_struct wire_type (members a))) = Some a
}.

(** The bytes of a struct in a map or ring buffer. *)
Definition wire_encode `{Wire A} (a : A) : list Z := encode wire_type (write_struct wire_type (members a)).

(** The length check and [read_unaligned] of the mirror: a record of EVENTS and an in-flight entry
    may be longer than the struct, a record of KERNEL_REGS and the keys and values of the drained
    maps may not (of a value that is longer or shorter the code panics, other records it skips). *)
Definition wire_read `{Wire A} (data : list Z) : option A :=
  let size := sizeof rust_type in
  let len := Z.of_nat (length data) in
  if (if wire_exact then len =? size else size <=? len)
  then of_members (read_member rust_type (decode rust_type (take (Z.to_nat size) data)))
  else None.

(** A value that userspace reads back, and, where it does not insist on the length, whatever
    bytes follow. *)
Definition decodes `{Wire A} (a : A) : Prop :=
  forall tail, wire_exact = false \/ tail = [] -> wire_read (wire_encode a ++ tail) = Some a.

Lemma wire_decodes `{Wire A} (a : A) : wire_wf a -> decodes a.
Proof.
  intros Hwf tail Ht. pose proof (wire_law a) as Hlaw. unfold wire_read, wire_encode. rewrite wire_mirror in *.
  destruct (roundtrips_all wire_type _ wire_type_ok (wire_typed a Hwf)) as [Hl Hd].
  assert ((if wire_exact then Z.of_nat (length (encode wire_type (write_struct wire_type (members a)) ++ tail))
            =? sizeof wire_type
           else sizeof wire_type <=? Z.of_nat (length (encode wire_type (write_struct wire_type (members a)) ++ tail)))
          = true) as ->.
  { rewrite length_app. destruct wire_exact; [|apply Z.leb_le; lia].
    destruct Ht as [| ->]; [done|]. apply Z.eqb_eq. simpl. lia. }
  by rewrite <- Hl, Nat2Z.id, take_app_length, Hd.
Qed.

Definition V_ints (l : list Z) : cval := VSeq (VInt <$> l).

Definition get_int (v : cval) : option Z := match v with VInt z => Some z | VSeq _ => None end.
Definition int_of (get : string -> option cval) (name : string) : option Z := get name ≫= get_int.
Definition get_ints (v : cval) : option (list Z) :=
  match v with VSeq vs => mapM get_int vs | VInt _ => None end.

Definition ints_of (get : string -> option cval) (name : string) : option (list Z) := get name ≫= get_ints.

Lemma get_V_ints l : get_ints (V_ints l) = Some l.
Proof. apply (mapM_fmap_Some get_int VInt). done. Qed.

Lemma V_ints_typed (w n : Z) l :
  0 < w -> Z.of_nat (length l) = n -> Forall (fits (8 * w)) l -> has_type (TArr n (TInt w)) (V_ints l).
Proof.
  intros Hw Hn Hl. split; [done|]. split; [by rewrite length_fmap|]. by apply Forall_fmap.
Qed.

(** Typing of a struct of integers and integer arrays, from range hypotheses. *)
Ltac member_typed :=
  split; [reflexivity|]; cbn [fst snd fld];
  first
    [ assumption
    | apply (V_ints_typed 1); [done|lia|assumption]
    | apply (V_ints_typed 4); [done|lia|assumption]
    | unfold fits in *; cbn; lia ].
Ltac struct_typed :=
  match goal with |- has_type ?t (write_struct ?t ?ms) =>
    let v := eval cbn -[V_ints] in (write_struct t ms) in change (write_struct t ms) with v end;
  apply has_type_struct; repeat apply Forall2_cons_2; first [apply Forall2_nil_2 | member_typed].

(** Reading every member of what was written. *)
Ltac read_back :=
  repeat match goal with
  | |- context [int_of ?g ?n] =>
      let v := eval cbv -[V_ints] in (int_of g n) in change (int_of g n) with v; cbn [mbind option_bind]
  | |- context [ints_of ?g ?n] =>
      let m := eval cbv -[V_ints] in (g n) in
      change (ints_of g n) with (m ≫= get_ints); cbn [mbind option_bind]; rewrite get_V_ints; cbn [mbind option_bind]
  end; reflexivity.

Definition members_CudaEvent (a : CudaEvent) : list (string * cval) :=
  [("event_type", VInt (ce_event_type a)); ("pid", VInt (ce_pid a)); ("tid", VInt (ce_tid a));
   ("memcpy_kind", VInt (ce_memcpy_kind a)); ("timestamp_ns", VInt (ce_timestamp_ns a));
   ("duration_ns", VInt (ce_duration_ns a)); ("size", VInt (ce_size a));
   ("addr", VInt (ce_addr a)); ("stream", VInt (ce_stream a));
   ("nvtx_marker", V_ints (ce_nvtx_marker a)); ("comm", V_ints (ce_comm a));
   ("error_code", VInt (ce_error_code a)); ("_pad2", VInt (ce_pad2 a))].

Definition of_CudaEvent (get : string -> option cval) : option CudaEvent :=
  event_type ← int_of get "event_type"; pid ← int_of get "pid"; tid ← int_of get "tid";
  memcpy_kind ← int_of get "memcpy_kind"; timestamp_ns ← int_of get "timestamp_ns";
  duration_ns ← int_of get "duration_ns"; size ← int_of get "size"; addr ← int_of get "addr";
  stream ← int_of get "stream"; nvtx_marker ← ints_of get "nvtx_marker";
  comm ← ints_of get "comm"; error_code ← int_of get "error_code"; _pad2 ← int_of get "_pad2";
  Some (mkCudaEvent event_type pid tid memcpy_kind timestamp_ns duration_ns size addr stream nvtx_marker comm error_code _pad2).

Lemma CudaEvent_typed a : event_ok a -> has_type cl_CudaEvent (write_struct cl_CudaEvent (members_CudaEvent a)).
Proof. intros []; destruct_and!. struct_typed. Qed.

Lemma CudaEvent_law a :
  of_CudaEvent (read_member rs_CudaEvent (write_struct cl_CudaEvent (members_CudaEvent a))) = Some a.
Proof. destruct a. unfold of_CudaEvent. read_back. Qed.

#[export] Instance CudaEvent_wire : Wire CudaEvent := {|
  wire_type := cl_CudaEvent; rust_type := rs_CudaEvent; wire_exact := false; wire_wf := event_ok;
  members := members_CudaEvent; of_members := of_CudaEvent; wire_type_ok := eq_refl; wire_mirror := eq_refl;
  wire_typed := CudaEvent_typed; wire_law := CudaEvent_law |}.

Definition members_KernelRegEvent (a : KernelRegEvent) : list (string * cval) :=
  [("pid", VInt (kr_pid a)); ("_pad", VInt (kr_pad a)); ("host_fun", VInt (kr_host_fun a));
   ("name_ptr", VInt (kr_name_ptr a))].

Definition of_KernelRegEvent (get : string -> option cval) : option KernelRegEvent :=
  pid ← int_of get "pid"; _pad ← int_of get "_pad"; host_fun ← int_of get "host_fun";
  name_ptr ← int_of get "name_ptr";
  Some (mkKernelRegEvent pid _pad host_fun name_ptr).

Lemma KernelRegEvent_typed a : kreg_ok a -> has_type cl_KernelRegEvent (write_struct cl_KernelRegEvent (members_KernelRegEvent a)).
Proof. intros (? & ? & ? & ?). struct_typed. Qed.

Lemma KernelRegEvent_law a :
  of_KernelRegEvent (read_member rs_KernelRegEvent (write_struct cl_KernelRegEvent (members_KernelRegEvent a))) = Some a.
Proof. destruct a. unfold of_KernelRegEvent. read_back. Qed.

#[export] Instance KernelRegEvent_wire : Wire KernelRegEvent := {|
  wire_type := cl_KernelRegEvent; rust_type := rs_KernelRegEvent; wire_exact := true; wire_wf := kreg_ok;
  members := members_KernelRegEvent; of_members := of_KernelRegEvent; wire_type_ok := eq_refl; wire_mirror := eq_refl;
  wire_typed := KernelRegEvent_typed; wire_law := KernelRegEvent_law |}.

Definition members_EntryData (a : EntryData) : list (string * cval) :=
  [("timestamp_ns", VInt (en_timestamp_ns a)); ("arg0", VInt (en_arg0 a));
   ("arg1", VInt (en_arg1 a)); ("arg2", VInt (en_arg2 a));
   ("event_type", VInt (en_event_type a)); ("_pad", VInt (en_pad a))].

Definition of_EntryData (get : string -> option cval) : option EntryData :=
  timestamp_ns ← int_of get "timestamp_ns"; arg0 ← int_of get "arg0"; arg1 ← int_of get "arg1";
  arg2 ← int_of get "arg2"; event_type ← int_of get "event_type"; _pad ← int_of get "_pad";
  Some (mkEntryData timestamp_ns arg0 arg1 arg2 event_type _pad).

Lemma EntryData_typed a : entry_wf a -> has_type cl_EntryData (write_struct cl_EntryData (members_EntryData a)).
Proof. intros []. struct_typed. Qed.

Lemma EntryData_law a :
  of_EntryData (read_member rs_EntryData (write_struct cl_EntryData (members_EntryData a))) = Some a.
Proof. destruct a. unfold of_EntryData. read_back. Qed.

#[export] Instance EntryData_wire : Wire EntryData := {|
  wire_type := cl_EntryData; rust_type := rs_EntryData; wire_exact := false; wire_wf := entry_wf;
  members := members_EntryData; of_members := of_EntryData; wire_type_ok := eq_refl; wire_mirror := eq_refl;
  wire_typed := EntryData_typed; wire_law := EntryData_law |}.

Definition members_AggKey (a : AggKey) : list (string * cval) :=
  [("event_type", VInt (ak_event_type a)); ("pid", VInt (ak_pid a));
   ("memcpy_kind", VInt (ak_memcpy_kind a)); ("error_code", VInt (ak_error_code a));
   ("stream", VInt (ak_stream a))].

Definition of_AggKey (get : string -> option cval) : option AggKey :=
  event_type ← int_of get "event_type"; pid ← int_of get "pid";
  memcpy_kind ← int_of get "memcpy_kind"; error_code ← int_of get "error_code";
  stream ← int_of get "stream";
  Some (mkAggKey event_type pid memcpy_kind error_code stream).

Lemma AggKey_typed a : aggkey_range a -> has_type cl_AggKey (write_struct cl_AggKey (members_AggKey a)).
Proof. intros []. struct_typed. Qed.

Lemma AggKey_law a :
  of_AggKey (read_member rs_AggKey (write_struct cl_AggKey (members_AggKey a))) = Some a.
Proof. destruct a. unfold of_AggKey. read_back. Qed.

#[export] Instance AggKey_wire : Wire AggKey := {|
  wire_type := cl_AggKey; rust_type := rs_AggKey; wire_exact := true; wire_wf := aggkey_range;
  members := members_AggKey; of_members := of_AggKey; wire_type_ok := eq_refl; wire_mirror := eq_refl;
  wire_typed := AggKey_typed; wire_law := AggKey_law |}.

Definition members_AggValue (a : AggValue) : list (string * cval) :=
  [("count", VInt (av_count a)); ("duration_sum_ns", VInt (av_duration_sum_ns a));
   ("size_sum", VInt (av_size_sum a)); ("bucket_counts", V_ints (av_bucket_counts a))].

Definition of_AggValue (get : string -> option cval) : option AggValue :=
  count ← int_of get "count"; duration_sum_ns ← int_of get "duration_sum_ns";
  size_sum ← int_of get "size_sum"; bucket_counts ← ints_of get "bucket_counts";
  Some (mkAggValue count duration_sum_ns size_sum bucket_counts).

Lemma AggValue_typed a : agg_wf a -> has_type cl_AggValue (write_struct cl_AggValue (members_AggValue a)).
Proof. intros ([] & ? & ?). struct_typed. Qed.

Lemma AggValue_law a :
  of_AggValue (read_member rs_AggValue (write_struct cl_AggValue (members_AggValue a))) = Some a.
Proof. destruct a. unfold of_AggValue. read_back. Qed.

#[export] Instance AggValue_wire : Wire AggValue := {|
  wire_type := cl_AggValue; rust_type := rs_AggValue; wire_exact := true; wire_wf := agg_wf;
  members := members_AggValue; of_members := of_AggValue; wire_type_ok := eq_refl; wire_mirror := eq_refl;
  wire_typed := AggValue_typed; wire_law := AggValue_law |}.

Definition members_LaunchKey (a : LaunchKey) : list (string * cval) :=
  [("pid", VInt (lk_pid a)); ("_pad", VInt (lk_pad a)); ("host_fun", VInt (lk_host_fun a));
   ("stream", VInt (lk_stream a))].

Definition of_LaunchKey (get : string -> option cval) : option LaunchKey :=
  pid ← int_of get "pid"; _pad ← int_of get "_pad"; host_fun ← int_of get "host_fun";
  stream ← int_of get "stream";
  Some (mkLaunchKey pid _pad host_fun stream).

Lemma LaunchKey_typed a : launch_key_ok a -> has_type cl_LaunchKey (write_struct cl_LaunchKey (members_LaunchKey a)).
Proof. intros (? & ? & ? & ?). struct_typed. Qed.

Lemma LaunchKey_law a :
  of_LaunchKey (read_member rs_LaunchKey (write_struct cl_LaunchKey (members_LaunchKey a))) = Some a.
Proof. destruct a. unfold of_LaunchKey. read_back. Qed.

#[export] Instance LaunchKey_wire : Wire LaunchKey := {|
  wire_type := cl_LaunchKey; rust_type := rs_LaunchKey; wire_exact := true; wire_wf := launch_key_ok;
  members := members_LaunchKey; of_members := of_LaunchKey; wire_type_ok := eq_refl; wire_mirror := eq_refl;
  wire_typed := LaunchKey_typed; wire_law := LaunchKey_law |}.

Definition members_LaunchAggValue (a : LaunchAggValue) : list (string * cval) :=
  [("count", VInt (lv_count a)); ("total_duration_ns", VInt (lv_total_duration_ns a));
   ("max_duration_ns", VInt (lv_max_duration_ns a));
   ("bucket_counts", V_ints (lv_bucket_counts a))].

Definition of_LaunchAggValue (get : string -> option cval) : option LaunchAggValue :=
  count ← int_of get "count"; total_duration_ns ← int_of get "total_duration_ns";
  max_duration_ns ← int_of get "max_duration_ns"; bucket_counts ← ints_of get "bucket_counts";
  Some (mkLaunchAggValue count total_duration_ns max_duration_ns bucket_counts).

Lemma LaunchAggValue_typed a : launch_wf a -> has_type cl_LaunchAggValue (write_struct cl_LaunchAggValue (members_LaunchAggValue a)).
Proof. intros ([] & ? & ?). struct_typed. Qed.

Lemma LaunchAggValue_law a :
  of_LaunchAggValue (read_member rs_LaunchAggValue (write_struct cl_LaunchAggValue (members_LaunchAggValue a))) = Some a.
Proof. destruct a. unfold of_LaunchAggValue. read_back. Qed.

#[export] Instance LaunchAggValue_wire : Wire LaunchAggValue := {|
  wire_type := cl_LaunchAggValue; rust_type := rs_LaunchAggValue; wire_exact := true; wire_wf := launch_wf;
  members := members_LaunchAggValue; of_members := of_LaunchAggValue; wire_type_ok := eq_refl; wire_mirror := eq_refl;
  wire_typed := LaunchAggValue_typed; wire_law := LaunchAggValue_law |}.

Definition members_NcclAggValue (a : NcclAggValue) : list (string * cval) :=
  [("count", VInt (nv_count a)); ("duration_sum_ns", VInt (nv_duration_sum_ns a));
   ("bytes_sum", VInt (nv_bytes_sum a)); ("bucket_counts", V_ints (nv_bucket_counts a))].

Definition of_NcclAggValue (get : string -> option cval) : option NcclAggValue :=
  count ← int_of get "count"; duration_sum_ns ← int_of get "duration_sum_ns";
  bytes_sum ← int_of get "bytes_sum"; bucket_counts ← ints_of get "bucket_counts";
  Some (mkNcclAggValue count duration_sum_ns bytes_sum bucket_counts).

Lemma NcclAggValue_typed a : nccl_wf a -> has_type cl_NcclAggValue (write_struct cl_NcclAggValue (members_NcclAggValue a)).
Proof. intros ([] & ? & ?). struct_typed. Qed.

Lemma NcclAggValue_law a :
  of_NcclAggValue (read_member rs_NcclAggValue (write_struct cl_NcclAggValue (members_NcclAggValue a))) = Some a.
Proof. destruct a. unfold of_NcclAggValue. read_back. Qed.

#[export] Instance NcclAggValue_wire : Wire NcclAggValue := {|
  wire_type := cl_NcclAggValue; rust_type := rs_NcclAggValue; wire_exact := true; wire_wf := nccl_wf;
  members := members_NcclAggValue; of_members := of_NcclAggValue; wire_type_ok := eq_refl; wire_mirror := eq_refl;
  wire_typed := NcclAggValue_typed; wire_law := NcclAggValue_law |}.

Lemma percpu_decodes `{LoadCfg} {K V} `{Countable K} `{Wire K} `{Wire V} cap (Pk : K -> Prop)
    (Pv : V -> Prop) (m : gmap K (list V)) :
  percpu_ok cap Pk Pv m -> (forall k, Pk k -> wire_wf k) -> (forall v, Pv v -> wire_wf v) ->
  map_Forall (fun k slots => decodes k /\ Forall decodes slots) m.
Proof.
  intros [Hk Hs _] HPk HPv k slots E. split.
  - apply wire_decodes, HPk. by apply (Hk k slots).
  - destruct (Hs k slots E) as [_ HF]. eapply Forall_impl; [exact HF|].
    intros v Hv. by apply wire_decodes, HPv.
Qed.

(** C30: what the programs write is what userspace reads.  In every state that program runs
    reach from maps configured with a sampling rate of 32 bits, take each record of the two ring
    buffers, each key and per-CPU value of the three aggregation maps and each in-flight entry.
    Its bytes, laid out as the struct of profi_events.h, pass the length check of userspace, and
    reading them as the repr(C) struct of events.rs gives, field by field, the value that was
    written; where userspace does not insist on the exact length (records of EVENTS, in-flight
    entries), whatever bytes follow. *)
Theorem reachable_records_decode `{LoadCfg} rate mode detailed s :
  fits 32 rate -> reachable (configure rate mode detailed init_state) s ->
  Forall decodes (EVENTS s) /\ Forall decodes (KERNEL_REGS s) /\
  map_Forall (fun k slots => decodes k /\ Forall decodes slots) (AGGREGATED s) /\
  map_Forall (fun k slots => decodes k /\ Forall decodes slots) (NCCL_AGG s) /\
  map_Forall (fun k slots => decodes k /\ Forall decodes slots) (LAUNCH_AGG s) /\
  map_Forall (fun _ en => decodes en) (INFLIGHT s).
Proof.
  intros Hr Hs%reachable_wf; [|done]. split_and!.
  - eapply Forall_impl; [apply (wf_events s Hs)|]. intros ev Hev. by apply wire_decodes.
  - eapply Forall_impl; [apply (wf_kregs s Hs)|]. intros r Hkr. by apply wire_decodes.
  - apply (percpu_decodes _ agg_key_ok agg_wf _ (wf_agg s Hs)); [|done]. by intros k [].
  - apply (percpu_decodes _ nccl_key_ok nccl_wf _ (wf_nccl s Hs)); [|done]. by intros k [].
  - by apply (percpu_decodes _ launch_key_ok launch_wf _ (wf_launch s Hs)).
  - intros k en Hen. apply wire_decodes. by apply (wf_inflight s Hs k).
Qed.

Section Witnesses.
#[local] Existing Instance demo_cfg.

(** The 96 bytes of the launch event of a short run, followed by junk. *)
Lemma reachable_records_decode_witness :
  Forall (fun ev => wire_read (wire_encode ev ++ [1; 2; 3]) = Some ev)
    (EVENTS (run_trace demo_mixed (configure 0 0 1 init_state))) /\
  length <$> (wire_encode <$> EVENTS (run_trace demo_mixed (configure 0 0 1 init_state))) = [96%nat].
Proof.
  split; [|vm_compute; reflexivity].
  destruct (reachable_records_decode 0 0 1
    (run_trace demo_mixed (configure 0 0 1 init_state))) as [He _].
  - fits_const.
  - apply trace_reachable. demo_trace_wf.
  - eapply Forall_impl; [exact He|]. intros ev Hev. apply Hev. left. reflexivity.
Defined.
End Witnesses.
