(* ===== verification/Drain.v ===== *)
(** * Draining the aggregation maps: src/src/main.rs

    Every tick userspace walks AGGREGATED, LAUNCH_AGG and NCCL_AGG: for each key
    it reads the per-CPU values, adds them up, exports the totals and deletes
    the key ([drain_percpu_hash] and its three callbacks).  The kernel keeps
    running programs meanwhile, also between the look-up and the deletion of a
    key.  [AggMap] is the interface a map gives to the drain; the theorem
    accounts for every completed call across any interleaving. *)

From stdpp Require Import strings.
From S2P Require Import Prelude Events Runtime Probes Step Demo Invariant PerCpu Ledger.

Local Open Scope Z_scope.

(** ** The per-CPU sums of the three callbacks *)

Record AggTotals := mkAggTotals {
  at_count : Z; at_duration : Z; at_size : Z; at_buckets : list Z
}.

(** [buckets[i] += u64::from(c)] over the enumerated buckets. *)
Definition add_buckets (buckets : list Z) (counts : list Z) : list Z :=
  zip_with (fun b c => u64 (b + c)) buckets counts.

Definition agg_totals (per_cpu : list AggValue) : AggTotals :=
  foldl (fun t v => mkAggTotals (u64 (at_count t + av_count v))
                      (u64 (at_duration t + av_duration_sum_ns v))
                      (u64 (at_size t + av_size_sum v))
                      (add_buckets (at_buckets t) (av_bucket_counts v)))
    (mkAggTotals 0 0 0 (replicate 14 0)) per_cpu.

Definition nccl_totals (per_cpu : list NcclAggValue) : AggTotals :=
  foldl (fun t v => mkAggTotals (u64 (at_count t + nv_count v))
                      (u64 (at_duration t + nv_duration_sum_ns v))
                      (u64 (at_size t + nv_bytes_sum v))
                      (add_buckets (at_buckets t) (nv_bucket_counts v)))
    (mkAggTotals 0 0 0 (replicate 12 0)) per_cpu.

Record LaunchTotals := mkLaunchTotals {
  lt_count : Z; lt_duration : Z; lt_max : Z; lt_buckets : list Z
}.

Definition launch_totals (per_cpu : list LaunchAggValue) : LaunchTotals :=
  foldl (fun t v => mkLaunchTotals (u64 (lt_count t + lv_count v))
                      (u64 (lt_duration t + lv_total_duration_ns v))
                      (if lt_max t <? lv_max_duration_ns v then lv_max_duration_ns v else lt_max t)
                      (add_buckets (lt_buckets t) (lv_bucket_counts v)))
    (mkLaunchTotals 0 0 0 (replicate 9 0)) per_cpu.

(** A wrapping accumulator loop computes the wrapped sum. *)
Lemma foldl_sum {A T} (w : Z) (get : T -> Z) (f : T -> A -> T) (g : A -> Z) t0 l :
  (forall t a, get (f t a) = wrap w (get t + g a)) -> get t0 = 0 ->
  get (foldl f t0 l) = wrap w (sumZ (g <$> l)).
Proof.
  intros Hf H0. induction l as [|a l IH] using rev_ind; [by rewrite wrap_0|].
  rewrite foldl_app, fmap_app, sumZ_app. simpl. rewrite Hf, IH, Z.add_0_r. by wrap_simpl.
Qed.

(** ** The interface of an aggregation map *)

Class AggMap `{LoadCfg} (K V : Type) `{Countable K} := {
  am_map : BpfState -> gmap K (list V);
  am_delete : K -> BpfState -> BpfState;
  am_key : Completed -> option K;
  am_weight : Completed -> Z;
  am_count : V -> Z;
  am_process : list V -> Z;
  am_cap : nat;
  am_zero : V;
  am_step : Completed -> V -> V;
  am_first : Completed -> V;
  am_Pk : K -> Prop;
  am_Pv : V -> Prop;
  am_outputs : forall s s', outputs s' = outputs s -> am_map s' = am_map s;
  am_emit : forall e s c, completed_at e s = Some c ->
    am_map (emit_exit e s)
    = acc_at am_cap am_zero (env_cpu e) (am_key c) (am_step c) (am_first c) (am_map s);
  am_wf : forall s, state_wf s -> percpu_ok am_cap am_Pk am_Pv (am_map s);
  am_count_zero : am_count am_zero = 0;
  am_count_step : forall c v, am_Pv v -> u64 (am_count (am_step c v)) = u64 (am_count v + am_weight c);
  am_count_first : forall c, u64 (am_count (am_first c)) = u64 (am_weight c);
  am_process_sum : forall slots, am_process slots = u64 (sumZ (am_count <$> slots));
  am_map_delete : forall k s, am_map (am_delete k s) = delete k (am_map s);
  am_delete_wf : forall k s, state_wf s -> state_wf (am_delete k s)
}.

(** ** Userspace and kernel together *)

Section System.
Context `{LoadCfg} {K V : Type} `{Countable K} `{!AggMap K V}.

(** One program run, or the drain of one key: lookup, the programs [mid] that run
    before the delete, delete. *)
Inductive sys_item := S_run (p : probe) (e : KEnv) | S_drain (k : K) (mid : trace).

Record Sys := mkSys {
  sys_bpf : BpfState;
  sys_exported : list (K * Z);       (* the exported call counts, oldest first *)
  sys_ledger : list Completed;       (* all completed calls *)
  sys_lost : list Completed          (* calls deleted before userspace saw them *)
}.

(** One iteration of the loop of [drain_percpu_hash] with a callback that
    exports the call count unless it is 0. *)
Definition drain_key (k : K) (mid : trace) (y : Sys) : Sys :=
  let s := sys_bpf y in
  let s' := run_trace mid s in
  let L := ledger mid s in
  match am_map s !! k with
  | None => mkSys s' (sys_exported y) (sys_ledger y ++ L) (sys_lost y)
  | Some per_cpu =>
      let total_count := am_process per_cpu in
      mkSys (am_delete k s')
        (if total_count =? 0 then sys_exported y else sys_exported y ++ [(k, total_count)])
        (sys_ledger y ++ L)
        (sys_lost y ++ filter (fun c => am_key c = Some k) L)
  end.

Definition sys_step (y : Sys) (i : sys_item) : Sys :=
  match i with
  | S_run p e =>
      mkSys (run p e (sys_bpf y)) (sys_exported y)
        (sys_ledger y ++ option_list (completes p e (sys_bpf y))) (sys_lost y)
  | S_drain k mid => drain_key k mid y
  end.

Definition sys_run (items : list sys_item) (s : BpfState) : Sys :=
  foldl sys_step (mkSys s [] [] []) items.

Definition item_wf (i : sys_item) : Prop :=
  match i with
  | S_run p e => trace_wf [(p, e)]
  | S_drain _ mid => trace_wf mid
  end.

(** The calls exported under a key. *)
Definition exported (k : K) (l : list (K * Z)) : Z :=
  sumZ (snd <$> filter (fun kn => kn.1 = k) l).

Lemma exported_app k l1 l2 : exported k (l1 ++ l2) = exported k l1 + exported k l2.
Proof. unfold exported. by rewrite filter_app, fmap_app, sumZ_app. Qed.

Lemma pc_total_delete (f : V -> Z) (m : gmap K (list V)) k j :
  pc_total f (delete k m) j = if decide (k = j) then 0 else pc_total f m j.
Proof.
  unfold pc_total. rewrite lookup_delete. by case_decide.
Qed.

Lemma ledger_sum_filter g k j (L : list Completed) :
  ledger_sum am_key g j (filter (fun c => am_key c = Some k) L)
  = if decide (k = j) then ledger_sum am_key g j L else 0.
Proof.
  unfold ledger_sum. induction L as [|c L IH]; [by case_decide|].
  rewrite !(filter_cons _ c). destruct (decide (am_key c = Some k)) as [Hk|Hk].
  - rewrite filter_cons. destruct (decide (am_key c = Some j)) as [Hj|Hj]; csimpl; rewrite IH;
      case_decide; [done|congruence|congruence|done].
  - rewrite IH. destruct (decide (am_key c = Some j)); case_decide; [congruence|done..].
Qed.

(** ** Accounting *)

Record sys_inv (y : Sys) : Prop := {
  si_wf : state_wf (sys_bpf y);
  si_dom : dom (am_map (sys_bpf y)) ⊆ ledger_keys am_key (sys_ledger y);
  si_total : forall k,
    u64 (exported k (sys_exported y) + pc_total am_count (am_map (sys_bpf y)) k
         + ledger_sum am_key am_weight k (sys_lost y))
    = u64 (ledger_sum am_key am_weight k (sys_ledger y))
}.

(** Programs add to the map what they add to the ledger. *)
Lemma sys_inv_run t y :
  sys_inv y -> trace_wf t ->
  (size (ledger_keys am_key (sys_ledger y ++ ledger t (sys_bpf y))) <= am_cap)%nat ->
  sys_inv (mkSys (run_trace t (sys_bpf y)) (sys_exported y)
             (sys_ledger y ++ ledger t (sys_bpf y)) (sys_lost y)).
Proof.
  intros [Hw Hd Ht] Htr Hsz. rewrite ledger_keys_app in Hsz. split; cbn [sys_bpf sys_ledger sys_exported sys_lost].
  - by apply run_trace_wf.
  - rewrite ledger_keys_app. etrans; [|apply union_mono_r, Hd].
    apply (dom_run_trace am_map am_key am_cap am_zero am_step am_first am_outputs am_emit).
  - intros k. rewrite ledger_sum_app.
    assert (E : u64 (pc_total am_count (am_map (run_trace t (sys_bpf y))) k)
              = u64 (pc_total am_count (am_map (sys_bpf y)) k
                     + ledger_sum am_key am_weight k (ledger t (sys_bpf y)))).
    { apply (refine_from am_map am_key am_cap am_zero am_step am_first am_Pk am_Pv am_outputs
        am_emit am_wf); auto using am_count_zero, am_count_step, am_count_first.
      etrans; [apply subseteq_size, union_mono_r, Hd|done]. }
    rewrite <- (wrap_add_cong _ _ _ _ _ (Ht k) eq_refl), (Z.add_comm (exported _ _)), <- Z.add_assoc.
    rewrite (wrap_add_cong _ _ _ _ _ E eq_refl). f_equal. lia.
Qed.

(** Deleting a key that was exported at the lookup moves its old total to the
    exports and what was added since to the losses. *)
Lemma sys_inv_drain k mid y :
  sys_inv y -> trace_wf mid ->
  (size (ledger_keys am_key (sys_ledger y ++ ledger mid (sys_bpf y))) <= am_cap)%nat ->
  sys_inv (drain_key k mid y).
Proof.
  intros Hy Hmid Hsz. pose proof (sys_inv_run mid y Hy Hmid Hsz) as Hy'. unfold drain_key.
  destruct (am_map (sys_bpf y) !! k) as [per_cpu|] eqn:Ek; [|done].
  destruct Hy as [_ _ Ht], Hy' as [Hw' Hd' Ht'].
  cbn [sys_bpf sys_ledger sys_exported sys_lost] in *.
  split; cbn [sys_bpf sys_ledger sys_exported sys_lost].
  - by apply am_delete_wf.
  - rewrite am_map_delete, dom_delete_L. etrans; [apply subseteq_difference_l; done|done].
  - intros j. rewrite am_map_delete, pc_total_delete, ledger_sum_app, ledger_sum_filter.
    assert (Hexp : u64 (exported j (if am_process per_cpu =? 0 then sys_exported y
        else sys_exported y ++ [(k, am_process per_cpu)]))
      = u64 (exported j (sys_exported y)
             + if decide (k = j) then pc_total am_count (am_map (sys_bpf y)) j else 0)).
    { assert (Hp : k = j -> u64 (am_process per_cpu) = u64 (pc_total am_count (am_map (sys_bpf y)) j)).
      { intros <-. unfold pc_total. rewrite Ek, am_process_sum. simpl. by wrap_simpl. }
      destruct (Z.eqb_spec (am_process per_cpu) 0) as [E0|].
      - case_decide; [|by rewrite Z.add_0_r]. rewrite <- (Z.add_0_r (exported j _)) at 1.
        apply wrap_add_cong; [done|]. by rewrite <- Hp, E0.
      - rewrite exported_app. unfold exported at 2. rewrite filter_cons, filter_nil. simpl.
        case_decide; simpl; [|done].
        apply wrap_add_cong; [done|]. rewrite Z.add_0_r. by apply Hp. }
    rewrite <- !Z.add_assoc, (wrap_add_cong _ _ _ _ _ Hexp eq_refl). case_decide as Hkj.
    + subst j. rewrite ledger_sum_app, <- (wrap_add_cong _ _ _ _ _ (Ht k) eq_refl). f_equal. lia.
    + rewrite <- Ht'. f_equal. lia.
Qed.

Lemma sys_step_ledger y i : exists L, sys_ledger (sys_step y i) = sys_ledger y ++ L.
Proof.
  destruct i as [p e|k mid]; simpl; [by eexists|]. unfold drain_key. case_match; by eexists.
Qed.

Lemma sys_run_inv items s0 :
  am_map s0 = ∅ -> state_wf s0 -> Forall item_wf items ->
  (size (ledger_keys am_key (sys_ledger (sys_run items s0))) <= am_cap)%nat ->
  sys_inv (sys_run items s0).
Proof.
  intros HM Hs0. induction items as [|i items IH] using rev_ind; intros Hwf Hsz.
  { split; cbn; [done|by rewrite HM, dom_empty_L|]. intros k. rewrite HM. unfold pc_total.
    by rewrite lookup_empty. }
  apply Forall_app in Hwf as [Hwf Hi]. apply Forall_cons in Hi as [Hi _].
  unfold sys_run in *. rewrite foldl_app in *. cbn [foldl] in *.
  set (y := foldl sys_step _ items) in *.
  assert (Hy : sys_inv y).
  { apply IH; [done|]. etrans; [|exact Hsz]. destruct (sys_step_ledger y i) as [L ->].
    apply subseteq_size. rewrite ledger_keys_app. apply union_subseteq_l. }
  destruct i as [p e|k mid]; simpl in Hi, Hsz |- *.
  - pose proof (sys_inv_run [(p, e)] y Hy Hi) as Hr. simpl in Hr. rewrite app_nil_r in Hr.
    by apply Hr.
  - apply sys_inv_drain; [done|done|].
    revert Hsz. unfold drain_key. by case_match.
Qed.

(** no call is unaccounted for.  Take any interleaving of program runs with
    drains, where programs also run between the lookup and the delete of a
    key.  For every key, the exported call counts, the counts still in the map
    and the calls that completed between a lookup and the following delete of
    the key add up to the completed calls, modulo 2^64.  The only loss is in
    that window. *)
Theorem drain_accounts_for_every_call items s0 k :
  am_map s0 = ∅ -> state_wf s0 -> Forall item_wf items ->
  (size (ledger_keys am_key (sys_ledger (sys_run items s0))) <= am_cap)%nat ->
  let y := sys_run items s0 in
  u64 (exported k (sys_exported y) + pc_total am_count (am_map (sys_bpf y)) k
       + ledger_sum am_key am_weight k (sys_lost y))
  = u64 (ledger_sum am_key am_weight k (sys_ledger y)).
Proof. intros HM Hs Hwf Hsz y. by apply sys_run_inv. Qed.
End System.
Arguments sys_item K : clear implicits.

(** ** The three maps implement the interface *)

Section Instances.
Context `{LoadCfg}.

Lemma percpu_ok_delete {K V} `{Countable K} cap (Pk : K -> Prop) (Pv : V -> Prop) m k :
  percpu_ok cap Pk Pv m -> percpu_ok cap Pk Pv (delete k m).
Proof.
  intros [Hk Hs Hsz]. split; [by apply map_Forall_delete..|].
  etrans; [|exact Hsz]. apply map_subseteq_size, delete_subseteq.
Qed.

Lemma delete_AGGREGATED_wf k s : state_wf s -> state_wf (upd_AGGREGATED (delete k) s).
Proof. intros []; split; try assumption. by apply percpu_ok_delete. Qed.

Lemma delete_NCCL_AGG_wf k s : state_wf s -> state_wf (upd_NCCL_AGG (delete k) s).
Proof. intros []; split; try assumption. by apply percpu_ok_delete. Qed.

Lemma delete_LAUNCH_AGG_wf k s : state_wf s -> state_wf (upd_LAUNCH_AGG (delete k) s).
Proof. intros []; split; try assumption. by apply percpu_ok_delete. Qed.

Lemma agg_count_step c v : agg_wf v -> u64 (av_count (agg_step c v)) = u64 (av_count v + cp_weight c).
Proof. intros _. simpl. by wrap_simpl. Qed.

Lemma agg_totals_count slots : at_count (agg_totals slots) = u64 (sumZ (av_count <$> slots)).
Proof. by apply (foldl_sum 64 at_count). Qed.

#[export] Instance AGGREGATED_map : AggMap AggKey AggValue := {|
  am_map := AGGREGATED; am_delete := fun k => upd_AGGREGATED (delete k); am_key := cp_agg_key;
  am_weight := cp_weight; am_count := av_count; am_process := fun l => at_count (agg_totals l);
  am_cap := aggregated_max_entries; am_zero := zero_AggValue; am_step := agg_step;
  am_first := agg_first; am_Pk := agg_key_ok; am_Pv := agg_wf; am_outputs := AGGREGATED_outputs;
  am_emit := emit_exit_AGGREGATED; am_wf := wf_agg; am_delete_wf := delete_AGGREGATED_wf;
  am_count_zero := eq_refl; am_count_step := agg_count_step; am_count_first := fun _ => eq_refl;
  am_process_sum := agg_totals_count; am_map_delete := fun _ _ => eq_refl |}.

Lemma nccl_count_step c v : nccl_wf v -> u64 (nv_count (nccl_step c v)) = u64 (nv_count v + 1).
Proof. intros _. simpl. by wrap_simpl. Qed.

Lemma nccl_totals_count slots : at_count (nccl_totals slots) = u64 (sumZ (nv_count <$> slots)).
Proof. by apply (foldl_sum 64 at_count). Qed.

#[export] Instance NCCL_AGG_map : AggMap AggKey NcclAggValue := {|
  am_map := NCCL_AGG; am_delete := fun k => upd_NCCL_AGG (delete k); am_key := cp_nccl_key;
  am_weight := fun _ => 1; am_count := nv_count; am_process := fun l => at_count (nccl_totals l);
  am_cap := nccl_agg_max_entries; am_zero := zero_NcclAggValue; am_step := nccl_step;
  am_first := nccl_first; am_Pk := nccl_key_ok; am_Pv := nccl_wf; am_outputs := NCCL_AGG_outputs;
  am_emit := emit_exit_NCCL_AGG; am_wf := wf_nccl; am_delete_wf := delete_NCCL_AGG_wf;
  am_count_zero := eq_refl; am_count_step := nccl_count_step; am_count_first := fun _ => eq_refl;
  am_process_sum := nccl_totals_count; am_map_delete := fun _ _ => eq_refl |}.

Lemma launch_count_step c v : launch_wf v -> u64 (lv_count (launch_step c v)) = u64 (lv_count v + 1).
Proof. intros _. simpl. by wrap_simpl. Qed.

Lemma launch_totals_count slots : lt_count (launch_totals slots) = u64 (sumZ (lv_count <$> slots)).
Proof. by apply (foldl_sum 64 lt_count). Qed.

#[export] Instance LAUNCH_AGG_map : AggMap LaunchKey LaunchAggValue := {|
  am_map := LAUNCH_AGG; am_delete := fun k => upd_LAUNCH_AGG (delete k); am_key := cp_launch_key;
  am_weight := fun _ => 1; am_count := lv_count; am_process := fun l => lt_count (launch_totals l);
  am_cap := launch_agg_max_entries; am_zero := zero_LaunchAggValue; am_step := launch_step;
  am_first := launch_first; am_Pk := launch_key_ok; am_Pv := launch_wf;
  am_outputs := LAUNCH_AGG_outputs; am_emit := emit_exit_LAUNCH_AGG; am_wf := wf_launch;
  am_delete_wf := delete_LAUNCH_AGG_wf;
  am_count_zero := eq_refl; am_count_step := launch_count_step; am_count_first := fun _ => eq_refl;
  am_process_sum := launch_totals_count; am_map_delete := fun _ _ => eq_refl |}.
End Instances.

(** ** Witnesses *)

Section Witnesses.
#[local] Existing Instance demo_cfg.

Definition demo_copy (tid time : Z) (cpu : nat) : trace :=
  [(P_cuda_memcpy 0 0 100 1, demo_env tid time cpu 0);
   (P_cuda_memcpy_ret, demo_env tid (time + 500) cpu 0)].

Definition demo_copy_key : AggKey := mkAggKey EVENT_CUDA_MEMCPY 7 1 0 0.

(** Two copies, a drain during which a third copy completes, a fourth copy. *)
Definition demo_drain : list (sys_item AggKey) :=
  ((fun pe => S_run pe.1 pe.2) <$> demo_copy 1 1000 0 ++ demo_copy 2 2000 1) ++
  [S_drain demo_copy_key (demo_copy 1 3000 0)] ++
  ((fun pe => S_run pe.1 pe.2) <$> demo_copy 1 4000 0).

Lemma drain_accounts_for_every_call_witness :
  let y := sys_run (V := AggValue) demo_drain init_state in
  u64 (exported demo_copy_key (sys_exported y)
       + pc_total am_count (am_map (V := AggValue) (sys_bpf y)) demo_copy_key
       + ledger_sum (am_key (V := AggValue)) (am_weight (V := AggValue)) demo_copy_key
           (sys_lost y))
  = u64 (ledger_sum (am_key (V := AggValue)) (am_weight (V := AggValue)) demo_copy_key
           (sys_ledger y)) /\
  exported demo_copy_key (sys_exported y) = 2 /\ length (sys_lost y) = 1%nat /\
  length (sys_ledger y) = 4%nat.
Proof.
  split; [|split_and!; vm_compute; reflexivity].
  apply drain_accounts_for_every_call.
  - reflexivity.
  - apply init_state_wf.
  - repeat (apply Forall_cons_2; [demo_trace_wf|]). apply Forall_nil_2.
  - apply (bool_decide_unpack _). vm_compute. exact I.
Defined.
End Witnesses.
