(* ===== verification/Export.v ===== *)
(** * The exported duration histograms: src/src/main.rs, src/src/metrics.rs

    Userspace turns the per-bucket counts of a drained key into cumulative
    Prometheus counters, one per upper bound ([inc_cumulative_bucket_counters]),
    labelled by the bound in seconds.  The theorems relate the labels to the
    bounds the BPF programs use, and the counters to the durations of the
    completed calls. *)

From stdpp Require Import strings.
From S2P Require Import Prelude Events Runtime Probes Step Demo Invariant PerCpu Ledger Drain.

Local Open Scope Z_scope.

(** ** Labels *)

Definition CUDA_DURATION_BUCKET_LE : list string :=
  ["0.000001"; "0.000005"; "0.00001"; "0.00005"; "0.0001"; "0.0005"; "0.001"; "0.005"; "0.01";
   "0.05"; "0.1"; "0.5"; "1"; "+Inf"].

Definition NCCL_DURATION_BUCKET_LE : list string :=
  ["0.00001"; "0.00005"; "0.0001"; "0.0005"; "0.001"; "0.005"; "0.01"; "0.05"; "0.1"; "0.5"; "1";
   "+Inf"].

Definition CUDA_KERNEL_DURATION_BUCKET_LE : list string :=
  ["0.000001"; "0.000005"; "0.00001"; "0.00005"; "0.0001"; "0.0005"; "0.001"; "0.01"; "+Inf"].

(** The nanoseconds a label in seconds denotes: a decimal numeral with at most
    nine digits after the point, whose character code is 46.  [places] counts the digits left to scale by
    once the point is passed. *)
Fixpoint decimal_ns (s : string) (places : option nat) (acc : Z) : option Z :=
  match s with
  | EmptyString => Some (acc * 10 ^ Z.of_nat (default 9%nat places))
  | String c s' =>
      let d := Z.of_nat (Ascii.nat_of_ascii c) - 48 in
      if d =? 46 - 48 then
        match places with None => decimal_ns s' (Some 9%nat) acc | Some _ => None end
      else if (0 <=? d) && (d <=? 9) then
        match places with
        | None => decimal_ns s' None (10 * acc + d)
        | Some (S n) => decimal_ns s' (Some n) (10 * acc + d)
        | Some O => None
        end
      else None
  end.

Definition le_ns (s : string) : option Z := decimal_ns s None 0.

(** The labels are the bounds.  Read as seconds, the label tables of
    metrics.rs are the bucket bounds of profi_events.h in order, each followed
    by +Inf, so the two sides agree on what every bucket means. *)
Lemma bucket_labels_are_bounds :
  le_ns <$> CUDA_DURATION_BUCKET_LE = (Some <$> CUDA_BUCKET_BOUNDS_NS) ++ [None] /\
  le_ns <$> NCCL_DURATION_BUCKET_LE = (Some <$> NCCL_BUCKET_BOUNDS_NS) ++ [None] /\
  le_ns <$> CUDA_KERNEL_DURATION_BUCKET_LE = (Some <$> KERNEL_BUCKET_BOUNDS_NS) ++ [None].
Proof. split_and!; vm_compute; reflexivity. Qed.

(** ** Cumulative counters *)

(** The counters of one label set, by upper bound; an untouched counter is 0. *)
Fixpoint inc_cumulative (cumulative : Z) (le_values : list string) (bucket_counts : list Z)
    (m : gmap string Z) : gmap string Z :=
  match le_values, bucket_counts with
  | le :: les, count :: counts =>
      let cumulative := u64 (cumulative + count) in
      let m := if cumulative =? 0 then m else <[le := default 0 (m !! le) + cumulative]> m in
      inc_cumulative cumulative les counts m
  | _, _ => m
  end.

Definition inc_cumulative_bucket_counters (le_values : list string) (bucket_counts : list Z)
    (m : gmap string Z) : gmap string Z := inc_cumulative 0 le_values bucket_counts m.

Lemma inc_cumulative_other cum les counts m le :
  le ∉ les -> inc_cumulative cum les counts m !! le = m !! le.
Proof.
  revert cum counts m. induction les as [|l les IH]; intros cum counts m; [done|].
  rewrite not_elem_of_cons. intros [Hne Hni]. destruct counts as [|c counts]; [done|]. simpl.
  rewrite IH by done. case_match; [done|]. by rewrite lookup_insert_ne.
Qed.

Lemma inc_cumulative_lookup cum les counts m (i : nat) le :
  NoDup les -> les !! i = Some le -> (i < length counts)%nat ->
  0 <= cum -> Forall (fun c => 0 <= c) counts -> cum + sumZ counts < 2 ^ 64 ->
  default 0 (inc_cumulative cum les counts m !! le)
  = default 0 (m !! le) + (cum + sumZ (take (S i) counts)).
Proof.
  intros Hnd. revert cum counts m i. induction Hnd as [|l les Hl Hnd IH]; intros cum counts m i; [done|].
  destruct counts as [|c counts]; [simpl; lia|]. intros Hi Hlen Hcum Hc Hlt.
  apply Forall_cons in Hc as [Hc0 Hc]. pose proof (sumZ_nonneg counts Hc) as Hs. simpl in Hlt.
  cbn [inc_cumulative]. rewrite wrap_small by (unfold fits; lia).
  destruct i as [|i].
  - injection Hi as ->. rewrite inc_cumulative_other by done.
    change (take 1 (c :: counts)) with [c]. cbn [sumZ]. destruct (Z.eqb_spec (cum + c) 0); [lia|].
    rewrite lookup_insert_eq. simpl. lia.
  - simpl in Hi, Hlen. rewrite (IH (cum + c) counts _ i) by (done || lia).
    assert (l <> le) by (intros <-; by apply Hl, list_elem_of_lookup_2 with i).
    change (take (S (S i)) (c :: counts)) with (c :: take (S i) counts). cbn [sumZ].
    case_match; [lia|]. rewrite lookup_insert_ne by done. lia.
Qed.

(** ** Sums of buckets *)

Lemma add_buckets_fold {A T} (get : T -> list Z) (f : T -> A -> T) (cnt : A -> list Z) n t0 l i :
  (forall t a, get (f t a) = add_buckets (get t) (cnt a)) -> get t0 = replicate n 0 ->
  Forall (fun a => length (cnt a) = n) l -> (i < n)%nat ->
  length (get (foldl f t0 l)) = n /\
  get (foldl f t0 l) !! i = Some (u64 (sumZ ((fun a => arr (cnt a) i) <$> l))).
Proof.
  intros Hf H0 Hl Hi. induction l as [|a l IH] using rev_ind.
  { simpl. rewrite H0, length_replicate. split; [done|]. by apply lookup_replicate_2. }
  apply Forall_app in Hl as [Hl Ha]. apply Forall_cons in Ha as [Ha _].
  destruct (IH Hl) as [IH1 IH2]. rewrite foldl_app. simpl. rewrite Hf. unfold add_buckets.
  split; [rewrite length_zip_with; lia|].
  destruct (lookup_lt_is_Some_2 (cnt a) i) as [c Hc]; [lia|].
  rewrite lookup_zip_with, IH2, Hc. simpl. f_equal.
  rewrite fmap_app, sumZ_app. csimpl.
  assert (Hac : arr (cnt a) i = c) by (unfold arr; by rewrite Hc). rewrite Hac.
  wrap_simpl. f_equal. lia.
Qed.

(** The weight of the calls with durations up to bound [i]; of all calls for
    the +Inf bucket. *)
Definition le_weight (bounds : list Z) (w : Completed -> Z) (i : nat) (c : Completed) : Z :=
  match bounds !! i with
  | Some b => if cp_duration c <=? b then w c else 0
  | None => w c
  end.

Lemma sorted_lookup_lt l (i j : nat) a b :
  StronglySorted Z.lt l -> (i < j)%nat -> l !! i = Some a -> l !! j = Some b -> a < b.
Proof.
  intros Hs. revert i j. induction Hs as [|x l Hs IH Hx]; intros i j Hij Hi Hj; [done|].
  destruct j as [|j]; [lia|]. destruct i as [|i]; simplify_eq/=.
  - by apply (Forall_lookup_1 _ _ _ _ Hx Hj).
  - apply (IH i j); [lia|done..].
Qed.

Lemma bucket_ref_le_iff bounds d (i : nat) b :
  StronglySorted Z.lt bounds -> bounds !! i = Some b -> (bucket_ref bounds d <= i)%nat <-> d <= b.
Proof.
  intros Hs Hb. split.
  - intros Hle. destruct (lookup_lt_is_Some_2 bounds (bucket_ref bounds d)) as [c Hc].
    { apply lookup_lt_Some in Hb. lia. }
    pose proof (bucket_ref_at _ _ _ Hc). destruct (decide (bucket_ref bounds d = i)) as [E|].
    { rewrite E in Hc. congruence. }
    assert (c < b) by (apply (sorted_lookup_lt bounds (bucket_ref bounds d) i); [done|lia|done..]). lia.
  - intros Hd. destruct (decide (bucket_ref bounds d <= i)%nat); [done|].
    assert (b < d) by (apply (bucket_ref_above bounds d i); [lia|done]). lia.
Qed.

Lemma bucket_weight_le_weight bounds w i c :
  StronglySorted Z.lt bounds -> (i <= length bounds)%nat ->
  le_weight bounds w i c = if bool_decide (bucket_ref bounds (cp_duration c) < S i)%nat then w c else 0.
Proof.
  intros Hs Hi. unfold le_weight. destruct (bounds !! i) as [b|] eqn:Hb.
  - pose proof (bucket_ref_le_iff bounds (cp_duration c) i b Hs Hb) as Hiff.
    case_Zb; [rewrite bool_decide_true by lia|rewrite bool_decide_false by lia]; done.
  - pose proof (bucket_ref_le bounds (cp_duration c)). apply lookup_ge_None in Hb.
    by rewrite bool_decide_true by lia.
Qed.

Section Sums.
Context {K : Type} `{Countable K} (ck : Completed -> option K).

Lemma ledger_sum_ext g g' k L :
  (forall c, g c = g' c) -> ledger_sum ck g k L = ledger_sum ck g' k L.
Proof. intros Hg. unfold ledger_sum. f_equal. by apply list_fmap_ext. Qed.

Lemma ledger_sum_plus g g' k L :
  ledger_sum ck g k L + ledger_sum ck g' k L = ledger_sum ck (fun c => g c + g' c) k L.
Proof.
  unfold ledger_sum. induction (filter _ L) as [|c l IH]; csimpl; [done|]. lia.
Qed.

Lemma ledger_sum_nonneg g k L : (forall c, 0 <= g c) -> 0 <= ledger_sum ck g k L.
Proof. intros Hg. apply sumZ_nonneg, Forall_fmap, Forall_true. intros c. apply Hg. Qed.

Lemma ledger_sum_le g g' k L :
  (forall c, g c <= g' c) -> ledger_sum ck g k L <= ledger_sum ck g' k L.
Proof.
  intros Hg. unfold ledger_sum. induction (filter _ L) as [|c l IH]; csimpl; [done|].
  specialize (Hg c). lia.
Qed.

Lemma ledger_sum_count k L : ledger_sum ck (fun _ => 1) k L <= Z.of_nat (length L).
Proof.
  unfold ledger_sum. induction L as [|c L IH]; [done|]. rewrite filter_cons.
  case_decide; csimpl; lia.
Qed.

(** The first [m] buckets together hold the calls below bucket [m]. *)
Lemma sum_buckets bounds w k L m :
  sumZ ((fun j => ledger_sum ck (cp_bucket_weight bounds w j) k L) <$> seq 0 m)
  = ledger_sum ck (fun c => if bool_decide (bucket_ref bounds (cp_duration c) < m)%nat
                            then w c else 0) k L.
Proof.
  induction m as [|m IH].
  { rewrite (ledger_sum_ext _ (fun _ => 0)) by (intros c; by rewrite bool_decide_false by lia).
    unfold ledger_sum. induction (filter _ L) as [|c l IHl]; csimpl; [done|]. by rewrite <- IHl. }
  rewrite seq_S, fmap_app, sumZ_app, IH. csimpl. rewrite Z.add_0_r, ledger_sum_plus.
  apply ledger_sum_ext. intros c. unfold cp_bucket_weight. simpl.
  repeat case_bool_decide; lia.
Qed.
End Sums.

(** ** The export of one map *)

Section Exported.
Context `{LoadCfg} {K V : Type} `{Countable K}.
Variables (M : BpfState -> gmap K (list V)) (ck : Completed -> option K).
Variables (cap : nat) (zero : V) (upd : Completed -> V -> V) (new : Completed -> V).
Variables (Pk : K -> Prop) (Pv : V -> Prop).
Hypothesis M_outputs : forall s s', outputs s' = outputs s -> M s' = M s.
Hypothesis M_emit : forall e s c, completed_at e s = Some c ->
  M (emit_exit e s) = acc_at cap zero (env_cpu e) (ck c) (upd c) (new c) (M s).
Hypothesis M_wf : forall s, state_wf s -> percpu_ok cap Pk Pv (M s).
Variables (bounds : list Z) (w : Completed -> Z) (bucket : nat -> V -> Z).
Variables (totals : list V -> list Z) (les : list string).
Hypothesis bounds_sorted : StronglySorted Z.lt bounds.
Hypothesis les_nodup : NoDup les.
Hypothesis les_length : length les = S (length bounds).
Hypothesis w_nonneg : forall c, 0 <= w c.
Hypothesis bucket_zero : forall i, bucket i zero = 0.
Hypothesis bucket_nonneg : forall i v, Pv v -> 0 <= bucket i v.
Hypothesis bucket_upd : forall i c v, (i < S (length bounds))%nat -> Pv v ->
  u32 (bucket i (upd c v)) = u32 (bucket i v + cp_bucket_weight bounds w i c) /\
  bucket i (upd c v) <= bucket i v + cp_bucket_weight bounds w i c.
Hypothesis bucket_new : forall i c, (i < S (length bounds))%nat ->
  u32 (bucket i (new c)) = u32 (cp_bucket_weight bounds w i c) /\
  bucket i (new c) <= cp_bucket_weight bounds w i c.
Hypothesis totals_bucket : forall slots i, Forall Pv slots -> (i < S (length bounds))%nat ->
  length (totals slots) = S (length bounds) /\
  totals slots !! i = Some (u64 (sumZ (bucket i <$> slots))).

Lemma bucket_weight_bounds i c : 0 <= cp_bucket_weight bounds w i c <= w c.
Proof. unfold cp_bucket_weight. specialize (w_nonneg c). case_bool_decide; lia. Qed.

(** The drained bucket totals are the bucket weights of the ledger. *)
Lemma drained_buckets s0 t k :
  M s0 = ∅ -> state_wf s0 -> trace_wf t ->
  (size (ledger_keys ck (ledger t s0)) <= cap)%nat ->
  ledger_sum ck w k (ledger t s0) < 2 ^ 32 ->
  totals (default [] (M (run_trace t s0) !! k))
  = (fun i => ledger_sum ck (cp_bucket_weight bounds w i) k (ledger t s0)) <$> seq 0 (S (length bounds)).
Proof.
  intros HM Hs0 Ht Hsz Hlt. set (slots := default [] _).
  assert (Hslots : Forall Pv slots).
  { unfold slots. destruct (M (run_trace t s0) !! k) as [sl|] eqn:E; simpl; [|apply Forall_nil_2].
    destruct (M_wf (run_trace t s0)) as [_ Hsl _]; [by apply run_trace_wf|]. by apply (Hsl k). }
  destruct (totals_bucket slots 0 Hslots) as [Hlen _]; [lia|].
  apply list_eq. intros i. destruct (decide (i < S (length bounds))%nat) as [Hi|Hi].
  - destruct (totals_bucket slots i Hslots Hi) as [_ ->].
    rewrite list_lookup_fmap, lookup_seq_lt by done. simpl. f_equal.
    assert (Hb : ledger_sum ck (cp_bucket_weight bounds w i) k (ledger t s0) < 2 ^ 32).
    { eapply Z.le_lt_trans; [|exact Hlt]. apply ledger_sum_le. intros c. apply bucket_weight_bounds. }
    change (sumZ (bucket i <$> slots)) with (pc_total (bucket i) (M (run_trace t s0)) k).
    rewrite (refine_exact M ck cap zero upd new Pk Pv M_outputs M_emit M_wf 32 (bucket i)
      (cp_bucket_weight bounds w i)); auto.
    + apply wrap_small. split; [|lia]. apply ledger_sum_nonneg. intros c. apply bucket_weight_bounds.
    + intros c. apply bucket_weight_bounds.
  - rewrite !lookup_ge_None_2; [done|rewrite length_fmap, length_seq; lia|lia].
Qed.

(** The counters after the export of one key. *)
Lemma exported_counters s0 t k m i le :
  M s0 = ∅ -> state_wf s0 -> trace_wf t ->
  (size (ledger_keys ck (ledger t s0)) <= cap)%nat ->
  ledger_sum ck w k (ledger t s0) < 2 ^ 32 ->
  les !! i = Some le ->
  default 0 (inc_cumulative_bucket_counters les
    (totals (default [] (M (run_trace t s0) !! k))) m !! le)
  = default 0 (m !! le) + ledger_sum ck (le_weight bounds w i) k (ledger t s0).
Proof.
  intros HM Hs0 Ht Hsz Hlt Hle. apply lookup_lt_Some in Hle as Hi. rewrite les_length in Hi.
  rewrite (drained_buckets s0 t k) by done. unfold inc_cumulative_bucket_counters.
  rewrite (inc_cumulative_lookup 0 les _ m i le); [|done|done| | | |].
  - rewrite Z.add_0_l, <- fmap_take, take_seq, Nat.min_l by lia. rewrite sum_buckets.
    f_equal. apply ledger_sum_ext. intros c. symmetry. apply bucket_weight_le_weight; [done|lia].
  - by rewrite length_fmap, length_seq.
  - done.
  - apply Forall_fmap, Forall_true. intros j. apply ledger_sum_nonneg. intros c.
    apply bucket_weight_bounds.
  - rewrite Z.add_0_l, sum_buckets. eapply Z.le_lt_trans; [|etrans; [exact Hlt|done]].
    apply ledger_sum_le. intros c. specialize (w_nonneg c). case_bool_decide; lia.
Qed.
End Exported.

(** ** The three maps *)

Lemma hist_bucket_step_le bounds w c n l inc i :
  n = S (length bounds) -> length l = n -> (i < n)%nat -> 0 <= inc <= w c ->
  Forall (fits 32) l ->
  arr (bump_bucket (Z.of_nat n) (Z.of_nat (bucket_ref bounds (cp_duration c))) inc l) i
  <= arr l i + cp_bucket_weight bounds w i c.
Proof.
  intros Hn Hl Hi Hinc HF. pose proof (bucket_ref_le bounds (cp_duration c)).
  rewrite bump_bucket_in by (done || lia). unfold arr, cp_bucket_weight.
  rewrite Nat2Z.id, list_lookup_alter.
  destruct (lookup_lt_is_Some_2 l i) as [x Hx]; [lia|]. rewrite Hx.
  pose proof (Forall_lookup_1 _ _ _ _ HF Hx) as [Hx0 _]. case_decide as Hd; simpl.
  - rewrite bool_decide_true, Hd, Hx by done. simpl. etrans; [apply Z.mod_le; lia|lia].
  - rewrite bool_decide_false by done. lia.
Qed.

Lemma arr_nonneg l i : Forall (fits 32) l -> 0 <= arr l i.
Proof.
  intros HF. unfold arr. destruct (l !! i) as [x|] eqn:E; [|done].
  apply (Forall_lookup_1 _ _ _ _ HF E).
Qed.

(** One step of a histogram, in both senses. *)
Lemma hist_step bounds w c n l count inc i :
  n = S (length bounds) -> hist_wf n count l -> (i < n)%nat -> inc = u32 (w c) -> 0 <= w c ->
  u32 (arr (bump_bucket (Z.of_nat n) (Z.of_nat (bucket_ref bounds (cp_duration c))) inc l) i)
    = u32 (arr l i + cp_bucket_weight bounds w i c) /\
  arr (bump_bucket (Z.of_nat n) (Z.of_nat (bucket_ref bounds (cp_duration c))) inc l) i
    <= arr l i + cp_bucket_weight bounds w i c.
Proof.
  intros Hn [_ Hl HF _] Hi -> Hw. split.
  - apply hist_bucket_step; [done..|by wrap_simpl].
  - apply hist_bucket_step_le; [done..| |done].
    split; [by apply wrap_fits|]. apply Z.mod_le; lia.
Qed.

Lemma cp_weight_pos c : 1 <= cp_weight c.
Proof. unfold cp_weight. Zb_cases. Qed.

Lemma hist_first bounds w c n inc i :
  n = S (length bounds) -> (i < n)%nat -> inc = u32 (w c) -> 0 <= w c ->
  let l := bump_bucket (Z.of_nat n) (Z.of_nat (bucket_ref bounds (cp_duration c))) inc
             (replicate n 0) in
  u32 (arr l i) = u32 (cp_bucket_weight bounds w i c) /\ arr l i <= cp_bucket_weight bounds w i c.
Proof.
  intros Hn Hi Hinc Hw l.
  pose proof (hist_step bounds w c n (replicate n 0) 0 inc i Hn (hist_wf_zero n) Hi Hinc Hw) as Hst.
  by rewrite arr_zeros, Z.add_0_l in Hst.
Qed.

Lemma le_nodup :
  NoDup CUDA_DURATION_BUCKET_LE /\ NoDup NCCL_DURATION_BUCKET_LE /\
  NoDup CUDA_KERNEL_DURATION_BUCKET_LE.
Proof. split_and!; apply (bool_decide_unpack _); vm_compute; exact I. Qed.

Lemma bounds_sorted_all :
  StronglySorted Z.lt CUDA_BUCKET_BOUNDS_NS /\ StronglySorted Z.lt NCCL_BUCKET_BOUNDS_NS /\
  StronglySorted Z.lt KERNEL_BUCKET_BOUNDS_NS.
Proof.
  split_and!; repeat (constructor; [|repeat (apply Forall_cons_2; [done|]); apply Forall_nil_2]);
    constructor.
Qed.

Section Theorems.
Context `{LoadCfg}.

(** C5: the exported CUDA histogram is the histogram of the calls.  From fresh
    maps, run any well-formed trace whose completed calls have no more distinct keys
    than AGGREGATED has entries, and drain a key whose completed calls weigh less
    than 2^32 together.  The call counter grows by exactly the weighted number of
    completed calls of the key, and the counter labelled with a bound by exactly
    the weighted number of those that took no longer than the bound (all of
    them for +Inf). *)
Theorem exported_aggregated_histogram s0 t k m i le :
  fresh s0 -> trace_wf t ->
  (size (ledger_keys cp_agg_key (ledger t s0)) <= aggregated_max_entries)%nat ->
  ledger_sum cp_agg_key cp_weight k (ledger t s0) < 2 ^ 32 ->
  CUDA_DURATION_BUCKET_LE !! i = Some le ->
  let totals := agg_totals (default [] (AGGREGATED (run_trace t s0) !! k)) in
  at_count totals = ledger_sum cp_agg_key cp_weight k (ledger t s0) /\
  default 0 (inc_cumulative_bucket_counters CUDA_DURATION_BUCKET_LE (at_buckets totals) m !! le)
  = default 0 (m !! le)
    + ledger_sum cp_agg_key (le_weight CUDA_BUCKET_BOUNDS_NS cp_weight i) k (ledger t s0).
Proof.
  intros Hf Ht Hsz Hlt Hle totals. split.
  - unfold totals. rewrite agg_totals_count.
    pose proof (refine_total AGGREGATED cp_agg_key aggregated_max_entries zero_AggValue
      agg_step agg_first agg_key_ok agg_wf AGGREGATED_outputs emit_exit_AGGREGATED wf_agg 64
      av_count cp_weight t s0 k (fr_agg s0 Hf) eq_refl agg_count_step (fun _ => eq_refl) Ht
      (fr_wf s0 Hf) Hsz) as Hc.
    etrans; [exact Hc|]. apply wrap_small. split; [|etrans; [exact Hlt|done]].
    apply ledger_sum_nonneg. intros c. pose proof (cp_weight_pos c). lia.
  - apply (exported_counters AGGREGATED cp_agg_key aggregated_max_entries zero_AggValue
      agg_step agg_first agg_key_ok agg_wf AGGREGATED_outputs emit_exit_AGGREGATED wf_agg
      CUDA_BUCKET_BOUNDS_NS cp_weight agg_bucket (fun l => at_buckets (agg_totals l)));
      try (apply Hf); try done.
    + apply bounds_sorted_all.
    + apply le_nodup.
    + intros c. pose proof (cp_weight_pos c). lia.
    + intros j. apply arr_zeros.
    + intros j v [[] _]. by apply arr_nonneg.
    + intros j c v Hj [Hh _]. unfold agg_bucket. simpl. rewrite cuda_bucket_idx_ref.
      apply (hist_step CUDA_BUCKET_BOUNDS_NS cp_weight _ 14 _ _ _ _ eq_refl Hh Hj eq_refl). pose proof (cp_weight_pos c). lia.
    + intros j c Hj. unfold agg_bucket. simpl. rewrite cuda_bucket_idx_ref.
      apply (hist_first CUDA_BUCKET_BOUNDS_NS cp_weight _ 14 _ _ eq_refl Hj eq_refl). pose proof (cp_weight_pos c). lia.
    + intros slots j Hs Hj. apply (add_buckets_fold at_buckets _ av_bucket_counts 14); try done.
      eapply Forall_impl; [exact Hs|]. by intros v [[] _].
Qed.

(** the exported NCCL and kernel-launch histograms are the histograms of the
    collectives and launches, in the same sense. *)
Theorem exported_nccl_launch_histograms s0 t m :
  fresh s0 -> trace_wf t ->
  (size (ledger_keys cp_nccl_key (ledger t s0)) <= nccl_agg_max_entries)%nat ->
  (size (ledger_keys cp_launch_key (ledger t s0)) <= launch_agg_max_entries)%nat ->
  Z.of_nat (length (ledger t s0)) < 2 ^ 32 ->
  (forall k i le, NCCL_DURATION_BUCKET_LE !! i = Some le ->
     default 0 (inc_cumulative_bucket_counters NCCL_DURATION_BUCKET_LE
       (at_buckets (nccl_totals (default [] (NCCL_AGG (run_trace t s0) !! k)))) m !! le)
     = default 0 (m !! le)
       + ledger_sum cp_nccl_key (le_weight NCCL_BUCKET_BOUNDS_NS (fun _ => 1) i) k (ledger t s0)) /\
  (forall k i le, CUDA_KERNEL_DURATION_BUCKET_LE !! i = Some le ->
     default 0 (inc_cumulative_bucket_counters CUDA_KERNEL_DURATION_BUCKET_LE
       (lt_buckets (launch_totals (default [] (LAUNCH_AGG (run_trace t s0) !! k)))) m !! le)
     = default 0 (m !! le)
       + ledger_sum cp_launch_key (le_weight KERNEL_BUCKET_BOUNDS_NS (fun _ => 1) i) k
           (ledger t s0)).
Proof.
  intros Hf Ht Hn Hl Hlt. split; intros k i le Hle.
  - apply (exported_counters NCCL_AGG cp_nccl_key nccl_agg_max_entries zero_NcclAggValue
      nccl_step nccl_first nccl_key_ok nccl_wf NCCL_AGG_outputs emit_exit_NCCL_AGG wf_nccl
      NCCL_BUCKET_BOUNDS_NS (fun _ => 1) nccl_bucket (fun l => at_buckets (nccl_totals l)));
      try (apply Hf); try done.
    + apply bounds_sorted_all.
    + apply le_nodup.
    + intros j. apply arr_zeros.
    + intros j v [[] _]. by apply arr_nonneg.
    + intros j c v Hj [Hh _]. unfold nccl_bucket. simpl. rewrite nccl_bucket_idx_ref.
      by apply (hist_step NCCL_BUCKET_BOUNDS_NS (fun _ => 1) _ 12 _ _ _ _ eq_refl Hh Hj eq_refl).
    + intros j c Hj. unfold nccl_bucket. simpl. rewrite nccl_bucket_idx_ref.
      by apply (hist_first NCCL_BUCKET_BOUNDS_NS (fun _ => 1) _ 12 _ _ eq_refl Hj eq_refl).
    + intros slots j Hs Hj. apply (add_buckets_fold at_buckets _ nv_bucket_counts 12); try done.
      eapply Forall_impl; [exact Hs|]. by intros v [[] _].
    + eapply Z.le_lt_trans; [apply ledger_sum_count|done].
  - apply (exported_counters LAUNCH_AGG cp_launch_key launch_agg_max_entries zero_LaunchAggValue
      launch_step launch_first launch_key_ok launch_wf LAUNCH_AGG_outputs emit_exit_LAUNCH_AGG
      wf_launch KERNEL_BUCKET_BOUNDS_NS (fun _ => 1) launch_bucket
      (fun l => lt_buckets (launch_totals l))); try (apply Hf); try done.
    + apply bounds_sorted_all.
    + apply le_nodup.
    + intros j. apply arr_zeros.
    + intros j v [[] _]. by apply arr_nonneg.
    + intros j c v Hj [Hh _]. unfold launch_bucket. simpl. rewrite kernel_bucket_idx_ref.
      by apply (hist_step KERNEL_BUCKET_BOUNDS_NS (fun _ => 1) _ 9 _ _ _ _ eq_refl Hh Hj eq_refl).
    + intros j c Hj. unfold launch_bucket. simpl. rewrite kernel_bucket_idx_ref.
      by apply (hist_first KERNEL_BUCKET_BOUNDS_NS (fun _ => 1) _ 9 _ _ eq_refl Hj eq_refl).
    + intros slots j Hs Hj. apply (add_buckets_fold lt_buckets _ lv_bucket_counts 9); try done.
      eapply Forall_impl; [exact Hs|]. by intros v [[] _].
    + eapply Z.le_lt_trans; [apply ledger_sum_count|done].
Qed.
End Theorems.

(** ** Witnesses *)

Section Witnesses.
#[local] Existing Instance demo_cfg.

(** Copies of 2000 and 7900 ns at sampling rate 2, each standing for two: two
    calls within 5 us, four within 10 us. *)
Lemma exported_aggregated_histogram_witness :
  let totals := agg_totals (default []
    (AGGREGATED (run_trace demo_copies (configure 2 0 0 init_state)) !! demo_copy_key)) in
  at_count totals = 4 /\
  default 0 (inc_cumulative_bucket_counters CUDA_DURATION_BUCKET_LE (at_buckets totals) ∅
    !! "0.000005") = 2.
Proof.
  destruct (exported_aggregated_histogram (configure 2 0 0 init_state) demo_copies demo_copy_key
    ∅ 1 "0.000005") as [Hc Hb].
  - apply configure_fresh. fits_const.
  - demo_trace_wf.
  - apply (bool_decide_unpack _). vm_compute. exact I.
  - vm_compute. reflexivity.
  - reflexivity.
  - split; [rewrite Hc|rewrite Hb]; vm_compute; reflexivity.
Defined.

Lemma exported_nccl_launch_histograms_witness :
  default 0 (inc_cumulative_bucket_counters NCCL_DURATION_BUCKET_LE
    (at_buckets (nccl_totals (default [] (NCCL_AGG
      (run_trace demo_collectives (configure 0 0 0 init_state))
      !! mkAggKey EVENT_NCCL_ALL_REDUCE 7 7 0 0)))) ∅ !! "+Inf") = 1 /\
  default 0 (inc_cumulative_bucket_counters CUDA_KERNEL_DURATION_BUCKET_LE
    (lt_buckets (launch_totals (default [] (LAUNCH_AGG
      (run_trace demo_collectives (configure 0 0 0 init_state))
      !! mkLaunchKey 7 0 777 0)))) ∅ !! "+Inf") = 0.
Proof.
  destruct (exported_nccl_launch_histograms (configure 0 0 0 init_state) demo_collectives ∅)
    as [Hn Hl].
  - apply configure_fresh. fits_const.
  - demo_trace_wf.
  - apply (bool_decide_unpack _). vm_compute. exact I.
  - apply (bool_decide_unpack _). vm_compute. exact I.
  - vm_compute. reflexivity.
  - split; [rewrite (Hn _ 11%nat) by reflexivity|rewrite (Hl _ 8%nat) by reflexivity];
      vm_compute; reflexivity.
Defined.
End Witnesses.
