(* ===== verification/Tick.v ===== *)
(** * The periodic tasks of userspace: src/src/main.rs

    The aggregation tick reads the drop counters, adapts the drain interval,
    pushes the set of upgraded processes to the kernel and accumulates active
    GPU memory; the gc tick scans INFLIGHT for hung collectives.  Each task is a
    function of the loop variables and the maps. *)

From S2P Require Import Prelude Events Runtime Probes Step Demo Invariant PerCpu Ledger.
From S2P Require Import RingLedger Calls.

Local Open Scope Z_scope.
#[local] Set Warnings "-clear-no-such-hyp".

(** ** Drop counters and the drain interval *)

(** The wrapping sum of the per-CPU slots, and [read_percpu_counter], whose lookup of element 0 may
    fail. *)
Definition percpu_total (percpu : list Z) : Z := foldl (fun total v => u64 (total + v)) 0 percpu.

Definition read_percpu_counter (percpu : option (list Z)) : option Z := percpu_total <$> percpu.

(** The loop variables of the aggregation tick. *)
Record TickState := mkTick {
  last_launch_dropped : Z;
  last_dropped_total : Z;
  consecutive_overflow_ticks : Z;
  consecutive_clear_ticks : Z;
  agg_interval_fast : bool;
  m_launch_agg_drops : Z;   (* metrics: launch_agg_drops *)
  m_dropped_events : Z      (* metrics: dropped_events *)
}.

Definition tick_init : TickState := mkTick 0 0 0 0 false 0 0.

(** The launch part of the tick. *)
Definition tick_launch_dropped (total : Z) (t : TickState) : TickState :=
  let delta := saturating_sub total (last_launch_dropped t) in
  if 0 <? delta then
    mkTick total (last_dropped_total t) (consecutive_overflow_ticks t) (consecutive_clear_ticks t)
      (agg_interval_fast t) (m_launch_agg_drops t + delta) (m_dropped_events t)
  else t.

(** The ring-buffer part, which also drives the interval: 100 ms after three
    overflowing ticks in a row, 1 s again after thirty clear ones. *)
Definition tick_dropped (total : Z) (t : TickState) : TickState :=
  let delta := saturating_sub total (last_dropped_total t) in
  if 0 <? delta then
    let overflow := consecutive_overflow_ticks t + 1 in
    let fast := if (3 <=? overflow) && negb (agg_interval_fast t) then true
                else agg_interval_fast t in
    mkTick (last_launch_dropped t) total overflow 0 fast (m_launch_agg_drops t)
      (m_dropped_events t + delta)
  else
    let clear := consecutive_clear_ticks t + 1 in
    let fast := if (30 <=? clear) && agg_interval_fast t then false else agg_interval_fast t in
    mkTick (last_launch_dropped t) (last_dropped_total t) 0 clear fast (m_launch_agg_drops t)
      (m_dropped_events t).

Definition agg_tick (launch_dropped dropped : option (list Z)) (t : TickState) : TickState :=
  let t := match read_percpu_counter launch_dropped with
           | Some total => tick_launch_dropped total t
           | None => t
           end in
  match read_percpu_counter dropped with
  | Some total => tick_dropped total t
  | None => t
  end.

(** The readings of successive ticks; element 0 of the two per-CPU arrays always exists. *)
Definition run_ticks (rs : list (list Z * list Z)) (t : TickState) : TickState :=
  foldl (fun t r => agg_tick (Some r.1) (Some r.2) t) t rs.

Lemma agg_tick_some l d t :
  agg_tick (Some l) (Some d) t = tick_dropped (percpu_total d) (tick_launch_dropped (percpu_total l) t).
Proof. done. Qed.

Lemma percpu_total_sum l : percpu_total l = u64 (sumZ l).
Proof.
  unfold percpu_total. induction l as [|x l IH] using rev_ind; [done|].
  rewrite foldl_app, sumZ_app. simpl. rewrite IH, Z.add_0_r. by wrap_simpl.
Qed.

(** The exported counters are the last totals seen; the tick counters are never
    both positive; the interval follows them. *)
Record tick_inv (t : TickState) : Prop := {
  ti_launch : m_launch_agg_drops t = last_launch_dropped t;
  ti_dropped : m_dropped_events t = last_dropped_total t;
  ti_nonneg : 0 <= last_launch_dropped t /\ 0 <= last_dropped_total t /\
              0 <= consecutive_overflow_ticks t /\ 0 <= consecutive_clear_ticks t;
  ti_excl : consecutive_overflow_ticks t = 0 \/ consecutive_clear_ticks t = 0;
  ti_fast_on : 3 <= consecutive_overflow_ticks t -> agg_interval_fast t = true;
  ti_fast_off : 30 <= consecutive_clear_ticks t -> agg_interval_fast t = false
}.

Lemma tick_inv_init : tick_inv tick_init.
Proof. split; simpl; try lia; done. Qed.

Lemma agg_tick_inv l d t : tick_inv t -> tick_inv (agg_tick (Some l) (Some d) t).
Proof.
  intros [H1 H2 H3 H4 H5 H6]. rewrite agg_tick_some. rewrite !percpu_total_sum.
  assert (Hl : 0 <= u64 (sumZ l)) by (by apply wrap_fits).
  assert (Hd : 0 <= u64 (sumZ d)) by (by apply wrap_fits).
  unfold tick_dropped, tick_launch_dropped, saturating_sub.
  destruct (agg_interval_fast t) eqn:Hfast; Zb_cases; split; simpl; rewrite ?Hfast; try lia; try done;
    rewrite ?andb_false_r; try done.
Qed.

Lemma run_ticks_inv rs t : tick_inv t -> tick_inv (run_ticks rs t).
Proof.
  unfold run_ticks. revert t. induction rs as [|r rs IH]; intros t Ht; simpl; [done|].
  by apply IH, agg_tick_inv.
Qed.

(** ** The interval *)

Definition overflows (d : list Z) (t : TickState) : bool :=
  last_dropped_total t <? percpu_total d.

Lemma agg_tick_overflow l d t :
  overflows d t = true ->
  consecutive_overflow_ticks (agg_tick (Some l) (Some d) t) = consecutive_overflow_ticks t + 1 /\
  consecutive_clear_ticks (agg_tick (Some l) (Some d) t) = 0 /\
  agg_interval_fast (agg_tick (Some l) (Some d) t)
  = (3 <=? consecutive_overflow_ticks t + 1) || agg_interval_fast t.
Proof.
  rewrite !agg_tick_some. unfold overflows, tick_dropped, tick_launch_dropped, saturating_sub.
  intros Ho%Z.ltb_lt. Zb_cases; destruct (agg_interval_fast t); done.
Qed.

Lemma agg_tick_clear l d t :
  overflows d t = false ->
  consecutive_overflow_ticks (agg_tick (Some l) (Some d) t) = 0 /\
  consecutive_clear_ticks (agg_tick (Some l) (Some d) t) = consecutive_clear_ticks t + 1 /\
  agg_interval_fast (agg_tick (Some l) (Some d) t)
  = negb (30 <=? consecutive_clear_ticks t + 1) && agg_interval_fast t.
Proof.
  rewrite !agg_tick_some. unfold overflows, tick_dropped, tick_launch_dropped, saturating_sub.
  intros Ho%Z.ltb_ge. Zb_cases; destruct (agg_interval_fast t); done.
Qed.

(** Readings that all overflow, or that all do not, from a state on. *)
Fixpoint all_ticks (b : bool) (rs : list (list Z * list Z)) (t : TickState) : Prop :=
  match rs with
  | [] => True
  | r :: rs => overflows r.2 t = b /\ all_ticks b rs (agg_tick (Some r.1) (Some r.2) t)
  end.

Lemma overflow_ticks rs t :
  all_ticks true rs t -> tick_inv t -> (0 < length rs)%nat ->
  let t' := run_ticks rs t in
  consecutive_overflow_ticks t' = consecutive_overflow_ticks t + Z.of_nat (length rs) /\
  agg_interval_fast t' = (3 <=? consecutive_overflow_ticks t + Z.of_nat (length rs)) || agg_interval_fast t.
Proof.
  revert t. induction rs as [|r rs IH]; intros t Hall Ht Hlen; [simpl in Hlen; lia|].
  destruct Hall as [Ho Hall]. destruct (agg_tick_overflow r.1 r.2 t Ho) as (E1 & _ & E3).
  destruct rs as [|r' rs]; [done|].
  destruct (IH _ Hall) as [I1 I2]; [by apply agg_tick_inv|simpl; lia|].
  cbn [run_ticks foldl] in *. unfold run_ticks in *. cbn [foldl] in *. rewrite I1, I2, E1, E3.
  cbn [length]. split; [lia|]. destruct (agg_interval_fast t); [by rewrite !orb_true_r|].
  rewrite !orb_false_r. Zb_cases.
Qed.

Lemma clear_ticks rs t :
  all_ticks false rs t -> (0 < length rs)%nat ->
  let t' := run_ticks rs t in
  consecutive_clear_ticks t' = consecutive_clear_ticks t + Z.of_nat (length rs) /\
  agg_interval_fast t'
  = negb (30 <=? consecutive_clear_ticks t + Z.of_nat (length rs)) && agg_interval_fast t.
Proof.
  revert t. induction rs as [|r rs IH]; intros t Hall Hlen; [simpl in Hlen; lia|].
  destruct Hall as [Ho Hall]. destruct (agg_tick_clear r.1 r.2 t Ho) as (_ & E2 & E3).
  destruct rs as [|r' rs]; [done|].
  destruct (IH _ Hall) as [I1 I2]; [simpl; lia|].
  unfold run_ticks in *. cbn [foldl] in *. rewrite I1, I2, E2, E3.
  cbn [length]. split; [lia|]. destruct (agg_interval_fast t); [|by rewrite !andb_false_r].
  rewrite !andb_true_r. Zb_cases.
Qed.

(** the drain interval adapts with hysteresis.  In any state ticks reach:
    three overflowing ticks in a row always switch to the fast interval, thirty
    clear ticks in a row always switch back; and right after an overflow fewer
    than thirty clear ticks leave a fast interval fast, right after a clear tick
    fewer than three overflows leave a slow one slow. *)
Theorem adaptive_interval rs0 rs :
  let t := run_ticks rs0 tick_init in
  let t' := run_ticks rs t in
  (all_ticks true rs t -> (3 <= length rs)%nat -> agg_interval_fast t' = true) /\
  (all_ticks false rs t -> (30 <= length rs)%nat -> agg_interval_fast t' = false) /\
  (all_ticks false rs t -> consecutive_clear_ticks t = 0 -> (length rs < 30)%nat ->
     agg_interval_fast t' = agg_interval_fast t) /\
  (all_ticks true rs t -> consecutive_overflow_ticks t = 0 -> (length rs < 3)%nat ->
     agg_interval_fast t' = agg_interval_fast t).
Proof.
  intros t t'. assert (Ht : tick_inv t) by apply run_ticks_inv, tick_inv_init.
  pose proof (ti_nonneg t Ht) as (_ & _ & Hn1 & Hn2). unfold t'. clear t'.
  split_and!; intros Hall.
  - intros Hlen. destruct (overflow_ticks rs t Hall Ht) as [_ ->]; [lia|].
    by rewrite (proj2 (Z.leb_le _ _)) by lia.
  - intros Hlen. destruct (clear_ticks rs t Hall) as [_ ->]; [lia|].
    by rewrite (proj2 (Z.leb_le _ _)) by lia.
  - intros Hc Hlen. destruct (decide (length rs = 0%nat)) as [->%nil_length_inv|]; [done|].
    destruct (clear_ticks rs t Hall) as [_ ->]; [lia|].
    by rewrite (proj2 (Z.leb_gt _ _)) by lia.
  - intros Hc Hlen. destruct (decide (length rs = 0%nat)) as [->%nil_length_inv|]; [done|].
    destruct (overflow_ticks rs t Hall Ht) as [_ ->]; [lia|].
    by rewrite (proj2 (Z.leb_gt _ _)) by lia.
Qed.

(** ** Drop metrics along a trace *)

Section Observe.
Context `{LoadCfg}.

(** Segments of program runs, each followed by a tick. *)
Definition observe (ts : list trace) (s : BpfState) : BpfState * TickState :=
  foldl (fun st t => let s := run_trace t st.1 in
                     (s, agg_tick (Some (LAUNCH_DROPPED s)) (Some (DROPPED s)) st.2)) (s, tick_init) ts.

Lemma observe_state ts s : (observe ts s).1 = run_trace (concat ts) s.
Proof.
  unfold observe. induction ts as [|t ts IH] using rev_ind; [done|].
  rewrite foldl_app, concat_app. simpl. by rewrite IH, app_nil_r, run_trace_app.
Qed.

Lemma observe_inv ts s : tick_inv (observe ts s).2.
Proof.
  unfold observe. induction ts as [|t ts IH] using rev_ind; [apply tick_inv_init|].
  rewrite foldl_app. simpl. by apply agg_tick_inv.
Qed.

Lemma agg_tick_last l d t :
  last_dropped_total t <= percpu_total d ->
  last_dropped_total (agg_tick (Some l) (Some d) t) = percpu_total d.
Proof.
  intros Hle. rewrite agg_tick_some. unfold tick_dropped, tick_launch_dropped, saturating_sub. Zb_cases.
Qed.

Lemma countZ_nonneg {A} (f : A -> bool) l : 0 <= countZ f l.
Proof. apply sumZ_nonneg, Forall_fmap, Forall_true. intros x. simpl. case_match; lia. Qed.

(** the exported drop counter is exact.  Interleave program runs with ticks
    in any way and end with a tick: the dropped_events metric is the number of
    completed calls that found the ring buffer full. *)
Theorem dropped_metric_exact ts s0 :
  fresh s0 -> Forall trace_wf ts -> ts <> [] ->
  countZ cp_ring_dropped (ledger (concat ts) s0) < 2 ^ 64 ->
  m_dropped_events (observe ts s0).2 = countZ cp_ring_dropped (ledger (concat ts) s0).
Proof.
  intros Hf Hts Hne Hlt. rewrite (ti_dropped _ (observe_inv ts s0)).
  enough (Hind : last_dropped_total (observe ts s0).2
                 = countZ cp_ring_dropped (ledger (concat ts) s0)) by done.
  clear Hne. induction ts as [|t ts IH] using rev_ind; [done|].
  apply Forall_app in Hts as [Hts Ht]. apply Forall_cons in Ht as [Ht _].
  rewrite concat_app in *. cbn [concat] in *. rewrite app_nil_r, ledger_app, countZ_app in *.
  pose proof (countZ_nonneg cp_ring_dropped (ledger t (run_trace (concat ts) s0))) as Hn.
  pose proof (countZ_nonneg cp_ring_dropped (ledger (concat ts) s0)) as Hn'.
  specialize (IH Hts ltac:(lia)).
  assert (Hw : trace_wf (concat ts ++ t)).
  { apply Forall_app. split; [by apply Forall_concat|done]. }
  destruct (ring_ledger s0 (concat ts ++ t) Hf Hw) as [_ Hd].
  rewrite run_trace_app, ledger_app, countZ_app in Hd.
  rewrite (wrap_small 64 (countZ _ _ + _)) in Hd by (unfold fits; lia).
  unfold observe. rewrite foldl_app. cbn [foldl]. fold (observe ts s0).
  cbn [snd fst]. rewrite observe_state, agg_tick_last; rewrite percpu_total_sum, Hd; lia.
Qed.
End Observe.

(** ** Upgraded processes *)

Section Upgraded.
Context `{LoadCfg}.

(** [bpf_map_update_elem] on the UPGRADED_PIDS hash: a new key does not fit a
    full map. *)
Definition hash_update (k v : Z) (m : gmap Z Z) : gmap Z Z :=
  if decide (is_Some (m !! k) \/ (size m < upgraded_pids_max_entries)%nat) then <[k := v]> m else m.

(** The sync of the tick: drop what is no longer desired, then add what is
    missing, ignoring failures; the new [synced] set is the desired one.  An
    empty [synced] set is first read back from the map. *)
Definition sync_upgraded (desired synced : gset Z) (m : gmap Z Z) : gset Z * gmap Z Z :=
  let synced := if decide (synced = ∅) then dom m else synced in
  let m := foldl (fun m pid => delete pid m) m (elements (synced ∖ desired)) in
  let m := foldl (fun m pid => hash_update pid 1 m) m (elements (desired ∖ synced)) in
  (desired, m).

Lemma foldl_delete_dom (l : list Z) (m : gmap Z Z) :
  dom (foldl (fun m pid => delete pid m) m l) = dom m ∖ list_to_set l.
Proof.
  revert m. induction l as [|x l IH]; intros m; simpl; [set_solver|].
  rewrite IH, dom_delete_L. set_solver.
Qed.

Lemma foldl_update_dom (l : list Z) (m : gmap Z Z) :
  (size (dom m ∪ list_to_set l : gset Z) <= upgraded_pids_max_entries)%nat ->
  dom (foldl (fun m pid => hash_update pid 1 m) m l) = dom m ∪ list_to_set l.
Proof.
  revert m. induction l as [|x l IH]; intros m Hsz; cbn [foldl list_to_set]; [set_solver|].
  assert (Hu : dom (hash_update x 1 m) = {[x]} ∪ dom m).
  { unfold hash_update. rewrite decide_True; [apply dom_insert_L|].
    destruct (m !! x) eqn:E; [left; eauto|right].
    apply not_elem_of_dom in E. rewrite <- size_dom.
    enough (size ({[x]} ∪ dom m : gset Z) <= upgraded_pids_max_entries)%nat as Hle.
    { rewrite size_union, size_singleton in Hle by set_solver. lia. }
    etrans; [|exact Hsz]. apply subseteq_size. set_solver. }
  rewrite IH, Hu; [set_solver|]. rewrite Hu. etrans; [|exact Hsz]. apply subseteq_size. set_solver.
Qed.

(** UPGRADED_PIDS follows the annotations.  When userspace's record of the
    map is right (or empty, so that it is read back) and the desired processes
    fit the map, then after the sync the map holds exactly the desired
    processes and the record is right again. *)
Lemma sync_upgraded_exact desired synced m :
  synced = ∅ \/ synced = dom m -> (size desired <= upgraded_pids_max_entries)%nat ->
  let r := sync_upgraded desired synced m in
  dom r.2 = desired /\ r.1 = dom r.2.
Proof.
  intros Hsync Hsz r. unfold r, sync_upgraded. cbn [fst snd].
  assert (E : (if decide (synced = ∅) then dom m else synced) = dom m)
    by (case_decide; destruct Hsync; congruence).
  rewrite E. set (m1 := foldl _ m _).
  assert (Hd1 : dom m1 = dom m ∩ desired).
  { unfold m1. rewrite foldl_delete_dom, list_to_set_elements_L. apply set_eq. intros x.
    rewrite elem_of_intersection, !elem_of_difference. destruct (decide (x ∈ desired)); tauto. }
  assert (Hd2 : dom m1 ∪ list_to_set (elements (desired ∖ dom m)) = desired).
  { rewrite Hd1, list_to_set_elements_L. apply set_eq. intros x.
    rewrite elem_of_union, elem_of_intersection, elem_of_difference.
    destruct (decide (x ∈ dom m)); tauto. }
  rewrite foldl_update_dom by (by rewrite Hd2). by rewrite Hd2.
Qed.

(** A process that did not fit is never retried.  Once the record of the map
    equals the desired set, later syncs with the same annotations leave the map
    as it is, also when the process is missing from the map and there is room
    by then. *)
Lemma sync_upgraded_no_retry desired m :
  desired <> ∅ -> sync_upgraded desired desired m = (desired, m).
Proof.
  intros Hne. unfold sync_upgraded. rewrite decide_False by done.
  by rewrite difference_diag_L, elements_empty.
Qed.
End Upgraded.

(** ** Active memory *)

(** The active-memory part of the AGGREGATED callback: bytes of mallocs minus bytes
    of frees, per process, in i64. *)
Definition active_mem_delta (key : AggKey) (total_size : Z) (delta : gmap Z Z) : gmap Z Z :=
  if 0 <? total_size then
    if (ak_event_type key =? EVENT_CUDA_MALLOC) || (ak_event_type key =? EVENT_CUDA_MALLOC_ASYNC)
    then <[ak_pid key := i64 (default 0 (delta !! ak_pid key) + i64 total_size)]> delta
    else if (ak_event_type key =? EVENT_CUDA_FREE) || (ak_event_type key =? EVENT_CUDA_FREE_ASYNC)
    then <[ak_pid key := i64 (default 0 (delta !! ak_pid key) - i64 total_size)]> delta
    else delta
  else delta.

(** The signed contribution of a drained key to its process. *)
Definition mem_sign (key : AggKey) : Z :=
  if (ak_event_type key =? EVENT_CUDA_MALLOC) || (ak_event_type key =? EVENT_CUDA_MALLOC_ASYNC)
  then 1
  else if (ak_event_type key =? EVENT_CUDA_FREE) || (ak_event_type key =? EVENT_CUDA_FREE_ASYNC)
  then -1 else 0.

(** One drained key moves the delta of its own process by its signed size. *)
Lemma active_mem_delta_step key v d pid :
  0 <= v -> i64 (default 0 (d !! pid)) = default 0 (d !! pid) ->
  default 0 (active_mem_delta key v d !! pid)
  = i64 (default 0 (d !! pid) + if decide (ak_pid key = pid) then mem_sign key * v else 0).
Proof.
  intros Hv Hd. unfold active_mem_delta, mem_sign. Zb_cases; repeat case_match; subst;
    rewrite ?lookup_insert_eq, ?lookup_insert_ne by done; simpl;
    rewrite ?i64_add_r, ?i64_sub_r, ?Z.add_0_r; try done; first [f_equal; lia | rewrite <- Hd at 1; f_equal; lia].
Qed.

(** active memory is allocated minus freed bytes.  After the drained keys of
    a tick the delta of a process is the sum of the sizes of its malloc keys
    minus the sum of the sizes of its free keys, as a signed 64-bit integer.
    The error code of a key does not enter: failed allocations count as
    allocated. *)
Theorem active_mem_is_balance (drained : list (AggKey * Z)) pid :
  Forall (fun kv => fits 64 kv.2) drained ->
  default 0 (foldl (fun d kv => active_mem_delta kv.1 kv.2 d) ∅ drained !! pid)
  = i64 (sumZ ((fun kv => mem_sign kv.1 * kv.2) <$> filter (fun kv => ak_pid kv.1 = pid) drained)).
Proof.
  intros Hd. induction drained as [|[k v] l IH] using rev_ind; [done|].
  apply Forall_app in Hd as [Hd Hv]. apply Forall_cons in Hv as [[Hv _] _]. specialize (IH Hd).
  rewrite foldl_app, filter_app, fmap_app, sumZ_app. cbn [foldl].
  rewrite active_mem_delta_step by (done || by rewrite IH, i64_i64).
  rewrite IH, i64_add_l, filter_cons, filter_nil. f_equal. cbn [fst snd].
  case_decide; csimpl; lia.
Qed.

(** ** Hung collectives *)

Section Hang.
Context `{LoadCfg}.

(** One entry of the scan: reported as (process, operation) when it is a
    collective older than the timeout. *)
Definition hang_of (timeout now : Z) (kv : Z * EntryData) : option (Z * Z) :=
  if rs_is_nccl_event (en_event_type kv.2) then
    let age_ns := saturating_sub now (en_timestamp_ns kv.2) in
    if timeout <? age_ns then Some (u32 (Z.shiftr kv.1 32), en_event_type kv.2) else None
  else None.

(** The reports of one gc tick, and [nccl_stale_entries]; a timeout of 0 turns
    the scan off. *)
Definition nccl_hang_scan (timeout now : Z) (inflight : gmap Z EntryData) : list (Z * Z) :=
  if 0 <? timeout then omap (hang_of timeout now) (map_to_list inflight) else [].

Lemma nccl_sampled_in t e s : profi_is_nccl_event t = true -> sampled_in t e s = true.
Proof.
  intros Hn. unfold sampled_in. destruct (profi_is_aggregatable t) eqn:Ha; [|done].
  apply agg_not_nccl in Ha. congruence.
Qed.

Lemma hang_scan_elem timeout now m r :
  r ∈ nccl_hang_scan timeout now m <->
  0 < timeout /\ exists id en, m !! id = Some en /\ hang_of timeout now (id, en) = Some r.
Proof.
  unfold nccl_hang_scan. destruct (Z.ltb_spec 0 timeout) as [Ht|Ht].
  - rewrite list_elem_of_omap. split.
    + intros ([id en] & Hin%elem_of_map_to_list & Hh). eauto 10.
    + intros (_ & id & en & Hm & Hh). exists (id, en). by rewrite elem_of_map_to_list.
  - rewrite elem_of_nil. split; [done|]. intros [? _]. lia.
Qed.

(** C36: a hung collective is reported, and only those are.  A thread with no call in flight enters
    a collective and INFLIGHT takes its entry.  Other threads run whatever probes, none of which
    evicts the entry; the thread itself may enter further traced functions, but runs no return
    probe (a traced call that returns inside the collective completes its entry) and no probe of
    cuModuleGetFunction.  Then every scan later than the timeout reports the process and the
    collective.  And every report is backed by an in-flight collective of that process that is
    older than the timeout. *)
Theorem hung_collective_reported p1 e1 t' s ty a b c now timeout :
  opens p1 e1 s = Some (ty, a, b, c) -> profi_is_nccl_event ty = true ->
  INFLIGHT s !! env_pid_tgid e1 = None -> lru_fail (env_lru_inflight e1) = false ->
  Forall (keeps_entry (env_pid_tgid e1)) t' ->
  0 < timeout -> timeout < now - env_ktime e1 ->
  let m := INFLIGHT (run_trace ((p1, e1) :: t') s) in
  (pid_of (env_pid_tgid e1), ty) ∈ nccl_hang_scan timeout now m /\
  forall pid op, (pid, op) ∈ nccl_hang_scan timeout now m ->
    exists id en, m !! id = Some en /\ pid = pid_of id /\ op = en_event_type en /\
      profi_is_nccl_event op = true /\ timeout < now - en_timestamp_ns en.
Proof.
  intros Hop Hn Hnone Hlru Hsp Hto Hage m. split.
  - apply hang_scan_elem. split; [done|]. exists (env_pid_tgid e1), (entry_of ty a b c e1).
    unfold m. cbn [run_trace]. split.
    + apply run_trace_keeps_entry; [done|]. rewrite (opens_INFLIGHT _ _ _ _ _ _ _ Hop), Hnone, nccl_sampled_in by done.
      by apply lru_update_lookup.
    + unfold hang_of, saturating_sub. simpl. apply nccl_event_range in Hn as Hr.
      unfold rs_is_nccl_event. rewrite bool_decide_true by done.
      by rewrite (proj2 (Z.ltb_lt _ _)) by lia.
  - intros pid op (_ & id & en & Hm & Hh)%hang_scan_elem. exists id, en. split; [done|].
    unfold hang_of, saturating_sub in Hh. simpl in Hh. unfold rs_is_nccl_event in Hh.
    case_bool_decide as Hr; [|done]. destruct (Z.ltb_spec timeout (Z.max 0 (now - en_timestamp_ns en)));
      [|done]. injection Hh as <- <-. split_and!; [done|done|by apply nccl_event_range|lia].
Qed.
End Hang.

(** ** Witnesses *)

Section Witnesses.
#[local] Existing Instance demo_cfg.

Lemma adaptive_interval_witness :
  agg_interval_fast (run_ticks (replicate 30 ([0], [3])) (run_ticks [([0], [1]); ([0], [2]); ([0], [3])] tick_init))
  = false.
Proof.
  apply (adaptive_interval [([0], [1]); ([0], [2]); ([0], [3])] (replicate 30 ([0], [3]))).
  - repeat (split; [reflexivity|]). exact I.
  - simpl. lia.
Defined.

(** A full ring buffer drops one launch event; ticks before and after. *)
Lemma dropped_metric_exact_witness :
  m_dropped_events (observe [[]; demo_ring; []] (configure 0 0 1 init_state)).2 = 1.
Proof.
  rewrite (dropped_metric_exact [[]; demo_ring; []] (configure 0 0 1 init_state)).
  - vm_compute. reflexivity.
  - apply configure_fresh. fits_const.
  - apply Forall_cons_2; [apply Forall_nil_2|]. apply Forall_cons_2; [demo_trace_wf|].
    apply Forall_cons_2; [apply Forall_nil_2|apply Forall_nil_2].
  - done.
  - vm_compute. reflexivity.
Defined.

(** A malloc of 640 bytes that failed with error 2, and a free of 100. *)
Lemma active_mem_is_balance_witness :
  default 0 (foldl (fun d kv => active_mem_delta kv.1 kv.2 d) ∅
    [(mkAggKey EVENT_CUDA_MALLOC 7 0 2 0, 640); (mkAggKey EVENT_CUDA_FREE 7 0 0 0, 100)] !! 7) = 540.
Proof.
  rewrite active_mem_is_balance.
  - vm_compute. reflexivity.
  - repeat (apply Forall_cons_2; [by vm_compute|]). apply Forall_nil_2.
Defined.

Lemma hung_collective_reported_witness :
  (7, EVENT_NCCL_ALL_REDUCE) ∈ nccl_hang_scan 5000 9000 (INFLIGHT (run_trace
    [(P_nccl_all_reduce 0 0 256 7, demo_env 1 1000 0 0);
     (P_cuda_memcpy 0 0 100 1, demo_env 2 2000 0 0)] init_state)).
Proof.
  apply (hung_collective_reported (P_nccl_all_reduce 0 0 256 7) (demo_env 1 1000 0 0)
    [(P_cuda_memcpy 0 0 100 1, demo_env 2 2000 0 0)] init_state EVENT_NCCL_ALL_REDUCE 256 7 0).
  - reflexivity.
  - reflexivity.
  - vm_compute. reflexivity.
  - reflexivity.
  - apply Forall_cons_2; [|apply Forall_nil_2]. left. split; [vm_compute; discriminate|].
    vm_compute. discriminate.
  - lia.
  - simpl. lia.
Defined.
End Witnesses.
