(* ===== verification/Kernel.v ===== *)
(** * Kernel names: src/src/kernel.rs

    Names come from the memory of the traced process.  [normalize_kernel_name]
    strips C++ mangling, template arguments, function arguments and numeric
    suffixes; [classify_kernel] and [sanitize_phase] map names to a fixed
    vocabulary.  The theorems say on which names the normalisation returns, what
    it returns, and on which it panics. *)

From stdpp Require Import strings.
From S2P Require Import Prelude RustStd.

Local Open Scope Z_scope.

Section Kernel.
Context `{UnicodeTables}.

(** ** normalize_kernel_name *)

(** [while i < bytes.len() && bytes[i].is_ascii_digit()]: the number of digits
    the bytes start with. *)
Fixpoint digit_run (bytes : list Z) : Z :=
  match bytes with
  | b :: bytes' => if is_ascii_digit b then 1 + digit_run bytes' else 0
  | [] => 0
  end.

Definition ident_char (c : Z) : bool := is_alphanumeric c || (c =? 95).

(** The loop over the bytes of a mangled name.  [i + len] is a usize addition,
    which wraps in a release build. *)
Fixpoint mangled_scan (fuel : nat) (name : str) (bytes : list Z) (i : Z) (best : str)
    : outcome str :=
  match fuel with
  | O => NoFuel
  | S fuel =>
      if i <? Z.of_nat (length bytes) then
        if is_ascii_digit (arr bytes (Z.to_nat i)) then
          let start := i in
          let i := i + digit_run (drop (Z.to_nat i) bytes) in
          digits ← slice name start i;
          let len := default 0 (from_str_radix 64 10 digits) in
          if (0 <? len) && (u64 (i + len) <=? Z.of_nat (length bytes)) then
            ident ← slice name i (u64 (i + len));
            let best := if (blen best <? blen ident) && forallb ident_char ident
                        then ident else best in
            mangled_scan fuel name bytes (u64 (i + len)) best
          else mangled_scan fuel name bytes (i + 1) best
        else mangled_scan fuel name bytes (i + 1) best
      else Ret best
  end.

(** The name without C++ mangling.  Every iteration advances [i], so one more
    iteration than there are bytes is enough. *)
Definition demangle (raw : str) : outcome str :=
  if starts_with (lit "_Z") raw then
    let bytes := as_bytes raw in
    best ← mangled_scan (S (length bytes)) raw bytes 2 [];
    Ret (if bool_decide (best = []) then raw else best)
  else Ret raw.

(** The loop that drops what is between angle brackets. *)
Definition strip_step (acc : Z * str) (ch : Z) : Z * str :=
  let '(depth, result) := acc in
  if ch =? 60 then (u32 (depth + 1), result)
  else if (ch =? 62) && (0 <? depth) then (depth - 1, result)
  else if depth =? 0 then (depth, result ++ [ch])
  else (depth, result).

Definition strip_templates (name : str) : str := (foldl strip_step (0, []) name).2.

Definition strip_args (result : str) : outcome str :=
  match find_char 40 result with
  | Some paren => truncate result paren
  | None => Ret result
  end.

Definition strip_suffix (trimmed : str) : outcome str :=
  match rfind_char 95 trimmed with
  | Some last_underscore =>
      suffix ← slice trimmed (last_underscore + 1) (blen trimmed);
      if negb (bool_decide (suffix = [])) && forallb is_ascii_digit suffix
      then slice trimmed 0 last_underscore
      else Ret trimmed
  | None => Ret trimmed
  end.

(** [while end > 0 && !s.is_char_boundary(end)] *)
Fixpoint back_to_boundary (s : str) (end_ : nat) : nat :=
  match end_ with
  | O => O
  | S e => if is_char_boundary s (Z.of_nat end_) then end_ else back_to_boundary s e
  end.

Definition truncate_utf8_bytes (s : str) (max_len : nat) : outcome str :=
  if blen s <=? Z.of_nat max_len then Ret s
  else slice s 0 (Z.of_nat (back_to_boundary s max_len)).

Definition normalize_kernel_name (raw : str) : outcome str :=
  name ← demangle raw;
  result ← strip_args (strip_templates name);
  let trimmed := trim_end result in
  final_name ← strip_suffix trimmed;
  truncated ← truncate_utf8_bytes final_name 64;
  if bool_decide (truncated = []) then truncate_utf8_bytes raw 64 else Ret truncated.
End Kernel.

(** ** classify_kernel and sanitize_phase *)

Definition contains_any (keywords : list string) (s : str) : bool :=
  existsb (fun k => contains (lit k) s) keywords.

Definition classify_kernel (name : str) : str :=
  let lower := to_ascii_lowercase name in
  if contains_any ["flash_fwd"; "flash_bwd"; "paged_attention"; "radix_attention"; "attention";
                   "sdpa"] lower then lit "attention"
  else if contains_any ["gemm"; "cgemm"; "cutlass"; "linear"; "matmul"] lower then lit "gemm"
  else if contains_any ["nccl"; "allreduce"; "allgather"; "reduce_scatter"] lower
  then lit "collective"
  else if contains_any ["softmax"; "layernorm"; "rms_norm"; "gelu"; "silu"] lower
  then lit "activation"
  else if contains_any ["memset"; "memcpy"; "copy"; "transpose"] lower then lit "memory"
  else if contains_any ["sampling"; "topk"; "argmax"] lower then lit "sampling"
  else lit "other".

Definition sanitize_phase (raw : str) : str :=
  if bool_decide (raw = []) then []
  else
    let lower := to_ascii_lowercase raw in
    if contains_any ["prefill"; "prompt"; "encode"] lower then lit "prefill"
    else if contains_any ["decode"; "generate"] lower then lit "decode"
    else if contains_any ["attention"; "attn"] lower then lit "attention"
    else if contains_any ["mlp"; "ffn"; "expert"] lower then lit "mlp"
    else if contains_any ["norm"; "embed"] lower then lit "norm"
    else lit "other".

(** The examples of the unit tests of kernel.rs. *)
#[local] Instance ascii_tables : UnicodeTables := {| unicode_alphanumeric := fun _ => false |}.

Example normalize_unit_tests :
  normalize_kernel_name (lit "_ZN4cuda6detail21softmax_warp_forwardIfEvPT_")
    = Ret (lit "softmax_warp_forwardI") /\
  normalize_kernel_name (lit "_ZN4cuda6detail20softmax_warp_forwardIfEvPT_")
    = Ret (lit "softmax_warp_forward") /\
  normalize_kernel_name (lit "gemm<float, 128>(float*, int)") = Ret (lit "gemm") /\
  normalize_kernel_name (lit "foo<bar<baz>>") = Ret (lit "foo") /\
  normalize_kernel_name (lit "triton_poi_fused_2") = Ret (lit "triton_poi_fused") /\
  normalize_kernel_name (lit "kernel_2_3") = Ret (lit "kernel_2") /\
  normalize_kernel_name (lit "kernel  ") = Ret (lit "kernel") /\
  normalize_kernel_name (lit "_Z") = Ret (lit "_Z") /\
  classify_kernel (lit "cutlass_gemm_kernel") = lit "gemm" /\
  sanitize_phase (lit "PREFILL") = lit "prefill".
Proof. vm_compute. repeat split. Qed.

(** ** Totality *)

Section Total.
Context `{UnicodeTables}.

(** No run of more than [k] digits; [left] of them are still allowed here. *)
Fixpoint short_runs (k left : nat) (s : str) : bool :=
  match s with
  | [] => true
  | c :: s' =>
      if is_ascii_digit c then match left with O => false | S l => short_runs k l s' end
      else short_runs k k s'
  end.

Lemma digit_run_split s :
  exists ds t, s = ds ++ t /\ Forall (fun c => is_ascii_digit c = true) ds /\
    digit_run s = Z.of_nat (length ds) /\ digit_run t = 0.
Proof.
  induction s as [|c s (ds & t & -> & Hds & Hr & Ht)]; simpl; [by exists [], []|].
  destruct (is_ascii_digit c) eqn:Hc.
  - exists (c :: ds), t. split_and!; [done|by apply Forall_cons_2|simpl length; lia|done].
  - exists [], (c :: ds ++ t). split_and!; [done|apply Forall_nil_2|done|]. simpl. by rewrite Hc.
Qed.

Lemma digit_run_nonneg s : 0 <= digit_run s.
Proof. destruct (digit_run_split s) as (ds & _ & _ & _ & -> & _). lia. Qed.

Lemma short_runs_run k left s :
  short_runs k left s = true -> (left <= k)%nat ->
  digit_run s <= Z.of_nat left /\ short_runs k k s = true.
Proof.
  revert left. induction s as [|c s IH]; intros left Hs Hl; simpl in *; [lia|].
  destruct (is_ascii_digit c); [|split; [lia|done]].
  destruct left as [|left]; [done|]. destruct (IH left Hs) as [Hr _]; [lia|]. split; [lia|].
  destruct k as [|k]; [lia|]. clear IH Hr.
  assert (G : forall l l' s, (l <= l')%nat -> short_runs (S k) l s = true ->
                             short_runs (S k) l' s = true).
  { clear. intros l l' s. revert l l'. induction s as [|c s IH]; intros l l' Hll; simpl; [done|].
    destruct (is_ascii_digit c); [|done]. destruct l as [|l]; [done|]. destruct l' as [|l']; [lia|].
    apply IH. lia. }
  eapply G; [|exact Hs]. lia.
Qed.

Lemma short_runs_drop k i s : short_runs k k s = true -> short_runs k k (drop i s) = true.
Proof.
  revert i. induction s as [|c s IH]; intros [|i] Hs; [done..|]. simpl. apply IH. simpl in Hs.
  destruct (is_ascii_digit c); [|done]. destruct k as [|k]; [done|].
  destruct (short_runs_run (S k) k s Hs) as [_ ?]; [lia|done].
Qed.

(** On an ASCII name without long digit runs the loop ends: no slice is out of
    range and no addition wraps. *)
Lemma mangled_scan_total name fuel i best :
  ascii name -> short_runs 18 18 name = true -> Z.of_nat (length name) < 2 ^ 63 ->
  0 <= i -> (length name - Z.to_nat i < fuel)%nat ->
  exists b, mangled_scan fuel name name i best = Ret b.
Proof.
  intros Ha Hsh Hlen. revert i best. induction fuel as [|fuel IH]; intros i best Hi Hf; [lia|].
  cbn [mangled_scan]. destruct (Z.ltb_spec i (Z.of_nat (length name))) as [Hlt|]; [|eauto].
  destruct (is_ascii_digit _); [|apply IH; lia].
  destruct (digit_run_split (drop (Z.to_nat i) name)) as (ds & t & Es & Hds & Hr & _).
  assert (Hlen' := f_equal length Es). rewrite length_drop, length_app in Hlen'.
  rewrite Hr. rewrite ascii_slice by (done || lia). cbn [mbind outcome_bind].
  replace (i + Z.of_nat (length ds) - i) with (Z.of_nat (length ds)) by lia.
  rewrite Nat2Z.id, Es, take_app_length.
  set (len := default 0 _).
  assert (Hbound : 0 <= len < 10 ^ 18).
  { unfold len. destruct (from_str_radix 64 10 ds) as [v|] eqn:Ev; simpl; [|lia].
    destruct (decide (ds = [])) as [->|Hne]; [done|]. rewrite parse_digits in Ev by done.
    destruct (num_val 10 ds 0 <? 2 ^ 64); [|done]. injection Ev as <-.
    destruct (num_val_bound ds 0 Hds) as [Hge Hb]; [lia|].
    destruct (short_runs_run 18 18 (drop (Z.to_nat i) name)) as [Hk _];
      [by apply short_runs_drop|lia|].
    pose proof (Z.pow_le_mono_r 10 (Z.of_nat (length ds)) 18). lia. }
  assert (Hw : u64 (i + Z.of_nat (length ds) + len) = i + Z.of_nat (length ds) + len).
  { apply wrap_small. split; lia. }
  rewrite Hw. destruct (Z.ltb_spec 0 len) as [Hpos|]; simpl; [|apply IH; lia].
  destruct (Z.leb_spec (i + Z.of_nat (length ds) + len) (Z.of_nat (length name))); [|apply IH; lia].
  rewrite ascii_slice by (done || lia). cbn [mbind outcome_bind]. apply IH; lia.
Qed.

Lemma demangle_total raw :
  (starts_with (lit "_Z") raw = true ->
   ascii raw /\ short_runs 18 18 raw = true /\ Z.of_nat (length raw) < 2 ^ 63) ->
  exists name, demangle raw = Ret name.
Proof.
  intros Hm. unfold demangle. destruct (starts_with _ raw) eqn:E; [|eauto].
  destruct (Hm eq_refl) as (Ha & Hs & Hl). rewrite (ascii_as_bytes raw Ha).
  destruct (mangled_scan_total raw (S (length raw)) 2 [] Ha Hs Hl) as [b ->]; [lia..|].
  simpl. eauto.
Qed.

(** What is left of a prefix of characters. *)
Lemma strip_args_spec s : exists r t, strip_args s = Ret r /\ s = r ++ t /\ (40 ∉ r).
Proof.
  unfold strip_args. destruct (find_char 40 s) as [o|] eqn:E.
  - apply find_char_Some in E as (p & t & -> & -> & Hp). exists p, (40 :: t). split_and!; [|done..].
    unfold truncate. rewrite slice_prefix, blen_app. pose proof (blen_nonneg (40 :: t)).
    destruct (Z.leb_spec (blen p) (blen p + blen (40 :: t))); [done|lia].
  - exists s, []. rewrite app_nil_r. split_and!; [done..|]. by apply find_char_None.
Qed.

Lemma strip_suffix_spec s : exists r t, strip_suffix s = Ret r /\ s = r ++ t.
Proof.
  unfold strip_suffix. destruct (rfind_char 95 s) as [o|] eqn:E.
  - apply rfind_char_Some in E as (p & t & -> & -> & _).
    replace (p ++ 95 :: t) with ((p ++ [95]) ++ t) by by rewrite <- app_assoc.
    replace (blen p + 1) with (blen (p ++ [95])) by by rewrite blen_app.
    rewrite slice_suffix. simpl. rewrite <- app_assoc, slice_prefix. simpl.
    case_match; [by exists p, (95 :: t)|]. exists (p ++ 95 :: t), []. by rewrite app_nil_r.
  - exists s, []. by rewrite app_nil_r.
Qed.

Lemma back_to_boundary_spec s n :
  is_char_boundary s (Z.of_nat (back_to_boundary s n)) = true /\ (back_to_boundary s n <= n)%nat /\
  forall m, (m <= n)%nat -> is_char_boundary s (Z.of_nat m) = true -> (m <= back_to_boundary s n)%nat.
Proof.
  induction n as [|n (Hb & Hle & Hmax)]; simpl.
  - split; [by destruct s|]. split; [lia|]. intros. lia.
  - destruct (is_char_boundary s (Z.of_nat (S n))) eqn:E; simpl in E; rewrite ?E; split_and!;
      try done; try lia. intros m Hm Hbm. apply Hmax; [|done].
    destruct (decide (m = S n)) as [->|]; [|lia]. simpl in Hbm. congruence.
Qed.

Lemma truncate_utf8_spec s n :
  exists r t, truncate_utf8_bytes s n = Ret r /\ s = r ++ t /\ blen r <= Z.of_nat n /\
    ((4 <= n)%nat -> s <> [] -> r <> []).
Proof.
  unfold truncate_utf8_bytes. destruct (Z.leb_spec (blen s) (Z.of_nat n)) as [|Hlt].
  { exists s, []. by rewrite app_nil_r. }
  destruct (back_to_boundary_spec s n) as (Hb & Hle & Hmax). set (e := back_to_boundary s n) in *.
  unfold is_char_boundary in Hb. destruct (char_index s (Z.of_nat e)) as [k|] eqn:Ek; [|done].
  apply char_index_Some in Ek as [Ek _]. exists (take k s), (drop k s).
  rewrite take_drop. split_and!; [|done|lia|].
  - rewrite Ek. rewrite <- (take_drop k s) at 1. apply slice_prefix.
  - intros Hn Hs Hk. destruct s as [|c s]; [done|].
    pose proof (len_utf8_bounds c). assert (He : e = 0%nat) by (rewrite Hk in Ek; simpl in Ek; lia).
    specialize (Hmax (Z.to_nat (len_utf8 c))). rewrite Z2Nat.id in Hmax by lia.
    enough (Z.to_nat (len_utf8 c) <= e)%nat by lia. apply Hmax; [lia|].
    unfold is_char_boundary. pose proof (char_index_app [c] s) as E. simpl app in E.
    replace (blen [c]) with (len_utf8 c) in E by (simpl; lia). by rewrite E.
Qed.

Lemma strip_step_spec (s : str) d (r : str) :
  60 ∉ r ->
  (60 ∉ (foldl strip_step (d, r) s).2) /\
  (60 ∉ s -> d = 0 -> foldl strip_step (d, r) s = (0, r ++ s)).
Proof.
  revert d r. induction s as [|c s IH]; intros d r Hr.
  { simpl. split; [done|]. intros _ ->. by rewrite app_nil_r. }
  cbn [foldl]. destruct (strip_step (d, r) c) as [d' r'] eqn:E. unfold strip_step in E.
  assert (Hr' : 60 ∉ r').
  { destruct (Z.eqb_spec c 60); [|destruct ((c =? 62) && (0 <? d)); [|destruct (d =? 0)]];
      simplify_eq; try done.
    intros [?|Hin]%elem_of_app; [done|]. apply list_elem_of_singleton in Hin. lia. }
  destruct (IH d' r' Hr') as [H1 H2]. split; [done|]. intros Hs ->.
  apply not_elem_of_cons in Hs as [Hc Hs]. rewrite andb_false_r in E.
  destruct (Z.eqb_spec c 60); [lia|]. simplify_eq/=. rewrite H2 by done. by rewrite <- app_assoc.
Qed.

Lemma strip_templates_spec (s : str) :
  (60 ∉ strip_templates s) /\ (60 ∉ s -> strip_templates s = s).
Proof.
  unfold strip_templates. destruct (strip_step_spec s 0 []) as [H1 H2]; [by apply not_elem_of_nil|].
  split; [done|]. intros Hs. exact (f_equal snd (H2 Hs eq_refl)).
Qed.

(** The name without template and function arguments, trailing white space and number, before it
    is cut to 64 bytes. *)
Definition stripped (raw : str) : outcome str :=
  name ← demangle raw;
  result ← strip_args (strip_templates name);
  strip_suffix (trim_end result).

Lemma normalize_returns raw :
  (starts_with (lit "_Z") raw = true ->
   ascii raw /\ short_runs 18 18 raw = true /\ Z.of_nat (length raw) < 2 ^ 63) ->
  exists s r, stripped raw = Ret s /\ normalize_kernel_name raw = Ret r /\
    blen r <= 64 /\ (r = [] <-> raw = []) /\
    (s <> [] -> (60 ∉ r) /\ (40 ∉ r) /\ exists t, s = r ++ t) /\ (s = [] -> exists t, raw = r ++ t).
Proof.
  intros Hm. destruct (demangle_total raw Hm) as [name En]. unfold normalize_kernel_name, stripped.
  rewrite En. cbn [mbind outcome_bind].
  destruct (strip_templates_spec name) as [Hlt _].
  destruct (strip_args_spec (strip_templates name)) as (r1 & t1 & -> & E1 & Hp).
  cbn [mbind outcome_bind]. destruct (trim_end_prefix r1) as [w Ew].
  destruct (strip_suffix_spec (trim_end r1)) as (r2 & t2 & -> & E2). cbn [mbind outcome_bind].
  destruct (truncate_utf8_spec r2 64) as (r3 & t3 & -> & E3 & Hb3 & Hn3). cbn [mbind outcome_bind].
  assert (Hsub : forall c, c ∈ r3 -> c ∈ r1).
  { intros c Hc. rewrite Ew, E2, E3, !elem_of_app. auto. }
  case_bool_decide as Hne; [subst r3|].
  - destruct (truncate_utf8_spec raw 64) as (r4 & t4 & -> & E4 & Hb4 & Hne4).
    exists r2, r4. assert (r2 = []) as -> by (destruct r2; [done|exfalso; by apply Hn3; [lia| |]]).
    split_and!; [done|done|done| |done|intros _; by exists t4]. split.
    + intros ->. destruct raw; [done|]. exfalso. by apply Hne4; [lia| |].
    + intros ->. symmetry in E4. by apply app_nil in E4 as [-> _].
  - exists r2, r3. split_and!; [done|done|done| | |intros ->; symmetry in E3; by apply app_nil in E3 as [-> _]].
    2: intros _; split_and!; [| |by exists t3].
    + split; [done|]. intros ->. exfalso. apply Hne. clear -E1 Ew E2 E3 En. revert En.
      unfold demangle. simpl. intros [= <-]. simpl in E1. symmetry in E1.
      apply app_nil in E1 as [-> _]. simpl in *. symmetry in E2. apply app_nil in E2 as [-> _].
      symmetry in E3. by apply app_nil in E3 as [-> _].
    + intros Hin%Hsub. apply Hlt. rewrite E1, elem_of_app. auto.
    + by intros Hin%Hsub.
Qed.

(** ** The loop ends *)

Lemma slice_no_loop s a b : slice s a b <> NoFuel.
Proof. unfold slice. by repeat case_match. Qed.

Lemma slice_Ret_le s a b m : slice s a b = Ret m -> a <= b.
Proof. unfold slice. repeat case_match; try done. intros _. by apply Z.leb_le. Qed.

Lemma bind_no_loop {A B} (o : outcome A) (f : A -> outcome B) :
  o <> NoFuel -> (forall a, o = Ret a -> f a <> NoFuel) -> mbind f o <> NoFuel.
Proof. destruct o; simpl; auto. Qed.

Lemma from_str_radix_lt base s v : from_str_radix 64 base s = Some v -> v < 2 ^ 64.
Proof.
  unfold from_str_radix. cbv zeta. set (t := if starts_with _ s then _ else _).
  destruct (negb _ && _); [|done]. destruct (Z.ltb_spec (num_val base t 0) (2 ^ 64)); [|done].
  by intros [= <-].
Qed.

Lemma mangled_scan_no_loop fuel name bytes i best :
  0 <= i -> Z.of_nat (length bytes) < 2 ^ 63 ->
  Z.max 0 (Z.of_nat (length bytes) - i) < Z.of_nat fuel ->
  mangled_scan fuel name bytes i best <> NoFuel.
Proof.
  intros Hi HL. revert i best Hi. induction fuel as [|fuel IH]; intros i best Hi Hf; [lia|].
  cbn [mangled_scan]. destruct (Z.ltb_spec i (Z.of_nat (length bytes))); [|done].
  case_match; [|apply IH; lia].
  pose proof (digit_run_nonneg (drop (Z.to_nat i) bytes)) as Hrun.
  set (j := i + digit_run _) in *. apply bind_no_loop; [apply slice_no_loop|]. intros digits _.
  destruct (from_str_radix 64 10 digits) as [len|] eqn:Elen; [|apply IH; lia].
  pose proof (from_str_radix_lt _ _ _ Elen) as Hlen.
  change (default 0 (Some len)) with len. destruct (Z.ltb_spec 0 len); [|apply IH; lia].
  destruct (Z.leb_spec (u64 (j + len)) (Z.of_nat (length bytes))); [|apply IH; lia].
  cbn [andb]. apply bind_no_loop; [apply slice_no_loop|]. intros ident Hs%slice_Ret_le.
  assert (j < u64 (j + len)).
  { unfold wrap in *. pose proof (Z.div_mod (j + len) (2 ^ 64)). nia. }
  apply IH; lia.
Qed.

Lemma normalize_no_loop raw : blen raw < 2 ^ 63 -> normalize_kernel_name raw <> NoFuel.
Proof.
  intros HL. unfold normalize_kernel_name, demangle.
  apply bind_no_loop.
  { case_match; [|done]. pose proof (length_as_bytes raw). apply bind_no_loop; [|done].
    apply mangled_scan_no_loop; lia. }
  intros name _.
  destruct (strip_args_spec (strip_templates name)) as (r1 & t1 & -> & _). cbn [mbind outcome_bind].
  destruct (strip_suffix_spec (trim_end r1)) as (r2 & t2 & -> & _). cbn [mbind outcome_bind].
  destruct (truncate_utf8_spec r2 64) as (r3 & t3 & -> & _). cbn [mbind outcome_bind].
  case_bool_decide; [|done]. by destruct (truncate_utf8_spec raw 64) as (r4 & t4 & -> & _).
Qed.

(** C23: normalisation ends on every name of fewer than 2^63 bytes: it returns or panics.  It
    returns on names that do not start with _Z and on ASCII names without runs of more than 18
    digits.  Then the result has at most 64 bytes and is empty only for the empty name.  If
    something is left of the demangled name after the template arguments, the function arguments
    and a trailing number are dropped, the result is the start of that and contains neither an
    opening angle bracket nor an opening parenthesis; if nothing is left, it is the start of the
    raw name, brackets included. *)
Theorem normalize_total raw :
  blen raw < 2 ^ 63 ->
  normalize_kernel_name raw <> NoFuel /\
  ((starts_with (lit "_Z") raw = true -> ascii raw /\ short_runs 18 18 raw = true) ->
   exists s r, stripped raw = Ret s /\ normalize_kernel_name raw = Ret r /\
     blen r <= 64 /\ (r = [] <-> raw = []) /\
     (s <> [] -> (60 ∉ r) /\ (40 ∉ r) /\ exists t, s = r ++ t) /\ (s = [] -> exists t, raw = r ++ t)).
Proof.
  intros HL. split; [by apply normalize_no_loop|]. intros Hm. apply normalize_returns.
  intros [Ha Hr]%Hm. split_and!; [done|done|]. by rewrite <- ascii_blen.
Qed.

(** The first byte of a character is a digit only if the character is. *)
Lemma digit_run_bytes s : digit_run s = 0 -> digit_run (as_bytes s) = 0.
Proof.
  destruct s as [|c s]; [done|]. unfold as_bytes. csimpl. destruct (is_ascii_digit c) eqn:E.
  { pose proof (digit_run_nonneg s). lia. }
  assert (Hhi : forall b, 57 < b -> is_ascii_digit b = false).
  { intros b Hb. unfold is_ascii_digit. by rewrite (proj2 (Z.leb_gt b 57)), andb_false_r. }
  intros _. unfold encode_utf8.
  destruct (Z.ltb_spec c 128); [cbn; by rewrite E|].
  assert (0 <= c / 64 /\ 0 <= c / 4096 /\ 0 <= c / 262144)
    by (split_and!; apply Z.div_pos; lia).
  repeat case_match; cbn [app digit_run]; by rewrite Hhi by lia.
Qed.

(** Slices at two offsets in the wrong order, and inside a character. *)
Lemma slice_backwards s a b : b < a -> slice s a b = Panic.
Proof.
  intros. unfold slice. repeat case_match; try done. Zb_cases; lia.
Qed.

Lemma slice_cuts_char p c t a n :
  a <= blen p -> 0 < n < len_utf8 c -> slice (p ++ c :: t) a (blen p + n) = Panic.
Proof.
  intros Ha Hn. unfold slice. replace (char_index (p ++ c :: t) (blen p + n)) with (@None nat).
  { by case_match. }
  symmetry. clear Ha a. induction p as [|x p IH]; cbn [app blen char_index].
  - rewrite Z.add_0_l. destruct (Z.eqb_spec n 0); [lia|]. destruct (Z.ltb_spec n (len_utf8 c)); [done|lia].
  - pose proof (blen_nonneg p). pose proof (len_utf8_bounds x).
    destruct (Z.eqb_spec (len_utf8 x + blen p + n) 0); [lia|].
    destruct (Z.ltb_spec (len_utf8 x + blen p + n) (len_utf8 x)); [lia|].
    replace (len_utf8 x + blen p + n - len_utf8 x) with (blen p + n) by lia. by rewrite IH.
Qed.

(** The first iteration on a name that starts with a length. *)
Lemma scan_length_panics ds rest v :
  Forall (fun c => is_ascii_digit c = true) ds -> ds <> [] -> digit_run rest = 0 ->
  num_val 10 ds 0 = v -> 0 < v < 2 ^ 64 ->
  u64 (2 + Z.of_nat (length ds) + v) <= 2 + Z.of_nat (length ds) + blen rest ->
  slice (lit "_Z" ++ ds ++ rest) (2 + Z.of_nat (length ds)) (u64 (2 + Z.of_nat (length ds) + v))
    = Panic ->
  normalize_kernel_name (lit "_Z" ++ ds ++ rest) = Panic.
Proof.
  intros Hds Hne Hrest Hv Hv64 Hle Hslice. unfold normalize_kernel_name, demangle.
  rewrite (proj2 (starts_with_spec _ _)) by eauto.
  rewrite !as_bytes_app, (ascii_as_bytes ds) by by apply digits_ascii.
  change (as_bytes (lit "_Z")) with (lit "_Z").
  set (name := lit "_Z" ++ ds ++ rest) in *. set (bytes := lit "_Z" ++ ds ++ as_bytes rest).
  assert (Hlen : Z.of_nat (length bytes) = 2 + Z.of_nat (length ds) + blen rest).
  { unfold bytes. rewrite !length_app, <- length_as_bytes. change (length (lit "_Z")) with 2%nat. lia. }
  pose proof (blen_nonneg rest). destruct ds as [|d ds]; [done|].
  assert (Hd : is_ascii_digit d = true) by (by apply Forall_cons in Hds as [? _]).
  cbn [mangled_scan]. destruct (Z.ltb_spec 2 (Z.of_nat (length bytes))); [|simpl in *; lia].
  change (arr bytes (Z.to_nat 2)) with d. rewrite Hd.
  change (drop (Z.to_nat 2) bytes) with ((d :: ds) ++ as_bytes rest).
  assert (Hrun : digit_run ((d :: ds) ++ as_bytes rest) = Z.of_nat (length (d :: ds))).
  { clear -Hds Hrest. induction Hds as [|x l Hx _ IH]; [by apply digit_run_bytes|].
    cbn [app digit_run length]. rewrite Hx, IH. lia. }
  rewrite Hrun. pose proof (slice_app (lit "_Z") (d :: ds) rest) as Hs.
  rewrite (ascii_blen (d :: ds)) in Hs by by apply digits_ascii.
  change (blen (lit "_Z")) with 2 in Hs. fold name in Hs. rewrite Hs. cbn [mbind outcome_bind].
  rewrite parse_digits, Hv by done. destruct (Z.ltb_spec v (2 ^ 64)); [|lia]. change (default 0 (Some v)) with v.
  destruct (Z.ltb_spec 0 v); [|lia]. cbn [andb]. rewrite Hlen.
  destruct (Z.leb_spec (u64 (2 + Z.of_nat (length (d :: ds)) + v))
    (2 + Z.of_nat (length (d :: ds)) + blen rest)); [|lia].
  by rewrite Hslice.
Qed.

(** two kinds of mangled names make the normalisation panic.  A length of
    2^64 - 1 wraps the end of the identifier to before its start; a length that
    ends inside a character of several bytes cuts the character.  The slice of
    the name panics in both cases, whatever follows. *)
Lemma mangled_name_panics rest c :
  (digit_run rest = 0 -> normalize_kernel_name (lit "_Z18446744073709551615" ++ rest) = Panic) /\
  (128 <= c -> normalize_kernel_name (lit "_Z1" ++ c :: rest) = Panic).
Proof.
  split.
  - intros Hr. change (lit "_Z18446744073709551615" ++ rest)
      with (lit "_Z" ++ lit "18446744073709551615" ++ rest).
    apply (scan_length_panics _ _ (2 ^ 64 - 1)); [fits_const|done|done|by vm_compute|lia| |].
    + pose proof (blen_nonneg rest). change (u64 _) with 21.
      change (Z.of_nat (length (lit "18446744073709551615"))) with 20. lia.
    + apply slice_backwards. by vm_compute.
  - intros Hc. change (lit "_Z1" ++ c :: rest) with (lit "_Z" ++ lit "1" ++ c :: rest).
    apply (scan_length_panics _ _ 1); [fits_const|done| |by vm_compute|lia| |].
    + simpl. unfold is_ascii_digit. by rewrite (proj2 (Z.leb_gt c 57)), andb_false_r by lia.
    + change (u64 _) with 4. simpl. pose proof (blen_nonneg rest). pose proof (len_utf8_bounds c). lia.
    + change (u64 _) with (blen (lit "_Z1") + 1).
      apply (slice_cuts_char (lit "_Z1") c rest); [done|]. unfold len_utf8. repeat case_match; lia.
Qed.

(** ** Mangled names *)

(** A C identifier. *)
Definition c_ident (id : str) : bool :=
  negb (bool_decide (id = [])) && forallb (fun c => (c <? 128) && ident_char c) id
  && (digit_run id =? 0).

(** A nested name as C++ mangles it: each identifier behind its length. *)
Definition nested_name (ids : list str) (tail : str) : str :=
  lit "_ZN" ++ mjoin ((fun id => to_string (Z.of_nat (length id)) ++ id) <$> ids) ++ tail.

Definition longest (best : str) (ids : list str) : str :=
  foldl (fun best id => if blen best <? blen id then id else best) best ids.

Lemma longest_spec ids best :
  (longest best ids = best \/ longest best ids ∈ ids) /\
  blen best <= blen (longest best ids) /\ forall id, id ∈ ids -> blen id <= blen (longest best ids).
Proof.
  revert best. induction ids as [|x ids IH]; intros best; simpl.
  { split; [by left|]. split; [lia|]. by intros id ?%elem_of_nil. }
  set (b' := if blen best <? blen x then x else best). destruct (IH b') as (H1 & H2 & H3).
  assert (Hb' : (b' = best \/ b' = x) /\ blen best <= blen b' /\ blen x <= blen b').
  { unfold b'. destruct (Z.ltb_spec (blen best) (blen x)); split; auto; lia. }
  destruct Hb' as (Hb' & ? & ?). split.
  - destruct H1 as [H1|H1]; [|right; by right]. unfold longest in *. rewrite H1.
    destruct Hb' as [->| ->]; [by left|right; by left].
  - split; [unfold longest in *; lia|]. intros id [->|Hid]%elem_of_cons; [|by apply H3].
    unfold longest in *. lia.
Qed.

Lemma c_ident_spec id :
  c_ident id = true ->
  id <> [] /\ Forall (fun c => 48 <= c < 128 /\ c <> 60 /\ is_whitespace c = false) id /\
  forallb ident_char id = true /\ digit_run id = 0.
Proof.
  unfold c_ident. rewrite !andb_true_iff, negb_true_iff, bool_decide_eq_false, Z.eqb_eq, !forallb_forall.
  intros [[Hne Hall] Hr]. split_and!; [done| | |done].
  - apply Forall_forall. intros c Hc%list_elem_of_In. specialize (Hall c Hc). revert Hall.
    unfold ident_char, is_alphanumeric, is_ascii_digit, is_whitespace.
    destruct (Z.ltb_spec c 128); [|done]. Zb_cases; try done; intros _; split_and!; done || lia.
  - intros c Hc. specialize (Hall c Hc). by apply andb_true_iff in Hall as [_ ?].
Qed.

(** One identifier with its length in front: the loop takes it when it is longer. *)
Lemma scan_ident name pre id post fuel best :
  name = pre ++ to_string (Z.of_nat (length id)) ++ id ++ post -> ascii name ->
  c_ident id = true -> Z.of_nat (length name) < 2 ^ 63 ->
  mangled_scan (S fuel) name name (Z.of_nat (length pre)) best
  = mangled_scan fuel name name
      (Z.of_nat (length (pre ++ to_string (Z.of_nat (length id)) ++ id)))
      (if blen best <? blen id then id else best).
Proof.
  intros En Ha (Hne & Hid & Hch & Hr)%c_ident_spec Hlen.
  set (n := Z.of_nat (length id)) in *. set (ds := to_string n) in *.
  assert (Hn : 0 < n) by (unfold n; destruct id; [done|simpl; lia]).
  assert (Hds : Forall (fun c => is_ascii_digit c = true) ds) by apply to_string_digits.
  assert (HL : length name = (length pre + length ds + length id + length post)%nat).
  { rewrite En, !length_app. lia. }
  assert (Hdne : ds <> []) by apply to_string_nonempty.
  assert (0 < length ds)%nat by (destruct ds; [done|simpl; lia]).
  cbn [mangled_scan]. destruct (Z.ltb_spec (Z.of_nat (length pre)) (Z.of_nat (length name))); [|lia].
  rewrite Nat2Z.id. replace (drop (length pre) name) with (ds ++ id ++ post)
    by (by rewrite En, drop_app_length).
  assert (Hrun : digit_run (ds ++ id ++ post) = Z.of_nat (length ds)).
  { clear -Hds Hr Hne. induction Hds as [|x l Hx _ IH]; simpl; [|rewrite Hx; lia].
    destruct id as [|c id]; [done|]. simpl in *. destruct (is_ascii_digit c); [|done].
    pose proof (digit_run_nonneg id). lia. }
  assert (Harr : is_ascii_digit (arr name (length pre)) = true).
  { unfold arr. rewrite En, lookup_app_r, Nat.sub_diag by lia. destruct ds as [|d ds]; [done|].
    by apply Forall_cons in Hds as [? _]. }
  rewrite Harr, Hrun, ascii_slice by (done || lia). cbn [mbind outcome_bind].
  replace (Z.of_nat (length pre) + _ - _) with (Z.of_nat (length ds)) by lia.
  rewrite !Nat2Z.id, En, drop_app_length, take_app_length, <- En.
  assert (Hparse : from_str_radix 64 10 ds = Some n).
  { rewrite parse_digits by done. unfold ds. rewrite to_string_val by (split; lia).
    by rewrite (proj2 (Z.ltb_lt n (2 ^ 64))) by lia. }
  rewrite Hparse. change (default 0 (Some n)) with n. destruct (Z.ltb_spec 0 n); [|lia]. cbn [andb].
  rewrite wrap_small by (split; lia).
  destruct (Z.leb_spec (Z.of_nat (length pre) + Z.of_nat (length ds) + n) (Z.of_nat (length name)));
    [|lia].
  rewrite ascii_slice by (done || lia). cbn [mbind outcome_bind].
  replace (take _ (drop _ name)) with id; [|
    replace (Z.to_nat (Z.of_nat (length pre) + Z.of_nat (length ds)))
      with (length (pre ++ ds)) by (rewrite length_app; lia);
    rewrite En, app_assoc, drop_app_length;
    replace (Z.to_nat _) with (length id) by lia; by rewrite take_app_length].
  rewrite Hch, andb_true_r. f_equal. rewrite !length_app. lia.
Qed.

(** Without digits the loop runs to the end. *)
Lemma scan_tail name pre post fuel best :
  name = pre ++ post -> Forall (fun c => is_ascii_digit c = false) post ->
  (length post < fuel)%nat ->
  mangled_scan fuel name name (Z.of_nat (length pre)) best = Ret best.
Proof.
  intros En Hp. revert pre fuel En. induction Hp as [|c post Hc Hp IH]; intros pre fuel En Hf;
    (destruct fuel as [|fuel]; [lia|]); cbn [mangled_scan].
  - rewrite app_nil_r in En. subst. destruct (Z.ltb_spec (Z.of_nat (length pre)) (Z.of_nat (length pre)));
      [lia|done].
  - assert (HL := f_equal length En). rewrite length_app in HL. simpl in *.
    destruct (Z.ltb_spec (Z.of_nat (length pre)) (Z.of_nat (length name))); [|lia].
    replace (arr name _) with c by (unfold arr; by rewrite Nat2Z.id, En, lookup_app_r, Nat.sub_diag by lia).
    rewrite Hc. replace (Z.of_nat (length pre) + 1) with (Z.of_nat (length (pre ++ [c])))
      by (rewrite length_app; simpl; lia).
    apply IH; [by rewrite <- app_assoc|lia].
Qed.

Lemma scan_nested name pre ids tail fuel best :
  name = pre ++ mjoin ((fun id => to_string (Z.of_nat (length id)) ++ id) <$> ids) ++ tail ->
  ascii name -> forallb c_ident ids = true -> Forall (fun c => is_ascii_digit c = false) tail ->
  Z.of_nat (length name) < 2 ^ 63 -> (length name - length pre < fuel)%nat ->
  mangled_scan fuel name name (Z.of_nat (length pre)) best = Ret (longest best ids).
Proof.
  revert pre fuel best. induction ids as [|id ids IH]; intros pre fuel best En Ha Hids Ht HL Hf.
  - csimpl in En. assert (HL' := f_equal length En). rewrite length_app in HL'.
    apply (scan_tail name pre tail); [done|done|lia].
  - destruct fuel as [|fuel]; [lia|]. cbn [forallb] in Hids. apply andb_true_iff in Hids as [Hid Hids].
    csimpl in En. rewrite <- !app_assoc in En. rewrite (scan_ident _ _ _ _ _ _ En Ha Hid HL).
    apply IH; [by rewrite En, <- !app_assoc|done..|].
    assert (to_string (Z.of_nat (length id)) <> []) by apply to_string_nonempty.
    assert (HL' := f_equal length En). rewrite !length_app in *.
    destruct (to_string _); [done|]. simpl in *. lia.
Qed.

Lemma trim_end_id s : Forall (fun c => is_whitespace c = false) s -> trim_end s = s.
Proof.
  induction 1 as [|c s Hc _ IH]; simpl; [done|]. rewrite IH. destruct s; [by rewrite Hc|done].
Qed.

(** A C identifier passes the later steps unchanged. *)
Lemma normalize_ident raw b :
  demangle raw = Ret b -> c_ident b = true -> strip_suffix b = Ret b -> blen b <= 64 ->
  normalize_kernel_name raw = Ret b.
Proof.
  intros Ed (Hne & Hb & _ & _)%c_ident_spec Hs Hlen. unfold normalize_kernel_name. rewrite Ed.
  cbn [mbind outcome_bind]. rewrite Forall_forall in Hb.
  rewrite (proj2 (strip_templates_spec b)) by (intros Hin; destruct (Hb _ Hin) as (_ & ? & _); done).
  unfold strip_args. destruct (find_char 40 b) as [o|] eqn:Ef.
  { apply find_char_Some in Ef as (p & t & -> & _ & _). exfalso.
    destruct (Hb 40) as [? _]; [|lia]. apply elem_of_app. right. by left. }
  cbn [mbind outcome_bind]. rewrite trim_end_id by (apply Forall_forall; intros c Hc; by apply Hb).
  rewrite Hs. cbn [mbind outcome_bind]. unfold truncate_utf8_bytes.
  destruct (Z.leb_spec (blen b) (Z.of_nat 64)); [|lia]. cbn [mbind outcome_bind].
  by case_bool_decide.
Qed.

(** a nested mangled name normalises to its longest identifier.  For
    _ZN<len><ident>..., with identifiers of any number and a rest without digits,
    the result is the first identifier of greatest length, when it has at most 64
    bytes and no numeric suffix. *)
Theorem normalize_nested ids tail :
  ids <> [] -> forallb c_ident ids = true -> ascii tail ->
  Forall (fun c => is_ascii_digit c = false) tail ->
  Z.of_nat (length (nested_name ids tail)) < 2 ^ 63 ->
  exists b, b ∈ ids /\ (forall id, id ∈ ids -> blen id <= blen b) /\
    (blen b <= 64 -> strip_suffix b = Ret b ->
     normalize_kernel_name (nested_name ids tail) = Ret b).
Proof.
  intros Hne Hids Ha Ht HL. exists (longest [] ids).
  destruct (longest_spec ids []) as (Hin & _ & Hmax).
  assert (Hin' : longest [] ids ∈ ids).
  { destruct Hin as [E|]; [|done]. rewrite E in *. exfalso. destruct ids as [|id ids]; [done|].
    cbn [forallb] in Hids. apply andb_true_iff in Hids as [(Hid & _)%c_ident_spec _].
    specialize (Hmax id ltac:(by left)). apply Hid, blen_nil. pose proof (blen_nonneg id).
    simpl in Hmax. lia. }
  assert (Hid : c_ident (longest [] ids) = true).
  { rewrite forallb_forall in Hids. by apply Hids, list_elem_of_In. }
  split; [done|]. split; [done|]. intros Hlen Hs. apply normalize_ident; [|done..].
  assert (Hname : ascii (nested_name ids tail)).
  { unfold nested_name. rewrite !ascii_app. split; [fits_const|]. split; [|done].
    apply Forall_join, Forall_fmap. rewrite forallb_forall in Hids. apply Forall_forall.
    intros id Hi%list_elem_of_In. apply Forall_app. split; [apply digits_ascii, to_string_digits|].
    destruct (c_ident_spec id) as (_ & Hc & _); [by apply Hids|].
    eapply Forall_impl; [exact Hc|]. simpl. lia. }
  unfold demangle. rewrite (ascii_as_bytes _ Hname).
  unfold nested_name at 1. rewrite (proj2 (starts_with_spec _ _)) by (by eexists (lit "N" ++ _)).
  set (name := nested_name ids tail) in *.
  assert (Hl : length name = (3 + length (mjoin ((fun id => to_string (Z.of_nat (length id)) ++ id)
    <$> ids) ++ tail))%nat) by done.
  cbn [mangled_scan]. destruct (Z.ltb_spec 2 (Z.of_nat (length name))); [|lia].
  change (is_ascii_digit (arr name (Z.to_nat 2))) with false. cbn [mbind outcome_bind].
  change (2 + 1) with (Z.of_nat (length (lit "_ZN"))).
  rewrite (scan_nested name _ ids tail _ [] eq_refl Hname Hids Ht HL).
  - cbn [mbind outcome_bind]. destruct (c_ident_spec _ Hid) as (Hn & _). by rewrite bool_decide_eq_false_2.
  - change (length (lit "_ZN")) with 3%nat. lia.
Qed.
End Total.

(** ** Witnesses *)

Lemma normalize_total_witness :
  exists r, normalize_kernel_name (lit "_ZN4cuda6kernelILi128EEvPT_") = Ret r /\ blen r <= 64.
Proof.
  destruct (normalize_total (lit "_ZN4cuda6kernelILi128EEvPT_") ltac:(fits_const))
    as [_ H]. destruct H as (s & r & _ & Hr & Hl & _).
  - intros _. split_and!; [fits_const|by vm_compute].
  - exact (ex_intro _ r (conj Hr Hl)).
Defined.

Lemma normalize_nested_witness :
  exists b, b ∈ [lit "cuda"; lit "softmax_warp"] /\
    normalize_kernel_name (nested_name [lit "cuda"; lit "softmax_warp"] (lit "EvPT_")) = Ret b.
Proof.
  destruct (normalize_nested [lit "cuda"; lit "softmax_warp"] (lit "EvPT_")) as (b & Hb & Hmax & Hn).
  - done.
  - by vm_compute.
  - fits_const.
  - fits_const.
  - by vm_compute.
  - exists b. split; [done|]. apply Hn.
    + apply elem_of_cons in Hb as [->|Hb%list_elem_of_singleton]; [|subst b]; by vm_compute.
    + apply elem_of_cons in Hb as [->|Hb%list_elem_of_singleton]; [|subst b]; by vm_compute.
Defined.
