(* ===== verification/Metrics.v ===== *)
(** * Metrics: src/src/metrics.rs

    The metric families with their label names, the utility functions that turn
    event fields into label values, and the interface of the Prometheus library
    that the rest of userspace is written against.  The library is not part of
    the repository: [Prometheus] lists the operations userspace calls and
    [PrometheusLaws] what its documentation says of them; [store_prometheus] is a
    small store that obeys the laws. *)

From stdpp Require Import strings.
From S2P Require Import Prelude RustStd Events.

Local Open Scope Z_scope.
#[local] Set Warnings "-clear-no-such-hyp".

(** ** The families of [Metrics] that carry labels of calls *)

Inductive metric :=
| cuda_calls | cuda_duration | cuda_duration_bucket_total | cuda_duration_sum_seconds_total
| cuda_duration_count_total | cuda_memcpy_bytes | cuda_malloc_bytes | cuda_errors
| cuda_active_memory
| nccl_calls | nccl_duration | nccl_duration_bucket_total | nccl_duration_sum_seconds_total
| nccl_duration_count_total | nccl_bytes
| cuda_kernel_launches | cuda_kernel_duration | cuda_kernel_duration_bucket_total
| cuda_kernel_duration_sum_seconds_total | cuda_kernel_duration_count_total.

#[export] Instance metric_eq_dec : EqDecision metric.
Proof. solve_decision. Defined.

Definition all_metrics : list metric :=
  [cuda_calls; cuda_duration; cuda_duration_bucket_total; cuda_duration_sum_seconds_total;
   cuda_duration_count_total; cuda_memcpy_bytes; cuda_malloc_bytes; cuda_errors;
   cuda_active_memory;
   nccl_calls; nccl_duration; nccl_duration_bucket_total; nccl_duration_sum_seconds_total;
   nccl_duration_count_total; nccl_bytes;
   cuda_kernel_launches; cuda_kernel_duration; cuda_kernel_duration_bucket_total;
   cuda_kernel_duration_sum_seconds_total; cuda_kernel_duration_count_total].

#[export, refine] Instance metric_finite : finite.Finite metric := {| finite.enum := all_metrics |}.
Proof.
  - apply (bool_decide_unpack _). by vm_compute.
  - intros x. apply (bool_decide_unpack _). by destruct x.
Defined.

#[export] Instance metric_countable : Countable metric := finite.finite_countable.

(** The label names of each family. *)
Definition COUNTER_LABELS : list string :=
  ["operation"; "pid"; "comm"; "namespace"; "pod"; "container"; "gpu"; "gpu_uuid"; "stream"].
Definition HIST_LABELS : list string := ["operation"; "namespace"; "pod"; "gpu"].
Definition HIST_BUCKET_LABELS : list string := ["operation"; "namespace"; "pod"; "gpu"; "le"].
Definition MEMCPY_COUNTER_LABELS : list string :=
  ["direction"; "pid"; "comm"; "namespace"; "pod"; "container"; "gpu"; "gpu_uuid"; "stream"].
Definition MALLOC_LABELS : list string :=
  ["pid"; "comm"; "namespace"; "pod"; "container"; "gpu"; "gpu_uuid"].
Definition NCCL_COUNTER_LABELS : list string :=
  ["operation"; "pid"; "comm"; "namespace"; "pod"; "container"; "gpu"; "gpu_uuid"].
Definition NCCL_HIST_LABELS : list string := ["operation"; "namespace"; "pod"; "gpu"].
Definition NCCL_HIST_BUCKET_LABELS : list string := ["operation"; "namespace"; "pod"; "gpu"; "le"].
Definition NCCL_BYTES_LABELS : list string :=
  ["operation"; "pid"; "comm"; "namespace"; "pod"; "container"; "gpu"; "gpu_uuid"].
Definition KERNEL_COUNTER_LABELS : list string :=
  ["kernel"; "pid"; "comm"; "namespace"; "pod"; "container"; "gpu"; "gpu_uuid"; "kernel_class";
   "phase"].
Definition KERNEL_HIST_LABELS : list string :=
  ["kernel"; "namespace"; "pod"; "gpu"; "kernel_class"; "phase"].
Definition KERNEL_HIST_BUCKET_LABELS : list string :=
  ["kernel"; "namespace"; "pod"; "gpu"; "kernel_class"; "phase"; "le"].
Definition ERROR_LABELS : list string :=
  ["operation"; "pid"; "comm"; "namespace"; "pod"; "container"; "gpu"; "gpu_uuid"; "error_code"].
Definition ACTIVE_MEM_LABELS : list string :=
  ["pid"; "comm"; "namespace"; "pod"; "container"; "gpu"; "gpu_uuid"].

(** The registrations of [Metrics::new]. *)
Definition label_names (m : metric) : list string :=
  match m with
  | cuda_calls => COUNTER_LABELS
  | cuda_duration => HIST_LABELS
  | cuda_duration_bucket_total => HIST_BUCKET_LABELS
  | cuda_duration_sum_seconds_total | cuda_duration_count_total => HIST_LABELS
  | cuda_memcpy_bytes => MEMCPY_COUNTER_LABELS
  | cuda_malloc_bytes => MALLOC_LABELS
  | cuda_errors => ERROR_LABELS
  | cuda_active_memory => ACTIVE_MEM_LABELS
  | nccl_calls => NCCL_COUNTER_LABELS
  | nccl_duration => NCCL_HIST_LABELS
  | nccl_duration_bucket_total => NCCL_HIST_BUCKET_LABELS
  | nccl_duration_sum_seconds_total | nccl_duration_count_total => NCCL_HIST_LABELS
  | nccl_bytes => NCCL_BYTES_LABELS
  | cuda_kernel_launches => KERNEL_COUNTER_LABELS
  | cuda_kernel_duration => KERNEL_HIST_LABELS
  | cuda_kernel_duration_bucket_total => KERNEL_HIST_BUCKET_LABELS
  | cuda_kernel_duration_sum_seconds_total | cuda_kernel_duration_count_total => KERNEL_HIST_LABELS
  end.

(** ** Label values *)

Definition operation_name (event_type : Z) : str :=
  if event_type =? EVENT_CUDA_MALLOC then lit "cudaMalloc"
  else if event_type =? EVENT_CUDA_FREE then lit "cudaFree"
  else if event_type =? EVENT_CUDA_MEMCPY then lit "cudaMemcpy"
  else if event_type =? EVENT_CUDA_MEMCPY_ASYNC then lit "cudaMemcpyAsync"
  else if event_type =? EVENT_CUDA_LAUNCH_KERNEL then lit "cudaLaunchKernel"
  else if event_type =? EVENT_CUDA_MALLOC_ASYNC then lit "cudaMallocAsync"
  else if event_type =? EVENT_CUDA_FREE_ASYNC then lit "cudaFreeAsync"
  else if event_type =? EVENT_NCCL_ALL_REDUCE then lit "ncclAllReduce"
  else if event_type =? EVENT_NCCL_ALL_GATHER then lit "ncclAllGather"
  else if event_type =? EVENT_NCCL_REDUCE_SCATTER then lit "ncclReduceScatter"
  else if event_type =? EVENT_NCCL_BROADCAST then lit "ncclBroadcast"
  else if event_type =? EVENT_NCCL_SEND then lit "ncclSend"
  else if event_type =? EVENT_NCCL_RECV then lit "ncclRecv"
  else if event_type =? EVENT_CUDA_STREAM_SYNC then lit "cudaStreamSync"
  else if event_type =? EVENT_CUDA_EVENT_SYNC then lit "cudaEventSync"
  else if event_type =? EVENT_CUDA_MALLOC_HOST then lit "cudaMallocHost"
  else if event_type =? EVENT_CUDA_FREE_HOST then lit "cudaFreeHost"
  else if event_type =? EVENT_CUDA_MEMSET then lit "cudaMemset"
  else if event_type =? EVENT_CUDA_MEMSET_ASYNC then lit "cudaMemsetAsync"
  else if event_type =? EVENT_CUDA_GRAPH_LAUNCH then lit "cudaGraphLaunch"
  else if event_type =? EVENT_CUDA_GRAPH_INSTANTIATE then lit "cudaGraphInstantiate"
  else if event_type =? EVENT_CUDA_MODULE_LOAD then lit "cuModuleLoadData"
  else lit "unknown".

Definition memcpy_direction (kind : Z) : str :=
  if kind =? MEMCPY_H2H then lit "h2h"
  else if kind =? MEMCPY_H2D then lit "h2d"
  else if kind =? MEMCPY_D2H then lit "d2h"
  else if kind =? MEMCPY_D2D then lit "d2d"
  else if 255 <? kind then lit "p2p"
  else lit "unknown".

Definition stream_label (stream : Z) : str :=
  if stream =? 0 then lit "default" else lit "0x" ++ lower_hex stream.

(** [NCCL_DTYPE_SIZES.get(dtype).copied().unwrap_or(1)]; the product wraps. *)
Definition nccl_event_bytes (event : CudaEvent) : Z :=
  let dtype_size := default 1 (rs_NCCL_DTYPE_SIZES !! Z.to_nat (ce_memcpy_kind event)) in
  u64 (ce_size event * dtype_size).

Definition nvtx_hash (marker : list Z) : Z :=
  foldl (fun h b => u64 (u64 (h * 31) + b)) 0 marker.

(** Streams keep their own labels. *)
Lemma stream_label_inj s1 s2 :
  fits 64 s1 -> fits 64 s2 -> stream_label s1 = stream_label s2 -> s1 = s2.
Proof.
  intros H1 H2. unfold stream_label.
  destruct (Z.eqb_spec s1 0), (Z.eqb_spec s2 0); try congruence; [done..|].
  intros E%app_inv_head. by apply lower_hex_inj.
Qed.

(** ** The Prometheus library *)

(** A registry holds, for each family and each list of label values, at most one
    child, which is what a scrape exports.  A handle refers to a child and keeps
    referring to it after the child is removed from its family. *)
Class Prometheus := {
  Registry : Type;
  Cell : Type;
  child : Registry -> metric -> list str -> option Cell;
  children : Registry -> list (metric * list str);   (* what [gather] collects *)
  with_label_values : Registry -> metric -> list str -> Registry * Cell;
  remove_label_values : Registry -> metric -> list str -> Registry;
  value : Registry -> Cell -> Z;
  inc_by : Registry -> Cell -> Z -> Registry;
  set_to : Registry -> Cell -> Z -> Registry;
  observe : Registry -> Cell -> Z -> Registry
}.

Class PrometheusLaws `{!Prometheus} : Prop := {
  children_nodup : forall r, NoDup (children r);
  children_child : forall r m l, (m, l) ∈ children r <-> is_Some (child r m l);
  with_child : forall r m l, child (with_label_values r m l).1 m l = Some (with_label_values r m l).2;
  with_existing : forall r m l c, child r m l = Some c -> with_label_values r m l = (r, c);
  with_other : forall r m l m' l', (m, l) <> (m', l') ->
    child (with_label_values r m l).1 m' l' = child r m' l';
  remove_child : forall r m l, child (remove_label_values r m l) m l = None;
  remove_other : forall r m l m' l', (m, l) <> (m', l') ->
    child (remove_label_values r m l) m' l' = child r m' l';
  inc_child : forall r c x m l, child (inc_by r c x) m l = child r m l;
  inc_same : forall r c x, value (inc_by r c x) c = value r c + x;
  inc_other : forall r c c' x, c <> c' -> value (inc_by r c x) c' = value r c';
  with_value : forall r m l m' l' c, child r m' l' = Some c ->
    value (with_label_values r m l).1 c = value r c;
  with_fresh : forall r m l, child r m l = None ->
    value (with_label_values r m l).1 (with_label_values r m l).2 = 0;
  remove_value : forall r m l c, value (remove_label_values r m l) c = value r c;
  set_child : forall r c x m l, child (set_to r c x) m l = child r m l;
  set_same : forall r c x, value (set_to r c x) c = x;
  set_other : forall r c c' x, c <> c' -> value (set_to r c x) c' = value r c';
  observe_child : forall r c x m l, child (observe r c x) m l = child r m l;
  observe_value : forall r c x c', value (observe r c x) c' = value r c';
  child_inj : forall r m l m' l' c, child r m l = Some c -> child r m' l' = Some c -> (m, l) = (m', l')
}.

(** Association lists, the most recent entry first. *)
Fixpoint assoc {K V} `{!EqDecision K} (k : K) (l : list (K * V)) : option V :=
  match l with
  | [] => None
  | (k', v) :: l => if decide (k = k') then Some v else assoc k l
  end.

Definition unassoc {K V} `{!EqDecision K} (k : K) (l : list (K * V)) : list (K * V) :=
  filter (fun kv => kv.1 <> k) l.

Lemma assoc_eq {K V} `{!EqDecision K} (k : K) (v : V) l : assoc k ((k, v) :: l) = Some v.
Proof. simpl. by rewrite decide_True. Qed.

Lemma assoc_ne {K V} `{!EqDecision K} (k k' : K) (v : V) l :
  k <> k' -> assoc k ((k', v) :: l) = assoc k l.
Proof. intros Hne. simpl. by rewrite decide_False. Qed.

Lemma assoc_unassoc {K V} `{!EqDecision K} (k k' : K) (l : list (K * V)) :
  assoc k (unassoc k' l) = if decide (k = k') then None else assoc k l.
Proof.
  unfold unassoc. induction l as [|[j v] l IH]; simpl; [by case_decide|].
  rewrite filter_cons. simpl. repeat case_decide; simplify_eq; simpl; rewrite ?IH, ?decide_True,
    ?decide_False by done; try done; by repeat case_decide.
Qed.

Lemma assoc_is_Some {K V} `{!EqDecision K} (k : K) (l : list (K * V)) :
  is_Some (assoc k l) <-> k ∈ l.*1.
Proof.
  induction l as [|[j v] l IH]; csimpl.
  - split; [by intros []|by intros ?%elem_of_nil].
  - rewrite elem_of_cons, <- IH. case_decide; naive_solver.
Qed.

(** A store that obeys the laws: a child is named by its family, its labels and a
    serial number. *)
Record Store := mkStore {
  st_next : nat;
  st_children : list (metric * list str * nat);
  st_values : list (metric * list str * nat * Z);
  st_observed : list (metric * list str * nat * Z)
}.

#[export] Instance store_prometheus : Prometheus := {|
  Registry := Store;
  Cell := metric * list str * nat;
  child r m l := (fun n => (m, l, n)) <$> assoc (m, l) (st_children r);
  children r := remove_dups (st_children r).*1;
  with_label_values r m l :=
    match assoc (m, l) (st_children r) with
    | Some n => (r, (m, l, n))
    | None => (mkStore (S (st_next r)) ((m, l, st_next r) :: st_children r)
                 ((m, l, st_next r, 0) :: st_values r) (st_observed r),
               (m, l, st_next r))
    end;
  remove_label_values r m l :=
    mkStore (st_next r) (unassoc (m, l) (st_children r)) (st_values r) (st_observed r);
  value r c := default 0 (assoc c (st_values r));
  inc_by r c x :=
    mkStore (st_next r) (st_children r) ((c, default 0 (assoc c (st_values r)) + x) :: st_values r)
      (st_observed r);
  set_to r c x := mkStore (st_next r) (st_children r) ((c, x) :: st_values r) (st_observed r);
  observe r c x := mkStore (st_next r) (st_children r) (st_values r) ((c, x) :: st_observed r)
|}.

Definition empty_store : Store := mkStore 0 [] [] [].

#[export] Instance store_laws : PrometheusLaws.
Proof.
  split; cbn [children child with_label_values remove_label_values value inc_by set_to observe
              store_prometheus st_children st_values].
  - intros r. apply NoDup_remove_dups.
  - intros r m l. by rewrite elem_of_remove_dups, fmap_is_Some, assoc_is_Some.
  - intros r m l. destruct (assoc (m, l) (st_children r)) as [n|] eqn:E; [cbn [fst snd]; by rewrite E|].
    cbn [fst snd st_children]. by rewrite assoc_eq.
  - intros r m l c (n & -> & ->)%fmap_Some. done.
  - intros r m l m' l' Hne. destruct (assoc (m, l) (st_children r)) as [n|]; [done|].
    cbn [fst st_children]. by rewrite assoc_ne.
  - intros. by rewrite assoc_unassoc, decide_True.
  - intros. by rewrite assoc_unassoc, decide_False.
  - done.
  - intros. by rewrite assoc_eq.
  - intros. by rewrite assoc_ne.
  - intros r m l m' l' c (n & Hn & ->)%fmap_Some.
    destruct (assoc (m, l) (st_children r)) as [k|] eqn:E; [done|]. cbn [fst st_values].
    rewrite assoc_ne; [done|]. intros [= -> -> _]. by rewrite E in Hn.
  - intros r m l Hc%fmap_None. rewrite Hc. cbn [fst snd st_values]. by rewrite assoc_eq.
  - done.
  - done.
  - intros. by rewrite assoc_eq.
  - intros. by rewrite assoc_ne.
  - done.
  - done.
  - intros r m l m' l' c (n & _ & ->)%fmap_Some (n' & _ & [= -> -> _])%fmap_Some. done.
Qed.

(** ** Updates of a registry *)

Section Updates.
Context `{PrometheusLaws}.

Definition remove_all (r : Registry) (ls : list (metric * list str)) : Registry :=
  foldl (fun r ml => remove_label_values r ml.1 ml.2) r ls.

Lemma remove_all_child r ls m l :
  child (remove_all r ls) m l = if decide ((m, l) ∈ ls) then None else child r m l.
Proof.
  unfold remove_all. revert r.
  induction ls as [|[m1 l1] ls IH]; intros r; cbn [foldl fst snd].
  { case_decide as Hin; [|done]. by apply elem_of_nil in Hin. }
  rewrite IH. case_decide as Hin; case_decide as Hin'; try done.
  - exfalso. apply Hin'. by right.
  - apply elem_of_cons in Hin' as [[= -> ->]|]; [by rewrite remove_child|done].
  - apply remove_other. intros [= -> ->]. apply Hin'. by left.
Qed.

Lemma remove_all_value r ls c : value (remove_all r ls) c = value r c.
Proof.
  unfold remove_all. revert r. induction ls as [|ml ls IH]; intros r; cbn [foldl]; [done|].
  by rewrite IH, remove_value.
Qed.

(** Creating a child leaves the exported children as they are. *)
Lemma with_mono r m l m' l' c :
  child r m' l' = Some c -> child (with_label_values r m l).1 m' l' = Some c.
Proof.
  intros Hc. destruct (decide ((m, l) = (m', l'))) as [[= -> ->]|Hne].
  - by rewrite (with_existing _ _ _ _ Hc).
  - by rewrite with_other.
Qed.

(** The registry after children were asked for. *)
Definition creates (ls : list (metric * list str)) (r r' : Registry) : Prop :=
  r' = foldl (fun r ml => (with_label_values r ml.1 ml.2).1) r ls.

Lemma creates_trans l1 l2 r r1 r2 : creates l1 r r1 -> creates l2 r1 r2 -> creates (l1 ++ l2) r r2.
Proof. unfold creates. intros -> ->. by rewrite foldl_app. Qed.

Lemma creates_child ls r r' m l :
  creates ls r r' -> is_Some (child r' m l) -> is_Some (child r m l) \/ (m, l) ∈ ls.
Proof.
  unfold creates. intros ->. revert r. induction ls as [|[m1 l1] ls IH]; intros r; cbn [foldl]; [by left|].
  intros [Hs|Hin]%IH; [|right; by right]. simpl in Hs.
  destruct (decide ((m1, l1) = (m, l))) as [[= -> ->]|Hne]; [right; left|].
  left. by rewrite with_other in Hs.
Qed.

(** ** Sums over the exported children *)

Definition exported (r : Registry) (ml : metric * list str) : Z :=
  match child r ml.1 ml.2 with Some c => value r c | None => 0 end.

Section Sums.
Context (P : metric * list str -> Prop) `{!forall ml, Decision (P ml)}.

Definition exported_sum (r : Registry) : Z := sumZ (exported r <$> filter P (children r)).

Lemma exported_sum_perm r cs : children r ≡ₚ cs -> exported_sum r = sumZ (exported r <$> filter P cs).
Proof. intros E. unfold exported_sum. by rewrite E. Qed.

Lemma children_perm r cs :
  NoDup cs -> (forall m l, (m, l) ∈ cs <-> is_Some (child r m l)) -> children r ≡ₚ cs.
Proof.
  intros Hnd Hin. apply NoDup_Permutation; [apply children_nodup|done|].
  intros [m l]. by rewrite children_child, Hin.
Qed.

(** A step that keeps the summed children and their values keeps the sum. *)
Lemma exported_sum_same r r' :
  (forall m l, P (m, l) -> child r' m l = child r m l) ->
  (forall m l c, P (m, l) -> child r m l = Some c -> value r' c = value r c) ->
  exported_sum r' = exported_sum r.
Proof.
  intros Hc Hv. unfold exported_sum.
  assert (E : filter P (children r') ≡ₚ filter P (children r)).
  { apply NoDup_Permutation; [by apply NoDup_filter, children_nodup..|].
    intros [m l]. rewrite !list_elem_of_filter, !children_child.
    split; intros [HP Hs]; split; try done; by rewrite Hc in *. }
  rewrite E. apply sumZ_fmap_ext. intros [m l] [HP _]%list_elem_of_filter. unfold exported. simpl.
  rewrite Hc by done. destruct (child r m l) as [c|] eqn:Ec; [|done]. by apply (Hv m l).
Qed.

Lemma exported_sum_with r m l : exported_sum (with_label_values r m l).1 = exported_sum r.
Proof.
  destruct (child r m l) as [c|] eqn:E; [by rewrite (with_existing _ _ _ _ E)|].
  set (r' := (with_label_values r m l).1).
  rewrite (exported_sum_perm r' ((m, l) :: children r)).
  - assert (Hold : sumZ (exported r' <$> filter P (children r)) = exported_sum r).
    { apply sumZ_fmap_ext. intros [m' l'] [_ Hin%children_child]%list_elem_of_filter.
      destruct Hin as [c Hc]. unfold exported, r'. simpl. rewrite (with_mono _ _ _ _ _ _ Hc), Hc.
      by apply (with_value _ _ _ m' l'). }
    rewrite filter_cons. case_decide; [|done]. csimpl. rewrite Hold.
    unfold exported. simpl. unfold r'. rewrite with_child, with_fresh by done. lia.
  - apply children_perm.
    + constructor; [|apply children_nodup]. rewrite children_child, E. by intros [].
    + intros m' l'. rewrite elem_of_cons, children_child.
      destruct (decide ((m, l) = (m', l'))) as [[= <- <-]|Hne].
      * unfold r'. rewrite with_child. naive_solver.
      * unfold r'. rewrite with_other by done. naive_solver.
Qed.

Lemma exported_sum_creates ls r r' : creates ls r r' -> exported_sum r' = exported_sum r.
Proof.
  unfold creates. intros ->. revert r. induction ls as [|ml ls IH]; intros r; cbn [foldl]; [done|].
  by rewrite IH, exported_sum_with.
Qed.

Lemma exported_sum_inc r m l c x :
  child r m l = Some c ->
  exported_sum (inc_by r c x) = exported_sum r + if decide (P (m, l)) then x else 0.
Proof.
  intros Hc. rewrite (exported_sum_perm (inc_by r c x) (children r)).
  2: { apply children_perm; [apply children_nodup|]. intros m' l'. by rewrite children_child, inc_child. }
  assert (G : forall cs, NoDup cs -> (forall m l, (m, l) ∈ cs -> is_Some (child r m l)) ->
    sumZ (exported (inc_by r c x) <$> filter P cs) = sumZ (exported r <$> filter P cs) +
      if decide ((m, l) ∈ cs /\ P (m, l)) then x else 0).
  { intros cs. induction cs as [|[m' l'] cs IH]; intros Hnd Hin.
    { rewrite decide_False by (by intros [?%elem_of_nil _]). done. }
    apply NoDup_cons in Hnd as [Hni Hnd]. rewrite !filter_cons.
    specialize (IH Hnd ltac:(intros; apply Hin; by right)).
    assert (Hne : (m', l') <> (m, l) -> exported (inc_by r c x) (m', l') = exported r (m', l')).
    { intros Hne. unfold exported. simpl. rewrite inc_child.
      destruct (child r m' l') as [c'|] eqn:Ec; [|done]. apply inc_other. intros <-.
      by apply Hne, (child_inj r _ _ _ _ c). }
    destruct (decide ((m', l') = (m, l))) as [[= -> ->]|Hd].
    - rewrite decide_False in IH by naive_solver. case_decide as HP.
      + rewrite decide_True by (split; [left|done]). csimpl. rewrite IH.
        unfold exported at 1 3. simpl. rewrite inc_child, Hc, inc_same. lia.
      + rewrite decide_False by naive_solver. by rewrite IH.
    - assert (E : (m, l) ∈ (m', l') :: cs /\ P (m, l) <-> (m, l) ∈ cs /\ P (m, l)).
      { rewrite elem_of_cons. naive_solver. }
      rewrite (decide_ext _ _ x 0 E). destruct (decide (P (m', l'))); [|done].
      csimpl. rewrite IH, Hne by done. lia. }
  rewrite G by (apply children_nodup || by intros; apply children_child). f_equal.
  apply decide_ext. rewrite children_child, Hc. naive_solver.
Qed.

Lemma exported_sum_remove_none r ls :
  (forall ml, ml ∈ ls -> ~ P ml) -> exported_sum (remove_all r ls) = exported_sum r.
Proof.
  intros Hls. apply exported_sum_same.
  - intros m l HP. rewrite remove_all_child. case_decide as Hin; [by apply Hls in Hin|done].
  - intros m l c _ _. apply remove_all_value.
Qed.

Lemma exported_sum_none r :
  (forall m l, is_Some (child r m l) -> ~ P (m, l)) -> exported_sum r = 0.
Proof.
  intros Hno. unfold exported_sum.
  rewrite filter_none; [done|]. apply Forall_forall. intros [m l] Hin%children_child. by apply Hno.
Qed.
End Sums.
End Updates.
