(* ===== verification/Cache.v ===== *)
(** * The metric handle cache: src/src/cache.rs

    [get_or_create] maps the fields of an event to the counters it belongs to,
    within the cardinality limits, and panics when the enricher's lookup does; [touch], [invalidate_pids] and [gc] keep the
    cache in step with the processes.  The registry of the Prometheus library is
    shared: a cached handle refers to a child of a metric family, and the child
    can be removed from the family behind it. *)

From stdpp Require Import strings.
From S2P Require Import Prelude RustStd Events Kernel Metrics Export.

Local Open Scope Z_scope.

(** ** Data *)

(** [MetricKey], a tuple in the source *)
Record MetricKey := mkMetricKey {
  mk_event_type : Z; mk_pid : Z; mk_memcpy_kind : Z; mk_error_code : Z;
  mk_stream : Z; mk_addr : Z; mk_nvtx : Z
}.

#[export] Instance MetricKey_eq_dec : EqDecision MetricKey.
Proof. solve_decision. Defined.

#[export] Instance MetricKey_countable : Countable MetricKey.
Proof.
  refine (inj_countable'
    (fun k => [mk_event_type k; mk_pid k; mk_memcpy_kind k; mk_error_code k; mk_stream k; mk_addr k;
               mk_nvtx k])
    (fun l => match l with
              | [a; b; c; d; e; f; g] => mkMetricKey a b c d e f g
              | _ => mkMetricKey 0 0 0 0 0 0 0
              end) _). by intros [].
Defined.

Record CardinalityLimits := mkCardinalityLimits {
  max_time_series : nat; max_streams_per_pid : nat; max_kernels_per_pid : nat
}.

(** The labels of a process, resolved from the interner. *)
Record Labels := mkLabels {
  lb_comm : str; lb_namespace : str; lb_pod : str; lb_container : str; lb_gpu : str;
  lb_gpu_uuid : str
}.

(** The order in which a hash map is walked is not specified. *)
Class HashOrder (K : Type) `{Countable K} := {
  hash_keys : forall {V : Type}, gmap K V -> list K;
  hash_keys_perm : forall V (m : gmap K V), hash_keys m ≡ₚ (map_to_list m).*1
}.

Section Cache.
Context `{!Prometheus, !HashOrder MetricKey, !HashOrder Z}.

Record CachedHandles := mkCachedHandles {
  calls : Cell;
  duration : Cell;
  memcpy_bytes : option Cell;
  malloc_bytes : option Cell;
  nccl_bytes_counter : option Cell;
  kernel_counter : option Cell;
  kernel_histogram : option Cell;
  errors_counter : option Cell;
  calls_labels : list str;
  hist_labels : list str;
  memcpy_labels : option (list str);
  malloc_labels : option (list str);
  nccl_bytes_labels : option (list str);
  kernel_counter_labels : option (list str);
  kernel_hist_labels : option (list str);
  errors_labels : option (list str)
}.

Record MetricHandleCache := mkMetricHandleCache {
  handles : gmap MetricKey CachedHandles;
  last_seen : gmap Z Z;                 (* the Instant of the last touch, in ns *)
  streams_per_pid : gmap Z (gset Z);
  kernels_per_pid : gmap Z (gset Z)
}.

(** [MetricHandleCache::new] *)
Definition new_cache : MetricHandleCache := mkMetricHandleCache ∅ ∅ ∅ ∅.

(** The cache, the registry and the counter cardinality_drops. *)
Record Userland := mkUserland {
  us_cache : MetricHandleCache; us_reg : Registry; us_drops : Z
}.

(** What [get_or_create] is given besides the key: whether the kernel duration
    histogram exists, the answers of the enricher, which can panic, and of
    /proc/<pid>/comm, the
    kernel names resolved so far, the limits. *)
Record CreateArgs := mkCreateArgs {
  ca_full : bool;
  ca_lookup : Z -> str -> outcome Labels;
  ca_proc_comm : Z -> option str;
  ca_kernel_names : gmap (Z * Z) str;
  ca_limits : CardinalityLimits
}.

(** ** Cardinality limits of one process *)

(** An identifier that is new to a process that has [cap] of them becomes 0. *)
Definition limit_id (seen : gmap Z (gset Z)) (pid id : Z) (cap : nat) : gmap Z (gset Z) * Z :=
  let ids := default ∅ (seen !! pid) in
  if decide (id ∈ ids) then (<[pid := ids]> seen, id)
  else if decide (size ids < cap)%nat then (<[pid := {[id]} ∪ ids]> seen, id)
  else (<[pid := ids]> seen, 0).

Definition limit_key (limits : CardinalityLimits) (key : MetricKey) (cache : MetricHandleCache)
    : MetricHandleCache * MetricKey :=
  let '(streams, stream) :=
    if negb (mk_stream key =? 0)
    then limit_id (streams_per_pid cache) (mk_pid key) (mk_stream key) (max_streams_per_pid limits)
    else (streams_per_pid cache, mk_stream key) in
  let '(kernels, addr) :=
    if negb (mk_addr key =? 0) && (mk_event_type key =? EVENT_CUDA_LAUNCH_KERNEL)
    then limit_id (kernels_per_pid cache) (mk_pid key) (mk_addr key) (max_kernels_per_pid limits)
    else (kernels_per_pid cache, mk_addr key) in
  (mkMetricHandleCache (handles cache) (last_seen cache) streams kernels,
   mkMetricKey (mk_event_type key) (mk_pid key) (mk_memcpy_kind key) (mk_error_code key) stream addr
     (mk_nvtx key)).

(** ** Creating handles *)

(** [event.comm] up to the first NUL, or /proc/<pid>/comm when it is empty. *)
Definition event_comm (args : CreateArgs) (event : CudaEvent) : str :=
  let bytes := until_nul (ce_comm event) in
  let comm_str := default (lit "unknown") (from_utf8 bytes) in
  if bool_decide (comm_str = [])
  then match ca_proc_comm args (ce_pid event) with
       | Some c => trim_end c
       | None => lit "unknown"
       end
  else comm_str.

(** The handle and its labels, when the metric applies to the event. *)
Definition with_opt (r : Registry) (b : bool) (m : metric) (l : list str)
    : Registry * (option Cell * option (list str)) :=
  if b then let '(r, c) := with_label_values r m l in (r, (Some c, Some l)) else (r, (None, None)).

Definition kernel_name_of (args : CreateArgs) (event : CudaEvent) (addr : Z) : str :=
  if addr =? 0 then lit "aggregated"
  else default (lit "unknown_0x" ++ lower_hex addr) (ca_kernel_names args !! (ce_pid event, addr)).

Definition event_phase (event : CudaEvent) : str :=
  let bytes := until_nul (ce_nvtx_marker event) in
  sanitize_phase (default [] (from_utf8 bytes)).

(** The handles of a key under the labels of its process. *)
Definition create_handles (args : CreateArgs) (labels : Labels) (key : MetricKey) (event : CudaEvent)
    (r : Registry) : Registry * CachedHandles :=
  let event_type := mk_event_type key in
  let pid_s := to_string (ce_pid event) in
  let op := operation_name event_type in
  let stream_s := stream_label (mk_stream key) in
  let pod := [pid_s; lb_comm labels; lb_namespace labels; lb_pod labels; lb_container labels;
              lb_gpu labels; lb_gpu_uuid labels] in
  let hist := [op; lb_namespace labels; lb_pod labels; lb_gpu labels] in
  let errors := op :: pod ++ [to_string (mk_error_code key)] in
  if rs_is_nccl_event event_type then
    let '(r, calls) := with_label_values r nccl_calls (op :: pod) in
    let '(r, duration) := with_label_values r nccl_duration hist in
    let '(r, (nb, nbl)) := with_opt r true nccl_bytes (op :: pod) in
    let '(r, (ec, ecl)) := with_opt r (negb (mk_error_code key =? 0)) cuda_errors errors in
    (r, mkCachedHandles calls duration None None nb None None ec
          (op :: pod) hist None None nbl None None ecl)
  else
    let '(r, calls) := with_label_values r cuda_calls (op :: pod ++ [stream_s]) in
    let '(r, duration) := with_label_values r cuda_duration hist in
    let '(r, (mb, mbl)) :=
      with_opt r ((event_type =? EVENT_CUDA_MEMCPY) || (event_type =? EVENT_CUDA_MEMCPY_ASYNC)
                  || (event_type =? EVENT_CUDA_MEMSET) || (event_type =? EVENT_CUDA_MEMSET_ASYNC))
        cuda_memcpy_bytes (memcpy_direction (mk_memcpy_kind key) :: pod ++ [stream_s]) in
    let '(r, (ab, abl)) :=
      with_opt r ((event_type =? EVENT_CUDA_MALLOC) || (event_type =? EVENT_CUDA_MALLOC_HOST))
        cuda_malloc_bytes pod in
    let launch := event_type =? EVENT_CUDA_LAUNCH_KERNEL in
    let kernel_name := kernel_name_of args event (mk_addr key) in
    let kernel_class := classify_kernel kernel_name in
    let phase := event_phase event in
    let '(r, (kc, kcl)) :=
      with_opt r launch cuda_kernel_launches (kernel_name :: pod ++ [kernel_class; phase]) in
    let '(r, (kh, khl)) :=
      with_opt r (launch && ca_full args) cuda_kernel_duration
        [kernel_name; lb_namespace labels; lb_pod labels; lb_gpu labels; kernel_class; phase] in
    let '(r, (ec, ecl)) := with_opt r (negb (mk_error_code key =? 0)) cuda_errors errors in
    (r, mkCachedHandles calls duration mb ab None kc kh ec
          (op :: pod ++ [stream_s]) hist mbl abl None kcl khl ecl).

Definition get_or_create (args : CreateArgs) (key : MetricKey) (event : CudaEvent) (u : Userland)
    : outcome (Userland * CachedHandles) :=
  let '(cache, key) := limit_key (ca_limits args) key (us_cache u) in
  match handles cache !! key with
  | Some h => Ret (mkUserland cache (us_reg u) (us_drops u), h)
  | None =>
      let full := bool_decide (max_time_series (ca_limits args) <= size (handles cache))%nat in
      let drops := if full then us_drops u + 1 else us_drops u in
      let fallback :=
        if full then '(_, k) ← list_find (fun k => mk_pid k = mk_pid key) (hash_keys (handles cache));
                     handles cache !! k
        else None in
      match fallback with
      | Some h => Ret (mkUserland cache (us_reg u) drops, h)
      | None =>
          labels ← ca_lookup args (ce_pid event) (event_comm args event);
          let '(r, h) := create_handles args labels key event (us_reg u) in
          Ret (mkUserland (mkMetricHandleCache (<[key := h]> (handles cache)) (last_seen cache)
             (streams_per_pid cache) (kernels_per_pid cache)) r drops, h)
      end
  end.

(** ** Removing handles *)

Definition bucket_labels (base : list str) (les : list string) : list (list str) :=
  (fun le => base ++ [lit le]) <$> les.

Definition opt_series (m : metric) (l : option (list str)) : list (metric * list str) :=
  match l with Some l => [(m, l)] | None => [] end.

(** The children [remove_handle_metrics] removes, in order. *)
Definition removals (full : bool) (event_type : Z) (h : CachedHandles) : list (metric * list str) :=
  (if rs_is_nccl_event event_type then
     [(nccl_calls, calls_labels h); (nccl_duration, hist_labels h)]
     ++ ((fun l => (nccl_duration_bucket_total, l))
           <$> bucket_labels (hist_labels h) NCCL_DURATION_BUCKET_LE)
     ++ [(nccl_duration_sum_seconds_total, hist_labels h); (nccl_duration_count_total, hist_labels h)]
   else
     [(cuda_calls, calls_labels h); (cuda_duration, hist_labels h)]
     ++ ((fun l => (cuda_duration_bucket_total, l))
           <$> bucket_labels (hist_labels h) CUDA_DURATION_BUCKET_LE)
     ++ [(cuda_duration_sum_seconds_total, hist_labels h); (cuda_duration_count_total, hist_labels h)])
  ++ opt_series cuda_memcpy_bytes (memcpy_labels h)
  ++ opt_series cuda_malloc_bytes (malloc_labels h)
  ++ opt_series nccl_bytes (nccl_bytes_labels h)
  ++ opt_series cuda_kernel_launches (kernel_counter_labels h)
  ++ match kernel_hist_labels h with
     | Some labels =>
         if full then
           (cuda_kernel_duration, labels)
           :: ((fun l => (cuda_kernel_duration_bucket_total, l))
                 <$> bucket_labels labels CUDA_KERNEL_DURATION_BUCKET_LE)
           ++ [(cuda_kernel_duration_sum_seconds_total, labels);
               (cuda_kernel_duration_count_total, labels)]
         else []
     | None => []
     end
  ++ opt_series cuda_errors (errors_labels h).

Definition remove_handle_metrics (full : bool) (r : Registry) (event_type : Z) (h : CachedHandles)
    : Registry :=
  remove_all r (removals full event_type h).

(** The loop over [keys_to_remove]. *)
Definition drop_handles (full : bool) (keys : list MetricKey)
    (hr : gmap MetricKey CachedHandles * Registry) : gmap MetricKey CachedHandles * Registry :=
  foldl (fun '(hs, r) key =>
    match hs !! key with
    | Some h => (delete key hs, remove_handle_metrics full r (mk_event_type key) h)
    | None => (hs, r)
    end) hr keys.

Definition touch (pid now : Z) (u : Userland) : Userland :=
  let c := us_cache u in
  mkUserland (mkMetricHandleCache (handles c) (<[pid := now]> (last_seen c)) (streams_per_pid c)
    (kernels_per_pid c)) (us_reg u) (us_drops u).

Definition invalidate_pids (full : bool) (pids : gset Z) (u : Userland) : Userland :=
  let c := us_cache u in
  let keys_to_remove := filter (fun k => mk_pid k ∈ pids) (hash_keys (handles c)) in
  let '(hs, r) := drop_handles full keys_to_remove (handles c, us_reg u) in
  mkUserland (mkMetricHandleCache hs (last_seen c) (streams_per_pid c) (kernels_per_pid c)) r
    (us_drops u).

(** One stale process. *)
Definition gc_pid (full : bool) (u : Userland) (pid : Z) : Userland :=
  let c := us_cache u in
  let keys_to_remove := filter (fun k => mk_pid k = pid) (hash_keys (handles c)) in
  let '(hs, r) := drop_handles full keys_to_remove (handles c, us_reg u) in
  mkUserland (mkMetricHandleCache hs (delete pid (last_seen c)) (delete pid (streams_per_pid c))
    (delete pid (kernels_per_pid c))) r (us_drops u).

(** [now.duration_since(ts) > stale_after] *)
Definition is_stale (now stale_after : Z) (c : MetricHandleCache) (pid : Z) : bool :=
  match last_seen c !! pid with
  | Some ts => stale_after <? Z.max 0 (now - ts)
  | None => false
  end.

Definition stale_pids (now stale_after : Z) (c : MetricHandleCache) : list Z :=
  filter (fun pid => is_stale now stale_after c pid = true) (hash_keys (last_seen c)).

(** The evicted processes are also returned, for the other tables of main.rs. *)
Definition gc (full : bool) (now stale_after : Z) (u : Userland) : Userland * list Z :=
  let stale := stale_pids now stale_after (us_cache u) in
  (foldl (gc_pid full) u stale, stale).
End Cache.
