(* ===== verification/CacheInv.v ===== *)
(** * The handle cache over time

    What every operation of the cache keeps: the cardinality limits, and that the
    counters of a process are the ones the registry exports as long as they are
    cached; and what eviction does to a histogram that processes share. *)

From stdpp Require Import strings.
From S2P Require Import Prelude RustStd Events Kernel Metrics Export Cache.

Local Open Scope Z_scope.
#[local] Set Warnings "-clear-no-such-hyp".

(** ** Sizes of images *)

Lemma size_set_map_le {A B} `{Countable A, Countable B} (f : A -> B) (X : gset A) :
  (size (set_map (D := gset B) f X) <= size X)%nat.
Proof.
  induction X as [|x X Hx IH] using set_ind_L; [by rewrite set_map_empty, !size_empty|].
  assert (E : set_map (D := gset B) f ({[x]} ∪ X) = {[f x]} ∪ set_map f X) by set_solver.
  rewrite E, (size_union {[x]} X), size_singleton by set_solver.
  destruct (decide (f x ∈ set_map (D := gset B) f X)) as [Hin|Hin].
  - replace ({[f x]} ∪ set_map f X) with (set_map (D := gset B) f X) by set_solver. lia.
  - rewrite size_union, size_singleton by set_solver. lia.
Qed.

Section CacheOps.
Context `{!Prometheus, !PrometheusLaws, !HashOrder MetricKey, !HashOrder Z}.

(** ** What the operations do to the table of handles *)

Lemma elem_of_hash_keys {K V} `{Countable K, !HashOrder K} (m : gmap K V) k :
  k ∈ hash_keys m <-> is_Some (m !! k).
Proof.
  rewrite hash_keys_perm, list_elem_of_fmap. split.
  - intros ([k' v] & -> & Hin%elem_of_map_to_list). by exists v.
  - intros [v Hv]. exists (k, v). split; [done|]. by apply elem_of_map_to_list.
Qed.

Lemma drop_handles_spec full keys hs r :
  (drop_handles full keys (hs, r)).1 = filter (fun kv => kv.1 ∉ keys) hs /\
  exists ls, (drop_handles full keys (hs, r)).2 = remove_all r ls /\
    forall m l, (m, l) ∈ ls <->
      exists k h, k ∈ keys /\ hs !! k = Some h /\ (m, l) ∈ removals full (mk_event_type k) h.
Proof.
  revert hs r. induction keys as [|key keys IH]; intros hs r.
  { cbn. split.
    - symmetry. apply map_filter_id. intros k h _. simpl. apply not_elem_of_nil.
    - exists []. split; [done|]. intros m l. split; [by intros ?%elem_of_nil|].
      by intros (k & h & ?%elem_of_nil & _). }
  cbn [drop_handles foldl]. destruct (hs !! key) as [h|] eqn:Eh.
  - destruct (IH (delete key hs) (remove_handle_metrics full r (mk_event_type key) h))
      as [IH1 (ls & IH2 & IH3)]. unfold drop_handles in *. rewrite IH1, IH2. split.
    + apply map_eq. intros k. apply option_eq. intros h'. rewrite !map_lookup_filter_Some.
      rewrite lookup_delete_Some, not_elem_of_cons. simpl. naive_solver.
    + exists (removals full (mk_event_type key) h ++ ls). split.
      { unfold remove_handle_metrics, remove_all. by rewrite foldl_app. }
      intros m l. rewrite elem_of_app, IH3. setoid_rewrite elem_of_cons.
      setoid_rewrite lookup_delete_Some. split.
      * intros [?|(k & h' & ? & [? ?] & ?)]; [by exists key, h; eauto|by exists k, h'; eauto].
      * intros (k & h' & Hk & Hh & Hr). destruct (decide (key = k)) as [<-|Hne].
        -- left. congruence.
        -- right. exists k, h'. destruct Hk as [?|?]; [congruence|]. eauto.
  - destruct (IH hs r) as [IH1 (ls & IH2 & IH3)]. unfold drop_handles in *. rewrite IH1, IH2. split.
    + apply map_eq. intros k. apply option_eq. intros h'. rewrite !map_lookup_filter_Some.
      rewrite not_elem_of_cons. simpl. naive_solver.
    + exists ls. split; [done|]. intros m l. rewrite IH3. setoid_rewrite elem_of_cons. naive_solver.
Qed.

(** Removing the handles of the keys that satisfy [P]. *)
Lemma drop_where full (P : MetricKey -> Prop) `{!forall k, Decision (P k)} hs r :
  let hr := drop_handles full (filter P (hash_keys hs)) (hs, r) in
  hr.1 = filter (fun kv => ~ P kv.1) hs /\
  (forall m l, (forall k h, hs !! k = Some h -> P k -> (m, l) ∉ removals full (mk_event_type k) h) ->
    child hr.2 m l = child r m l) /\
  (forall m l k h, hs !! k = Some h -> P k -> (m, l) ∈ removals full (mk_event_type k) h ->
    child hr.2 m l = None).
Proof.
  cbv zeta. destruct (drop_handles_spec full (filter P (hash_keys hs)) hs r) as [-> (ls & -> & Hls)].
  assert (Hkeys : forall k, k ∈ filter P (hash_keys hs) <-> P k /\ is_Some (hs !! k)).
  { intros k. by rewrite list_elem_of_filter, elem_of_hash_keys. }
  split; [|split].
  - apply map_filter_ext. intros k h Hh. simpl. rewrite Hkeys. naive_solver.
  - intros m l Hno. rewrite remove_all_child. case_decide as Hin; [|done].
    apply Hls in Hin as (k & h & [HP _]%Hkeys & Hh & Hr). by destruct (Hno k h Hh HP).
  - intros m l k h Hh HP Hr. rewrite remove_all_child. case_decide as Hin; [done|].
    exfalso. apply Hin, Hls. exists k, h. split; [|done]. apply Hkeys. eauto.
Qed.

(** ** Cardinality *)

Definition pids_of (hs : gmap MetricKey CachedHandles) : gset Z := set_map mk_pid (dom hs).

(** Every table is within its limit, and the streams and kernels of the cached
    keys are those the limits let through.  Beyond max_time_series there is at most
    one handle per process. *)
Record card_ok (limits : CardinalityLimits) (c : MetricHandleCache) : Prop := {
  co_streams : forall pid ids, streams_per_pid c !! pid = Some ids ->
    (size ids <= max_streams_per_pid limits)%nat;
  co_kernels : forall pid ids, kernels_per_pid c !! pid = Some ids ->
    (size ids <= max_kernels_per_pid limits)%nat;
  co_key_stream : forall k, is_Some (handles c !! k) -> mk_stream k <> 0 ->
    mk_stream k ∈ default ∅ (streams_per_pid c !! mk_pid k);
  co_key_kernel : forall k, is_Some (handles c !! k) -> mk_addr k <> 0 ->
    mk_event_type k = EVENT_CUDA_LAUNCH_KERNEL ->
    mk_addr k ∈ default ∅ (kernels_per_pid c !! mk_pid k);
  co_total : (size (handles c) <= max_time_series limits + size (pids_of (handles c)))%nat
}.

Lemma limit_id_spec seen pid id cap seen' id' :
  limit_id seen pid id cap = (seen', id') ->
  (forall p ids, seen !! p = Some ids -> (size ids <= cap)%nat) ->
  (forall p ids, seen' !! p = Some ids -> (size ids <= cap)%nat) /\
  (forall p, default ∅ (seen !! p) ⊆ default ∅ (seen' !! p)) /\
  (id' <> 0 -> id' ∈ default ∅ (seen' !! pid)).
Proof.
  unfold limit_id. intros E Hcap. set (ids := default ∅ (seen !! pid)) in *.
  assert (Hids : (size ids <= cap)%nat).
  { unfold ids. destruct (seen !! pid) as [X|] eqn:Ep; [by apply (Hcap pid)|].
    change (size (∅ : gset Z) <= cap)%nat. rewrite size_empty. lia. }
  assert (G : forall X, ids ⊆ X -> (size X <= cap)%nat -> (id' <> 0 -> id' ∈ X) ->
    (forall p ids, <[pid := X]> seen !! p = Some ids -> (size ids <= cap)%nat) /\
    (forall p, default ∅ (seen !! p) ⊆ default ∅ (<[pid := X]> seen !! p)) /\
    (id' <> 0 -> id' ∈ default ∅ (<[pid := X]> seen !! pid))).
  { intros X HX Hs Hin. split; [|split].
    - intros p Y [[_ <-]|[_ ?]]%lookup_insert_Some; eauto.
    - intros p. destruct (decide (pid = p)) as [<-|]; [by rewrite lookup_insert_eq|].
      by rewrite lookup_insert_ne.
    - by rewrite lookup_insert_eq. }
  destruct (decide (id ∈ ids)) as [Hin|Hnin]; [|destruct (decide (size ids < cap)%nat)];
    injection E as <- <-; apply G; try done.
  - apply union_subseteq_r.
  - rewrite size_union, size_singleton by set_solver. lia.
  - intros _. apply elem_of_union_l, elem_of_singleton_2. done.
Qed.

Lemma limit_key_spec limits key c c' key' :
  limit_key limits key c = (c', key') -> card_ok limits c ->
  card_ok limits c' /\ handles c' = handles c /\ last_seen c' = last_seen c /\
  mk_pid key' = mk_pid key /\
  mk_event_type key' = mk_event_type key /\
  (mk_stream key' <> 0 -> mk_stream key' ∈ default ∅ (streams_per_pid c' !! mk_pid key)) /\
  (mk_addr key' <> 0 -> mk_event_type key = EVENT_CUDA_LAUNCH_KERNEL ->
   mk_addr key' ∈ default ∅ (kernels_per_pid c' !! mk_pid key)).
Proof.
  unfold limit_key. intros E [H1 H2 H3 H4 H5].
  destruct (if negb (mk_stream key =? 0) then _ else _) as [ss sid] eqn:Es.
  destruct (if negb (mk_addr key =? 0) && _ then _ else _) as [ks kid] eqn:Ek.
  injection E as <- <-. simpl.
  assert (Hs : (forall p ids, ss !! p = Some ids -> (size ids <= max_streams_per_pid limits)%nat) /\
    (forall p, default ∅ (streams_per_pid c !! p) ⊆ default ∅ (ss !! p)) /\
    (sid <> 0 -> sid ∈ default ∅ (ss !! mk_pid key))).
  { destruct (Z.eqb_spec (mk_stream key) 0); simpl in Es.
    - injection Es as <- <-. split_and!; [done|done|lia].
    - by apply (limit_id_spec _ _ _ _ _ _ Es). }
  assert (Hk : (forall p ids, ks !! p = Some ids -> (size ids <= max_kernels_per_pid limits)%nat) /\
    (forall p, default ∅ (kernels_per_pid c !! p) ⊆ default ∅ (ks !! p)) /\
    (kid <> 0 -> mk_event_type key = EVENT_CUDA_LAUNCH_KERNEL ->
     kid ∈ default ∅ (ks !! mk_pid key))).
  { destruct (Z.eqb_spec (mk_addr key) 0); simpl in Ek;
      [|destruct (Z.eqb_spec (mk_event_type key) EVENT_CUDA_LAUNCH_KERNEL); simpl in Ek].
    - injection Ek as <- <-. split_and!; [done|done|lia].
    - destruct (limit_id_spec _ _ _ _ _ _ Ek H2) as (? & ? & ?). auto.
    - injection Ek as <- <-. split_and!; done. }
  destruct Hs as (Hs1 & Hs2 & Hs3), Hk as (Hk1 & Hk2 & Hk3).
  split_and!; try done. split; simpl; try done.
  - intros k Hh Hne. by apply Hs2, H3.
  - intros k Hh Hne Ht. by apply Hk2, H4.
Qed.

Lemma pids_of_insert k h hs : pids_of (<[k := h]> hs) = {[mk_pid k]} ∪ pids_of hs.
Proof. unfold pids_of. rewrite dom_insert_L. set_solver. Qed.

Lemma elem_of_pids_of p hs : p ∈ pids_of hs <-> exists k, mk_pid k = p /\ is_Some (hs !! k).
Proof.
  unfold pids_of. rewrite elem_of_map.
  split; intros (k & Hk & Hin); exists k; by rewrite elem_of_dom in *.
Qed.

Lemma card_ok_insert limits c key h :
  card_ok limits c -> handles c !! key = None ->
  (mk_stream key <> 0 -> mk_stream key ∈ default ∅ (streams_per_pid c !! mk_pid key)) ->
  (mk_addr key <> 0 -> mk_event_type key = EVENT_CUDA_LAUNCH_KERNEL ->
   mk_addr key ∈ default ∅ (kernels_per_pid c !! mk_pid key)) ->
  ((size (handles c) < max_time_series limits)%nat \/ (mk_pid key ∉ pids_of (handles c))) ->
  card_ok limits (mkMetricHandleCache (<[key := h]> (handles c)) (last_seen c) (streams_per_pid c)
    (kernels_per_pid c)).
Proof.
  intros [H1 H2 H3 H4 H5] Hk Hs Ha Hroom. split; simpl; try done.
  - intros k [<-|[_ ?]]%lookup_insert_is_Some; auto.
  - intros k [<-|[_ ?]]%lookup_insert_is_Some; auto.
  - rewrite map_size_insert_None, pids_of_insert by done. destruct Hroom as [Hlt|Hnew].
    + assert (size {[mk_pid key]} <= size ({[mk_pid key]} ∪ pids_of (handles c)))%nat as Hge
        by (apply subseteq_size; set_solver).
      rewrite size_singleton in Hge. lia.
    + rewrite size_union, size_singleton by set_solver. lia.
Qed.

Lemma get_or_create_card args key event u u' hs :
  get_or_create args key event u = Ret (u', hs) ->
  card_ok (ca_limits args) (us_cache u) -> card_ok (ca_limits args) (us_cache u').
Proof.
  intros Hget Hok. revert Hget. unfold get_or_create.
  destruct (limit_key (ca_limits args) key (us_cache u)) as [c key'] eqn:E.
  destruct (limit_key_spec _ _ _ _ _ E Hok) as (Hok' & Hh & _ & Ep & Et & Hs & Ha).
  destruct (handles c !! key') as [h|] eqn:Ek; [by intros [= <- _]|].
  set (full := bool_decide (max_time_series (ca_limits args) <= size (handles c))%nat).
  set (fallback := if full then _ else None).
  destruct fallback as [h|] eqn:Ef; [by intros [= <- _]|].
  destruct (ca_lookup _ _ _) as [labels| |]; cbn [mbind outcome_bind]; [|done..].
  destruct (create_handles args labels key' event (us_reg u)) as [r h]. intros [= <- _]. cbn [us_cache].
  rewrite <- Ep, <- Et in *. apply card_ok_insert; try done.
  unfold fallback, full in Ef. case_bool_decide as Hfull; [right|left; lia].
  intros (k & Hkp & [hk Hkh])%elem_of_pids_of.
  destruct (list_find _ (hash_keys (handles c))) as [[i k']|] eqn:El; simpl in Ef.
  - apply list_find_Some in El as (Hk' & _ & _).
    apply list_elem_of_lookup_2, elem_of_hash_keys in Hk'. rewrite Ef in Hk'. by destruct Hk'.
  - eapply list_find_None, Forall_forall in El; [|apply elem_of_hash_keys; eauto]. done.
Qed.

(** Fewer handles stay within the limit, whatever the selection. *)
Lemma filter_total (P : MetricKey -> Prop) `{!forall k, Decision (P k)} hs n :
  (size hs <= n + size (pids_of hs))%nat ->
  let hs' := filter (fun kv => ~ P kv.1) hs in
  (size hs' <= n + size (pids_of hs'))%nat.
Proof.
  intros Hle. cbv zeta.
  pose proof (map_filter_union_complement (fun kv => P kv.1) hs) as Hun.
  pose proof (map_disjoint_filter_complement (fun kv => P kv.1) hs) as Hdis.
  set (a := filter (fun kv => P kv.1) hs) in *.
  set (b := filter (fun kv => ~ P kv.1) hs) in *.
  assert (Hsz : size hs = (size a + size b)%nat) by (rewrite <- Hun; by apply map_size_disj_union).
  assert (Hp : pids_of hs = pids_of a ∪ pids_of b).
  { rewrite <- Hun. unfold pids_of. rewrite dom_union_L. set_solver. }
  assert (size (pids_of a) <= size a)%nat.
  { unfold pids_of. etrans; [apply size_set_map_le|]. by rewrite size_dom. }
  assert (size (pids_of a ∪ pids_of b) <= size (pids_of a) + size (pids_of b))%nat.
  { rewrite size_union_alt. apply Nat.add_le_mono_l, subseteq_size. set_solver. }
  rewrite Hp in Hle. lia.
Qed.

Lemma invalidate_pids_eq full pids u :
  let c := us_cache u in
  let hr := drop_handles full (filter (fun k => mk_pid k ∈ pids) (hash_keys (handles c)))
              (handles c, us_reg u) in
  invalidate_pids full pids u =
    mkUserland (mkMetricHandleCache hr.1 (last_seen c) (streams_per_pid c) (kernels_per_pid c)) hr.2
      (us_drops u).
Proof. cbv zeta. unfold invalidate_pids. by destruct (drop_handles _ _ _). Qed.

Lemma gc_pid_eq full u pid :
  let c := us_cache u in
  let hr := drop_handles full (filter (fun k => mk_pid k = pid) (hash_keys (handles c)))
              (handles c, us_reg u) in
  gc_pid full u pid =
    mkUserland (mkMetricHandleCache hr.1 (delete pid (last_seen c)) (delete pid (streams_per_pid c))
      (delete pid (kernels_per_pid c))) hr.2 (us_drops u).
Proof. cbv zeta. unfold gc_pid. by destruct (drop_handles _ _ _). Qed.

Lemma invalidate_pids_card limits full pids u :
  card_ok limits (us_cache u) -> card_ok limits (us_cache (invalidate_pids full pids u)).
Proof.
  intros [H1 H2 H3 H4 H5]. rewrite invalidate_pids_eq. simpl.
  destruct (drop_where full (fun k => mk_pid k ∈ pids) (handles (us_cache u)) (us_reg u))
    as [-> _].
  split; simpl; try done.
  - intros k [h [Hh _]%map_lookup_filter_Some]. by apply H3.
  - intros k [h [Hh _]%map_lookup_filter_Some]. by apply H4.
  - exact (filter_total (fun k => mk_pid k ∈ pids) _ _ H5).
Qed.

Lemma gc_pid_card limits full pid u :
  card_ok limits (us_cache u) -> card_ok limits (us_cache (gc_pid full u pid)).
Proof.
  intros [H1 H2 H3 H4 H5]. rewrite gc_pid_eq. simpl.
  destruct (drop_where full (fun k => mk_pid k = pid) (handles (us_cache u)) (us_reg u))
    as [-> _].
  split; simpl.
  - intros p ids [_ ?]%lookup_delete_Some. by apply (H1 p).
  - intros p ids [_ ?]%lookup_delete_Some. by apply (H2 p).
  - intros k [h [Hh Hne]%map_lookup_filter_Some]. rewrite lookup_delete_ne by done. by apply H3.
  - intros k [h [Hh Hne]%map_lookup_filter_Some]. rewrite lookup_delete_ne by done. by apply H4.
  - exact (filter_total (fun k => mk_pid k = pid) _ _ H5).
Qed.

Lemma new_cache_card limits : card_ok limits new_cache.
Proof.
  split; simpl.
  1,2: by intros pid ids ?%lookup_empty_Some.
  1,2: intros k Hk; by destruct (lookup_empty_is_Some _ Hk).
  rewrite map_size_empty. lia.
Qed.

Definition streams_of (pid : Z) (hs : gmap MetricKey CachedHandles) : gset Z :=
  set_map mk_stream (filter (fun k => mk_pid k = pid) (dom hs)).

Definition kernels_of (pid : Z) (hs : gmap MetricKey CachedHandles) : gset Z :=
  set_map mk_addr
    (filter (fun k => mk_pid k = pid /\ mk_event_type k = EVENT_CUDA_LAUNCH_KERNEL) (dom hs)).

(** A set whose nonzero members are tracked. *)
Lemma size_tracked (X : gset Z) (tracked : option (gset Z)) (cap : nat) :
  (forall ids, tracked = Some ids -> (size ids <= cap)%nat) ->
  (forall x, x ∈ X -> x <> 0 -> x ∈ default ∅ tracked) ->
  (size X <= S cap)%nat.
Proof.
  intros Hcap Hin. transitivity (size ({[0]} ∪ default ∅ tracked)).
  - apply subseteq_size. intros x Hx. destruct (decide (x = 0)) as [->|]; set_solver.
  - rewrite size_union_alt, size_singleton. simpl. apply le_n_S.
    transitivity (size (default ∅ tracked)); [apply subseteq_size; set_solver|].
    destruct tracked as [ids|]; [by apply Hcap|].
    change (size (∅ : gset Z) <= cap)%nat. rewrite size_empty. lia.
Qed.

Lemma card_ok_bounds limits c pid :
  card_ok limits c ->
  (size (handles c) <= max_time_series limits + size (pids_of (handles c)))%nat /\
  (size (streams_of pid (handles c)) <= S (max_streams_per_pid limits))%nat /\
  (size (kernels_of pid (handles c)) <= S (max_kernels_per_pid limits))%nat.
Proof.
  intros [H1 H2 H3 H4 H5]. split_and!; [done| |].
  - apply (size_tracked _ _ _ (H1 pid)). unfold streams_of.
    intros x (k & -> & [<- Hk%elem_of_dom]%elem_of_filter)%elem_of_map. by apply H3.
  - apply (size_tracked _ _ _ (H2 pid)). unfold kernels_of.
    intros x (k & -> & [[<- Ht] Hk%elem_of_dom]%elem_of_filter)%elem_of_map ?. by apply H4.
Qed.

(** ** Handles and the exported series *)

(** Where the label pid is among the label names of a family. *)
Definition pid_index (m : metric) : option nat :=
  fst <$> list_find (fun n => n = "pid"%string) (label_names m).

Definition pid_label (m : metric) (l : list str) : option str := i ← pid_index m; l !! i.

Definition opt_cell (m : metric) (l : option (list str)) (c : option Cell)
    : list (metric * list str * Cell) :=
  match c with Some c => [(m, default [] l, c)] | None => [] end.

(** The counters of a handle, all of them series of one process. *)
Definition pid_series (event_type : Z) (h : CachedHandles) : list (metric * list str * Cell) :=
  (if rs_is_nccl_event event_type then nccl_calls else cuda_calls, calls_labels h, calls h)
  :: opt_cell cuda_memcpy_bytes (memcpy_labels h) (memcpy_bytes h)
  ++ opt_cell cuda_malloc_bytes (malloc_labels h) (malloc_bytes h)
  ++ opt_cell nccl_bytes (nccl_bytes_labels h) (nccl_bytes_counter h)
  ++ opt_cell cuda_kernel_launches (kernel_counter_labels h) (kernel_counter h)
  ++ opt_cell cuda_errors (errors_labels h) (errors_counter h).

(** The series carries the pid and has as many labels as its family. *)
Definition series_of (pid : Z) (m : metric) (l : list str) : Prop :=
  pid_label m l = Some (to_string pid) /\ length l = length (label_names m).

(** A child that removing the handles of a process may remove. *)
Definition removable (pid : Z) (m : metric) (l : list str) : Prop :=
  (pid_label m l = None \/ pid_label m l = Some (to_string pid)) /\
  length l = length (label_names m).

Record handle_ok (full : bool) (key : MetricKey) (h : CachedHandles) : Prop := {
  ho_series : Forall (fun s => series_of (mk_pid key) s.1.1 s.1.2) (pid_series (mk_event_type key) h);
  ho_removals : Forall (fun ml => removable (mk_pid key) ml.1 ml.2)
    (removals full (mk_event_type key) h)
}.

Definition attached (r : Registry) (event_type : Z) (h : CachedHandles) : Prop :=
  Forall (fun s => child r s.1.1 s.1.2 = Some s.2) (pid_series event_type h).

(** Nothing exported is lost. *)
Definition extends (r r' : Registry) : Prop :=
  forall m l c, child r m l = Some c -> child r' m l = Some c.

#[local] Instance extends_preorder : PreOrder extends.
Proof. split; [by intros r m l c|]. intros r1 r2 r3 H12 H23 m l c Hc. by apply H23, H12. Qed.

Lemma with_extends r m l r' c :
  with_label_values r m l = (r', c) -> extends r r' /\ child r' m l = Some c.
Proof.
  intros E. split.
  - intros m' l' c' Hc. replace r' with (with_label_values r m l).1 by (by rewrite E).
    by apply with_mono.
  - pose proof (with_child r m l) as Hc. by rewrite E in Hc.
Qed.

Lemma with_opt_extends r b m l r' c ol :
  with_opt r b m l = (r', (c, ol)) ->
  extends r r' /\ ol = (if b then Some l else None) /\
  Forall (fun s => s.1 = (m, l) /\ child r' m l = Some s.2) (opt_cell m ol c).
Proof.
  unfold with_opt. destruct b; [|intros [= <- <- <-]; split_and!; [done|done|constructor]].
  destruct (with_label_values r m l) as [r1 c1] eqn:E. intros [= <- <- <-].
  destruct (with_extends _ _ _ _ _ E) as [He Hc]. split_and!; [done|done|]. by repeat constructor.
Qed.

Lemma attached_extends r r' event_type h :
  extends r r' -> attached r event_type h -> attached r' event_type h.
Proof. intros He Ha. eapply Forall_impl; [exact Ha|]. intros s. apply He. Qed.

Lemma opt_cell_attached r r' m l ol c :
  extends r r' ->
  Forall (fun s => s.1 = (m, l) /\ child r m l = Some s.2) (opt_cell m ol c) ->
  Forall (fun s => child r' s.1.1 s.1.2 = Some s.2) (opt_cell m ol c).
Proof.
  intros He Hc. eapply Forall_impl; [exact Hc|]. intros [ml c'] [E Hc']. simpl in *. subst ml.
  by apply He.
Qed.

Lemma opt_cell_series pid r m l ol c :
  series_of pid m l ->
  Forall (fun s => s.1 = (m, l) /\ child r m l = Some s.2) (opt_cell m ol c) ->
  Forall (fun s => series_of pid s.1.1 s.1.2) (opt_cell m ol c).
Proof.
  intros Hs Hc. eapply Forall_impl; [exact Hc|]. intros [ml c'] [E _]. simpl in *. by subst ml.
Qed.

Lemma opt_series_removable pid m l (b : bool) :
  removable pid m l ->
  Forall (fun ml => removable pid ml.1 ml.2) (opt_series m (if b then Some l else None)).
Proof. intros Hr. destruct b; simpl; [by apply Forall_singleton|by apply Forall_nil]. Qed.

Lemma bucket_labels_removable pid m base les :
  pid_index m = None -> length (label_names m) = S (length base) ->
  Forall (fun ml => removable pid ml.1 ml.2) ((fun l => (m, l)) <$> bucket_labels base les).
Proof.
  intros Hp Hl. apply Forall_fmap, Forall_fmap, Forall_forall. intros le _. simpl.
  unfold removable, pid_label. rewrite Hp. split; [by left|].
  rewrite length_app, Hl. simpl. lia.
Qed.

Ltac name_children H :=
  repeat match type of H with
  | context [let '(_, _) := ?x in _] =>
      let r := fresh "r" in let c := fresh "c" in let E := fresh "E" in
      destruct x as [r c] eqn:E;
      match type of E with
      | with_label_values _ _ _ = _ => apply with_extends in E as [? ?]
      | with_opt _ _ _ _ = _ =>
          destruct c; apply with_opt_extends in E as (? & ? & ?)
      end
  end.

Ltac solve_series := split; [reflexivity | reflexivity].
Ltac solve_removable := split; [first [left; reflexivity | right; reflexivity] | reflexivity].

Ltac solve_extends := repeat first [reflexivity | etrans; [eassumption|]].
Ltac solve_child :=
  match goal with
  | H : child ?r ?m ?l = Some ?c |- child ?r' ?m ?l = Some ?c =>
      cut (extends r r'); [intros He; exact (He _ _ _ H) | solve_extends]
  end.
Ltac fields :=
  cbn [calls duration memcpy_bytes malloc_bytes nccl_bytes_counter kernel_counter kernel_histogram
       errors_counter calls_labels hist_labels memcpy_labels malloc_labels nccl_bytes_labels
       kernel_counter_labels kernel_hist_labels errors_labels fst snd app].
Ltac solve_pieces :=
  repeat first
    [ apply Forall_nil_2 | apply Forall_app_2
    | eapply opt_cell_series; [|eassumption]; solve_series
    | eapply opt_cell_attached; [|eassumption]; solve_extends
    | apply opt_series_removable; solve_removable
    | apply (opt_series_removable _ _ _ true); solve_removable
    | apply bucket_labels_removable; reflexivity
    | apply Forall_cons_2; [fields; first [solve_child | solve_series | solve_removable]|] ].

(** The handles that [get_or_create] makes are children of the registry, labelled
    as their families are, and nothing exported is lost. *)
Lemma create_handles_ok args labels key event r r' h :
  create_handles args labels key event r = (r', h) -> ce_pid event = mk_pid key ->
  extends r r' /\ handle_ok (ca_full args) key h /\ attached r' (mk_event_type key) h.
Proof.
  intros E Hp. unfold create_handles in E. rewrite Hp in E. unfold attached.
  destruct (rs_is_nccl_event (mk_event_type key)) eqn:Hn; name_children E;
    injection E as <- <-; (split; [solve_extends|]); (split; [split|]).
  1,3,4,6: unfold pid_series; rewrite Hn; fields; solve_pieces.
  all: unfold removals; rewrite Hn; subst; fields.
  - solve_pieces.
  - destruct (ca_full args), (mk_event_type key =? EVENT_CUDA_LAUNCH_KERNEL); cbn [andb];
      solve_pieces.
Qed.

Definition series_ok (full : bool) (hs : gmap MetricKey CachedHandles) (r : Registry) : Prop :=
  forall k h, hs !! k = Some h ->
    handle_ok full k h /\ attached r (mk_event_type k) h /\ fits 32 (mk_pid k).

Definition series_inv (full : bool) (u : Userland) : Prop :=
  series_ok full (handles (us_cache u)) (us_reg u).

(** A removal for one process leaves the counters of the others. *)
Lemma series_not_removed pid pid' m l :
  fits 32 pid -> fits 32 pid' -> series_of pid m l -> removable pid' m l -> pid = pid'.
Proof.
  intros Hp Hp' [Hs _] [[Hr|Hr] _]; [congruence|].
  apply to_string_inj; [by apply (fits_weaken 32)..|congruence].
Qed.

Lemma drop_series_ok full (Q : Z -> Prop) `{!forall p, Decision (Q p)} hs r :
  series_ok full hs r ->
  let hr := drop_handles full (filter (fun k => Q (mk_pid k)) (hash_keys hs)) (hs, r) in
  series_ok full hr.1 hr.2.
Proof.
  intros Hok. cbv zeta.
  destruct (drop_where full (fun k => Q (mk_pid k)) hs r) as (-> & Hkeep & _).
  intros k h [Hk HQ]%map_lookup_filter_Some. simpl in HQ.
  destruct (Hok k h Hk) as (Hh & Ha & Hf). split_and!; [done| |done].
  apply Forall_forall. intros [[m l] c] Hin. simpl. rewrite Hkeep.
  - eapply Forall_forall in Ha; [|exact Hin]. exact Ha.
  - intros k' h' Hk' HQ' Hrem. destruct (Hok k' h' Hk') as (Hh' & _ & Hf').
    pose proof (proj1 (Forall_forall _ _) (ho_series _ _ _ Hh) _ Hin) as Hs.
    pose proof (proj1 (Forall_forall _ _) (ho_removals _ _ _ Hh') _ Hrem) as Hr.
    simpl in Hs, Hr. apply HQ. by rewrite (series_not_removed _ _ _ _ Hf Hf' Hs Hr).
Qed.

Lemma series_ok_extends full hs r r' : extends r r' -> series_ok full hs r -> series_ok full hs r'.
Proof.
  intros He Hok k h Hk. destruct (Hok k h Hk) as (? & ? & ?).
  split_and!; [done| |done]. by apply (attached_extends r).
Qed.

Lemma limit_key_handles limits key c c' key' :
  limit_key limits key c = (c', key') ->
  handles c' = handles c /\ mk_pid key' = mk_pid key /\ mk_event_type key' = mk_event_type key.
Proof.
  unfold limit_key. intros E.
  destruct (if negb (mk_stream key =? 0) then _ else _) as [ss sid].
  destruct (if negb (mk_addr key =? 0) && _ then _ else _) as [ks kid].
  by injection E as <- <-.
Qed.

Lemma get_or_create_series args key event u u' hs :
  get_or_create args key event u = Ret (u', hs) ->
  ce_pid event = mk_pid key -> fits 32 (mk_pid key) ->
  series_inv (ca_full args) u -> series_inv (ca_full args) u'.
Proof.
  intros Hget Hp Hf Hok. revert Hget. unfold get_or_create, series_inv in *.
  destruct (limit_key (ca_limits args) key (us_cache u)) as [c key'] eqn:E.
  destruct (limit_key_handles _ _ _ _ _ E) as (Eh & Ep & Et). rewrite <- Eh in Hok.
  destruct (handles c !! key') as [h|]; [by intros [= <- _]|].
  set (fallback := if bool_decide _ then _ else None).
  destruct fallback as [h|]; [by intros [= <- _]|].
  destruct (ca_lookup _ _ _) as [labels| |]; cbn [mbind outcome_bind]; [|done..].
  destruct (create_handles args labels key' event (us_reg u)) as [r h] eqn:Ec. intros [= <- _]. simpl.
  destruct (create_handles_ok _ _ _ _ _ _ _ Ec) as (He & Hh & Ha); [congruence|].
  intros k h' [[<- <-]|[_ Hk]]%lookup_insert_Some.
  - rewrite Ep. auto.
  - by apply (series_ok_extends _ _ _ _ He Hok).
Qed.

(** ** Shared histograms *)

Definition hist_metric (event_type : Z) : metric :=
  if rs_is_nccl_event event_type then nccl_duration else cuda_duration.

Lemma hist_removed full event_type h :
  (hist_metric event_type, hist_labels h) ∈ removals full event_type h.
Proof.
  unfold hist_metric, removals. apply elem_of_app. left.
  destruct (rs_is_nccl_event event_type); right; left.
Qed.

Lemma gc_pid_keeps full u pid k h :
  handles (us_cache u) !! k = Some h -> mk_pid k <> pid ->
  handles (us_cache (gc_pid full u pid)) !! k = Some h.
Proof.
  intros Hk Hne. rewrite gc_pid_eq. cbn [us_cache handles].
  destruct (drop_where full (fun k => mk_pid k = pid) (handles (us_cache u)) (us_reg u))
    as (-> & _). by apply map_lookup_filter_Some.
Qed.

Lemma gc_pid_child_None full u pid m l :
  child (us_reg u) m l = None -> child (us_reg (gc_pid full u pid)) m l = None.
Proof.
  intros Hc. rewrite gc_pid_eq. cbn [us_reg].
  destruct (drop_handles_spec full (filter (fun k => mk_pid k = pid) (hash_keys (handles (us_cache u))))
    (handles (us_cache u)) (us_reg u)) as (_ & ls & -> & _).
  rewrite remove_all_child. by case_decide.
Qed.

Lemma gc_pid_removes full u k h m l :
  handles (us_cache u) !! k = Some h -> (m, l) ∈ removals full (mk_event_type k) h ->
  child (us_reg (gc_pid full u (mk_pid k))) m l = None.
Proof.
  intros Hk Hin. rewrite gc_pid_eq. cbn [us_reg].
  destruct (drop_where full (fun k' => mk_pid k' = mk_pid k) (handles (us_cache u)) (us_reg u))
    as (_ & _ & Hgone). by apply (Hgone m l k h).
Qed.

Lemma gc_pids_removes full l u k h m ls :
  mk_pid k ∈ l -> handles (us_cache u) !! k = Some h \/ child (us_reg u) m ls = None ->
  (m, ls) ∈ removals full (mk_event_type k) h ->
  child (us_reg (foldl (gc_pid full) u l)) m ls = None.
Proof.
  intros Hin Hk Hrem. assert (G : forall l u, child (us_reg u) m ls = None ->
    child (us_reg (foldl (gc_pid full) u l)) m ls = None).
  { intros l'. induction l' as [|p l' IH]; intros u' Hc; [done|].
    by apply IH, gc_pid_child_None. }
  revert u Hk. induction l as [|p l IH]; intros u Hk; [by apply elem_of_nil in Hin|]. simpl.
  destruct Hk as [Hk|Hc]; [|by apply G, gc_pid_child_None].
  destruct (decide (mk_pid k = p)) as [<-|Hne].
  - apply G. by apply (gc_pid_removes _ _ _ h).
  - apply elem_of_cons in Hin as [?|Hin]; [done|]. apply IH; [done|]. left. by apply gc_pid_keeps.
Qed.

Lemma gc_pids_keeps full l u k h :
  mk_pid k ∉ l -> handles (us_cache u) !! k = Some h ->
  handles (us_cache (foldl (gc_pid full) u l)) !! k = Some h.
Proof.
  revert u. induction l as [|p l IH]; intros u Hni Hk; [done|].
  apply not_elem_of_cons in Hni as [Hne Hni]. by apply IH, gc_pid_keeps.
Qed.

Lemma elem_of_stale_pids now stale_after c pid :
  pid ∈ stale_pids now stale_after c <-> is_stale now stale_after c pid = true.
Proof.
  unfold stale_pids. rewrite list_elem_of_filter, elem_of_hash_keys. split; [by intros []|].
  intros Hs. split; [done|]. unfold is_stale in Hs. by destruct (last_seen c !! pid).
Qed.

(** the duration histogram of a call has no label for the process, so the
    processes of a pod share it.  When [gc] evicts one of them, the histogram leaves
    the registry while a process that is still alive keeps its cached handle: its next
    events find that handle, and what they observe is no longer exported. *)
Theorem shared_histogram_detached full now stale_after u k1 h1 k2 h2 :
  handles (us_cache u) !! k1 = Some h1 -> handles (us_cache u) !! k2 = Some h2 ->
  is_stale now stale_after (us_cache u) (mk_pid k1) = true ->
  is_stale now stale_after (us_cache u) (mk_pid k2) = false ->
  hist_metric (mk_event_type k1) = hist_metric (mk_event_type k2) ->
  hist_labels h1 = hist_labels h2 ->
  let u' := (gc full now stale_after u).1 in
  child (us_reg u') (hist_metric (mk_event_type k2)) (hist_labels h2) = None /\
  forall args key event c,
    limit_key (ca_limits args) key (us_cache u') = (c, k2) ->
    exists u2, get_or_create args key event u' = Ret (u2, h2) /\ us_reg u2 = us_reg u'.
Proof.
  intros Hk1 Hk2 Hs1 Hs2 Hm Hl u'. split.
  - rewrite <- Hm, <- Hl. apply (gc_pids_removes _ _ _ k1 h1); [by apply elem_of_stale_pids|by left|].
    apply hist_removed.
  - intros args key event c E. destruct (limit_key_handles _ _ _ _ _ E) as (Eh & _ & _).
    assert (Hk : handles c !! k2 = Some h2).
    { rewrite Eh. apply gc_pids_keeps; [|done]. rewrite elem_of_stale_pids. by rewrite Hs2. }
    unfold get_or_create. rewrite E, Hk. by eexists.
Qed.
End CacheOps.

(** ** Examples *)

(** Walking a map in the order of its representation. *)
#[export, refine] Instance map_order K `{Countable K} : HashOrder K :=
  {| hash_keys V m := (map_to_list m).*1 |}.
Proof. done. Defined.

(** Two processes of one pod copy memory, on a stream each; the first one goes away. *)
Definition sample_event (pid stream : Z) : CudaEvent :=
  mkCudaEvent EVENT_CUDA_MEMCPY pid pid 1 1000 500 4096 0 stream (replicate 16 0)
    (104 :: replicate 15 0) 0 0.

Definition sample_key (pid stream : Z) : MetricKey :=
  mkMetricKey EVENT_CUDA_MEMCPY pid 1 0 stream 0 0.

Definition sample_limits : CardinalityLimits := mkCardinalityLimits 2 1 1.

Definition sample_args : CreateArgs :=
  mkCreateArgs true
    (fun _ comm => Ret (mkLabels comm (lit "ml") (lit "train-0") (lit "main") (lit "0") (lit "GPU-0")))
    (fun _ => None) ∅ sample_limits.

(** A lookup for an event of a process, which is then seen. *)
Definition sample_get (pid stream now : Z) (u : Userland) : Userland :=
  touch pid now
    match get_or_create sample_args (sample_key pid stream) (sample_event pid stream) u with
    | Ret (u, _) => u
    | _ => u
    end.

Definition sample_user : Userland :=
  sample_get 8 98 50 (sample_get 9 96 50 (sample_get 7 80 0 (mkUserland new_cache empty_store 0))).

(** Sample handle of a key. *)
Definition sample_handle (u : Userland) (k : MetricKey) : CachedHandles :=
  default (mkCachedHandles (cuda_calls, [], 0%nat) (cuda_calls, [], 0%nat) None None None None None None
             [] [] None None None None None None) (handles (us_cache u) !! k).

(** The state after the first process is evicted. *)
Definition sample_evicted : Userland := (gc true 60 50 sample_user).1.

Lemma sample_facts :
  let h pid stream := sample_handle sample_user (sample_key pid stream) in
  handles (us_cache sample_user) !! sample_key 7 80 = Some (h 7 80) /\
  handles (us_cache sample_user) !! sample_key 9 96 = Some (h 9 96) /\
  is_stale 60 50 (us_cache sample_user) 7 = true /\
  is_stale 60 50 (us_cache sample_user) 9 = false /\
  hist_labels (h 7 80) = hist_labels (h 9 96) /\
  child (us_reg sample_user) cuda_duration (hist_labels (h 9 96)) = Some (duration (h 9 96)) /\
  (limit_key sample_limits (sample_key 9 96) (us_cache sample_evicted)).2 = sample_key 9 96.
Proof.
  cbv zeta. split_and!; match goal with |- ?x = ?y => exact (eq_refl y <: x = y) end.
Qed.

#[local] Opaque sample_user sample_handle gc get_or_create limit_key.

Lemma shared_histogram_detached_witness :
  let h := sample_handle sample_user (sample_key 9 96) in
  child (us_reg sample_user) cuda_duration (hist_labels h) = Some (duration h) /\
  child (us_reg (gc true 60 50 sample_user).1) cuda_duration (hist_labels h) = None /\
  exists u2, get_or_create sample_args (sample_key 9 96) (sample_event 9 96) (gc true 60 50 sample_user).1
    = Ret (u2, h).
Proof.
  destruct sample_facts as (Hk1 & Hk2 & Hs1 & Hs2 & Hl & Hc & Hlim). split; [exact Hc|].
  pose proof (shared_histogram_detached true 60 50 sample_user (sample_key 7 80)
      (sample_handle sample_user (sample_key 7 80)) (sample_key 9 96)
      (sample_handle sample_user (sample_key 9 96)) Hk1 Hk2 Hs1 Hs2 eq_refl Hl) as [Hn Hget].
  split; [exact Hn|].
  destruct (Hget sample_args (sample_key 9 96) (sample_event 9 96)
    (limit_key sample_limits (sample_key 9 96) (us_cache sample_evicted)).1) as (u2 & Hu2 & _).
  - rewrite <- Hlim at 2. apply surjective_pairing.
  - exists u2. exact Hu2.
Defined.
