(* ===== verification/Symbols.v ===== *)
(** * Kernel names: src/src/symbols.rs

    [read_kernel_name] reads the name a process registered from its memory;
    [SymbolResolver] finds the symbol that covers an address through the memory
    map of the process and the symbol table of the mapped file.  The file system,
    the ELF reader (the object crate) and the LRU cache (the lru crate) are
    arguments, and what the files say may change from one request to the next; the theorems
    show which reads an answer of the three caches comes from. *)

From stdpp Require Import strings.
From S2P Require Import Prelude RustStd.

Local Open Scope Z_scope.
#[local] Set Warnings "-clear-no-such-hyp".

(** ** Reading a registered name *)

Inductive KernelNameReadError := OpenFailed | ReadFailed | NotUtf8 | Empty.

Definition as_label (e : KernelNameReadError) : str :=
  match e with
  | OpenFailed => lit "open_failed"
  | ReadFailed => lit "read_failed"
  | NotUtf8 => lit "not_utf8"
  | Empty => lit "empty"
  end.

(** /proc/<pid>/mem: whether it opens, whether seeking to an address works, and
    what one read of up to 1024 bytes there returns. *)
Record ProcMem := mkProcMem {
  pm_open : Z -> bool; pm_seek : Z -> Z -> bool; pm_read : Z -> Z -> option (list Z)
}.

Definition read_kernel_name (mem : ProcMem) (pid name_ptr : Z) : KernelNameReadError + str :=
  if name_ptr =? 0 then inl ReadFailed
  else if negb (pm_open mem pid) then inl OpenFailed
  else if negb (pm_seek mem pid name_ptr) then inl ReadFailed
  else match pm_read mem pid name_ptr with
       | None | Some [] => inl ReadFailed
       | Some buf =>
           match until_nul buf with
           | [] => inl Empty
           | bytes => match from_utf8 bytes with Some s => inr s | None => inl NotUtf8 end
           end
       end.

(** ** The caches *)

(** [lru::LruCache]: a bounded map; inserting may evict other keys. *)
Class LruCache (K V : Type) := {
  Lru : Type;
  lru_new : Z -> Lru;
  lru_get : K -> Lru -> option V * Lru;
  lru_put : K -> V -> Lru -> Lru;
  lru_pop : K -> Lru -> Lru;
  lru_iter : Lru -> list (K * V)
}.

Class LruLaws (K V : Type) `{!LruCache K V} : Prop := {
  new_iter : forall n, lru_iter (lru_new n) = [];
  get_Some : forall k c v, (lru_get k c).1 = Some v <-> (k, v) ∈ lru_iter c;
  get_iter : forall k c kv, kv ∈ lru_iter (lru_get k c).2 <-> kv ∈ lru_iter c;
  put_new : forall k v c, (k, v) ∈ lru_iter (lru_put k v c);
  put_old : forall k v c k' v', (k', v') ∈ lru_iter (lru_put k v c) -> (k', v') = (k, v) \/
    (k' <> k /\ (k', v') ∈ lru_iter c);
  pop_iter : forall k c k' v', (k', v') ∈ lru_iter (lru_pop k c) <-> k' <> k /\ (k', v') ∈ lru_iter c
}.

(** ** The resolver *)

Record MapEntry := mkMapEntry { me_start : Z; me_end : Z; me_offset : Z; me_host_path : str }.

(** (addr, size, name), sorted by addr *)
Abbreviation LibSymbols := (list (Z * Z * str)).

Inductive SymRequest := Resolve (pid addr : Z) | EvictPids (pids : list Z).

(** What is read from outside: /proc/<pid>/maps, and the symbols of a file, static
    ones first, with the names that can be read. *)
Record Files := mkFiles {
  f_maps : Z -> option str;
  f_elf : str -> option (list (Z * Z * option str))
}.

Definition symbols_step (symbols : LibSymbols) (sym : Z * Z * option str) : LibSymbols :=
  let '(address, size, name) := sym in
  if (size =? 0) && bool_decide (address ∈ (fun s => s.1.1) <$> symbols) then symbols
  else match name with
       | Some n => if bool_decide (n <> []) && (0 <? address) then symbols ++ [(address, size, n)]
                   else symbols
       | None => symbols
       end.

(** [sort_by_key], which is stable *)
Fixpoint insert_by_addr (s : Z * Z * str) (l : LibSymbols) : LibSymbols :=
  match l with
  | [] => [s]
  | t :: l' => if s.1.1 <=? t.1.1 then s :: l else t :: insert_by_addr s l'
  end.

Definition sort_by_addr (l : LibSymbols) : LibSymbols := foldr insert_by_addr [] l.

(** [dedup_by_key]: the first of each run of equal addresses stays. *)
Fixpoint dedup_by_addr (l : LibSymbols) : LibSymbols :=
  match l with
  | [] => []
  | s :: l' =>
      match dedup_by_addr l' with
      | t :: d => if s.1.1 =? t.1.1 then s :: d else s :: t :: d
      | [] => [s]
      end
  end.

Definition parse_elf_symbols (fs : Files) (path : str) : option LibSymbols :=
  raw ← f_elf fs path;
  let symbols := dedup_by_addr (sort_by_addr (foldl symbols_step [] raw)) in
  if bool_decide (symbols = []) then None else Some symbols.

Definition parse_maps_line (proc_path : str) (pid : Z) (line : str) : option MapEntry :=
  match split_whitespace line with
  | p0 :: p1 :: p2 :: p3 :: p4 :: path :: _ =>
      if negb (contains (lit "x") p1) then None
      else match split 45 p0 with
           | [a; b] =>
               Some (mkMapEntry (default 0 (from_str_radix 64 16 a)) (default 0 (from_str_radix 64 16 b))
                       (default 0 (from_str_radix 64 16 p2))
                       (proc_path ++ lit "/" ++ to_string pid ++ lit "/root" ++ path))
           | _ => None
           end
  | _ => None
  end.

Definition parse_maps (fs : Files) (proc_path : str) (pid : Z) : list MapEntry :=
  match f_maps fs pid with
  | Some content => omap (parse_maps_line proc_path pid) (lines content)
  | None => []
  end.

(** [binary_search_by_key] on a table sorted by distinct addresses: the index of
    the address, or where it would be inserted. *)
Definition binary_search (symbols : LibSymbols) (key : Z) : nat + nat :=
  let i := length (filter (fun s => s.1.1 < key) symbols) in
  match symbols !! i with
  | Some s => if s.1.1 =? key then inl i else inr i
  | None => inr i
  end.

Definition unknown_at (a : Z) : str := lit "unknown_0x" ++ lower_hex a.

Definition symbol_at (symbols : LibSymbols) (file_offset : Z) : str :=
  match binary_search symbols file_offset with
  | inl i => match symbols !! i with Some s => s.2 | None => [] end
  | inr (S i) =>
      match symbols !! i with
      | Some (sym_addr, sym_size, name) =>
          if (sym_size =? 0) || (file_offset <? u64 (sym_addr + sym_size)) then name
          else unknown_at file_offset
      | None => []
      end
  | inr O => unknown_at file_offset
  end.

Section Resolver.
Context `{!LruCache (Z * Z) str, !LruCache Z (list MapEntry)}.
Context (proc_path : str).

Record SymbolResolver := mkSymbolResolver {
  addr_cache : Lru (K := Z * Z) (V := str);
  lib_cache : gmap str (option LibSymbols);
  maps_cache : Lru (K := Z) (V := list MapEntry)
}.

Definition new_resolver : SymbolResolver := mkSymbolResolver (lru_new 10000) ∅ (lru_new 256).

Definition load_symbols (fs : Files) (host_path : str) (r : SymbolResolver)
    : option LibSymbols * SymbolResolver :=
  let lib :=
    match lib_cache r !! host_path with
    | Some _ => lib_cache r
    | None =>
        let lib := if (64 <? size (lib_cache r))%nat then ∅ else lib_cache r in
        <[host_path := parse_elf_symbols fs host_path]> lib
    end in
  (mjoin (lib !! host_path), mkSymbolResolver (addr_cache r) lib (maps_cache r)).

(** The maps of a process, read when they are not cached. *)
Definition cached_maps (fs : Files) (pid : Z) (r : SymbolResolver) : list MapEntry * SymbolResolver :=
  let '(hit, mc) := lru_get pid (maps_cache r) in
  let mc := match hit with Some _ => mc | None => lru_put pid (parse_maps fs proc_path pid) mc end in
  let '(maps, mc) := lru_get pid mc in
  (default [] maps, mkSymbolResolver (addr_cache r) (lib_cache r) mc).

Definition resolve_uncached (fs : Files) (pid addr : Z) (r : SymbolResolver)
    : str * SymbolResolver :=
  let '(maps, r) := cached_maps fs pid r in
  match list_find (fun m => me_start m <= addr < me_end m) maps with
  | None => (unknown_at addr, r)
  | Some (_, entry) =>
      let file_offset := u64 (addr - me_start entry + me_offset entry) in
      let '(symbols, r) := load_symbols fs (me_host_path entry) r in
      (match symbols with
       | Some syms => symbol_at syms file_offset
       | None => unknown_at file_offset
       end, r)
  end.

Definition resolve (fs : Files) (pid addr : Z) (r : SymbolResolver) : str * SymbolResolver :=
  if addr =? 0 then (lit "unknown", r)
  else
    let '(hit, ac) := lru_get (pid, addr) (addr_cache r) in
    let r := mkSymbolResolver ac (lib_cache r) (maps_cache r) in
    match hit with
    | Some name => (name, r)
    | None =>
        let '(name, r) := resolve_uncached fs pid addr r in
        (name, mkSymbolResolver (lru_put (pid, addr) name (addr_cache r)) (lib_cache r) (maps_cache r))
    end.

(** One process of [evict_pids]. *)
Definition evict_pid (r : SymbolResolver) (pid : Z) : SymbolResolver :=
  let keys_to_remove := (filter (fun kv => kv.1.1 = pid) (lru_iter (addr_cache r))).*1 in
  mkSymbolResolver (foldl (fun c k => lru_pop k c) (addr_cache r) keys_to_remove) (lib_cache r)
    (lru_pop pid (maps_cache r)).

Definition evict_pids (pids : list Z) (r : SymbolResolver) : SymbolResolver :=
  foldl evict_pid r pids.

(** The resolver thread of main.rs: a request at a time, results in order. *)
Definition serve (fs : Files) (r : SymbolResolver) (req : SymRequest)
    : SymbolResolver * list (Z * Z * str) :=
  match req with
  | Resolve pid addr => let '(name, r) := resolve fs pid addr r in (r, [(pid, addr, name)])
  | EvictPids pids => (evict_pids pids r, [])
  end.

(** The requests of a run, each with what the files say while it is served. *)
Definition serve_all (reqs : list (Files * SymRequest)) (r : SymbolResolver)
    : SymbolResolver * list (Z * Z * str) :=
  foldl (fun '(r, out) '(fs, req) => let '(r, o) := serve fs r req in (r, out ++ o)) (r, []) reqs.

(** ** What an answer may be *)

(** The answer without any cache, from the maps of a process in [fm] and the symbols in [fe]. *)
Definition resolve_from (fm fe : Files) (pid addr : Z) : str :=
  if addr =? 0 then lit "unknown"
  else match list_find (fun m => me_start m <= addr < me_end m) (parse_maps fm proc_path pid) with
       | None => unknown_at addr
       | Some (_, entry) =>
           let file_offset := u64 (addr - me_start entry + me_offset entry) in
           match parse_elf_symbols fe (me_host_path entry) with
           | Some syms => symbol_at syms file_offset
           | None => unknown_at file_offset
           end
       end.

(** The files that requests have seen since the thread was last told that a process is gone. *)
Definition see_files (pid : Z) (seen : list Files) (fr : Files * SymRequest) : list Files :=
  match fr.2 with
  | EvictPids pids => if bool_decide (pid ∈ pids) then [] else seen
  | Resolve _ _ => seen ++ [fr.1]
  end.

Definition since (pid : Z) (hist : list (Files * SymRequest)) : list Files :=
  foldl (see_files pid) [] hist.

(** A name that the maps of the process since its eviction and symbols read at any time give. *)
Definition named (hist : list (Files * SymRequest)) (pid addr : Z) (name : str) : Prop :=
  exists fm fe, fm ∈ since pid hist /\ fe ∈ hist.*1 /\ name = resolve_from fm fe pid addr.

Context `{!LruLaws (Z * Z) str, !LruLaws Z (list MapEntry)}.

(** What the caches hold was read. *)
Record consistent (hist : list (Files * SymRequest)) (r : SymbolResolver) : Prop := {
  cs_addr : forall pid addr name, ((pid, addr), name) ∈ lru_iter (addr_cache r) -> named hist pid addr name;
  cs_lib : forall path s, lib_cache r !! path = Some s ->
    exists fe, fe ∈ hist.*1 /\ s = parse_elf_symbols fe path;
  cs_maps : forall pid ms, (pid, ms) ∈ lru_iter (maps_cache r) ->
    exists fm, fm ∈ since pid hist /\ ms = parse_maps fm proc_path pid
}.

Lemma new_resolver_consistent : consistent [] new_resolver.
Proof.
  split; simpl.
  - intros pid addr name. rewrite new_iter. by intros ?%elem_of_nil.
  - by intros path s ?%lookup_empty_Some.
  - intros pid ms. rewrite new_iter. by intros ?%elem_of_nil.
Qed.

Lemma since_snoc pid hist fr : since pid (hist ++ [fr]) = see_files pid (since pid hist) fr.
Proof. unfold since. by rewrite foldl_app. Qed.

Lemma since_files pid hist fm : fm ∈ since pid hist -> fm ∈ hist.*1.
Proof.
  induction hist as [|[fs req] hist IH] using rev_ind; [by intros ?%elem_of_nil|].
  rewrite since_snoc, fmap_app, elem_of_app. unfold see_files. destruct req as [p a|pids]; cbn [fst snd].
  - intros [Hin|Hin]%elem_of_app; [left; by apply IH|right; done].
  - case_bool_decide; [by intros ?%elem_of_nil|]. intros Hin. left. by apply IH.
Qed.

(** A request under way has seen its files; what was read before stays. *)
Lemma consistent_see hist fs p a r : consistent hist r -> consistent (hist ++ [(fs, Resolve p a)]) r.
Proof.
  intros [H1 H2 H3]. unfold named in *. split.
  - intros pid addr name Hin. destruct (H1 _ _ _ Hin) as (fm & fe & Hm & He & ->). exists fm, fe.
    rewrite since_snoc, fmap_app. split_and!; [apply elem_of_app; by left..|done].
  - intros path s Hs. destruct (H2 _ _ Hs) as (fe & He & ->). exists fe. rewrite fmap_app, elem_of_app. auto.
  - intros pid ms Hin. destruct (H3 _ _ Hin) as (fm & Hm & ->). exists fm. rewrite since_snoc.
    split; [apply elem_of_app; by left|done].
Qed.

Section Request.
Context (hist : list (Files * SymRequest)) (fs : Files).
Hypothesis seen_files : fs ∈ hist.*1.

Lemma load_symbols_spec path r :
  consistent hist r ->
  (exists fe, fe ∈ hist.*1 /\ (load_symbols fs path r).1 = parse_elf_symbols fe path) /\
  consistent hist (load_symbols fs path r).2.
Proof.
  intros [H1 H2 H3]. unfold load_symbols. simpl.
  destruct (lib_cache r !! path) as [s|] eqn:E.
  - rewrite E. simpl. split; [|by split]. destruct (H2 _ _ E) as (fe & He & ->). by exists fe.
  - rewrite lookup_insert_eq. simpl. split; [by exists fs|]. split; simpl; [done| |done].
    intros p s [[<- <-]|[_ Hs]]%lookup_insert_Some; [by exists fs|].
    case_match; [by apply lookup_empty_Some in Hs|auto].
Qed.

Lemma cached_maps_spec pid r :
  fs ∈ since pid hist -> consistent hist r ->
  (exists fm, fm ∈ since pid hist /\ (cached_maps fs pid r).1 = parse_maps fm proc_path pid) /\
  consistent hist (cached_maps fs pid r).2.
Proof.
  intros Hf [H1 H2 H3]. unfold cached_maps.
  destruct (lru_get pid (maps_cache r)) as [hit mc] eqn:E.
  assert (Hmc : forall kv, kv ∈ lru_iter mc <-> kv ∈ lru_iter (maps_cache r)).
  { intros kv. rewrite <- (get_iter pid (maps_cache r) kv). by rewrite E. }
  set (mc' := match hit with Some _ => mc | None => _ end).
  assert (Hin : exists ms, (pid, ms) ∈ lru_iter mc').
  { unfold mc'. destruct hit as [ms|]; [|eexists; apply put_new].
    exists ms. apply Hmc, get_Some. by rewrite E. }
  assert (Hall : forall q ms, (q, ms) ∈ lru_iter mc' ->
    exists fm, fm ∈ since q hist /\ ms = parse_maps fm proc_path q).
  { unfold mc'. intros q ms. destruct hit as [ms'|]; [rewrite Hmc; apply H3|].
    intros [[= -> ->]|[_ Hms%Hmc]]%put_old; [by exists fs|by apply H3]. }
  destruct Hin as [ms Hin]. destruct (lru_get pid mc') as [maps mc2] eqn:E2. simpl.
  assert (maps = Some ms) as ->.
  { replace maps with (lru_get pid mc').1 by (by rewrite E2). by apply get_Some. }
  split; [apply Hall, Hin|]. split; simpl; [done|done|].
  intros q ms'. replace mc2 with (lru_get pid mc').2 by (by rewrite E2). rewrite get_iter. apply Hall.
Qed.

Lemma resolve_uncached_spec pid addr r :
  fs ∈ since pid hist -> consistent hist r -> addr <> 0 ->
  named hist pid addr (resolve_uncached fs pid addr r).1 /\
  consistent hist (resolve_uncached fs pid addr r).2.
Proof.
  intros Hf Hr Hne. unfold resolve_uncached.
  destruct (cached_maps_spec pid r Hf Hr) as [(fm & Hm & Em) Hc].
  destruct (cached_maps fs pid r) as [maps r1]. simpl in Em, Hc. subst maps.
  destruct (list_find _ _) as [[i entry]|] eqn:El.
  - destruct (load_symbols_spec (me_host_path entry) r1 Hc) as [(fe & He & Es) Hc'].
    destruct (load_symbols fs (me_host_path entry) r1) as [symbols r2]. simpl in Es, Hc'. subst symbols.
    split; [|done]. exists fm, fe. split_and!; [done|done|]. unfold resolve_from.
    destruct (Z.eqb_spec addr 0) as [|_]; [done|]. by rewrite El.
  - split; [|done]. exists fm, fs. split_and!; [done|done|]. unfold resolve_from.
    destruct (Z.eqb_spec addr 0) as [|_]; [done|]. by rewrite El.
Qed.

Lemma resolve_spec pid addr r :
  fs ∈ since pid hist -> consistent hist r ->
  named hist pid addr (resolve fs pid addr r).1 /\ consistent hist (resolve fs pid addr r).2.
Proof.
  intros Hf Hr. unfold resolve. destruct (Z.eqb_spec addr 0) as [->|Hne].
  { split; [|done]. by exists fs, fs. }
  destruct Hr as [H1 H2 H3]. destruct (lru_get (pid, addr) (addr_cache r)) as [hit ac] eqn:E.
  assert (Hac : forall kv, kv ∈ lru_iter ac <-> kv ∈ lru_iter (addr_cache r)).
  { intros kv. rewrite <- (get_iter (pid, addr) (addr_cache r) kv). by rewrite E. }
  assert (Hc : consistent hist (mkSymbolResolver ac (lib_cache r) (maps_cache r))).
  { split; simpl; [|done|done]. intros q a n. rewrite Hac. apply H1. }
  destruct hit as [name|].
  - split; [|done]. apply H1, get_Some. by rewrite E.
  - destruct (resolve_uncached_spec pid addr _ Hf Hc Hne) as [En [G1 G2 G3]].
    destruct (resolve_uncached fs pid addr _) as [name r1]. simpl in *. split; [done|].
    split; simpl; [|done|done]. intros q a n [[= -> -> ->]|[_ ?]]%put_old; [done|by apply G1].
Qed.
End Request.

Lemma pop_all_iter (keys : list (Z * Z)) c k v :
  (k, v) ∈ lru_iter (foldl (fun c k => lru_pop k c) c keys) <-> (k ∉ keys) /\ (k, v) ∈ lru_iter c.
Proof.
  revert c. induction keys as [|k' keys IH]; intros c; simpl.
  - split; [|by intros []]. intros H. split; [apply not_elem_of_nil|done].
  - rewrite IH, pop_iter, not_elem_of_cons. naive_solver.
Qed.

Lemma evict_pid_addr r pid k v :
  (k, v) ∈ lru_iter (addr_cache (evict_pid r pid)) <-> k.1 <> pid /\ (k, v) ∈ lru_iter (addr_cache r).
Proof.
  simpl. rewrite pop_all_iter, list_elem_of_fmap. split.
  - intros [Hni Hin]. split; [|done]. intros Hp. apply Hni.
    exists (k, v). split; [done|]. by apply list_elem_of_filter.
  - intros [Hne Hin]. split; [|done]. intros ([k' v'] & -> & [? _]%list_elem_of_filter). done.
Qed.

(** Eviction leaves nothing of the evicted processes but the symbol tables. *)
Lemma evict_pids_iter pids r :
  (forall k v, (k, v) ∈ lru_iter (addr_cache (evict_pids pids r)) ->
    (k.1 ∉ pids) /\ (k, v) ∈ lru_iter (addr_cache r)) /\
  (forall pid ms, (pid, ms) ∈ lru_iter (maps_cache (evict_pids pids r)) ->
    (pid ∉ pids) /\ (pid, ms) ∈ lru_iter (maps_cache r)) /\
  lib_cache (evict_pids pids r) = lib_cache r.
Proof.
  unfold evict_pids. revert r. induction pids as [|p pids IH]; intros r; cbn [foldl].
  { split_and!; [|intros pid ms Hin|done]; try (intros k v Hin); split; (done || apply not_elem_of_nil). }
  destruct (IH (evict_pid r p)) as (IH1 & IH2 & ->). split_and!; [| |done].
  - intros k v [Hni [Hne Hin]%evict_pid_addr]%IH1. by rewrite not_elem_of_cons.
  - intros pid ms [Hni Hin]%IH2. simpl in Hin. apply pop_iter in Hin as [Hne Hin].
    by rewrite not_elem_of_cons.
Qed.

Lemma evict_pids_consistent pids hist fs r :
  consistent hist r -> consistent (hist ++ [(fs, EvictPids pids)]) (evict_pids pids r).
Proof.
  intros [H1 H2 H3]. destruct (evict_pids_iter pids r) as (E1 & E2 & E3). unfold named in *.
  assert (Hs : forall pid, (pid ∉ pids) -> since pid (hist ++ [(fs, EvictPids pids)]) = since pid hist).
  { intros pid Hp. rewrite since_snoc. cbn. by rewrite bool_decide_eq_false_2. }
  split.
  - intros pid addr name [Hp Hin]%E1. simpl in Hp. destruct (H1 _ _ _ Hin) as (fm & fe & Hm & He & ->).
    exists fm, fe. rewrite Hs, fmap_app by done. split_and!; [done|apply elem_of_app; by left|done].
  - intros path s. rewrite E3. intros Hl. destruct (H2 _ _ Hl) as (fe & He & ->). exists fe.
    rewrite fmap_app, elem_of_app. auto.
  - intros pid ms [Hp Hin]%E2. rewrite Hs by done. by apply H3.
Qed.

(** One request: an answer exactly to a question about an address. *)
Lemma serve_spec hist fs r req :
  consistent hist r ->
  consistent (hist ++ [(fs, req)]) (serve fs r req).1 /\
  match req with
  | Resolve pid addr => exists name, (serve fs r req).2 = [(pid, addr, name)] /\
      named (hist ++ [(fs, req)]) pid addr name
  | EvictPids _ => (serve fs r req).2 = []
  end.
Proof.
  intros Hr. destruct req as [pid addr|pids]; cbn [serve].
  - assert (Hf : fs ∈ since pid (hist ++ [(fs, Resolve pid addr)])).
    { rewrite since_snoc. apply elem_of_app. right. by left. }
    destruct (resolve_spec _ fs (since_files _ _ _ Hf) pid addr r Hf (consistent_see _ fs pid addr _ Hr)) as [E Hc].
    destruct (resolve fs pid addr r) as [name r']. split; [done|]. by exists name.
  - split; [|done]. by apply evict_pids_consistent.
Qed.

Lemma serve_all_snoc hist fs req r :
  serve_all (hist ++ [(fs, req)]) r
  = (let '(r1, out) := serve_all hist r in let '(r2, o) := serve fs r1 req in (r2, out ++ o)).
Proof. unfold serve_all. rewrite foldl_app. cbn [foldl]. by destruct (foldl _ _ hist). Qed.

Lemma serve_all_consistent hist : consistent hist (serve_all hist new_resolver).1.
Proof.
  induction hist as [|[fs req] hist IH] using rev_ind; [apply new_resolver_consistent|].
  rewrite serve_all_snoc. destruct (serve_all hist new_resolver) as [r out]. cbn [fst] in IH.
  destruct (serve_spec hist fs r req IH) as [Hc _]. by destruct (serve fs r req).
Qed.

(** The maps of a process did not change since it was evicted, nor any symbol table. *)
Definition unchanged (hist : list (Files * SymRequest)) (fs : Files) (pid : Z) : Prop :=
  (forall fm, fm ∈ since pid hist -> f_maps fm pid = f_maps fs pid) /\
  (forall fe path, fe ∈ hist.*1 -> f_elf fe path = f_elf fs path).

Lemma named_unchanged hist fs pid addr name :
  unchanged hist fs pid -> named hist pid addr name -> name = resolve_from fs fs pid addr.
Proof.
  intros [Hm He] (fm & fe & Hfm & Hfe & ->). unfold resolve_from, parse_maps, parse_elf_symbols.
  rewrite (Hm fm Hfm). repeat case_match; rewrite ?(He fe _ Hfe) in *; simplify_eq; done.
Qed.

(** Eviction keeps the symbol table of a file under /proc/<pid>/root: a later process
    with the same id and path is answered from the table of the old file. *)
Lemma evicted_symbols_stale fs' pids path symbols r :
  lib_cache r !! path = Some symbols ->
  (load_symbols fs' path (evict_pids pids r)).1 = symbols.
Proof.
  intros Hs. destruct (evict_pids_iter pids r) as (_ & _ & E). unfold load_symbols. simpl.
  by rewrite !E, Hs, Hs.
Qed.

(** C20: the resolver thread answers every request for an address with one name, in the order
    of the requests, while files change under it.  The name is the one that some maps of the
    process, read since the thread was last told that the process is gone, and some symbol table
    of the file, read at any time before, give for the address.  If the maps of the process did
    not change since then and no symbol table ever changed, it is the name that the files give
    now, whatever the three caches hold or have evicted. *)
Theorem resolver_exact hist fs pid addr :
  let before := serve_all hist new_resolver in
  let after := serve_all (hist ++ [(fs, Resolve pid addr)]) new_resolver in
  exists name, after.2 = before.2 ++ [(pid, addr, name)] /\
    named (hist ++ [(fs, Resolve pid addr)]) pid addr name /\
    (unchanged hist fs pid -> name = resolve_from fs fs pid addr).
Proof.
  cbv zeta. pose proof (serve_all_consistent hist) as Hc. rewrite serve_all_snoc.
  destruct (serve_all hist new_resolver) as [r out]. cbn [fst] in Hc.
  destruct (serve_spec hist fs r (Resolve pid addr) Hc) as [_ (name & Ho & Hn)].
  destruct (serve fs r (Resolve pid addr)) as [r' o]. cbn [fst snd] in *. subst o.
  exists name. split_and!; [done|done|]. intros [Hm He]. apply (named_unchanged _ fs _ _ _ ) in Hn; [done|].
  split.
  - intros fm. rewrite since_snoc. intros [|Hin]%elem_of_app; [by apply Hm|].
    by apply list_elem_of_singleton in Hin as ->.
  - intros fe path. rewrite fmap_app. intros [|Hin]%elem_of_app; [by apply He|].
    by apply list_elem_of_singleton in Hin as ->.
Qed.
End Resolver.

(** ** Symbol tables *)

Definition addr_lt (s t : Z * Z * str) : Prop := s.1.1 < t.1.1.

Lemma insert_by_addr_sorted s l :
  StronglySorted (fun a b => a.1.1 <= b.1.1) l ->
  StronglySorted (fun a b => a.1.1 <= b.1.1) (insert_by_addr s l).
Proof.
  induction 1 as [|t l Hs IH Ht]; simpl; [by repeat constructor|].
  destruct (Z.leb_spec s.1.1 t.1.1).
  - constructor; [by constructor|]. constructor; [done|]. eapply Forall_impl; [done|]. simpl. lia.
  - constructor; [done|]. clear IH Hs. induction l as [|u l IHl]; simpl; [constructor; [lia|done]|].
    apply Forall_cons in Ht as [? ?]. case_match; repeat (constructor; auto with lia); auto.
Qed.

Lemma insert_by_addr_perm s l : insert_by_addr s l ≡ₚ s :: l.
Proof.
  induction l as [|t l IH]; simpl; [done|]. case_match; [done|]. rewrite IH. apply Permutation_swap.
Qed.

Lemma sort_by_addr_spec l :
  StronglySorted (fun a b => a.1.1 <= b.1.1) (sort_by_addr l) /\ sort_by_addr l ≡ₚ l.
Proof.
  induction l as [|s l [IH1 IH2]]; simpl; [by repeat constructor|].
  split; [by apply insert_by_addr_sorted|]. by rewrite insert_by_addr_perm, IH2.
Qed.

Lemma dedup_by_addr_spec l :
  StronglySorted (fun a b => a.1.1 <= b.1.1) l ->
  StronglySorted addr_lt (dedup_by_addr l) /\
  (forall s, s ∈ dedup_by_addr l -> s ∈ l) /\
  (forall s, s ∈ l -> s.1.1 ∈ (fun s => s.1.1) <$> dedup_by_addr l).
Proof.
  induction 1 as [|s l Hs [IH1 [IH2 IH3]] Hle]; simpl.
  { split_and!; [constructor|done|]. by intros s ?%elem_of_nil. }
  rewrite Forall_forall in Hle. destruct (dedup_by_addr l) as [|t d].
  { split_and!; [by repeat constructor| |].
    - intros u ->%list_elem_of_singleton. left.
    - intros u [->|Hu]%elem_of_cons; [left|]. by apply IH3, elem_of_nil in Hu. }
  inversion_clear IH1 as [|? ? Hd Ht]. assert (Hst : s.1.1 <= t.1.1) by (apply Hle, IH2; left).
  destruct (Z.eqb_spec s.1.1 t.1.1) as [E|Hne].
  - split_and!.
    + constructor; [done|]. eapply Forall_impl; [done|]. unfold addr_lt. intros u. by rewrite E.
    + intros u [->|Hu]%elem_of_cons; [left|right]. apply IH2. by right.
    + intros u [->|Hu]%elem_of_cons; [left|]. apply IH3 in Hu. simpl in *. by rewrite E.
  - split_and!.
    + constructor; [by constructor|]. constructor; [unfold addr_lt; lia|].
      eapply Forall_impl; [done|]. unfold addr_lt. simpl. lia.
    + intros u [->|Hu]%elem_of_cons; [left|right]. by apply IH2.
    + intros u [->|Hu]%elem_of_cons; [left|right]. by apply IH3.
Qed.

(** The symbol at or before an offset. *)
Definition floor_symbol (symbols : LibSymbols) (off : Z) : option (Z * Z * str) :=
  last (filter (fun s => s.1.1 <= off) symbols).

Lemma sorted_split symbols key :
  StronglySorted addr_lt symbols ->
  exists l1 l2, symbols = l1 ++ l2 /\ Forall (fun s => s.1.1 < key) l1 /\
    Forall (fun s => key <= s.1.1) l2 /\ StronglySorted addr_lt l2.
Proof.
  induction 1 as [|s l Hs (l1 & l2 & -> & H1 & H2 & H3) Hl]; [exists [], []; by repeat constructor|].
  destruct (Z.ltb_spec s.1.1 key).
  - exists (s :: l1), l2. split_and!; [done|by constructor|done|done].
  - exists [], (s :: l1 ++ l2). split_and!; [done|constructor| |by constructor].
    constructor; [done|]. eapply Forall_impl; [done|]. unfold addr_lt. simpl. lia.
Qed.

(** The name for an offset whose insertion point is after [l1]. *)
Lemma name_before (l1 l2 : LibSymbols) off :
  Forall (fun s => s.1.1 < off) l1 ->
  match length l1 with
  | S i =>
      match (l1 ++ l2) !! i with
      | Some (sym_addr, sym_size, name) =>
          if (sym_size =? 0) || (off <? u64 (sym_addr + sym_size)) then name else unknown_at off
      | None => []
      end
  | O => unknown_at off
  end
  = match last l1 with
    | Some (a, sz, name) =>
        if (off =? a) || (sz =? 0) || (off <? u64 (a + sz)) then name else unknown_at off
    | None => unknown_at off
    end.
Proof.
  intros H1. destruct l1 as [|[[a sz] name] l1 _] using rev_ind; [done|].
  rewrite last_snoc, length_app, Nat.add_comm. simpl.
  rewrite <- app_assoc. cbn [app]. rewrite list_lookup_middle by done.
  apply Forall_app in H1 as [_ [H1 _]%Forall_cons]. simpl in H1.
  by destruct (Z.eqb_spec off a); [lia|].
Qed.

(** The binary search finds the symbol at or before the offset, and a name is given
    when the symbol has no size or covers the offset. *)
Lemma symbol_at_floor symbols off :
  StronglySorted addr_lt symbols ->
  symbol_at symbols off =
    match floor_symbol symbols off with
    | Some (a, sz, name) =>
        if (off =? a) || (sz =? 0) || (off <? u64 (a + sz)) then name else unknown_at off
    | None => unknown_at off
    end.
Proof.
  intros (l1 & l2 & -> & H1 & H2 & H3)%(sorted_split _ off).
  unfold symbol_at, binary_search, floor_symbol. rewrite !filter_app.
  rewrite (filter_all _ l1 H1), (filter_none (fun s => s.1.1 < off) l2)
    by (eapply Forall_impl; [done|]; simpl; lia).
  rewrite (filter_all (fun s => s.1.1 <= off) l1) by (eapply Forall_impl; [done|]; simpl; lia).
  rewrite app_nil_r. destruct l2 as [|[[a sz] name] l2].
  - rewrite lookup_ge_None_2 by (rewrite app_nil_r; lia). rewrite filter_nil, app_nil_r.
    rewrite <- (name_before l1 [] off H1). by rewrite app_nil_r.
  - rewrite list_lookup_middle by done. simpl. apply Forall_cons in H2 as [H2 _]. simpl in H2.
    inversion_clear H3 as [|? ? _ Hlt].
    rewrite filter_cons, (filter_none (fun s => s.1.1 <= off) l2)
      by (eapply Forall_impl; [done|]; unfold addr_lt; simpl; lia).
    simpl. destruct (Z.eqb_spec a off) as [->|Hne].
    + rewrite list_lookup_middle, decide_True, last_snoc, Z.eqb_refl by (done || lia). done.
    + rewrite decide_False, app_nil_r by lia. by rewrite <- (name_before l1 ((a, sz, name) :: l2) off H1).
Qed.

Lemma symbols_step_addr symbols sym a :
  a ∈ (fun s => s.1.1) <$> symbols -> a ∈ (fun s => s.1.1) <$> symbols_step symbols sym.
Proof.
  destruct sym as [[address size] name]. unfold symbols_step. intros Ha.
  repeat case_match; try done. rewrite fmap_app. by apply elem_of_app; left.
Qed.

Lemma symbols_steps_addr raw symbols a sz n :
  (a, sz, Some n) ∈ raw -> n <> [] -> 0 < a ->
  a ∈ (fun s => s.1.1) <$> foldl symbols_step symbols raw.
Proof.
  intros Hin Hn Ha. revert symbols. induction raw as [|sym raw IH]; intros symbols; simpl.
  { by apply elem_of_nil in Hin. }
  apply elem_of_cons in Hin as [<-|Hin]; [|by apply IH]. clear IH.
  assert (G : a ∈ (fun s => s.1.1) <$> symbols_step symbols (a, sz, Some n)).
  { unfold symbols_step. destruct ((sz =? 0) && _) eqn:E.
    - apply andb_true_iff in E as [_ E]. by apply bool_decide_eq_true in E.
    - rewrite bool_decide_eq_true_2 by done. destruct (Z.ltb_spec 0 a); [|lia]. simpl.
      rewrite fmap_app. apply elem_of_app. right. left. }
  revert G. generalize (symbols_step symbols (a, sz, Some n)).
  induction raw as [|sym raw IH]; intros s Hs; simpl; [done|]. by apply IH, symbols_step_addr.
Qed.

(** The table of a file is sorted by distinct addresses and has an entry at the
    address of every named symbol. *)
Lemma parse_elf_symbols_spec fs path symbols :
  parse_elf_symbols fs path = Some symbols ->
  StronglySorted addr_lt symbols /\
  forall raw a sz n, f_elf fs path = Some raw -> (a, sz, Some n) ∈ raw -> n <> [] -> 0 < a ->
    exists sz' n', (a, sz', n') ∈ symbols.
Proof.
  unfold parse_elf_symbols. destruct (f_elf fs path) as [raw|]; [|done]. simpl.
  set (syms := foldl symbols_step [] raw).
  destruct (sort_by_addr_spec syms) as [Hs Hp].
  destruct (dedup_by_addr_spec _ Hs) as (Hd & _ & Hall).
  case_bool_decide; [done|]. intros [= <-]. split; [done|].
  intros raw' a sz n [= <-] Hin Hn Ha.
  apply (symbols_steps_addr _ [] _ sz n) in Hin; [|done..].
  apply list_elem_of_fmap in Hin as (s & -> & Hin). fold syms in Hin. rewrite <- Hp in Hin.
  apply Hall, list_elem_of_fmap in Hin as ([[a' sz'] n'] & E & Hin). simpl in E. rewrite E. eauto.
Qed.

(** ** A cache that obeys the laws: it starts over when it is full *)

#[export] Instance map_lru K V `{Countable K} : LruCache K V := {|
  Lru := Z * gmap K V;
  lru_new n := (n, ∅);
  lru_get k c := (c.2 !! k, c);
  lru_put k v c := (c.1, <[k := v]> (if Z.of_nat (size c.2) <? c.1 then c.2 else ∅));
  lru_pop k c := (c.1, delete k c.2);
  lru_iter c := map_to_list c.2
|}.

#[export] Instance map_lru_laws K V `{Countable K} : LruLaws K V.
Proof.
  split; simpl.
  - intros n. apply map_to_list_empty.
  - intros k c v. by rewrite elem_of_map_to_list.
  - done.
  - intros k v c. by rewrite elem_of_map_to_list, lookup_insert_eq.
  - intros k v c k' v'. rewrite !elem_of_map_to_list, lookup_insert_Some.
    intros [[-> ->]|[Hne Hl]]; [by left|]. right. case_match; [done|].
    by apply lookup_empty_Some in Hl.
  - intros k c k' v'. rewrite !elem_of_map_to_list, lookup_delete_Some. naive_solver.
Qed.

(** Process 7 maps a library whose symbol f covers offsets 256 to 511; its successor
    with the same id maps it elsewhere. *)
Definition sample_files (start : string) : Files :=
  mkFiles
    (fun pid => if pid =? 7 then Some (lit start ++ lit "-9000 r-xp 0 08:01 5 /lib.so") else None)
    (fun path => if bool_decide (path = lit "/proc/7/root/lib.so")
                 then Some [(256, 256, Some (lit "f"))] else None).

(** The first process 7 asks, exits and is evicted; its successor asks. *)
Definition sample_requests : list (Files * SymRequest) :=
  [(sample_files "1000", Resolve 7 4400); (sample_files "1000", EvictPids [7])].

Lemma resolver_exact_witness :
  let fs := sample_files "2000" in
  let after := serve_all (lit "/proc") (sample_requests ++ [(fs, Resolve 7 8500)]) new_resolver in
  exists name, after.2 = (serve_all (lit "/proc") sample_requests new_resolver).2 ++ [(7, 8500, name)] /\
    name = lit "f".
Proof.
  destruct (resolver_exact (lit "/proc") sample_requests (sample_files "2000") 7 8500)
    as (name & E & _ & Hu).
  exists name. split; [exact E|]. rewrite Hu; [vm_compute; reflexivity|]. split.
  - intros fm Hin. exfalso. vm_compute in Hin. by apply not_elem_of_nil in Hin.
  - intros fe path Hin. cbn in Hin. apply elem_of_cons in Hin as [->|Hin]; [reflexivity|].
    by apply list_elem_of_singleton in Hin as ->.
Defined.
