(* ===== verification/Report.v ===== *)
(** * The terminal report: src/src/report.rs

    The statistics kept per operation, how a batch of them is merged into the
    totals, and the report they are printed as. *)

From Stdlib Require Import Floats.SpecFloat.
From stdpp Require Import strings sorting.
From S2P Require Import Prelude RustStd F64 Rounding Events.

Local Open Scope Z_scope.

Record TermStats := mkTermStats {
  ts_count : Z; ts_total_ns : Z; ts_total_bytes : Z; ts_min_ns : Z; ts_max_ns : Z
}.

(** [TermStats::default] *)
Definition ts_default : TermStats := mkTermStats 0 0 0 0 0.

Definition record (s : TermStats) (dur_ns size : Z) : TermStats :=
  let count := u64 (ts_count s + 1) in
  mkTermStats count (u64 (ts_total_ns s + dur_ns)) (u64 (ts_total_bytes s + size))
    (if (count =? 1) || (dur_ns <? ts_min_ns s) then dur_ns else ts_min_ns s)
    (if ts_max_ns s <? dur_ns then dur_ns else ts_max_ns s).

Definition merge (s other : TermStats) : TermStats :=
  if ts_count other =? 0 then s
  else
    let count := u64 (ts_count s + ts_count other) in
    mkTermStats count (u64 (ts_total_ns s + ts_total_ns other))
      (u64 (ts_total_bytes s + ts_total_bytes other))
      (if (count =? ts_count other) || (ts_min_ns other <? ts_min_ns s)
       then ts_min_ns other else ts_min_ns s)
      (if ts_max_ns s <? ts_max_ns other then ts_max_ns other else ts_max_ns s).

(** ** Numbers *)

(** [{:.p}] of a number with the digits [q]. *)
Definition decimal (p q : Z) : str :=
  let frac := to_string (q mod 10 ^ p) in
  to_string (q / 10 ^ p) ++ [46] ++ replicate (Z.to_nat p - length frac) 48 ++ frac.

(** [format!("{:.p}", n as f64 / unit)] *)
Definition fmt_ratio (p n unit : Z) : str := decimal p (fixed_digits p (f64_div (f64_of n) (f64_of unit))).

Definition fmt_dur (ns : Z) : str :=
  if 1000000000 <=? ns then fmt_ratio 2 ns 1000000000 ++ lit "s"
  else if 1000000 <=? ns then fmt_ratio 2 ns 1000000 ++ lit "ms"
  else if 1000 <=? ns then fmt_ratio 1 ns 1000 ++ [181; 115]
  else to_string ns ++ lit "ns".

Definition fmt_size (b : Z) : str :=
  if b =? 0 then lit "-"
  else if 2 ^ 30 <=? b then fmt_ratio 2 b (2 ^ 30) ++ lit " GiB"
  else if 2 ^ 20 <=? b then fmt_ratio 2 b (2 ^ 20) ++ lit " MiB"
  else if 2 ^ 10 <=? b then fmt_ratio 1 b (2 ^ 10) ++ lit " KiB"
  else to_string b ++ lit " B".

(** ** Rows *)

Record Row := mkRow {
  row_label : str; row_count : Z; row_total : Z; row_avg : Z; row_min : Z; row_max : Z;
  row_bytes : Z
}.

Definition reported_types : list Z :=
  [EVENT_CUDA_MALLOC; EVENT_CUDA_FREE; EVENT_CUDA_MEMCPY; EVENT_CUDA_MEMCPY_ASYNC;
   EVENT_CUDA_LAUNCH_KERNEL].

Definition memcpy_arrow (kind : Z) : str :=
  if kind =? MEMCPY_H2H then lit " H->H"
  else if kind =? MEMCPY_H2D then lit " H->D"
  else if kind =? MEMCPY_D2H then lit " D->H"
  else if kind =? MEMCPY_D2D then lit " D->D"
  else lit " ???".

Definition row_label_of (key : Z * Z) : str :=
  if key.1 =? EVENT_CUDA_MALLOC then lit "cudaMalloc"
  else if key.1 =? EVENT_CUDA_FREE then lit "cudaFree"
  else if (key.1 =? EVENT_CUDA_MEMCPY) || (key.1 =? EVENT_CUDA_MEMCPY_ASYNC) then
    lit "cudaMemcpy" ++ (if key.1 =? EVENT_CUDA_MEMCPY_ASYNC then lit "Async " else [])
      ++ memcpy_arrow key.2
  else if key.1 =? EVENT_CUDA_LAUNCH_KERNEL then lit "cudaLaunchKernel"
  else lit "unknown".

Definition row_of (key : Z * Z) (s : TermStats) : Row :=
  mkRow (row_label_of key) (ts_count s) (ts_total_ns s) (ts_total_ns s / ts_count s) (ts_min_ns s)
    (ts_max_ns s) (ts_total_bytes s).

(** The order of Rust tuples. *)
Definition pair_le (a b : Z * Z) : Prop := a.1 < b.1 \/ (a.1 = b.1 /\ a.2 <= b.2).

#[export] Instance pair_le_dec : RelDecision pair_le.
Proof. intros a b. unfold pair_le. apply _. Defined.

Definition report_rows (stats : gmap (Z * Z) TermStats) : list Row :=
  et ← reported_types;
  let keys := merge_sort pair_le (filter (fun k => k.1 = et) (map_to_list stats).*1) in
  key ← keys;
  match stats !! key with
  | Some s => if ts_count s =? 0 then [] else [row_of key s]
  | None => []
  end.

(** [{:<n}] and [{:>n}]: at least [n] characters. *)
Definition pad_right (n : nat) (s : str) : str := s ++ replicate (n - length s) 32.
Definition pad_left (n : nat) (s : str) : str := replicate (n - length s) 32 ++ s.

(** One line of the table, from its six columns. *)
Definition report_line (label count total avg min_max data : str) : str :=
  pad_right 22 label ++ [32] ++ pad_left 8 count ++ [32] ++ pad_left 12 total ++ [32] ++ pad_left 12 avg
  ++ [32] ++ pad_left 12 min_max ++ [32] ++ pad_left 12 data.

Definition row_text (r : Row) : str :=
  report_line (row_label r) (to_string (row_count r)) (fmt_dur (row_total r)) (fmt_dur (row_avg r))
    (fmt_dur (row_min r) ++ [47] ++ fmt_dur (row_max r)) (fmt_size (row_bytes r)).

(** The lines that are printed; the first one starts with a line break. *)
Definition print_report (stats : gmap (Z * Z) TermStats) : list str :=
  ([10] ++ report_line (lit "Operation") (lit "Count") (lit "Total") (lit "Avg") (lit "Min/Max") (lit "Data"))
  :: replicate 82 45 :: (row_text <$> report_rows stats) ++ [replicate 82 61].

(** ** Statistics of a list of calls *)

Definition stats_of (calls : list (Z * Z)) : TermStats :=
  foldl (fun s c => record s c.1 c.2) ts_default calls.

Definition min_list (l : list Z) : Z :=
  match l with [] => 0 | x :: l => foldl Z.min x l end.

Lemma min_list_snoc l x : l <> [] -> min_list (l ++ [x]) = Z.min (min_list l) x.
Proof. destruct l as [|y l]; [done|]. intros _. simpl. by rewrite foldl_app. Qed.

Lemma min_list_app l1 l2 :
  l1 <> [] -> l2 <> [] -> min_list (l1 ++ l2) = Z.min (min_list l1) (min_list l2).
Proof.
  intros H1. induction l2 as [|x l2 IH] using rev_ind; [done|]. intros _.
  rewrite app_assoc, min_list_snoc by (by destruct l1). destruct l2 as [|y l2]; [by rewrite app_nil_r|].
  rewrite IH by done. rewrite min_list_snoc by done. lia.
Qed.

(** What the statistics are. *)
Lemma stats_of_spec calls :
  Z.of_nat (length calls) < 2 ^ 64 -> Forall (fun c => 0 <= c.1) calls ->
  stats_of calls =
    mkTermStats (Z.of_nat (length calls)) (u64 (sumZ calls.*1)) (u64 (sumZ calls.*2))
      (min_list calls.*1) (foldl Z.max 0 calls.*1).
Proof.
  intros Hlen Hpos. unfold stats_of.
  induction calls as [|[d z] calls IH] using rev_ind; [by vm_compute|].
  apply Forall_app in Hpos as [Hpos Hd]. apply Forall_cons in Hd as [Hd _]. simpl in Hd.
  rewrite length_app in *. simpl in Hlen.
  rewrite foldl_app, !fmap_app, !sumZ_app, foldl_app, IH by (done || lia). csimpl.
  unfold record. simpl. rewrite wrap_small by (unfold fits; lia).
  destruct calls as [|c0 calls0].
  { simpl. f_equal; [wrap_simpl; f_equal; lia..|]. destruct (Z.ltb_spec 0 d); lia. }
  rewrite (min_list_snoc _ d) by done. set (calls := c0 :: calls0) in *.
  f_equal; try (wrap_simpl; f_equal; lia).
  - destruct (Z.eqb_spec (Z.of_nat (length calls) + 1) 1); [simpl in *; lia|]. cbn [orb].
    destruct (Z.ltb_spec d (min_list calls.*1)); lia.
  - destruct (Z.ltb_spec (foldl Z.max 0 calls.*1) d); lia.
Qed.

Lemma max_list_app l1 l2 : foldl Z.max 0 (l1 ++ l2) = Z.max (foldl Z.max 0 l1) (foldl Z.max 0 l2).
Proof.
  assert (G : forall l x, 0 <= x -> foldl Z.max x l = Z.max x (foldl Z.max 0 l)).
  { intros l. induction l as [|y l IH]; intros x Hx; simpl; [lia|].
    rewrite (IH (Z.max x y)), (IH (Z.max 0 y)) by lia. lia. }
  assert (N : forall l x, 0 <= x -> 0 <= foldl Z.max x l).
  { intros l. induction l as [|y l IH]; intros x Hx; simpl; [lia|]. apply IH. lia. }
  rewrite foldl_app. apply G, N. lia.
Qed.

(** Merging the statistics of two batches gives the statistics of both. *)
Lemma merge_stats_of l1 l2 :
  Z.of_nat (length (l1 ++ l2)) < 2 ^ 64 -> Forall (fun c => 0 <= c.1) (l1 ++ l2) ->
  merge (stats_of l1) (stats_of l2) = stats_of (l1 ++ l2).
Proof.
  intros Hlen Hpos. pose proof Hlen as Hlen'. rewrite length_app in Hlen'.
  apply Forall_app in Hpos as Hpos'. destruct Hpos' as [Hp1 Hp2].
  rewrite !stats_of_spec by (done || lia). unfold merge. simpl.
  destruct (Z.eqb_spec (Z.of_nat (length l2)) 0) as [E|Hne].
  { destruct l2; [|simpl in E; lia]. by rewrite app_nil_r. }
  rewrite !fmap_app, !sumZ_app, max_list_app, length_app, Nat2Z.inj_add.
  rewrite wrap_small by (unfold fits; lia).
  f_equal; try (by wrap_simpl).
  - destruct (decide (l1 = [])) as [->|Hl1].
    { simpl. by rewrite Z.eqb_refl. }
    assert (Z.of_nat (length l1) <> 0) by (destruct l1; [done|simpl; lia]).
    rewrite min_list_app.
    + Zb_cases; simpl; lia.
    + by destruct l1.
    + destruct l2; [simpl in *; lia|done].
  - Zb_cases; lia.
Qed.

(** ** What the numbers of the report say *)

Lemma short_number p r : 1 <= p <= 2 -> 0 <= r < 10 ^ p -> (length (to_string r) <= Z.to_nat p)%nat.
Proof.
  intros Hp Hr. assert (p = 1 \/ p = 2) as [-> | ->] by lia; unfold to_string; cbn [num_go].
  - rewrite Z.div_small by lia. simpl. lia.
  - destruct (Z.eqb_spec (r / 10) 0); [simpl; lia|].
    assert (r / 10 / 10 = 0) as -> by (rewrite Z.div_div by lia; apply Z.div_small; lia). simpl. lia.
Qed.

Lemma num_val_zeros k s : num_val 10 (replicate k 48 ++ s) 0 = num_val 10 s 0.
Proof. induction k as [|k IH]; [done|exact IH]. Qed.

(** What [decimal] shows can be read back: the digits before and after the point. *)
Lemma decimal_digits p q :
  1 <= p <= 2 -> fits 64 q ->
  exists whole frac, decimal p q = whole ++ [46] ++ frac /\ length frac = Z.to_nat p /\
    num_val 10 whole 0 * 10 ^ p + num_val 10 frac 0 = q.
Proof.
  intros Hp [Hq1 Hq2]. assert (Ht : 10 <= 10 ^ p <= 100) by (assert (p = 1 \/ p = 2) as [-> | ->] by lia; lia).
  pose proof (Z.mod_pos_bound q (10 ^ p) ltac:(lia)) as Hm.
  exists (to_string (q / 10 ^ p)), (replicate (Z.to_nat p - length (to_string (q mod 10 ^ p))) 48
                                      ++ to_string (q mod 10 ^ p)).
  split; [done|]. split.
  - rewrite length_app, length_replicate. pose proof (short_number p _ Hp Hm). lia.
  - rewrite num_val_zeros, !to_string_val.
    + rewrite (Z.div_mod q (10 ^ p)) at 3 by lia. lia.
    + unfold fits. lia.
    + split; [apply Z.div_pos; lia|]. apply Z.div_lt_upper_bound; nia.
Qed.

Lemma fixed_digits_nonneg p x : 0 <= p -> 0 <= fixed_digits p x.
Proof.
  intros Hp. unfold fixed_digits. destruct x as [| | |[] m e]; try done.
  assert (0 < 10 ^ p) by (apply Z.pow_pos_nonneg; lia). case_match.
  - assert (0 <= 2 ^ e) by (apply Z.pow_nonneg; lia). nia.
  - assert (0 < 2 ^ (- e)) by (apply Z.pow_pos_nonneg; lia). unfold round_half_even.
    assert (0 <= Zpos m * 10 ^ p / 2 ^ (- e)) by (apply Z.div_pos; lia). repeat case_match; lia.
Qed.

(** A printed quotient is right in its last digit: off by at most half a unit of it, and 1/1024
    more for the floating-point operations. *)
Definition shows (text : str) (n unit : Z) : Prop :=
  exists whole frac,
    let scale := 10 ^ Z.of_nat (length frac) in
    let q := num_val 10 whole 0 * scale + num_val 10 frac 0 in
    text = whole ++ [46] ++ frac /\ 1024 * Z.abs (q * unit - n * scale) <= 513 * unit.

Lemma fmt_ratio_shows p n unit :
  1 <= p <= 2 -> 0 < n < 2 ^ 64 -> 0 < unit < 2 ^ 64 -> n * 10 ^ p <= 2 ^ 41 * unit ->
  shows (fmt_ratio p n unit) n unit.
Proof.
  intros Hp Hn Hu Hb. unfold fmt_ratio.
  pose proof (printed_ratio p n unit ltac:(lia) ltac:(lia) ltac:(lia) (digits_64 n Hn) (digits_64 unit Hu)) as H.
  cbv zeta in H. pose proof (fixed_digits_nonneg p (f64_div (f64_of n) (f64_of unit)) ltac:(lia)) as H0.
  set (q := fixed_digits _ _) in *.
  destruct (decimal_digits p q Hp) as (whole & frac & -> & Hl & Hq); [split; [done|nia]|].
  exists whole, frac. cbv zeta. rewrite Hl, Z2Nat.id, Hq by lia. split; [done|]. lia.
Qed.

(** The unit a duration or a size is shown in. *)
Definition dur_unit (ns : Z) : Z * str :=
  if 1000000000 <=? ns then (1000000000, lit "s")
  else if 1000000 <=? ns then (1000000, lit "ms") else (1000, [181; 115]).

Definition size_unit (b : Z) : Z * str :=
  if 2 ^ 30 <=? b then (2 ^ 30, lit " GiB")
  else if 2 ^ 20 <=? b then (2 ^ 20, lit " MiB") else (2 ^ 10, lit " KiB").

(** Durations and sizes are shown exactly below the smallest unit, and above it right in the
    last digit of their unit. *)
Theorem report_numbers_right n :
  0 <= n < 2 ^ 64 ->
  (if n <? 1000 then fmt_dur n = to_string n ++ lit "ns"
   else exists text, fmt_dur n = text ++ (dur_unit n).2 /\ shows text n (dur_unit n).1) /\
  (if n <? 1024 then fmt_size n = if n =? 0 then lit "-" else to_string n ++ lit " B"
   else exists text, fmt_size n = text ++ (size_unit n).2 /\ shows text n (size_unit n).1).
Proof.
  intros Hn. unfold fmt_dur, dur_unit, fmt_size, size_unit. split.
  - destruct (Z.ltb_spec n 1000).
    { rewrite !(proj2 (Z.leb_gt _ _)) by lia. done. }
    repeat case_match; try lia; (eexists; split; [reflexivity|apply fmt_ratio_shows; cbn [fst]; lia]).
  - destruct (Z.ltb_spec n 1024).
    { destruct (Z.eqb_spec n 0); [done|]. rewrite !(proj2 (Z.leb_gt _ _)) by lia. done. }
    rewrite (proj2 (Z.eqb_neq n 0)) by lia.
    repeat case_match; try lia; (eexists; split; [reflexivity|apply fmt_ratio_shows; cbn [fst]; lia]).
Qed.

(** Just below a unit the rounded number reaches it: 999950 ns and more are shown as 1000.0us,
    not as 1.00ms. *)
Lemma fmt_dur_carry : fmt_dur 999999 = lit "1000.0" ++ [181; 115] /\ fmt_size (2 ^ 20 - 1) = lit "1024.0 KiB".
Proof. split; vm_compute; reflexivity. Qed.
