(* ===== verification/Loop.v ===== *)
(** * The main loop of userspace: src/src/main.rs

    The state the loop keeps beside the BPF maps, and its branches: a readable ring
    buffer, the aggregation tick, the gc tick.  What is read from outside during a
    branch (the enricher's answers, /proc, the clock, the drained maps) is an
    argument of the step.  A step that panics ends the process. *)

From stdpp Require Import strings sorting.
From S2P Require Import Prelude RustStd F64 Events Drain Export Tick Kernel Metrics Cache Symbols Report.

Local Open Scope Z_scope.

Inductive KernelMode := Full | Anonymous | Off.

#[export] Instance KernelMode_eq_dec : EqDecision KernelMode.
Proof. solve_decision. Defined.

(** The arguments of the program that the loop consults. *)
Record LoopCfg := mkLoopCfg {
  lc_mode : KernelMode;
  lc_report : bool;
  lc_limits : CardinalityLimits;
  lc_detailed_launches : bool;
  lc_stale_after : Z
}.

(** What a branch reads from outside: the enricher (whose lookup can panic), /proc/<pid>/comm,
    the memory of processes and the clock. *)
Record World := mkWorld {
  w_lookup : Z -> str -> outcome Labels;
  w_proc_comm : Z -> option str;
  w_mem : ProcMem;
  w_now : Z
}.

Definition NCCL_WINDOW_SIZE : nat := 100.

(** [(NCCL_BUCKET_MIDPOINTS_S[i] * 1e9) as u64] *)
Definition NCCL_BUCKET_MIDPOINTS_S : list f64 :=
  [f64_lit 5 1000000; f64_lit 3 100000; f64_lit 75 1000000; f64_lit 3 10000; f64_lit 75 100000;
   f64_lit 3 1000; f64_lit 75 10000; f64_lit 3 100; f64_lit 75 1000; f64_lit 3 10; f64_lit 75 100;
   f64_lit 2 1].

Definition midpoint_ns (x : f64) : Z := f64_as_u64 (f64_mul x (f64_of 1000000000)).

(** Run a step for each element, until one panics. *)
Fixpoint each {A S} (f : S -> A -> outcome S) (s : S) (l : list A) : outcome S :=
  match l with
  | [] => Ret s
  | a :: l => s ← f s a; each f s l
  end.

(** ** Stragglers

    Per operation, the 95th percentile of each process's recent collectives over the median of
    the processes. *)

(** [(sorted.len() as f64 * 0.95) as usize] *)
Definition p95_idx (n : nat) : nat := Z.to_nat (f64_as_u64 (f64_mul (f64_of (Z.of_nat n)) (f64_lit 95 100))).

(** The percentile of a window that is not empty. *)
Definition p95 (window : list Z) : Z :=
  let sorted := merge_sort Z.le window in
  default 0 (sorted !! Nat.min (p95_idx (length sorted)) (length sorted - 1)).

(** [pid_p95s.sort_by_key(|&(_, p95)| p95)] *)
Fixpoint insert_by_p95 (x : Z * Z) (l : list (Z * Z)) : list (Z * Z) :=
  match l with
  | [] => [x]
  | y :: l' => if x.2 <=? y.2 then x :: l else y :: insert_by_p95 x l'
  end.

Definition sort_by_p95 (l : list (Z * Z)) : list (Z * Z) := foldr insert_by_p95 [] l.

(** The ratios of one operation, in the order in which the gauges are set. *)
Definition ratios_of (pid_p95s : list (Z * Z)) : list (Z * f64) :=
  if (length pid_p95s <? 2)%nat then []
  else
    let sorted := sort_by_p95 pid_p95s in
    let median_p95 := default 0 (snd <$> sorted !! (length sorted / 2)%nat) in
    if median_p95 =? 0 then []
    else (fun pp => (pp.1, f64_div (f64_of pp.2) (f64_of median_p95))) <$> sorted.

(** The processes of one operation with at least ten entries in their window. *)
Definition per_op (durations : list (Z * Z * list Z)) (event_type : Z) : list (Z * Z) :=
  omap (fun '(pid, et, window) =>
    if (et =? event_type) && (10 <=? length window)%nat then Some (pid, p95 window) else None) durations.

Definition straggler_ratios (durations : gmap (Z * Z) (list Z)) : list (Z * Z * f64) :=
  let entries := map_to_list durations in
  et ← remove_dups ((fun e => e.1.2) <$> entries);
  (fun pr => (pr.1, et, pr.2)) <$> ratios_of (per_op entries et).

Section Loop.
Context `{!Prometheus, !HashOrder MetricKey, !HashOrder Z, !UnicodeTables}.

Record MainState := mkMainState {
  ms_user : Userland;
  ms_kernel_names : gmap (Z * Z) str;
  ms_pending_resolve : gset (Z * Z);
  ms_sym_tx : list SymRequest;              (* sent to the resolver thread *)
  ms_nccl_durations : gmap (Z * Z) (list Z);
  ms_new_pids_batch : list Z;
  ms_known_pids : gset Z;
  ms_active_memory : gmap Z Z;
  ms_local_term_stats : gmap (Z * Z) TermStats;
  ms_term_stats : gmap (Z * Z) TermStats;
  ms_events_processed : Z;
  ms_tracked_pids : Z;
  ms_resolve_failures : gmap str Z;         (* kernel_name_resolve_failures, by reason *)
  ms_straggler_ratio : gmap (list str) f64  (* nccl_straggler_ratio, by label values *)
}.

Definition init_main (r : Registry) : MainState :=
  mkMainState (mkUserland new_cache r 0) ∅ ∅ [] ∅ [] ∅ ∅ ∅ ∅ 0 0 ∅ ∅.

Definition upd_user (f : Userland -> Userland) (st : MainState) : MainState :=
  mkMainState (f (ms_user st)) (ms_kernel_names st) (ms_pending_resolve st) (ms_sym_tx st)
    (ms_nccl_durations st) (ms_new_pids_batch st) (ms_known_pids st) (ms_active_memory st)
    (ms_local_term_stats st) (ms_term_stats st) (ms_events_processed st) (ms_tracked_pids st)
    (ms_resolve_failures st) (ms_straggler_ratio st).

Definition upd_names (f : gmap (Z * Z) str -> gmap (Z * Z) str)
    (g : gset (Z * Z) -> gset (Z * Z)) (h : list SymRequest -> list SymRequest) (st : MainState)
    : MainState :=
  mkMainState (ms_user st) (f (ms_kernel_names st)) (g (ms_pending_resolve st)) (h (ms_sym_tx st))
    (ms_nccl_durations st) (ms_new_pids_batch st) (ms_known_pids st) (ms_active_memory st)
    (ms_local_term_stats st) (ms_term_stats st) (ms_events_processed st) (ms_tracked_pids st)
    (ms_resolve_failures st) (ms_straggler_ratio st).

Definition upd_durations (f : gmap (Z * Z) (list Z) -> gmap (Z * Z) (list Z)) (st : MainState)
    : MainState :=
  mkMainState (ms_user st) (ms_kernel_names st) (ms_pending_resolve st) (ms_sym_tx st)
    (f (ms_nccl_durations st)) (ms_new_pids_batch st) (ms_known_pids st) (ms_active_memory st)
    (ms_local_term_stats st) (ms_term_stats st) (ms_events_processed st) (ms_tracked_pids st)
    (ms_resolve_failures st) (ms_straggler_ratio st).

Definition upd_pids (batch : list Z) (known : gset Z) (tracked : Z) (st : MainState) : MainState :=
  mkMainState (ms_user st) (ms_kernel_names st) (ms_pending_resolve st) (ms_sym_tx st)
    (ms_nccl_durations st) batch known (ms_active_memory st) (ms_local_term_stats st)
    (ms_term_stats st) (ms_events_processed st) tracked (ms_resolve_failures st)
    (ms_straggler_ratio st).

Definition upd_active (f : gmap Z Z -> gmap Z Z) (st : MainState) : MainState :=
  mkMainState (ms_user st) (ms_kernel_names st) (ms_pending_resolve st) (ms_sym_tx st)
    (ms_nccl_durations st) (ms_new_pids_batch st) (ms_known_pids st) (f (ms_active_memory st))
    (ms_local_term_stats st) (ms_term_stats st) (ms_events_processed st) (ms_tracked_pids st)
    (ms_resolve_failures st) (ms_straggler_ratio st).

Definition upd_stats (local total : gmap (Z * Z) TermStats) (st : MainState) : MainState :=
  mkMainState (ms_user st) (ms_kernel_names st) (ms_pending_resolve st) (ms_sym_tx st)
    (ms_nccl_durations st) (ms_new_pids_batch st) (ms_known_pids st) (ms_active_memory st) local
    total (ms_events_processed st) (ms_tracked_pids st) (ms_resolve_failures st) (ms_straggler_ratio st).

Definition upd_counts (processed : Z) (failures : gmap str Z) (st : MainState) : MainState :=
  mkMainState (ms_user st) (ms_kernel_names st) (ms_pending_resolve st) (ms_sym_tx st)
    (ms_nccl_durations st) (ms_new_pids_batch st) (ms_known_pids st) (ms_active_memory st)
    (ms_local_term_stats st) (ms_term_stats st) processed (ms_tracked_pids st) failures
    (ms_straggler_ratio st).

Definition upd_ratios (f : gmap (list str) f64 -> gmap (list str) f64) (st : MainState) : MainState :=
  mkMainState (ms_user st) (ms_kernel_names st) (ms_pending_resolve st) (ms_sym_tx st)
    (ms_nccl_durations st) (ms_new_pids_batch st) (ms_known_pids st) (ms_active_memory st)
    (ms_local_term_stats st) (ms_term_stats st) (ms_events_processed st) (ms_tracked_pids st)
    (ms_resolve_failures st) (f (ms_straggler_ratio st)).

(** ** Updates of the metrics *)

Definition upd_reg (f : Registry -> Registry) (u : Userland) : Userland :=
  mkUserland (us_cache u) (f (us_reg u)) (us_drops u).

Definition inc (c : Cell) (x : Z) : Userland -> Userland := upd_reg (fun r => inc_by r c x).

Definition observe_in (c : Cell) (x : Z) : Userland -> Userland := upd_reg (fun r => observe r c x).

(** [if let Some(ref c) = c { if x > 0 { c.inc_by(x) } }] *)
Definition inc_opt (c : option Cell) (x : Z) : Userland -> Userland :=
  match c with Some c => if 0 <? x then inc c x else id | None => id end.

(** [metric.with_label_values(labels).inc_by(x)] *)
Definition inc_labels (m : metric) (l : list str) (x : Z) : Userland -> Userland :=
  upd_reg (fun r => let '(r, c) := with_label_values r m l in inc_by r c x).

(** [inc_cumulative_bucket_counters] on the registry *)
Fixpoint inc_cumulative_reg (m : metric) (base : list str) (cumulative : Z) (le_values : list string)
    (bucket_counts : list Z) (u : Userland) : Userland :=
  match le_values, bucket_counts with
  | le :: les, count :: counts =>
      let cumulative := u64 (cumulative + count) in
      let u := if cumulative =? 0 then u else inc_labels m (base ++ [lit le]) cumulative u in
      inc_cumulative_reg m base cumulative les counts u
  | _, _ => u
  end.

(** The three exported families of a histogram that was drained. *)
Definition export_histogram (bucket sum count : metric) (labels : list str) (les : list string)
    (buckets : list Z) (total_dur total_count : Z) (u : Userland) : Userland :=
  let u := inc_cumulative_reg bucket labels 0 les buckets u in
  let u := inc_labels sum labels total_dur u in
  inc_labels count labels total_count u.

(** ** Parts shared by the branches *)

Definition create_args (cfg : LoopCfg) (w : World) (st : MainState) : CreateArgs :=
  mkCreateArgs (bool_decide (lc_mode cfg = Full)) (w_lookup w) (w_proc_comm w) (ms_kernel_names st)
    (lc_limits cfg).

Definition push_window (x : Z) (window : list Z) : list Z :=
  (if (NCCL_WINDOW_SIZE <=? length window)%nat then drop 1 window else window) ++ [x].

(** A request for the resolver thread, which exists in full mode. *)
Definition request_name (cfg : LoopCfg) (pid addr : Z) (st : MainState) : MainState :=
  if bool_decide (ms_kernel_names st !! (pid, addr) = None /\ (pid, addr) ∉ ms_pending_resolve st)
  then upd_names id (union {[(pid, addr)]})
         (fun tx => if bool_decide (lc_mode cfg = Full) then tx ++ [Resolve pid addr] else tx) st
  else st.

Definition see_pid (w : World) (pid : Z) (st : MainState) : MainState :=
  let seen := last_seen (us_cache (ms_user st)) in
  let st :=
    match seen !! pid with
    | None => upd_pids (ms_new_pids_batch st ++ [pid]) (ms_known_pids st) (Z.of_nat (size seen) + 1) st
    | Some _ => st
    end in
  upd_user (touch pid (w_now w)) st.

(** ** The ring buffers are readable *)

Definition event_key (event : CudaEvent) : MetricKey :=
  let launch := ce_event_type event =? EVENT_CUDA_LAUNCH_KERNEL in
  mkMetricKey (ce_event_type event) (ce_pid event) (ce_memcpy_kind event) (ce_error_code event)
    (ce_stream event) (if launch then ce_addr event else 0)
    (if launch then nvtx_hash (ce_nvtx_marker event) else 0).

(** What an event adds to the metrics of its handles. *)
Definition event_metrics (event : CudaEvent) (h : CachedHandles) (u : Userland) : Userland :=
  let u := inc (calls h) 1 u in
  let u := observe_in (duration h) (ce_duration_ns event) u in
  let u := inc_opt (memcpy_bytes h) (ce_size event) u in
  let u := inc_opt (malloc_bytes h) (ce_size event) u in
  let u := inc_opt (nccl_bytes_counter h) (nccl_event_bytes event) u in
  let u := inc_opt (kernel_counter h) 1 u in
  let u := match kernel_histogram h with
           | Some hh => observe_in hh (ce_duration_ns event) u
           | None => u
           end in
  inc_opt (errors_counter h) 1 u.

(** What is left to do for an event once its handles are there. *)
Definition event_effect (cfg : LoopCfg) (w : World) (event : CudaEvent) (u : Userland)
    (h : CachedHandles) (st : MainState) : MainState :=
  let st := upd_user (fun _ => event_metrics event h u) st in
  let st := upd_counts (u64 (ms_events_processed st + 1)) (ms_resolve_failures st) st in
  let st :=
    if rs_is_nccl_event (ce_event_type event) && (0 <? ce_duration_ns event) then
      upd_durations (fun m =>
        let k := (ce_pid event, ce_event_type event) in
        <[k := push_window (ce_duration_ns event) (default [] (m !! k))]> m) st
    else st in
  let st :=
    if bool_decide (lc_mode cfg = Full) && (ce_event_type event =? EVENT_CUDA_LAUNCH_KERNEL)
       && negb (ce_addr event =? 0)
    then request_name cfg (ce_pid event) (ce_addr event) st
    else st in
  let st := see_pid w (ce_pid event) st in
  if lc_report cfg then
    let k := (ce_event_type event, ce_memcpy_kind event) in
    upd_stats
      (<[k := record (default ts_default (ms_local_term_stats st !! k)) (ce_duration_ns event)
                (ce_size event)]> (ms_local_term_stats st))
      (ms_term_stats st) st
  else st.

Definition on_event (cfg : LoopCfg) (st : MainState) (we : World * CudaEvent) : outcome MainState :=
  let '(w, event) := we in
  '(u, h) ← get_or_create (create_args cfg w st) (event_key event) event (ms_user st);
  Ret (event_effect cfg w event u h st).

Definition on_kreg (st : MainState) (wr : World * KernelRegEvent) : outcome MainState :=
  let '(w, reg) := wr in
  let k := (kr_pid reg, kr_host_fun reg) in
  match ms_kernel_names st !! k with
  | Some _ => Ret st
  | None =>
      match read_kernel_name (w_mem w) (kr_pid reg) (kr_name_ptr reg) with
      | inr name =>
          n ← normalize_kernel_name name;
          Ret (upd_names (insert k n) id id st)
      | inl e =>
          let failures := ms_resolve_failures st in
          Ret (upd_counts (ms_events_processed st)
                 (<[as_label e := default 0 (failures !! as_label e) + 1]> failures) st)
      end
  end.

(** The branch of a readable ring buffer: [changed] are the processes whose pod
    changed, [events] and [regs] what the two callbacks queued, each with the world
    it is processed in. *)
Definition on_readable (cfg : LoopCfg) (changed : gset Z) (events : list (World * CudaEvent))
    (regs : list (World * KernelRegEvent)) (st : MainState) : outcome MainState :=
  let st :=
    if bool_decide (changed = ∅) then st
    else upd_user (invalidate_pids (bool_decide (lc_mode cfg = Full)) changed) st in
  st ← each (on_event cfg) st events;
  if bool_decide (lc_mode cfg = Full) then each on_kreg st regs else Ret st.

(** ** The aggregation tick *)

(** The event a drained key stands for. *)
Definition synthetic (event_type pid memcpy_kind addr stream error_code : Z) : CudaEvent :=
  mkCudaEvent event_type pid 0 memcpy_kind 0 0 0 addr stream (replicate 16 0) (replicate 16 0)
    error_code 0.

(** [ts.count += total_count; ...] *)
Definition add_totals (t : AggTotals) (s : TermStats) : TermStats :=
  mkTermStats (u64 (ts_count s + at_count t)) (u64 (ts_total_ns s + at_duration t))
    (u64 (ts_total_bytes s + at_size t)) (ts_min_ns s) (ts_max_ns s).

Definition agg_metrics (t : AggTotals) (h : CachedHandles) (u : Userland) : Userland :=
  let u := inc (calls h) (at_count t) u in
  let u := export_histogram cuda_duration_bucket_total cuda_duration_sum_seconds_total
             cuda_duration_count_total (hist_labels h) CUDA_DURATION_BUCKET_LE (at_buckets t)
             (at_duration t) (at_count t) u in
  let u := inc_opt (kernel_counter h) (at_count t) u in
  let u := inc_opt (memcpy_bytes h) (at_size t) u in
  let u := inc_opt (malloc_bytes h) (at_size t) u in
  inc_opt (errors_counter h) (at_count t) u.

Definition agg_callback (cfg : LoopCfg) (sd : MainState * gmap Z Z)
    (wkv : World * (AggKey * list AggValue)) : outcome (MainState * gmap Z Z) :=
  let '(st, delta) := sd in
  let '(w, (key, per_cpu)) := wkv in
  let t := agg_totals per_cpu in
  if at_count t =? 0 then Ret (st, delta)
  else
    let event := synthetic (ak_event_type key) (ak_pid key) (ak_memcpy_kind key) 0 (ak_stream key)
                   (ak_error_code key) in
    let cache_key := mkMetricKey (ak_event_type key) (ak_pid key) (ak_memcpy_kind key)
                       (ak_error_code key) (ak_stream key) 0 0 in
    '(u, h) ← get_or_create (create_args cfg w st) cache_key event (ms_user st);
    let st := upd_user (fun _ => agg_metrics t h u) st in
    let delta := active_mem_delta key (at_size t) delta in
    let st := see_pid w (ak_pid key) st in
    let st :=
      if lc_report cfg then
        let k := (ak_event_type key, ak_memcpy_kind key) in
        upd_stats (<[k := add_totals t (default ts_default (ms_local_term_stats st !! k))]>
                     (ms_local_term_stats st)) (ms_term_stats st) st
      else st in
    Ret (st, delta).

Definition launch_metrics (cfg : LoopCfg) (t : LaunchTotals) (h : CachedHandles) (u : Userland)
    : Userland :=
  let u := inc (calls h) (lt_count t) u in
  let u := inc_opt (kernel_counter h) (lt_count t) u in
  match kernel_hist_labels h with
  | Some labels =>
      if bool_decide (lc_mode cfg = Full)
      then export_histogram cuda_kernel_duration_bucket_total cuda_kernel_duration_sum_seconds_total
             cuda_kernel_duration_count_total labels CUDA_KERNEL_DURATION_BUCKET_LE (lt_buckets t)
             (lt_duration t) (lt_count t) u
      else u
  | None => u
  end.

Definition launch_callback (cfg : LoopCfg) (st : MainState)
    (wkv : World * (LaunchKey * list LaunchAggValue)) : outcome MainState :=
  let '(w, (key, per_cpu)) := wkv in
  let t := launch_totals per_cpu in
  if lt_count t =? 0 then Ret st
  else
    let event := synthetic EVENT_CUDA_LAUNCH_KERNEL (lk_pid key) 0 (lk_host_fun key) (lk_stream key) 0 in
    let cache_key := mkMetricKey EVENT_CUDA_LAUNCH_KERNEL (lk_pid key) 0 0 (lk_stream key)
                       (lk_host_fun key) 0 in
    '(u, h) ← get_or_create (create_args cfg w st) cache_key event (ms_user st);
    let st := upd_user (fun _ => launch_metrics cfg t h u) st in
    let st := if lk_host_fun key =? 0 then st else request_name cfg (lk_pid key) (lk_host_fun key) st in
    Ret (see_pid w (lk_pid key) st).

(** The midpoints of the buckets that are not empty join the window. *)
Definition push_buckets (buckets : list Z) (window : list Z) : list Z :=
  foldl (fun win cm => if cm.1 =? 0 then win else push_window (midpoint_ns cm.2) win) window
    (zip buckets NCCL_BUCKET_MIDPOINTS_S).

Definition nccl_metrics (t : AggTotals) (h : CachedHandles) (u : Userland) : Userland :=
  let u := inc (calls h) (at_count t) u in
  let u := inc_opt (nccl_bytes_counter h) (at_size t) u in
  let u := inc_opt (errors_counter h) (at_count t) u in
  export_histogram nccl_duration_bucket_total nccl_duration_sum_seconds_total
    nccl_duration_count_total (hist_labels h) NCCL_DURATION_BUCKET_LE (at_buckets t)
    (at_duration t) (at_count t) u.

Definition nccl_callback (cfg : LoopCfg) (st : MainState)
    (wkv : World * (AggKey * list NcclAggValue)) : outcome MainState :=
  let '(w, (key, per_cpu)) := wkv in
  let t := nccl_totals per_cpu in
  if at_count t =? 0 then Ret st
  else
    let event := synthetic (ak_event_type key) (ak_pid key) (ak_memcpy_kind key) 0 (ak_stream key)
                   (ak_error_code key) in
    let cache_key := mkMetricKey (ak_event_type key) (ak_pid key) (ak_memcpy_kind key)
                       (ak_error_code key) (ak_stream key) 0 0 in
    '(u, h) ← get_or_create (create_args cfg w st) cache_key event (ms_user st);
    let st := upd_user (fun _ => nccl_metrics t h u) st in
    let st := upd_durations (fun m =>
      let k := (ak_pid key, ak_event_type key) in
      <[k := push_buckets (at_buckets t) (default [] (m !! k))]> m) st in
    Ret (see_pid w (ak_pid key) st).

(** One entry of [active_mem_delta]. *)
Definition apply_active (w : World) (delta : gmap Z Z) (st : MainState) (pid : Z)
    : outcome MainState :=
  let bytes := i64 (default 0 (ms_active_memory st !! pid) + default 0 (delta !! pid)) in
  labels ← w_lookup w pid [];
  let label_vals := [to_string pid; lb_comm labels; lb_namespace labels; lb_pod labels;
                     lb_container labels; lb_gpu labels; lb_gpu_uuid labels] in
  Ret (upd_user (upd_reg (fun r =>
         let '(r, c) := with_label_values r cuda_active_memory label_vals in set_to r c bytes))
         (upd_active (insert pid bytes) st)).

(** The drained keys of the three maps. *)
Definition on_agg_tick (cfg : LoopCfg) (w : World) (aggs : list (World * (AggKey * list AggValue)))
    (launches : list (World * (LaunchKey * list LaunchAggValue)))
    (nccls : list (World * (AggKey * list NcclAggValue))) (st : MainState) : outcome MainState :=
  '(st, delta) ← each (agg_callback cfg) (st, ∅) aggs;
  st ← if lc_detailed_launches cfg then Ret st else each (launch_callback cfg) st launches;
  st ← each (nccl_callback cfg) st nccls;
  each (apply_active w delta) st (hash_keys delta).

(** ** The gc tick *)

Definition on_sym_result (st : MainState) (res : Z * Z * str) : outcome MainState :=
  let '(pid, addr, name) := res in
  let st := upd_names id (fun p => p ∖ {[(pid, addr)]}) id st in
  if starts_with (lit "unknown_") name then Ret st
  else
    n ← normalize_kernel_name name;
    Ret (upd_names (insert (pid, addr) n) id id st).

(** The tables that follow the cache. *)
Definition forget_pids (cfg : LoopCfg) (stale : list Z) (st : MainState) : MainState :=
  let st := upd_names (filter (fun kv => kv.1.1 ∉ stale)) (filter (fun pa => pa.1 ∉ stale))
              (fun tx => if bool_decide (lc_mode cfg = Full) then tx ++ [EvictPids stale] else tx) st in
  upd_active (fun m => foldl (fun m pid => delete pid m) m stale) st.

Definition flush_stats (st : MainState) : MainState :=
  upd_stats ∅
    (foldl (fun ts kv => <[kv.1 := merge (default ts_default (ts !! kv.1)) kv.2]> ts)
       (ms_term_stats st) (map_to_list (ms_local_term_stats st))) st.

(** The gauge of one process and operation. *)
Definition set_ratio (w : World) (st : MainState) (per : Z * Z * f64) : outcome MainState :=
  let '(pid, event_type, ratio) := per in
  labels ← w_lookup w pid [];
  Ret (upd_ratios (insert [to_string pid; lb_gpu labels; lb_gpu_uuid labels; operation_name event_type]
                     ratio) st).

(** [results] came from the resolver thread; [writable] says whether the list of
    known processes could be locked.  The scan for hung collectives, which reads the INFLIGHT
    map and sets metrics of its own, is [nccl_hang_scan]. *)
Definition on_gc_tick (cfg : LoopCfg) (w : World) (results : list (Z * Z * str)) (writable : bool)
    (st : MainState) : outcome MainState :=
  st ← if bool_decide (lc_mode cfg = Full) then each on_sym_result st results else Ret st;
  let st :=
    if writable
    then upd_pids [] (ms_known_pids st ∪ list_to_set (ms_new_pids_batch st)) (ms_tracked_pids st) st
    else st in
  let '(u, stale) := gc (bool_decide (lc_mode cfg = Full)) (w_now w) (lc_stale_after cfg) (ms_user st) in
  let st := upd_user (fun _ => u) st in
  let st :=
    if bool_decide (stale = []) then st
    else forget_pids cfg stale
           (upd_pids (ms_new_pids_batch st) (ms_known_pids st)
              (Z.of_nat (size (last_seen (us_cache u)))) st) in
  st ← each (set_ratio w) st (straggler_ratios (ms_nccl_durations st));
  Ret (if lc_report cfg then flush_stats st else st).

(** ** The loop *)

Inductive main_op :=
| M_readable (changed : gset Z) (events : list (World * CudaEvent))
    (regs : list (World * KernelRegEvent))
| M_agg (w : World) (aggs : list (World * (AggKey * list AggValue)))
    (launches : list (World * (LaunchKey * list LaunchAggValue)))
    (nccls : list (World * (AggKey * list NcclAggValue)))
| M_gc (w : World) (results : list (Z * Z * str)) (writable : bool).

Definition main_step (cfg : LoopCfg) (st : MainState) (op : main_op) : outcome MainState :=
  match op with
  | M_readable changed events regs => on_readable cfg changed events regs st
  | M_agg w aggs launches nccls => on_agg_tick cfg w aggs launches nccls st
  | M_gc w results writable => on_gc_tick cfg w results writable st
  end.

Definition run_main (cfg : LoopCfg) (ops : list main_op) (st : MainState) : outcome MainState :=
  each (main_step cfg) st ops.

(** ** Runs of a fallible step *)

Lemma each_keeps {A S} (P : S -> Prop) (f : S -> A -> outcome S) l s s' :
  (forall s a s', f s a = Ret s' -> P s -> P s') -> each f s l = Ret s' -> P s -> P s'.
Proof.
  intros Hf. revert s. induction l as [|a l IH]; intros s; cbn [each]; [by intros [= <-]|].
  destruct (f s a) as [s1| |] eqn:E; try done. cbn [mbind outcome_bind].
  intros Hl Hs. by apply (IH s1); [|apply (Hf s a)].
Qed.

Lemma each_app {A S} (f : S -> A -> outcome S) l1 l2 s :
  each f s (l1 ++ l2) = (s ← each f s l1; each f s l2).
Proof. revert s. induction l1 as [|a l1 IH]; intros s; [done|]. cbn [app each]. by destruct (f s a); cbn. Qed.

Lemma on_event_inv cfg st w e st' :
  on_event cfg st (w, e) = Ret st' -> exists u h, st' = event_effect cfg w e u h st.
Proof. intros ([u h] & _ & [= <-])%bind_ret. by exists u, h. Qed.

(** What every part of a branch keeps, the loop keeps. *)
Lemma main_keeps cfg (P : MainState -> Prop) ops st st' :
  (forall st changed, P st -> P (upd_user (invalidate_pids (bool_decide (lc_mode cfg = Full)) changed) st)) ->
  (forall st we st', on_event cfg st we = Ret st' -> P st -> P st') ->
  (forall st wr st', on_kreg st wr = Ret st' -> P st -> P st') ->
  (forall sd wkv sd', agg_callback cfg sd wkv = Ret sd' -> P sd.1 -> P sd'.1) ->
  (forall st wkv st', launch_callback cfg st wkv = Ret st' -> P st -> P st') ->
  (forall st wkv st', nccl_callback cfg st wkv = Ret st' -> P st -> P st') ->
  (forall w delta st pid st', apply_active w delta st pid = Ret st' -> P st -> P st') ->
  (forall st res st', on_sym_result st res = Ret st' -> P st -> P st') ->
  (forall st, P st ->
     P (upd_pids [] (ms_known_pids st ∪ list_to_set (ms_new_pids_batch st)) (ms_tracked_pids st) st)) ->
  (forall st now u stale,
     gc (bool_decide (lc_mode cfg = Full)) now (lc_stale_after cfg) (ms_user st) = (u, stale) ->
     P st -> P (upd_user (fun _ => u) st) /\
       P (forget_pids cfg stale (upd_pids (ms_new_pids_batch st) (ms_known_pids st)
            (Z.of_nat (size (last_seen (us_cache u)))) (upd_user (fun _ => u) st)))) ->
  (forall w st per st', set_ratio w st per = Ret st' -> P st -> P st') ->
  (forall st, P st -> P (flush_stats st)) ->
  run_main cfg ops st = Ret st' -> P st -> P st'.
Proof.
  intros H1 H2 H3 H4 H5 H6 H7 H8 H9 H10 H11 H12. apply each_keeps. clear st st' ops.
  intros st [changed events regs|w aggs launches nccls|w results writable] st'; cbn [main_step].
  - intros (st1 & E1 & E2)%bind_ret Hst.
    apply (each_keeps P _ _ _ _ H2) in E1; [|by destruct (bool_decide (changed = ∅)); [|apply H1]].
    destruct (bool_decide (lc_mode cfg = Full)); [|by injection E2 as <-]. by apply (each_keeps P _ _ _ _ H3 E2).
  - intros ([st1 delta] & E1 & (st2 & E2 & (st3 & E3 & E4)%bind_ret)%bind_ret)%bind_ret Hst.
    apply (each_keeps P _ _ _ _ (H7 w delta) E4), (each_keeps P _ _ _ _ H6 E3).
    apply (each_keeps (fun sd => P sd.1) _ _ _ _ H4) in E1; [|done].
    destruct (lc_detailed_launches cfg); [by injection E2 as <-|]. by apply (each_keeps P _ _ _ _ H5 E2).
  - intros (st1 & E1 & E2)%bind_ret Hst.
    assert (P1 : P st1).
    { case_bool_decide; [|by injection E1 as <-]. by apply (each_keeps P _ _ _ _ H8 E1). }
    set (st2 := if writable then _ else st1) in E2.
    assert (P2 : P st2) by (unfold st2; destruct writable; auto).
    cbv zeta in E2.
    destruct (gc (bool_decide (lc_mode cfg = Full)) (w_now w) (lc_stale_after cfg) (ms_user st2))
      as [u stale] eqn:Eg. apply bind_ret in E2 as (st3 & E3 & [= <-]).
    destruct (H10 st2 _ _ _ Eg P2) as [G1 G2].
    assert (P3 : P st3) by (apply (each_keeps P _ _ _ _ (H11 w) E3); by case_bool_decide).
    destruct (lc_report cfg); auto.
Qed.
End Loop.
