(* ===== verification/LoopInv.v ===== *)
(** * The main loop over time

    Invariants of the loop and what it exports: whatever events arrive, however
    keys are limited, evicted or invalidated, the calls counters of a process add
    up to the calls of that process since it was last evicted. *)

From stdpp Require Import strings.
From S2P Require Import Prelude RustStd F64 Events Drain Export Tick Kernel Metrics Cache CacheInv Symbols Report Loop.

Local Open Scope Z_scope.
#[local] Set Warnings "-clear-no-such-hyp".

Section LoopInv.
Context {PM : Prometheus} {PL : PrometheusLaws} {HK : HashOrder MetricKey} {HZ : HashOrder Z}
  {UT : UnicodeTables}.

(** ** The calls counters of a process *)

Definition calls_family (m : metric) : bool :=
  match m with cuda_calls | nccl_calls => true | _ => false end.

Definition calls_metric (event_type : Z) : metric :=
  if rs_is_nccl_event event_type then nccl_calls else cuda_calls.

Definition calls_of (pid : Z) (ml : metric * list str) : Prop :=
  calls_family ml.1 = true /\ pid_label ml.1 ml.2 = Some (to_string pid).

#[local] Instance calls_of_dec pid ml : Decision (calls_of pid ml).
Proof. unfold calls_of. apply _. Defined.

(** The sum of the calls counters a scrape shows for a process. *)
Definition exported_calls (r : Registry) (pid : Z) : Z := exported_sum (calls_of pid) r.

(** Every exported calls counter belongs to a cached handle. *)
Definition owned (hs : gmap MetricKey CachedHandles) (r : Registry) : Prop :=
  forall m l, calls_family m = true -> is_Some (child r m l) ->
    exists k h, hs !! k = Some h /\ calls_metric (mk_event_type k) = m /\ calls_labels h = l.

Record user_inv (full : bool) (limits : CardinalityLimits) (u : Userland) : Prop := {
  ui_card : card_ok limits (us_cache u);
  ui_series : series_inv full u;
  ui_owned : owned (handles (us_cache u)) (us_reg u)
}.

(** ** Updates that do not concern the calls counters *)

Record quiet (u u' : Userland) : Prop := {
  qu_cache : us_cache u' = us_cache u;
  qu_extends : extends (us_reg u) (us_reg u');
  qu_child : forall m l, calls_family m = true -> child (us_reg u') m l = child (us_reg u) m l;
  qu_value : forall m l c, calls_family m = true -> child (us_reg u) m l = Some c ->
    value (us_reg u') c = value (us_reg u) c
}.

#[local] Instance quiet_preorder : PreOrder quiet.
Proof.
  split; [intros u; split; [done|by intros m l c|done|done]|]. intros u1 u2 u3 [A1 A2 A3 A4] [B1 B2 B3 B4]. split.
  - by rewrite B1.
  - intros m l c Hc. by apply B2, A2.
  - intros m l Hm. by rewrite B3, A3.
  - intros m l c Hm Hc. rewrite (B4 m l), (A4 m l); [done..|]. by rewrite A3.
Qed.

Lemma quiet_exported u u' pid :
  quiet u u' -> exported_calls (us_reg u') pid = exported_calls (us_reg u) pid.
Proof.
  intros [_ _ Hc Hv]. apply exported_sum_same.
  - intros m l [Hm _]. by apply Hc.
  - intros m l c [Hm _]. by apply Hv.
Qed.

Lemma quiet_inv full limits u u' : quiet u u' -> user_inv full limits u -> user_inv full limits u'.
Proof.
  intros [Eu He Hc Hv] [H1 H2 H3]. split; rewrite ?Eu; [done| |].
  - unfold series_inv. rewrite Eu. by apply (series_ok_extends _ _ (us_reg u)).
  - intros m l Hm Hs. rewrite Hc in Hs by done. by apply H3.
Qed.

Lemma quiet_observe c x u : quiet u (observe_in c x u).
Proof.
  split; simpl; [done| | |].
  - intros m l c' Hc. by rewrite observe_child.
  - intros. apply observe_child.
  - intros. apply observe_value.
Qed.

Lemma quiet_inc u m l c x :
  child (us_reg u) m l = Some c -> calls_family m = false -> quiet u (inc c x u).
Proof.
  intros Hc Hm. split; simpl; [done| | |].
  - intros m' l' c' Hc'. by rewrite inc_child.
  - intros. apply inc_child.
  - intros m' l' c' Hm' Hc'. apply inc_other. intros <-.
    assert ((m, l) = (m', l')) as [= -> ->] by (by apply (child_inj (us_reg u) _ _ _ _ c)). congruence.
Qed.

Lemma quiet_inc_opt u m l oc x :
  (forall c, oc = Some c -> child (us_reg u) m l = Some c) -> calls_family m = false ->
  quiet u (inc_opt oc x u).
Proof.
  intros Hc Hm. unfold inc_opt. destruct oc as [c|]; [|done].
  destruct (0 <? x); [|done]. by apply (quiet_inc u m l); [apply Hc|].
Qed.

Lemma quiet_with u m l :
  calls_family m = false -> quiet u (upd_reg (fun r => (with_label_values r m l).1) u).
Proof.
  intros Hm. split; simpl; [done| | |].
  - intros m' l' c. apply with_mono.
  - intros m' l' Hm'. apply with_other. intros [= -> _]. congruence.
  - intros m' l' c Hm' Hc. by apply (with_value _ _ _ m' l').
Qed.

Lemma quiet_inc_labels u m l x : calls_family m = false -> quiet u (inc_labels m l x u).
Proof.
  intros Hm. etrans; [by apply (quiet_with u m l)|].
  pose proof (with_child (us_reg u) m l) as Hc. unfold inc_labels, upd_reg. simpl in *.
  destruct (with_label_values (us_reg u) m l) as [r c]. simpl in *.
  by apply (quiet_inc (mkUserland (us_cache u) r (us_drops u)) m l c x).
Qed.

Lemma quiet_inc_cumulative m base cum les counts u :
  calls_family m = false -> quiet u (inc_cumulative_reg m base cum les counts u).
Proof.
  intros Hm. revert cum counts u. induction les as [|le les IH]; intros cum counts u; [done|].
  destruct counts as [|n counts]; [done|]. cbn [inc_cumulative_reg]. etrans; [|apply IH].
  case_match; [done|]. by apply quiet_inc_labels.
Qed.

Lemma quiet_export_histogram b s n l les counts d c u :
  calls_family b = false -> calls_family s = false -> calls_family n = false ->
  quiet u (export_histogram b s n l les counts d c u).
Proof.
  intros Hb Hs Hn. unfold export_histogram.
  etrans; [|by apply quiet_inc_labels]. etrans; [|by apply quiet_inc_labels].
  by apply quiet_inc_cumulative.
Qed.

(** ** What a handle adds *)

(** The cells of a handle are exported. *)
Lemma attached_cells r event_type h :
  attached r event_type h ->
  child r (calls_metric event_type) (calls_labels h) = Some (calls h) /\
  (forall c, memcpy_bytes h = Some c -> child r cuda_memcpy_bytes (default [] (memcpy_labels h)) = Some c) /\
  (forall c, malloc_bytes h = Some c -> child r cuda_malloc_bytes (default [] (malloc_labels h)) = Some c) /\
  (forall c, nccl_bytes_counter h = Some c ->
    child r nccl_bytes (default [] (nccl_bytes_labels h)) = Some c) /\
  (forall c, kernel_counter h = Some c ->
    child r cuda_kernel_launches (default [] (kernel_counter_labels h)) = Some c) /\
  (forall c, errors_counter h = Some c -> child r cuda_errors (default [] (errors_labels h)) = Some c).
Proof.
  unfold attached, pid_series, opt_cell. rewrite Forall_cons, !Forall_app. simpl.
  intros (H0 & H1 & H2 & H3 & H4 & H5). split_and!; [exact H0|..]; intros c Ec; rewrite Ec in *;
    by match goal with H : Forall _ [_] |- _ => apply Forall_cons in H as [H _] end.
Qed.

Lemma quiet_then u v v' event_type h :
  attached (us_reg u) event_type h ->
  (attached (us_reg v) event_type h -> quiet v v') -> quiet u v -> quiet u v'.
Proof.
  intros Ha Hs Hq. etrans; [exact Hq|]. apply Hs. apply (attached_extends (us_reg u)); [|done].
  by apply qu_extends.
Qed.

Ltac quiet_cell Hx :=
  destruct (attached_cells _ _ _ Hx) as (_ & ? & ? & ? & ? & ?);
  first [ apply quiet_observe
        | apply quiet_export_histogram; reflexivity
        | eapply quiet_inc_opt; [eassumption|reflexivity] ].

Ltac quiet_steps Ha :=
  cbv zeta; repeat first
    [ reflexivity
    | eapply (quiet_then _ _ _ _ _ Ha); [let Hx := fresh in intros Hx; quiet_cell Hx|] ].

Lemma attached_inc u event_type h c x :
  attached (us_reg u) event_type h -> attached (us_reg (inc c x u)) event_type h.
Proof. apply attached_extends. intros m l c' ?. simpl. by rewrite inc_child. Qed.

Lemma event_quiet event event_type h u :
  attached (us_reg u) event_type h -> quiet (inc (calls h) 1 u) (event_metrics event h u).
Proof.
  intros Ha%(attached_inc _ _ _ (calls h) 1).   unfold event_metrics. destruct (kernel_histogram h); quiet_steps Ha.
Qed.

Lemma agg_quiet t event_type h u :
  attached (us_reg u) event_type h -> quiet (inc (calls h) (at_count t) u) (agg_metrics t h u).
Proof.
  intros Ha%(attached_inc _ _ _ (calls h) (at_count t)).   unfold agg_metrics. quiet_steps Ha.
Qed.

Lemma launch_quiet cfg t event_type h u :
  attached (us_reg u) event_type h -> quiet (inc (calls h) (lt_count t) u) (launch_metrics cfg t h u).
Proof.
  intros Ha%(attached_inc _ _ _ (calls h) (lt_count t)).   unfold launch_metrics. destruct (kernel_hist_labels h); [case_bool_decide|]; quiet_steps Ha.
Qed.

Lemma nccl_quiet t event_type h u :
  attached (us_reg u) event_type h -> quiet (inc (calls h) (at_count t) u) (nccl_metrics t h u).
Proof.
  intros Ha%(attached_inc _ _ _ (calls h) (at_count t)).   unfold nccl_metrics. quiet_steps Ha.
Qed.

Lemma handle_calls full k h :
  handle_ok full k h -> series_of (mk_pid k) (calls_metric (mk_event_type k)) (calls_labels h).
Proof. intros [Hs _]. unfold pid_series in Hs. by apply Forall_cons in Hs as [Hs _]. Qed.

(** A series of a process is counted for that process only. *)
Lemma calls_of_series pid pid' m l :
  fits 32 pid -> fits 32 pid' -> series_of pid m l -> calls_family m = true ->
  calls_of pid' (m, l) <-> pid' = pid.
Proof.
  intros Hp Hp' [Hs _] Hm. unfold calls_of. simpl. rewrite Hs. split.
  - intros [_ [= E]]. symmetry. apply to_string_inj; [by apply (fits_weaken 32)..|done].
  - by intros ->.
Qed.

Lemma calls_metric_family event_type : calls_family (calls_metric event_type) = true.
Proof. unfold calls_metric. by destruct (rs_is_nccl_event event_type). Qed.

Lemma inc_calls_inv full limits u c x : user_inv full limits u -> user_inv full limits (inc c x u).
Proof.
  intros [H1 H2 H3]. split; simpl; [done| |].
  - apply (series_ok_extends _ _ (us_reg u)); [|done]. intros m l c' ?. simpl. by rewrite inc_child.
  - intros m l Hm Hs. rewrite inc_child in Hs. by apply H3.
Qed.

Lemma calls_added full limits u u' k h n :
  user_inv full limits u -> handles (us_cache u) !! k = Some h -> quiet (inc (calls h) n u) u' ->
  user_inv full limits u' /\ us_cache u' = us_cache u /\
  forall pid, fits 32 pid ->
    exported_calls (us_reg u') pid
    = exported_calls (us_reg u) pid + if decide (pid = mk_pid k) then n else 0.
Proof.
  intros Hu Hk Hq. split_and!.
  - apply (quiet_inv _ _ _ _ Hq). by apply inc_calls_inv.
  - by rewrite (qu_cache _ _ Hq).
  - intros pid Hp. rewrite (quiet_exported _ _ _ Hq).
    destruct (ui_series _ _ _ Hu k h Hk) as (Hh & Ha & Hf).
    destruct (attached_cells _ _ _ Ha) as [Hc _].
    unfold exported_calls. simpl. rewrite (exported_sum_inc _ _ _ _ _ _ Hc). f_equal.
    apply decide_ext, (calls_of_series (mk_pid k)); [done|done| |apply calls_metric_family].
    by apply handle_calls in Hh.
Qed.

(** ** Looking a handle up *)

Lemma with_creates r m l r' c : with_label_values r m l = (r', c) -> creates [(m, l)] r r'.
Proof. intros E. unfold creates. simpl. by rewrite E. Qed.

Lemma with_opt_creates r b m l r' c ol :
  with_opt r b m l = (r', (c, ol)) -> creates (if b then [(m, l)] else []) r r'.
Proof.
  unfold with_opt. destruct b; [|by intros [= <- <- <-]].
  destruct (with_label_values r m l) as [r1 c1] eqn:E. intros [= <- <- <-].
  by apply (with_creates _ _ _ _ c1).
Qed.

(** [create_handles] asks for its calls counter and for children of other families. *)
Lemma create_handles_creates args labels key event r r' h :
  create_handles args labels key event r = (r', h) ->
  exists ls, creates ((calls_metric (mk_event_type key), calls_labels h) :: ls) r r' /\
    Forall (fun ml => calls_family ml.1 = false) ls.
Proof.
  unfold create_handles, calls_metric. intros E.
  destruct (rs_is_nccl_event (mk_event_type key));
    repeat match type of E with
    | context [let '(_, _) := ?x in _] =>
        let r := fresh "r" in let c := fresh "c" in let Ex := fresh "Ex" in
        destruct x as [r c] eqn:Ex;
        match type of Ex with
        | with_label_values _ _ _ = _ => apply with_creates in Ex
        | with_opt _ _ _ _ = _ => destruct c; apply with_opt_creates in Ex
        end
    end; injection E as <- <-; cbn [calls_labels];
    repeat match goal with
    | H1 : creates ?l1 ?a ?b, H2 : creates ?l2 ?b ?c |- _ =>
        pose proof (creates_trans _ _ _ _ _ H1 H2); clear H1 H2
    end;
    (eexists; split; [eassumption|]);
    repeat first [apply Forall_nil_2 | apply Forall_cons_2; [reflexivity|] | apply Forall_app_2 | case_match].
Qed.

Lemma get_or_create_effect full limits args key event u u1 h :
  get_or_create args key event u = Ret (u1, h) ->
  ca_full args = full -> ca_limits args = limits -> ce_pid event = mk_pid key ->
  fits 32 (mk_pid key) -> user_inv full limits u ->
  user_inv full limits u1 /\ last_seen (us_cache u1) = last_seen (us_cache u) /\
  (forall pid, exported_calls (us_reg u1) pid = exported_calls (us_reg u) pid) /\
  exists k, handles (us_cache u1) !! k = Some h /\ mk_pid k = mk_pid key.
Proof.
  intros E <- <- Hp Hf [H1 H2 H3].
  pose proof (get_or_create_card _ _ _ _ _ _ E H1) as Hc1.
  pose proof (get_or_create_series _ _ _ _ _ _ E Hp Hf H2) as Hs1.
  unfold get_or_create in E.
  destruct (limit_key (ca_limits args) key (us_cache u)) as [c key'] eqn:El.
  destruct (limit_key_spec _ _ _ _ _ El H1) as (_ & Eh & Es & Ep & _).
  rewrite <- Eh in H3. destruct (handles c !! key') as [h'|] eqn:Ek.
  { injection E as <- <-. split_and!; [by split|done|done|]. by exists key'. }
  set (fallback := if bool_decide _ then _ else None) in E.
  destruct fallback as [h'|] eqn:Ef.
  { injection E as <- <-. split_and!; [by split|done|done|].
    unfold fallback in Ef. case_bool_decide; [|done].
    destruct (list_find _ _) as [[i k]|] eqn:Elf; [|done]. simpl in Ef.
    apply list_find_Some in Elf as (_ & Hk & _). exists k. split; [done|]. congruence. }
  destruct (ca_lookup _ _ _) as [labels| |]; cbn [mbind outcome_bind] in E; [|done..].
  destruct (create_handles args labels key' event (us_reg u)) as [r h'] eqn:Ec.
  destruct (create_handles_creates _ _ _ _ _ _ _ Ec) as (ls & Hcr & Hls).
  injection E as <- <-. simpl in *. split_and!.
  - split; [done|done|]. simpl. intros m l Hm [Hold|Hin]%(creates_child _ _ _ _ _ Hcr).
    + destruct (H3 m l Hm Hold) as (k & h & Hk & ? & ?). exists k, h. split; [|done].
      rewrite lookup_insert_ne; [done|]. intros <-. congruence.
    + apply elem_of_cons in Hin as [[= -> ->]|Hin].
      * exists key', h'. by rewrite lookup_insert_eq.
      * rewrite Forall_forall in Hls. apply Hls in Hin. simpl in Hin. congruence.
  - done.
  - intros pid. by apply (exported_sum_creates _ _ _ _ Hcr).
  - exists key'. rewrite lookup_insert_eq. split; [done|]. congruence.
Qed.

(** It panics only if the lookup does. *)
Lemma get_or_create_total args key event u :
  (forall pid comm, exists l, ca_lookup args pid comm = Ret l) ->
  exists u1 h, get_or_create args key event u = Ret (u1, h).
Proof.
  intros Hl. unfold get_or_create. destruct (limit_key _ key (us_cache u)) as [c k].
  destruct (handles c !! k) as [h|]; [by repeat eexists|].
  set (fallback := if bool_decide _ then _ else None). destruct fallback as [h|]; [by repeat eexists|].
  destruct (Hl (ce_pid event) (event_comm args event)) as [l ->]. cbn [mbind outcome_bind].
  destruct (create_handles args l k event (us_reg u)) as [r h]. by repeat eexists.
Qed.

(** ** Removing the handles of processes *)

Lemma calls_removed full event_type h :
  (calls_metric event_type, calls_labels h) ∈ removals full event_type h.
Proof.
  unfold calls_metric, removals. apply elem_of_app. left.
  destruct (rs_is_nccl_event event_type); left.
Qed.

Lemma drop_effect full (Q : Z -> Prop) `{!forall p, Decision (Q p)} hs r :
  series_ok full hs r -> owned hs r ->
  let hr := drop_handles full (filter (fun k => Q (mk_pid k)) (hash_keys hs)) (hs, r) in
  owned hr.1 hr.2 /\
  forall pid, fits 32 pid ->
    exported_calls hr.2 pid = if decide (Q pid) then 0 else exported_calls r pid.
Proof.
  intros Hok Ho. cbv zeta.
  destruct (drop_where full (fun k => Q (mk_pid k)) hs r) as (-> & _ & Hgone).
  assert (Hown : owned (filter (fun kv => ~ Q (mk_pid kv.1)) hs)
    (drop_handles full (filter (fun k => Q (mk_pid k)) (hash_keys hs)) (hs, r)).2).
  { intros m l Hm Hs. assert (Hr : is_Some (child r m l)).
    { destruct (drop_handles_spec full (filter (fun k => Q (mk_pid k)) (hash_keys hs)) hs r)
        as (_ & ls & E & _). rewrite E, remove_all_child in Hs. case_decide; [by destruct Hs|done]. }
    destruct (Ho m l Hm Hr) as (k & h & Hk & <- & <-). exists k, h. split; [|done].
    apply map_lookup_filter_Some. split; [done|]. simpl. intros HQ.
    rewrite (Hgone _ _ k h Hk HQ) in Hs by apply calls_removed. by destruct Hs. }
  split; [done|]. intros pid Hp. case_decide as HQ.
  - apply exported_sum_none. intros m l Hs [Hm Hl]. simpl in *.
    destruct (Hown m l Hm Hs) as (k & h & [Hk HnQ]%map_lookup_filter_Some & <- & <-). simpl in HnQ.
    destruct (Hok k h Hk) as (Hh & _ & Hf). apply handle_calls in Hh.
    apply HnQ. replace (mk_pid k) with pid; [done|].
    by apply (calls_of_series (mk_pid k) pid (calls_metric (mk_event_type k)) (calls_labels h)).
  - destruct (drop_handles_spec full (filter (fun k => Q (mk_pid k)) (hash_keys hs)) hs r)
      as (_ & ls & -> & Hls).
    apply exported_sum_remove_none. intros [m l] (k & h & [HQk _]%list_elem_of_filter & Hk & Hrem)%Hls.
    intros [_ Hl]. simpl in Hl. destruct (Hok k h Hk) as (Hh & _ & Hf).
    pose proof (proj1 (Forall_forall _ _) (ho_removals _ _ _ Hh) _ Hrem) as [[Hr|Hr] _]; simpl in Hr;
      [congruence|].
    apply HQ. replace pid with (mk_pid k); [done|].
    apply to_string_inj; [by apply (fits_weaken 32)..|congruence].
Qed.

Lemma invalidate_effect full limits pids u :
  user_inv full limits u ->
  let u' := invalidate_pids full pids u in
  user_inv full limits u' /\ last_seen (us_cache u') = last_seen (us_cache u) /\
  forall pid, fits 32 pid ->
    exported_calls (us_reg u') pid = if decide (pid ∈ pids) then 0 else exported_calls (us_reg u) pid.
Proof.
  intros [H1 H2 H3]. cbv zeta. pose proof (invalidate_pids_card limits full pids u H1) as Hc.
  pose proof (drop_series_ok full (fun p => p ∈ pids) _ _ H2) as Hs.
  destruct (drop_effect full (fun p => p ∈ pids) _ _ H2 H3) as [Ho He].
  rewrite invalidate_pids_eq in *. cbn [us_cache us_reg last_seen] in *. split_and!; [|done|exact He].
  by split.
Qed.

Lemma gc_pid_effect full limits u p :
  user_inv full limits u ->
  let u' := gc_pid full u p in
  user_inv full limits u' /\ last_seen (us_cache u') = delete p (last_seen (us_cache u)) /\
  forall pid, fits 32 pid ->
    exported_calls (us_reg u') pid = if decide (pid = p) then 0 else exported_calls (us_reg u) pid.
Proof.
  intros [H1 H2 H3]. cbv zeta. pose proof (gc_pid_card limits full p u H1) as Hc.
  pose proof (drop_series_ok full (fun q => q = p) _ _ H2) as Hs.
  destruct (drop_effect full (fun q => q = p) _ _ H2 H3) as [Ho He].
  rewrite gc_pid_eq in *. cbn [us_cache us_reg last_seen] in *. split_and!; [|done|exact He].
  by split.
Qed.

Lemma gc_pids_effect full limits l u :
  user_inv full limits u ->
  let u' := foldl (gc_pid full) u l in
  user_inv full limits u' /\
  last_seen (us_cache u') = filter (fun kv => kv.1 ∉ l) (last_seen (us_cache u)) /\
  forall pid, fits 32 pid ->
    exported_calls (us_reg u') pid = if decide (pid ∈ l) then 0 else exported_calls (us_reg u) pid.
Proof.
  cbv zeta. revert u. induction l as [|p l IH]; intros u Hu; cbn [foldl].
  { split_and!; [done| |].
    - symmetry. apply map_filter_id. intros k v _. simpl. apply not_elem_of_nil.
    - intros pid _. rewrite decide_False; [done|apply not_elem_of_nil]. }
  destruct (gc_pid_effect full limits u p Hu) as (Hu1 & Es & He).
  destruct (IH _ Hu1) as (Hu2 & Es2 & He2). split_and!; [done| |].
  - rewrite Es2, Es. apply map_eq. intros k. apply option_eq. intros v.
    rewrite !map_lookup_filter_Some, lookup_delete_Some. simpl. rewrite not_elem_of_cons. naive_solver.
  - intros pid Hp. rewrite He2, He by done. repeat case_decide; try done; set_solver.
Qed.

(** ** The ledger of processes: what the loop promises *)

(** When a process was last active, and its calls since it was last evicted. *)
Record ProcLedger := mkProcLedger { pl_seen : gmap Z Z; pl_calls : gmap Z Z }.

Definition pl_add (now pid n : Z) (L : ProcLedger) : ProcLedger :=
  mkProcLedger (<[pid := now]> (pl_seen L)) (<[pid := default 0 (pl_calls L !! pid) + n]> (pl_calls L)).

Definition pl_forget (pids : gset Z) (L : ProcLedger) : ProcLedger :=
  mkProcLedger (pl_seen L) (filter (fun kv => kv.1 ∉ pids) (pl_calls L)).

(** A process whose last activity is more than [stale_after] ago. *)
Definition pl_stale (now stale_after : Z) (L : ProcLedger) (pid : Z) : bool :=
  match pl_seen L !! pid with Some ts => stale_after <? Z.max 0 (now - ts) | None => false end.

Definition pl_gc (now stale_after : Z) (L : ProcLedger) : ProcLedger :=
  mkProcLedger (filter (fun kv => pl_stale now stale_after L kv.1 = false) (pl_seen L))
    (filter (fun kv => pl_stale now stale_after L kv.1 = false) (pl_calls L)).

(** A drained key counts when it has calls. *)
Definition pl_drained (now pid n : Z) (L : ProcLedger) : ProcLedger :=
  if n =? 0 then L else pl_add now pid n L.

Definition ledger_step (cfg : LoopCfg) (L : ProcLedger) (op : main_op) : ProcLedger :=
  match op with
  | M_readable changed events _ =>
      foldl (fun L we => pl_add (w_now we.1) (ce_pid we.2) 1 L) (pl_forget changed L) events
  | M_agg _ aggs launches nccls =>
      let L := foldl (fun L wkv => pl_drained (w_now wkv.1) (ak_pid wkv.2.1)
                                     (at_count (agg_totals wkv.2.2)) L) L aggs in
      let L := if lc_detailed_launches cfg then L else
        foldl (fun L wkv => pl_drained (w_now wkv.1) (lk_pid wkv.2.1)
                              (lt_count (launch_totals wkv.2.2)) L) L launches in
      foldl (fun L wkv => pl_drained (w_now wkv.1) (ak_pid wkv.2.1)
                            (at_count (nccl_totals wkv.2.2)) L) L nccls
  | M_gc w _ _ => pl_gc (w_now w) (lc_stale_after cfg) L
  end.

Definition ledger_of (cfg : LoopCfg) (ops : list main_op) : ProcLedger :=
  foldl (ledger_step cfg) (mkProcLedger ∅ ∅) ops.

(** The enricher answers every lookup: the text of a cgroup file that it slices is sliced
    between characters. *)
Definition answers (w : World) : Prop := forall pid comm, exists l, w_lookup w pid comm = Ret l.

(** Process ids are u32, every kernel name that is read can be normalised, and the enricher
    answers. *)
Definition main_op_ok (op : main_op) : Prop :=
  match op with
  | M_readable _ events regs =>
      Forall (fun we => answers we.1 /\ fits 32 (ce_pid we.2)) events /\
      Forall (fun wr => forall name,
        read_kernel_name (w_mem wr.1) (kr_pid wr.2) (kr_name_ptr wr.2) = inr name ->
        exists n, normalize_kernel_name name = Ret n) regs
  | M_agg w aggs launches nccls =>
      answers w /\
      Forall (fun wkv => answers wkv.1 /\ fits 32 (ak_pid wkv.2.1)) aggs /\
      Forall (fun wkv => answers wkv.1 /\ fits 32 (lk_pid wkv.2.1)) launches /\
      Forall (fun wkv => answers wkv.1 /\ fits 32 (ak_pid wkv.2.1)) nccls
  | M_gc w results _ =>
      answers w /\ Forall (fun res => exists n, normalize_kernel_name res.2 = Ret n) results
  end.

(** ** Simulation *)

Lemma filter_default (P : Z -> Prop) `{!forall p, Decision (P p)} (m : gmap Z Z) pid :
  default 0 (filter (fun kv => ~ P kv.1) m !! pid)
  = if decide (P pid) then 0 else default 0 (m !! pid).
Proof.
  rewrite map_lookup_filter. destruct (m !! pid) as [n|]; simpl; [|by case_decide].
  case_guard; case_decide; done.
Qed.

Definition full_of (cfg : LoopCfg) : bool := bool_decide (lc_mode cfg = Full).

Record sim (cfg : LoopCfg) (u : Userland) (L : ProcLedger) : Prop := {
  sm_inv : user_inv (full_of cfg) (lc_limits cfg) u;
  sm_seen : last_seen (us_cache u) = pl_seen L;
  sm_calls : forall pid, fits 32 pid ->
    exported_calls (us_reg u) pid = default 0 (pl_calls L !! pid)
}.

Lemma user_see_pid w pid st : ms_user (see_pid w pid st) = touch pid (w_now w) (ms_user st).
Proof. unfold see_pid. simpl. by destruct (last_seen (us_cache (ms_user st)) !! pid). Qed.

Lemma user_request_name cfg pid addr st : ms_user (request_name cfg pid addr st) = ms_user st.
Proof. unfold request_name. by case_match. Qed.

(** Looking a handle up, counting [n] calls and touching the process. *)
Lemma sim_add cfg args key event u u1 h u2 n w L :
  sim cfg u L -> get_or_create args key event u = Ret (u1, h) ->
  ca_full args = full_of cfg -> ca_limits args = lc_limits cfg -> ce_pid event = mk_pid key ->
  fits 32 (mk_pid key) ->
  (forall event_type, attached (us_reg u1) event_type h -> quiet (inc (calls h) n u1) u2) ->
  sim cfg (touch (mk_pid key) (w_now w) u2) (pl_add (w_now w) (mk_pid key) n L).
Proof.
  intros [H1 H2 H3] E Hf Hl Hp Hfit Hq.
  destruct (get_or_create_effect _ _ _ _ _ _ _ _ E Hf Hl Hp Hfit H1) as (G1 & G2 & G3 & k & Hk & Ek).
  destruct (ui_series _ _ _ G1 k h Hk) as (_ & Ha & _).
  destruct (calls_added _ _ _ _ _ _ _ G1 Hk (Hq _ Ha)) as ([C1 C2 C3] & Ec & Hc).
  split.
  - split; simpl; [|done|done]. by destruct C1.
  - simpl. by rewrite Ec, G2, H2.
  - intros pid Hpid. simpl. rewrite Hc, G3, H3, Ek by done. case_decide as Hd.
    + subst pid. by rewrite lookup_insert_eq.
    + rewrite lookup_insert_ne by done. lia.
Qed.

Lemma sim_event cfg st L we :
  answers we.1 /\ fits 32 (ce_pid we.2) -> sim cfg (ms_user st) L ->
  exists st', on_event cfg st we = Ret st' /\
    sim cfg (ms_user st') (pl_add (w_now we.1) (ce_pid we.2) 1 L).
Proof.
  destruct we as [w e]. cbn [fst snd]. intros [Hw Hp] Hs. unfold on_event.
  destruct (get_or_create_total (create_args cfg w st) (event_key e) e (ms_user st) Hw) as (u1 & h & E).
  rewrite E. eexists. split; [done|].
  assert (ms_user (event_effect cfg w e u1 h st) = touch (ce_pid e) (w_now w) (event_metrics e h u1)) as ->.
  { unfold event_effect. destruct (lc_report cfg); cbn [upd_stats ms_user]; rewrite user_see_pid; f_equal;
      (destruct (_ && _ && negb _); rewrite ?user_request_name; by destruct (_ && (0 <? _))). }
  apply (sim_add _ _ _ _ _ _ _ (event_metrics e h u1) 1 w L Hs E); try done.
  intros event_type. apply event_quiet.
Qed.

Lemma sim_agg cfg sd L wkv :
  answers wkv.1 /\ fits 32 (ak_pid wkv.2.1) -> sim cfg (ms_user sd.1) L ->
  exists sd', agg_callback cfg sd wkv = Ret sd' /\
    sim cfg (ms_user sd'.1) (pl_drained (w_now wkv.1) (ak_pid wkv.2.1) (at_count (agg_totals wkv.2.2)) L).
Proof.
  destruct sd as [st delta], wkv as [w [k v]]. cbn [fst snd]. intros [Hw Hp] Hs.
  unfold agg_callback, pl_drained. destruct (at_count (agg_totals v) =? 0); [by eexists|].
  match goal with |- context [get_or_create ?a ?key ?e ?u] =>
    destruct (get_or_create_total a key e u Hw) as (u1 & h & E) end.
  rewrite E. eexists. split; [done|]. cbn [fst].
  match goal with |- sim _ (ms_user ?s) _ =>
    assert (ms_user s = touch (ak_pid k) (w_now w) (agg_metrics (agg_totals v) h u1)) as -> end.
  { destruct (lc_report cfg); cbn [upd_stats ms_user]; by rewrite user_see_pid. }
  apply (sim_add _ _ _ _ _ _ _ (agg_metrics (agg_totals v) h u1) (at_count (agg_totals v)) w L Hs E);
    try done.
  intros event_type. apply agg_quiet.
Qed.

Lemma sim_launch cfg st L wkv :
  answers wkv.1 /\ fits 32 (lk_pid wkv.2.1) -> sim cfg (ms_user st) L ->
  exists st', launch_callback cfg st wkv = Ret st' /\
    sim cfg (ms_user st') (pl_drained (w_now wkv.1) (lk_pid wkv.2.1) (lt_count (launch_totals wkv.2.2)) L).
Proof.
  destruct wkv as [w [k v]]. cbn [fst snd]. intros [Hw Hp] Hs.
  unfold launch_callback, pl_drained. destruct (lt_count (launch_totals v) =? 0); [by eexists|].
  match goal with |- context [get_or_create ?a ?key ?e ?u] =>
    destruct (get_or_create_total a key e u Hw) as (u1 & h & E) end.
  rewrite E. eexists. split; [done|]. rewrite user_see_pid.
  match goal with |- sim _ (touch _ _ (ms_user ?s)) _ =>
    assert (ms_user s = launch_metrics cfg (launch_totals v) h u1) as -> end.
  { destruct (lk_host_fun k =? 0); by rewrite ?user_request_name. }
  apply (sim_add _ _ _ _ _ _ _ (launch_metrics cfg (launch_totals v) h u1)
    (lt_count (launch_totals v)) w L Hs E); try done.
  intros event_type. apply launch_quiet.
Qed.

Lemma sim_nccl cfg st L wkv :
  answers wkv.1 /\ fits 32 (ak_pid wkv.2.1) -> sim cfg (ms_user st) L ->
  exists st', nccl_callback cfg st wkv = Ret st' /\
    sim cfg (ms_user st') (pl_drained (w_now wkv.1) (ak_pid wkv.2.1) (at_count (nccl_totals wkv.2.2)) L).
Proof.
  destruct wkv as [w [k v]]. cbn [fst snd]. intros [Hw Hp] Hs.
  unfold nccl_callback, pl_drained. destruct (at_count (nccl_totals v) =? 0); [by eexists|].
  match goal with |- context [get_or_create ?a ?key ?e ?u] =>
    destruct (get_or_create_total a key e u Hw) as (u1 & h & E) end.
  rewrite E. eexists. split; [done|]. rewrite user_see_pid.
  apply (sim_add _ _ _ _ _ _ _ (nccl_metrics (nccl_totals v) h u1) (at_count (nccl_totals v)) w L Hs E);
    try done.
  intros event_type. apply nccl_quiet.
Qed.

Lemma sim_quiet cfg u u' L : quiet u u' -> sim cfg u L -> sim cfg u' L.
Proof.
  intros Hq [H1 H2 H3]. split.
  - by apply (quiet_inv _ _ _ _ Hq).
  - by rewrite (qu_cache _ _ Hq).
  - intros pid Hp. rewrite (quiet_exported _ _ _ Hq). auto.
Qed.

Lemma sim_active cfg w delta st L pid :
  answers w -> sim cfg (ms_user st) L ->
  exists st', apply_active w delta st pid = Ret st' /\ sim cfg (ms_user st') L.
Proof.
  intros Hw Hs. unfold apply_active. destruct (Hw pid []) as [labels ->]. cbn [mbind outcome_bind].
  eexists. split; [done|]. revert Hs. apply sim_quiet. cbn [upd_user ms_user upd_active].
  set (bytes := i64 _). set (l := [to_string pid; _; _; _; _; _; _]).
  etrans; [by apply (quiet_with (ms_user st) cuda_active_memory l)|].
  pose proof (with_child (us_reg (ms_user st)) cuda_active_memory l) as Hc. unfold upd_reg. simpl in *.
  destruct (with_label_values (us_reg (ms_user st)) cuda_active_memory l) as [r c]. simpl in *.
  split; simpl; [done| | |].
  - intros m' l' c' Hc'. by rewrite set_child.
  - intros. apply set_child.
  - intros m' l' c' Hm' Hc'. apply set_other. intros <-.
    assert ((cuda_active_memory, l) = (m', l')) as [= <- <-] by (by apply (child_inj r _ _ _ _ c)). done.
Qed.

(** A loop whose step follows the ledger follows it. *)
Lemma sim_each {A S} cfg (user : S -> Userland) (f : S -> A -> outcome S)
    (g : ProcLedger -> A -> ProcLedger) (ok : A -> Prop) l s L :
  (forall s L a, ok a -> sim cfg (user s) L -> exists s', f s a = Ret s' /\ sim cfg (user s') (g L a)) ->
  Forall ok l -> sim cfg (user s) L ->
  exists s', each f s l = Ret s' /\ sim cfg (user s') (foldl g L l).
Proof.
  intros Hstep Hl. revert s L. induction Hl as [|a l Ha _ IH]; intros s L Hs; cbn [each foldl]; [by eexists|].
  destruct (Hstep s L a Ha Hs) as (s1 & -> & Hs1). by apply IH.
Qed.

Lemma sim_changed cfg changed st L :
  sim cfg (ms_user st) L ->
  sim cfg (ms_user (if bool_decide (changed = ∅) then st
                    else upd_user (invalidate_pids (full_of cfg) changed) st)) (pl_forget changed L).
Proof.
  intros [H1 H2 H3]. case_bool_decide as Hd.
  - subst changed. split; [done|done|]. intros pid Hp. rewrite H3 by done. simpl. f_equal. symmetry.
    rewrite map_filter_id; [done|]. intros k v _. simpl. set_solver.
  - destruct (invalidate_effect (full_of cfg) _ changed _ H1) as (G1 & G2 & G3). split; simpl; [done| |].
    + by rewrite G2.
    + intros pid Hp. rewrite G3, H3 by done. symmetry.
      exact (filter_default (fun p => p ∈ changed) (pl_calls L) pid).
Qed.

Lemma each_kreg regs st :
  Forall (fun wr : World * KernelRegEvent => forall name,
    read_kernel_name (w_mem wr.1) (kr_pid wr.2) (kr_name_ptr wr.2) = inr name ->
    exists n, normalize_kernel_name name = Ret n) regs ->
  exists st', each on_kreg st regs = Ret st' /\ ms_user st' = ms_user st.
Proof.
  intros Hregs. revert st. induction Hregs as [|[w reg] regs Hreg _ IH]; intros st; cbn [each]; [by eexists|].
  assert (Hs : exists st', on_kreg st (w, reg) = Ret st' /\ ms_user st' = ms_user st).
  { unfold on_kreg. case_match; [by eexists|].
    destruct (read_kernel_name _ _ _) as [e|name] eqn:E; [by eexists|].
    destruct (Hreg _ eq_refl) as [n ->]. by eexists. }
  destruct Hs as (st1 & -> & <-). apply IH.
Qed.

Lemma each_sym_result results st :
  Forall (fun res : Z * Z * str => exists n, normalize_kernel_name res.2 = Ret n) results ->
  exists st', each on_sym_result st results = Ret st' /\ ms_user st' = ms_user st.
Proof.
  intros Hres. revert st. induction Hres as [|[[pid addr] name] results [n Hn] _ IH]; intros st; cbn [each];
    [by eexists|].
  assert (Hs : exists st', on_sym_result st (pid, addr, name) = Ret st' /\ ms_user st' = ms_user st).
  { unfold on_sym_result. simpl in Hn. case_match; [by eexists|]. rewrite Hn. by eexists. }
  destruct Hs as (st1 & -> & <-). apply IH.
Qed.

Lemma sim_readable cfg changed events regs st L :
  main_op_ok (M_readable changed events regs) -> sim cfg (ms_user st) L ->
  exists st', on_readable cfg changed events regs st = Ret st' /\
    sim cfg (ms_user st') (ledger_step cfg L (M_readable changed events regs)).
Proof.
  intros [He Hr] Hs. unfold on_readable. fold (full_of cfg). cbn [ledger_step].
  set (st1 := if bool_decide (changed = ∅) then _ else _).
  assert (Hs1 : sim cfg (ms_user st1) (pl_forget changed L)) by (by apply sim_changed).
  destruct (sim_each cfg ms_user (on_event cfg) _ _ events st1 _ (sim_event cfg) He Hs1) as (st2 & -> & H2).
  cbn [mbind outcome_bind]. destruct (full_of cfg); [|by eexists].
  destruct (each_kreg regs st2 Hr) as (st3 & -> & E). exists st3. split; [done|]. by rewrite E.
Qed.

Lemma sim_agg_tick cfg w aggs launches nccls st L :
  main_op_ok (M_agg w aggs launches nccls) -> sim cfg (ms_user st) L ->
  exists st', on_agg_tick cfg w aggs launches nccls st = Ret st' /\
    sim cfg (ms_user st') (ledger_step cfg L (M_agg w aggs launches nccls)).
Proof.
  intros (Hw & Ha & Hl & Hn) Hs. unfold on_agg_tick. cbn [ledger_step].
  destruct (sim_each cfg (fun sd => ms_user sd.1) (agg_callback cfg) _ _ aggs (st, ∅) L (sim_agg cfg) Ha Hs)
    as ([st1 delta] & -> & H1). cbn [mbind outcome_bind fst] in *.
  set (L1 := foldl _ L aggs) in *.
  assert (H2 : exists st2,
    (if lc_detailed_launches cfg then Ret st1 else each (launch_callback cfg) st1 launches) = Ret st2 /\
    sim cfg (ms_user st2) (if lc_detailed_launches cfg then L1 else
      foldl (fun L wkv => pl_drained (w_now wkv.1) (lk_pid wkv.2.1) (lt_count (launch_totals wkv.2.2)) L)
        L1 launches)).
  { destruct (lc_detailed_launches cfg); [by eexists|].
    by apply (sim_each cfg ms_user _ _ _ launches st1 L1 (sim_launch cfg)). }
  destruct H2 as (st2 & -> & H2). cbn [mbind outcome_bind].
  destruct (sim_each cfg ms_user (nccl_callback cfg) _ _ nccls st2 _ (sim_nccl cfg) Hn H2) as (st3 & -> & H3).
  cbn [mbind outcome_bind]. set (L3 := foldl _ _ nccls) in *.
  destruct (sim_each cfg ms_user (apply_active w delta) (fun L _ => L) (fun _ => True) (hash_keys delta) st3 L3)
    as (st4 & -> & H4); [intros s L' p _; by apply sim_active|by apply Forall_true|done|].
  exists st4. split; [done|]. revert H4. by induction (hash_keys delta).
Qed.

Lemma each_ratio w l st :
  answers w -> exists st', each (set_ratio w) st l = Ret st' /\ ms_user st' = ms_user st.
Proof.
  intros Hw. revert st. induction l as [|[[pid et] ratio] l IH]; intros st; cbn [each]; [by eexists|].
  assert (H1 : exists st1, set_ratio w st (pid, et, ratio) = Ret st1 /\ ms_user st1 = ms_user st).
  { unfold set_ratio. destruct (Hw pid []) as [labels ->]. by eexists. }
  destruct H1 as (st1 & -> & <-). apply IH.
Qed.

Lemma sim_gc cfg now u L :
  sim cfg u L ->
  sim cfg (gc (full_of cfg) now (lc_stale_after cfg) u).1 (pl_gc now (lc_stale_after cfg) L).
Proof.
  intros [H1 H2 H3]. unfold gc. simpl. set (stale := stale_pids _ _ _).
  assert (Hst : forall pid, pid ∈ stale <-> pl_stale now (lc_stale_after cfg) L pid = true).
  { intros pid. unfold stale. rewrite elem_of_stale_pids. unfold is_stale, pl_stale. by rewrite H2. }
  destruct (gc_pids_effect (full_of cfg) (lc_limits cfg) stale u H1) as (G1 & G2 & G3).
  split; [done| |].
  - rewrite G2, H2. simpl. apply map_filter_ext. intros k v _. simpl.
    rewrite Hst. by destruct (pl_stale _ _ _ _).
  - intros pid Hp. rewrite G3, H3 by done. simpl.
    rewrite map_lookup_filter. destruct (pl_calls L !! pid) as [n|]; simpl; [|by case_decide].
    case_guard as Hg; case_decide as Hd; rewrite Hst in Hd; try done.
    + congruence.
    + by destruct (pl_stale _ _ _ _).
Qed.

Lemma sim_gc_tick cfg w results writable st L :
  main_op_ok (M_gc w results writable) -> sim cfg (ms_user st) L ->
  exists st', on_gc_tick cfg w results writable st = Ret st' /\
    sim cfg (ms_user st') (ledger_step cfg L (M_gc w results writable)).
Proof.
  intros [Hw Hop] Hs. unfold on_gc_tick. fold (full_of cfg).
  assert (H1 : exists st1, (if full_of cfg then each on_sym_result st results else Ret st) = Ret st1 /\
    ms_user st1 = ms_user st).
  { destruct (full_of cfg); [by apply each_sym_result|by eexists]. }
  destruct H1 as (st1 & -> & E1). cbn [mbind outcome_bind].
  set (st2 := if writable then _ else st1).
  assert (E2 : ms_user st2 = ms_user st) by (unfold st2; destruct writable; done).
  pose proof (sim_gc cfg (w_now w) (ms_user st2) L ltac:(by rewrite E2)) as G.
  destruct (gc (full_of cfg) (w_now w) (lc_stale_after cfg) (ms_user st2)) as [u stale].
  simpl in G. match goal with |- context [each (set_ratio w) ?s _] => set (st3 := s) end.
  destruct (each_ratio w (straggler_ratios (ms_nccl_durations st3)) st3 Hw) as (st4 & -> & E4).
  eexists. split; [done|].
  assert (E3 : ms_user st3 = u) by (unfold st3; by destruct (bool_decide (stale = []))).
  destruct (lc_report cfg); cbn [flush_stats upd_stats ms_user]; by rewrite E4, E3.
Qed.

Lemma sim_run cfg ops st L :
  Forall main_op_ok ops -> sim cfg (ms_user st) L ->
  exists st', run_main cfg ops st = Ret st' /\ sim cfg (ms_user st') (foldl (ledger_step cfg) L ops).
Proof.
  unfold run_main. intros Hops. revert st L.
  induction Hops as [|op ops Hop _ IH]; intros st L Hs; cbn [each foldl]; [by eexists|].
  assert (H : exists st1, main_step cfg st op = Ret st1 /\ sim cfg (ms_user st1) (ledger_step cfg L op)).
  { destruct op; simpl main_step; [by apply sim_readable|by apply sim_agg_tick|by apply sim_gc_tick]. }
  destruct H as (st1 & -> & H1). by apply IH.
Qed.

(** A registry without calls counters, as [Metrics::new] makes it. *)
Lemma sim_init cfg r : children r = [] -> sim cfg (ms_user (init_main r)) (mkProcLedger ∅ ∅).
Proof.
  intros Hr. assert (Hc : forall m l, ~ is_Some (child r m l)).
  { intros m l Hs%children_child. rewrite Hr in Hs. by apply elem_of_nil in Hs. }
  split; [split| |]; simpl.
  - apply new_cache_card.
  - intros k h Hk. cbn in Hk. by apply lookup_empty_Some in Hk.
  - intros m l _ Hs. by apply Hc in Hs.
  - done.
  - intros pid _. apply exported_sum_none. by intros m l Hs%Hc.
Qed.

Lemma run_sim cfg ops r :
  children r = [] -> Forall main_op_ok ops ->
  exists st, run_main cfg ops (init_main r) = Ret st /\ sim cfg (ms_user st) (ledger_of cfg ops).
Proof. intros Hr Hops. apply sim_run; [done|]. by apply sim_init. Qed.

(** C4: the main loop exports every call that it reads.  From an empty registry, whatever the ring
    buffers, the drained maps and the clock bring: as long as kernel names can be normalised and
    the enricher answers, the loop does not stop, and for every process the calls counters that a
    scrape shows add up to its calls in the ledger: those of its events and of its drained keys
    since it was last evicted or its pod changed.  Limits on streams, kernels and series move
    calls between the counters of one process and lose none of those that the loop reads. *)
Theorem exported_calls_refine_ledger cfg ops r :
  children r = [] -> Forall main_op_ok ops ->
  exists st, run_main cfg ops (init_main r) = Ret st /\
    last_seen (us_cache (ms_user st)) = pl_seen (ledger_of cfg ops) /\
    forall pid, fits 32 pid ->
      exported_calls (us_reg (ms_user st)) pid = default 0 (pl_calls (ledger_of cfg ops) !! pid).
Proof.
  intros Hr Hops. destruct (run_sim cfg ops r Hr Hops) as (st & E & [_ H2 H3]). by exists st.
Qed.

(** C19: whatever the loop is fed, the cache holds at most max_time_series handles plus
    one for each process that has any, and for each process at most
    max_streams_per_pid streams and max_kernels_per_pid kernels besides the
    aggregate (0). *)
Theorem loop_cardinality_bounded cfg ops r pid :
  children r = [] -> Forall main_op_ok ops ->
  exists st, run_main cfg ops (init_main r) = Ret st /\
    let hs := handles (us_cache (ms_user st)) in
    (size hs <= max_time_series (lc_limits cfg) + size (pids_of hs))%nat /\
    (size (streams_of pid hs) <= S (max_streams_per_pid (lc_limits cfg)))%nat /\
    (size (kernels_of pid hs) <= S (max_kernels_per_pid (lc_limits cfg)))%nat.
Proof.
  intros Hr Hops. destruct (run_sim cfg ops r Hr Hops) as (st & E & [[H1 _ _] _ _]).
  exists st. split; [done|]. by apply card_ok_bounds.
Qed.

(** At any time each counter of a cached handle (calls, bytes, launches, errors) is
    the child that the registry exports under its labels; those labels are as many as
    the family has, and the one named pid is the process of the key. *)
Lemma loop_counters_attached cfg ops r :
  children r = [] -> Forall main_op_ok ops ->
  exists st, run_main cfg ops (init_main r) = Ret st /\
    forall k h m l c,
      handles (us_cache (ms_user st)) !! k = Some h -> (m, l, c) ∈ pid_series (mk_event_type k) h ->
      child (us_reg (ms_user st)) m l = Some c /\ pid_label m l = Some (to_string (mk_pid k)) /\
      length l = length (label_names m).
Proof.
  intros Hr Hops. destruct (run_sim cfg ops r Hr Hops) as (st & E & [[_ H2 _] _ _]).
  exists st. split; [done|]. intros k h m l c Hk Hin. destruct (H2 k h Hk) as (Hh & Ha & _). split.
  - exact (proj1 (Forall_forall _ _) Ha _ Hin).
  - exact (proj1 (Forall_forall _ _) (ho_series _ _ _ Hh) _ Hin).
Qed.

(** C40: a process ends the profiler.  In full mode, a registration of a kernel that has no name
    yet makes the loop panic when the name in the memory of the process is of one of two forms:
    _Z18446744073709551615 not followed by a digit, which announces an identifier of 2^64 - 1
    bytes, or _Z1 followed by a character outside ASCII, of which the identifier of one byte
    takes a part. *)
Theorem registered_name_stops_loop cfg st w reg name rest c :
  lc_mode cfg = Full -> ms_kernel_names st !! (kr_pid reg, kr_host_fun reg) = None ->
  read_kernel_name (w_mem w) (kr_pid reg) (kr_name_ptr reg) = inr name ->
  (name = lit "_Z18446744073709551615" ++ rest /\ digit_run rest = 0) \/
  (name = lit "_Z1" ++ c :: rest /\ 128 <= c) ->
  main_step cfg st (M_readable ∅ [] [(w, reg)]) = Panic.
Proof.
  intros Hm Hk Hr Hn. unfold main_step, on_readable.
  rewrite !bool_decide_eq_true_2 by done. cbn [each mbind outcome_bind]. unfold on_kreg. rewrite Hk, Hr.
  assert (normalize_kernel_name name = Panic) as ->; [|done].
  destruct (mangled_name_panics rest c) as [P1 P2].
  destruct Hn as [[-> Hd]|[-> Hc]]; auto.
Qed.
End LoopInv.

(** ** Examples *)

#[local] Instance sample_tables : UnicodeTables := {| unicode_alphanumeric := fun _ => false |}.

(** The memory of every process holds the name f, then a name that cannot be
    normalised. *)
Definition sample_mem : ProcMem :=
  mkProcMem (fun _ => true) (fun _ _ => true)
    (fun _ ptr => Some (if ptr =? 16 then as_bytes (lit "f") ++ [0] else as_bytes (lit "_Z1" ++ [233]))).

Definition sample_world (now : Z) : World :=
  mkWorld (ca_lookup sample_args) (fun _ => Some (lit "train")) sample_mem now.

Definition sample_cfg : LoopCfg := mkLoopCfg Full true sample_limits false 50.

(** Two processes copy memory, one of them on more streams than the limit; a drained
    key adds five calls; later one process is stale. *)
Definition sample_main : list main_op :=
  [M_readable ∅ [(sample_world 0, sample_event 7 80); (sample_world 10, sample_event 9 96);
                 (sample_world 11, sample_event 9 97)]
     [(sample_world 12, mkKernelRegEvent 9 0 4096 16)];
   M_agg (sample_world 20)
     [(sample_world 21, (mkAggKey EVENT_CUDA_MALLOC 9 0 0 0, [mkAggValue 5 900 640 (replicate 14 0)]))]
     [] [];
   M_gc (sample_world 60) [(9, 8192, lit "g")] true].

Lemma sample_main_ok : Forall main_op_ok sample_main.
Proof.
  apply Forall_cons_2; [|apply Forall_cons_2; [|apply Forall_cons_2; [|apply Forall_nil_2]]];
    cbn [main_op_ok].
  - split; [repeat apply Forall_cons_2; try apply Forall_nil_2; (split; [by eexists|fits_const])|].
    apply Forall_cons_2; [|apply Forall_nil_2]. intros name E.
    assert (E' : read_kernel_name sample_mem 9 16 = inr (lit "f")) by (vm_compute; reflexivity).
    cbn [fst snd w_mem sample_world kr_pid kr_name_ptr] in E. rewrite E' in E. injection E as <-.
    exists (lit "f"). vm_compute. reflexivity.
  - split_and!; try apply Forall_nil_2; [by eexists|].
    apply Forall_cons_2; [split; [by eexists|fits_const]|apply Forall_nil_2].
  - split; [by eexists|]. apply Forall_cons_2; [|apply Forall_nil_2]. eexists. vm_compute. reflexivity.
Qed.

Lemma exported_calls_refine_ledger_witness :
  exists st, run_main sample_cfg sample_main (init_main empty_store) = Ret st /\
    exported_calls (us_reg (ms_user st)) 9 = 7 /\ exported_calls (us_reg (ms_user st)) 7 = 0.
Proof.
  destruct (exported_calls_refine_ledger (PM := store_prometheus) sample_cfg sample_main empty_store eq_refl sample_main_ok)
    as (st & E & _ & Hc).
  exists st. split; [exact E|]. split.
  - rewrite (Hc 9) by fits_const. vm_compute. reflexivity.
  - rewrite (Hc 7) by fits_const. vm_compute. reflexivity.
Defined.

Lemma loop_cardinality_bounded_witness :
  exists st, run_main sample_cfg sample_main (init_main empty_store) = Ret st /\
    let hs := handles (us_cache (ms_user st)) in
    (size hs <= 2 + size (pids_of hs))%nat /\ (size (streams_of 9 hs) <= 2)%nat.
Proof.
  destruct (loop_cardinality_bounded (PM := store_prometheus) sample_cfg sample_main empty_store 9 eq_refl sample_main_ok)
    as (st & E & H1 & H2 & _).
  exists st. split; [exact E|]. split; [exact H1|exact H2].
Defined.

Lemma registered_name_stops_loop_witness :
  main_step sample_cfg (init_main empty_store)
    (M_readable ∅ [] [(sample_world 0, mkKernelRegEvent 9 0 4096 32)]) = Panic.
Proof.
  apply (registered_name_stops_loop (PM := store_prometheus) sample_cfg
    (init_main (empty_store : Registry (Prometheus := store_prometheus))) (sample_world 0)
    (mkKernelRegEvent 9 0 4096 32) (lit "_Z1" ++ [233]) [] 233); [done|done|vm_compute; reflexivity|].
  right. split; [done|lia].
Defined.
