(* ===== verification/Straggler.v ===== *)
(** * Stragglers among the processes of a collective: src/src/main.rs

    The gc tick compares, per operation, the 95th percentile of each process's
    recent collectives with the median over the processes.  The index of the
    percentile and the ratio are computed in floating point. *)

From Stdlib Require Import Floats.SpecFloat QArith.
From stdpp Require Import strings sorting.
From S2P Require Import Prelude RustStd F64 Rounding Events Kernel Metrics Cache Loop.

Local Open Scope Z_scope.

(** ** The percentile *)

Lemma p95_idx_exact n : (1 <= n <= 100)%nat -> p95_idx n = (95 * n / 100)%nat.
Proof.
  intros Hn. assert (H : forallb (fun n => Nat.eqb (p95_idx n) (95 * n / 100)) (seq 1 100) = true)
    by (vm_compute; reflexivity).
  rewrite forallb_forall in H. apply Nat.eqb_eq, H, in_seq. lia.
Qed.

(** The windows stay within their size. *)
Lemma push_window_length x window :
  (length window <= NCCL_WINDOW_SIZE)%nat -> (1 <= length (push_window x window) <= NCCL_WINDOW_SIZE)%nat.
Proof.
  unfold push_window. intros Hl. rewrite length_app. cbn [length].
  destruct (Nat.leb_spec NCCL_WINDOW_SIZE (length window)).
  - rewrite length_drop. unfold NCCL_WINDOW_SIZE in *. lia.
  - unfold NCCL_WINDOW_SIZE in *. lia.
Qed.

Section Windows.
Context `{!Prometheus, !HashOrder MetricKey, !HashOrder Z, !UnicodeTables}.

Definition windows_ok (st : MainState) : Prop :=
  map_Forall (fun _ w => (length w <= NCCL_WINDOW_SIZE)%nat) (ms_nccl_durations st).

Lemma push_buckets_length buckets window :
  (length window <= NCCL_WINDOW_SIZE)%nat -> (length (push_buckets buckets window) <= NCCL_WINDOW_SIZE)%nat.
Proof.
  unfold push_buckets. revert window. induction (zip buckets _) as [|[c m] l IH]; intros window Hl; [done|].
  simpl. apply IH. case_match; [done|]. by apply push_window_length.
Qed.

Lemma windows_insert (m : gmap (Z * Z) (list Z)) k (f : list Z -> list Z) :
  (forall w, (length w <= NCCL_WINDOW_SIZE)%nat -> (length (f w) <= NCCL_WINDOW_SIZE)%nat) ->
  map_Forall (fun _ w => (length w <= NCCL_WINDOW_SIZE)%nat) m ->
  map_Forall (fun _ w => (length w <= NCCL_WINDOW_SIZE)%nat) (<[k := f (default [] (m !! k))]> m).
Proof.
  intros Hf Hm. apply map_Forall_insert_2; [|done]. apply Hf.
  destruct (m !! k) as [w|] eqn:E; [by apply (Hm k)|]. unfold NCCL_WINDOW_SIZE. simpl. lia.
Qed.

Lemma durations_see_pid w pid st : ms_nccl_durations (see_pid w pid st) = ms_nccl_durations st.
Proof. unfold see_pid. simpl. by case_match. Qed.

Lemma durations_request_name cfg pid addr st :
  ms_nccl_durations (request_name cfg pid addr st) = ms_nccl_durations st.
Proof. unfold request_name. by case_match. Qed.

Lemma windows_event cfg st we st' : on_event cfg st we = Ret st' -> windows_ok st -> windows_ok st'.
Proof.
  destruct we as [w e]. intros (u & h & ->)%on_event_inv Hst. unfold event_effect, windows_ok.
  destruct (lc_report cfg); cbn [upd_stats ms_nccl_durations]; rewrite durations_see_pid;
    (destruct (_ && _ && negb _); rewrite ?durations_request_name;
     (destruct (_ && (0 <? _)); [|done]); (apply windows_insert; [|done]);
     intros; by apply push_window_length).
Qed.

Lemma windows_agg cfg sd wkv sd' : agg_callback cfg sd wkv = Ret sd' -> windows_ok sd.1 -> windows_ok sd'.1.
Proof.
  destruct sd as [st delta], wkv as [w [k v]]. unfold agg_callback. case_match; [by intros [= <-]|].
  intros ([u h] & _ & [= <-])%bind_ret Hst. unfold windows_ok.
  destruct (lc_report cfg); cbn [fst upd_stats ms_nccl_durations]; by rewrite durations_see_pid.
Qed.

Lemma windows_launch cfg st wkv st' : launch_callback cfg st wkv = Ret st' -> windows_ok st -> windows_ok st'.
Proof.
  destruct wkv as [w [k v]]. unfold launch_callback. case_match; [by intros [= <-]|].
  intros ([u h] & _ & [= <-])%bind_ret Hst. unfold windows_ok. rewrite durations_see_pid.
  case_match; by rewrite ?durations_request_name.
Qed.

Lemma windows_nccl cfg st wkv st' : nccl_callback cfg st wkv = Ret st' -> windows_ok st -> windows_ok st'.
Proof.
  destruct wkv as [w [k v]]. unfold nccl_callback. case_match; [by intros [= <-]|].
  intros ([u h] & _ & [= <-])%bind_ret Hst. unfold windows_ok. rewrite durations_see_pid.
  apply windows_insert; [|done]. intros. by apply push_buckets_length.
Qed.

(** The windows of the loop stay within their size. *)
Lemma windows_bounded cfg ops r st :
  run_main cfg ops (init_main r) = Ret st -> windows_ok st.
Proof.
  intros Hr. refine (main_keeps cfg windows_ok _ _ _ _ _ _ _ _ _ _ _ _ _ _ _ Hr _);
    [..|by apply map_Forall_empty]; clear.
  - by intros st changed.
  - apply windows_event.
  - intros s [w reg] s'. unfold on_kreg. repeat case_match; try (by intros [= <-]).
    by intros (n & _ & [= <-])%bind_ret.
  - apply windows_agg.
  - apply windows_launch.
  - apply windows_nccl.
  - intros w delta st pid st'. by intros (l & _ & [= <-])%bind_ret.
  - intros s [[p a] n] s'. unfold on_sym_result. destruct (starts_with _ n); [by intros [= <-]|].
    by intros (m & _ & [= <-])%bind_ret.
  - by intros st.
  - by intros st now u stale.
  - intros w st [[pid et] x] st'. by intros (l & _ & [= <-])%bind_ret.
  - by intros st.
Qed.
End Windows.

Lemma sorted_le_lookup (l : list Z) (i j : nat) x y :
  StronglySorted Z.le l -> (i <= j)%nat -> l !! i = Some x -> l !! j = Some y -> x <= y.
Proof.
  intros Hs. revert i j. induction Hs as [|z l Hs IH Hz]; intros i j Hij Hi Hj; [done|].
  destruct i as [|i], j as [|j]; simplify_eq/=; [lia| |lia|].
  - by apply (Forall_lookup_1 _ _ _ _ Hz Hj).
  - apply (IH i j); [lia|done..].
Qed.

Lemma count_prefix (P : Z -> Prop) `{!forall z, Decision (P z)} (l : list Z) (i : nat) :
  (i <= length l)%nat -> (forall j x, (j < i)%nat -> l !! j = Some x -> P x) ->
  (i <= length (filter P l))%nat.
Proof.
  revert i. induction l as [|z l IH]; intros i Hi HP; [simpl in *; lia|].
  destruct i as [|i]; [lia|]. rewrite filter_cons_True by (apply (HP 0%nat); [lia|done]). simpl in *.
  apply le_n_S, IH; [lia|]. intros j x Hj. apply (HP (S j)). lia.
Qed.

Lemma count_suffix (P : Z -> Prop) `{!forall z, Decision (P z)} (l : list Z) (i : nat) :
  (forall j x, (i <= j)%nat -> l !! j = Some x -> P x) -> (length l - i <= length (filter P l))%nat.
Proof.
  revert i. induction l as [|z l IH]; intros i HP; [simpl; lia|]. destruct i as [|i].
  - rewrite filter_all; [simpl; lia|]. apply Forall_lookup. intros j x Hj. apply (HP j); [lia|done].
  - rewrite filter_cons. simpl. transitivity (length (filter P l)).
    + apply (IH i). intros j x Hj. apply (HP (S j)). lia.
    + case_decide; simpl; lia.
Qed.

(** the percentile that the straggler ratio is built on.  For a window of one to
    a hundred durations, the floating-point index is exactly 95 n / 100 rounded down
    and in range, so the minimum with the last index never matters; the value is one of
    the window, more than 95% of the window is at most the value and at least 5% is at
    least the value. *)
Theorem p95_is_percentile window :
  (1 <= length window <= NCCL_WINDOW_SIZE)%nat ->
  let n := length window in
  (p95_idx n < n)%nat /\ p95 window ∈ window /\
  (95 * n < 100 * length (filter (fun x : Z => (x <= p95 window)%Z) window))%nat /\
  (5 * n <= 100 * length (filter (fun x : Z => (p95 window <= x)%Z) window))%nat.
Proof.
  unfold NCCL_WINDOW_SIZE. intros Hn. cbv zeta. pose proof (p95_idx_exact _ Hn) as Hidx.
  set (n := length window) in *.
  assert (Hlt : (p95_idx n < n)%nat) by (rewrite Hidx; apply Nat.Div0.div_lt_upper_bound; lia).
  split; [done|]. unfold p95.
  pose proof (merge_sort_Permutation Z.le window) as Hperm.
  assert (Hlen : length (merge_sort Z.le window) = n) by (by rewrite Hperm).
  assert (Hsort : StronglySorted Z.le (merge_sort Z.le window)) by (apply StronglySorted_merge_sort; apply _).
  rewrite Hlen, Nat.min_l by lia. set (i := p95_idx n) in *.
  destruct (lookup_lt_is_Some_2 (merge_sort Z.le window) i) as [x Hx]; [lia|]. rewrite Hx.
  change (default 0 (Some x)) with x.
  assert (Hdiv : (100 * i <= 95 * n < 100 * i + 100)%nat).
  { rewrite Hidx. pose proof (Nat.div_mod_eq (95 * n) 100). pose proof (Nat.mod_upper_bound (95 * n) 100). lia. }
  split_and!.
  - rewrite <- Hperm. by apply list_elem_of_lookup_2 in Hx.
  - rewrite <- Hperm. pose proof (count_prefix (fun z => z <= x) (merge_sort Z.le window) (S i)) as Hc.
    assert (S i <= length (filter (fun z => (z <= x)%Z) (merge_sort Z.le window)))%nat; [|lia].
    apply Hc; [lia|]. intros j y Hj Hy. by apply (sorted_le_lookup _ j i y x Hsort); [lia| |].
  - rewrite <- Hperm. pose proof (count_suffix (fun z => x <= z) (merge_sort Z.le window) i) as Hc.
    assert (n - i <= length (filter (fun z => (x <= z)%Z) (merge_sort Z.le window)))%nat; [|lia].
    rewrite <- Hlen at 1. apply Hc. intros j y Hj Hy. by apply (sorted_le_lookup _ i j x y Hsort).
Qed.

Lemma p95_is_percentile_witness :
  let window := Z.of_nat <$> seq 1 20 in
  p95 window = 20 /\ p95 window ∈ window.
Proof.
  split; [vm_compute; reflexivity|].
  exact (proj1 (proj2 (p95_is_percentile (Z.of_nat <$> seq 1 20) 
    (conj (proj1 (Nat.leb_le 1 20) eq_refl) (proj1 (Nat.leb_le 20 100) eq_refl))))).
Defined.

(** ** The ratio *)

Lemma insert_by_p95_perm x l : insert_by_p95 x l ≡ₚ x :: l.
Proof.
  induction l as [|y l IH]; simpl; [done|]. case_match; [done|]. rewrite IH. apply Permutation_swap.
Qed.

Lemma sort_by_p95_perm l : sort_by_p95 l ≡ₚ l.
Proof. induction l as [|x l IH]; [done|]. simpl. by rewrite insert_by_p95_perm, IH. Qed.

Lemma insert_by_p95_sorted x l :
  StronglySorted Z.le l.*2 -> StronglySorted Z.le (insert_by_p95 x l).*2.
Proof.
  induction l as [|y l IH]; intros Hl; simpl; [by repeat constructor|].
  apply StronglySorted_inv in Hl as [Hl Hy]. destruct (Z.leb_spec x.2 y.2) as [Hxy|Hxy]; csimpl.
  - constructor; [by constructor|]. constructor; [done|]. eapply Forall_impl; [exact Hy|]. simpl. lia.
  - constructor; [by apply IH|]. apply Forall_fmap. rewrite insert_by_p95_perm. constructor; [simpl; lia|].
    by apply Forall_fmap.
Qed.

Lemma sort_by_p95_sorted l : StronglySorted Z.le (sort_by_p95 l).*2.
Proof. induction l as [|x l IH]; [constructor|]. by apply insert_by_p95_sorted. Qed.

Lemma median_counts (l : list Z) median :
  StronglySorted Z.le l -> l !! (length l / 2)%nat = Some median ->
  (length l <= 2 * length (filter (fun x : Z => (x <= median)%Z) l))%nat /\
  (length l <= 2 * length (filter (fun x : Z => (median <= x)%Z) l))%nat.
Proof.
  intros Hs Hm. pose proof (lookup_lt_Some _ _ _ Hm) as Hlt. set (i := (length l / 2)%nat) in *.
  pose proof (Nat.div_mod_eq (length l) 2). pose proof (Nat.mod_upper_bound (length l) 2). fold i in H.
  assert (S i <= length (filter (fun x : Z => (x <= median)%Z) l))%nat.
  { apply (count_prefix (fun x => x <= median)); [lia|]. intros j x Hj Hx.
    by apply (sorted_le_lookup l j i x median Hs); [lia| |]. }
  assert (length l - i <= length (filter (fun x : Z => (median <= x)%Z) l))%nat.
  { apply (count_suffix (fun x => median <= x)). intros j x Hj Hx.
    by apply (sorted_le_lookup l i j median x Hs). }
  lia.
Qed.

Lemma ratio_right own median :
  fits 64 own -> fits 64 median -> median <> 0 ->
  if own =? 0 then f64_div (f64_of own) (f64_of median) = S754_zero false
  else close 4 (f64_div (f64_of own) (f64_of median)) (inject_Z own / inject_Z median).
Proof.
  intros [Ho1 Ho2] [Hm1 Hm2] Hm. destruct (Z.eqb_spec own 0) as [->|].
  - destruct (f64_of_close median) as (m & e & -> & _); [lia| |done].
    etrans; [apply digits_64; lia|lia].
  - apply ratio_close; [lia|lia|apply digits_64; lia..].
Qed.

(** C35: the straggler ratio of a process is the quotient of its percentile and a median of the
    percentiles.  When the gauge of a process is set there are at least two processes, the median
    is one of their percentiles, is not zero, and at least half of the percentiles are at most
    the median and at least half are at least the median; and the ratio, computed in floating
    point, is zero for the percentile zero and otherwise within the relative error 2^-51 of the
    quotient. *)
Theorem straggler_ratio_right pid_p95s pid ratio :
  Forall (fun pp => fits 64 pp.2) pid_p95s -> (pid, ratio) ∈ ratios_of pid_p95s ->
  let n := length pid_p95s in
  exists own median, (pid, own) ∈ pid_p95s /\ median ∈ pid_p95s.*2 /\ 0 < median /\ (2 <= n)%nat /\
    (n <= 2 * length (filter (fun x : Z => (x <= median)%Z) pid_p95s.*2))%nat /\
    (n <= 2 * length (filter (fun x : Z => (median <= x)%Z) pid_p95s.*2))%nat /\
    if own =? 0 then ratio = S754_zero false else close 4 ratio (inject_Z own / inject_Z median).
Proof.
  intros Hfit. unfold ratios_of. destruct (Nat.ltb_spec (length pid_p95s) 2) as [|Hn]; [by intros ?%elem_of_nil|].
  pose proof (sort_by_p95_perm pid_p95s) as Hperm. pose proof (sort_by_p95_sorted pid_p95s) as Hsort.
  set (sorted := sort_by_p95 pid_p95s) in *. assert (Hlen : length sorted.*2 = length sorted) by apply length_fmap.
  assert (Hlt : (length sorted / 2 < length sorted)%nat) by (apply Nat.div_lt; [rewrite Hperm|]; lia).
  destruct (lookup_lt_is_Some_2 _ _ Hlt) as [[mp median] Hmed]. rewrite Hmed.
  change (default 0 (snd <$> Some (mp, median))) with median.
  assert (Hfits : forall p x, (p, x) ∈ pid_p95s -> fits 64 x).
  { intros p x Hpx. by apply (proj1 (Forall_forall _ _) Hfit) in Hpx. }
  destruct (Z.eqb_spec median 0) as [|Hm0]; [by intros ?%elem_of_nil|].
  intros ([pid' own] & [= -> ->] & Hown)%list_elem_of_fmap. rewrite Hperm in Hown. cbn [fst snd].
  apply list_elem_of_lookup_2 in Hmed as Hin. rewrite Hperm in Hin.
  destruct (median_counts sorted.*2 median Hsort) as [H1 H2].
  { by rewrite Hlen, list_lookup_fmap, Hmed. }
  rewrite Hlen, !Hperm in H1, H2. pose proof (Hfits _ _ Hin) as [Hm1 Hm2]. cbv zeta. exists own, median.
  split_and!; try done; [|lia|by apply ratio_right; eauto].
  apply list_elem_of_fmap. by exists (mp, median).
Qed.

Lemma straggler_ratio_right_witness :
  exists own median, (9, own) ∈ [(7, 100); (8, 200); (9, 600)] /\ 0 < median /\
    if own =? 0 then False
    else close 4 (f64_div (f64_of 600) (f64_of 200)) (inject_Z own / inject_Z median).
Proof.
  destruct (straggler_ratio_right [(7, 100); (8, 200); (9, 600)] 9 (f64_div (f64_of 600) (f64_of 200)))
    as (own & median & H1 & _ & H2 & _ & _ & _ & H3).
  - repeat (apply Forall_cons_2; [split; simpl; lia|]). apply Forall_nil_2.
  - vm_compute. right. right. left.
  - exists own, median. split; [exact H1|]. split; [exact H2|]. destruct (own =? 0); [|exact H3].
    vm_compute in H3. discriminate.
Defined.
