(* ===== verification/Names.v ===== *)
(** * Kernel names: the main loop together with the resolver thread

    In full mode the loop of [Loop] sends the addresses of launched kernels to the resolver
    thread of [Symbols] through one channel and takes the answers from another one at its gc
    tick.  Here the two run together in any interleaving, while the files change, and the table
    of kernel names is compared with what the files and the registrations have said. *)

From stdpp Require Import strings.
From S2P Require Import Prelude RustStd F64 Events Runtime Drain Export Tick Kernel Metrics Cache CacheInv Symbols Report Loop LoopInv.

Local Open Scope Z_scope.
#[local] Set Warnings "-clear-no-such-hyp".

Section Names.
Context {PM : Prometheus} {HK : HashOrder MetricKey} {HZ : HashOrder Z} {UT : UnicodeTables}
  `{!LruCache (Z * Z) str, !LruCache Z (list MapEntry)}.

(** The loop, the requests that the thread has taken, each with the files it was served under,
    its caches, and the answers in the second channel. *)
Record Naming := mkNaming {
  nm_main : MainState;
  nm_taken : list (Files * SymRequest);
  nm_resolver : SymbolResolver;
  nm_answers : list (Z * Z * str)
}.

Definition init_naming (r : Registry) : Naming := mkNaming (init_main r) [] new_resolver [].

Inductive naming_op :=
| N_readable (changed : gset Z) (events : list (World * CudaEvent)) (regs : list (World * KernelRegEvent))
| N_agg (w : World) (aggs : list (World * (AggKey * list AggValue)))
    (launches : list (World * (LaunchKey * list LaunchAggValue)))
    (nccls : list (World * (AggKey * list NcclAggValue)))
| N_gc (w : World) (writable : bool)
| N_serve (fs : Files).

(** The requests that the thread has not taken. *)
Definition unserved (st : Naming) : list SymRequest := drop (length (nm_taken st)) (ms_sym_tx (nm_main st)).

Definition with_main (m : MainState) (answers : list (Z * Z * str)) (st : Naming) : Naming :=
  mkNaming m (nm_taken st) (nm_resolver st) answers.

(** The gc tick takes all answers that are there.  The thread serves a request under the files of
    that moment. *)
Definition naming_step (proc_path : str) (cfg : LoopCfg) (st : Naming) (op : naming_op) : outcome Naming :=
  match op with
  | N_readable changed events regs =>
      m ← main_step cfg (nm_main st) (M_readable changed events regs);
      Ret (with_main m (nm_answers st) st)
  | N_agg w aggs launches nccls =>
      m ← main_step cfg (nm_main st) (M_agg w aggs launches nccls);
      Ret (with_main m (nm_answers st) st)
  | N_gc w writable =>
      m ← main_step cfg (nm_main st) (M_gc w (nm_answers st) writable);
      Ret (with_main m [] st)
  | N_serve fs =>
      match ms_sym_tx (nm_main st) !! length (nm_taken st) with
      | None => Ret st
      | Some req =>
          let '(r, out) := serve proc_path fs (nm_resolver st) req in
          Ret (mkNaming (nm_main st) (nm_taken st ++ [(fs, req)]) r (nm_answers st ++ out))
      end
  end.

Definition run_naming (proc_path : str) (cfg : LoopCfg) (ops : list naming_op) (st : Naming)
    : outcome Naming := each (naming_step proc_path cfg) st ops.

(** ** What a name may be *)

(** A request for the address was served, and the answer is a name that the files gave then. *)
Definition answered (proc_path : str) (taken : list (Files * SymRequest)) (k : Z * Z) (name : str) : Prop :=
  exists hist fs rest, taken = hist ++ (fs, Resolve k.1 k.2) :: rest /\
    named proc_path (hist ++ [(fs, Resolve k.1 k.2)]) k.1 k.2 name.

(** Such an answer that the loop does not take for an unknown one, normalised. *)
Definition file_name (proc_path : str) (taken : list (Files * SymRequest)) (k : Z * Z) (n : str) : Prop :=
  exists name, answered proc_path taken k name /\ starts_with (lit "unknown_") name = false /\
    normalize_kernel_name name = Ret n.

Definition op_regs (op : naming_op) : list (World * KernelRegEvent) :=
  match op with N_readable _ _ regs => regs | _ => [] end.

Definition registered_name (regs : list (World * KernelRegEvent)) (k : Z * Z) (n : str) : Prop :=
  exists w reg name, (w, reg) ∈ regs /\ (kr_pid reg, kr_host_fun reg) = k /\
    read_kernel_name (w_mem w) (kr_pid reg) (kr_name_ptr reg) = inr name /\
    normalize_kernel_name name = Ret n.

(** ** The tables of names *)

(** A part of the loop that may ask for names: it leaves the names alone, and each address that
    becomes pending is sent. *)
Record asks (st st' : MainState) : Prop := {
  ask_names : ms_kernel_names st' = ms_kernel_names st;
  ask_sent : exists l, ms_sym_tx st' = ms_sym_tx st ++ l /\
    forall k, k ∈ ms_pending_resolve st' -> k ∈ ms_pending_resolve st \/ Resolve k.1 k.2 ∈ l
}.

Lemma asks_same st st' :
  (ms_kernel_names st', ms_pending_resolve st', ms_sym_tx st')
  = (ms_kernel_names st, ms_pending_resolve st, ms_sym_tx st) -> asks st st'.
Proof.
  intros [= H1 H2 H3]. split; [done|]. exists []. rewrite app_nil_r. split; [done|]. rewrite H2. by left.
Qed.

Lemma asks_trans st1 st2 st3 : asks st1 st2 -> asks st2 st3 -> asks st1 st3.
Proof.
  intros [H1 (l1 & E1 & P1)] [H2 (l2 & E2 & P2)]. split; [congruence|].
  exists (l1 ++ l2). split; [by rewrite E2, E1, app_assoc|]. intros k Hk. setoid_rewrite elem_of_app.
  destruct (P2 k Hk) as [Hk'|]; [|by right; right]. destruct (P1 k Hk'); auto.
Qed.

Lemma asks_each {A S} (p : S -> MainState) (f : S -> A -> outcome S) l s s' :
  (forall s a s', f s a = Ret s' -> asks (p s) (p s')) -> each f s l = Ret s' -> asks (p s) (p s').
Proof.
  intros Hf Hr. refine (each_keeps (fun t => asks (p s) (p t)) f l s s' _ Hr _); [|by apply asks_same].
  intros t a t' E Ht. by apply (asks_trans _ (p t)), (Hf _ _ _ E).
Qed.

Lemma asks_request cfg pid addr st : lc_mode cfg = Full -> asks st (request_name cfg pid addr st).
Proof.
  intros Hf. unfold request_name. case_bool_decide; [|by apply asks_same].
  rewrite bool_decide_true by done. split; [done|]. exists [Resolve pid addr]. split; [done|].
  intros k. cbn [upd_names ms_pending_resolve]. rewrite elem_of_union, elem_of_singleton.
  intros [->|]; [right; left|by left].
Qed.

Lemma asks_see_pid w pid st : asks st (see_pid w pid st).
Proof. apply asks_same. unfold see_pid. simpl. by case_match. Qed.

Lemma asks_event cfg st we st' : lc_mode cfg = Full -> on_event cfg st we = Ret st' -> asks st st'.
Proof.
  intros Hf. destruct we as [w e]. intros (u & h & ->)%on_event_inv. unfold event_effect.
  set (st0 := if rs_is_nccl_event _ && _ then _ else _).
  assert (asks st st0) as H0 by (apply asks_same; unfold st0; by case_match). clearbody st0.
  set (st1 := if _ && negb _ then _ else _).
  assert (asks st st1) as H1.
  { eapply asks_trans; [exact H0|]. unfold st1. case_match; [by apply asks_request|by apply asks_same]. }
  clearbody st1. eapply asks_trans; [exact H1|]. eapply asks_trans; [apply (asks_see_pid w (ce_pid e))|].
  apply asks_same. by case_match.
Qed.

Lemma asks_agg cfg sd wkv sd' : agg_callback cfg sd wkv = Ret sd' -> asks sd.1 sd'.1.
Proof.
  destruct sd as [s d], wkv as [w [k v]]. unfold agg_callback.
  case_match; [intros [= <-]; by apply asks_same|]. intros ([u h] & _ & [= <-])%bind_ret.
  set (s1 := see_pid _ _ _).
  assert (asks s s1) as E by (eapply asks_trans; [|apply asks_see_pid]; by apply asks_same).
  clearbody s1. eapply asks_trans; [exact E|]. cbn [fst]. apply asks_same. by case_match.
Qed.

Lemma asks_launch cfg s wkv s' : lc_mode cfg = Full -> launch_callback cfg s wkv = Ret s' -> asks s s'.
Proof.
  intros Hf. destruct wkv as [w [k v]]. unfold launch_callback.
  case_match; [intros [= <-]; by apply asks_same|]. intros ([u h] & _ & [= <-])%bind_ret.
  eapply asks_trans; [|apply asks_see_pid].
  case_match; [by apply asks_same|]. eapply asks_trans; [|by apply asks_request]. by apply asks_same.
Qed.

Lemma asks_nccl cfg s wkv s' : nccl_callback cfg s wkv = Ret s' -> asks s s'.
Proof.
  destruct wkv as [w [k v]]. unfold nccl_callback. case_match; [intros [= <-]; by apply asks_same|].
  intros ([u h] & _ & [= <-])%bind_ret. eapply asks_trans; [|apply asks_see_pid]. by apply asks_same.
Qed.

Lemma asks_agg_tick cfg w a l n st st' :
  lc_mode cfg = Full -> on_agg_tick cfg w a l n st = Ret st' -> asks st st'.
Proof.
  intros Hf ([st1 delta] & E1 & (st2 & E2 & (st3 & E3 & E4)%bind_ret)%bind_ret)%bind_ret.
  apply (asks_each fst _ _ _ _ (asks_agg cfg)) in E1. cbn [fst] in E1.
  apply (asks_each id _ _ _ _ (asks_nccl cfg)) in E3.
  apply (asks_each id) in E4; [|intros s pid s'; intros (lb & _ & [= <-])%bind_ret; by apply asks_same].
  eapply asks_trans; [exact E1|]. eapply asks_trans; [|eapply asks_trans; [exact E3|exact E4]].
  destruct (lc_detailed_launches cfg); [injection E2 as <-; by apply asks_same|].
  refine (asks_each id _ _ _ _ _ E2). intros s wkv s'. by apply asks_launch.
Qed.

Lemma kregs_names l st st' :
  each on_kreg st l = Ret st' ->
  ms_pending_resolve st' = ms_pending_resolve st /\ ms_sym_tx st' = ms_sym_tx st /\
  forall k n, ms_kernel_names st' !! k = Some n -> ms_kernel_names st !! k = Some n \/ registered_name l k n.
Proof.
  revert st. induction l as [|[w reg] l IH]; intros st; cbn [each]; [intros [= <-]; auto|].
  destruct (on_kreg st (w, reg)) as [st1| |] eqn:E1; [|done|done]. cbn [mbind outcome_bind]. intros H.
  destruct (IH st1 H) as (P & T & N). rewrite P, T.
  assert (ms_pending_resolve st1 = ms_pending_resolve st /\ ms_sym_tx st1 = ms_sym_tx st /\
    forall k n, ms_kernel_names st1 !! k = Some n ->
      ms_kernel_names st !! k = Some n \/ registered_name ((w, reg) :: l) k n) as (-> & -> & N1).
  { revert E1. unfold on_kreg. case_match; [intros [= <-]; auto|].
    destruct (read_kernel_name _ _ _) as [e|name] eqn:Er; [intros [= <-]; auto|].
    destruct (normalize_kernel_name name) as [n1| |] eqn:En; [|done|done]. intros [= <-].
    split_and!; [done|done|]. cbn [upd_names ms_kernel_names]. intros k n [[<- ->]|[_ Hn]]%lookup_insert_Some; [right|by left].
    exists w, reg, name. split_and!; [left|done|done|done]. }
  split_and!; [done|done|]. intros k n Hk. destruct (N k n Hk) as [|(w' & reg' & nm & Hin & Hrest)]; [by apply N1|].
  right. exists w', reg', nm. split; [by right|done].
Qed.

(** One answer: a name, unless it is an unknown one. *)
Lemma sym_result_names st pid addr name st' :
  on_sym_result st (pid, addr, name) = Ret st' ->
  ms_sym_tx st' = ms_sym_tx st /\ ms_pending_resolve st' = ms_pending_resolve st ∖ {[(pid, addr)]} /\
  ((starts_with (lit "unknown_") name = true /\ ms_kernel_names st' = ms_kernel_names st) \/
   exists n, starts_with (lit "unknown_") name = false /\ normalize_kernel_name name = Ret n /\
     ms_kernel_names st' = <[(pid, addr) := n]> (ms_kernel_names st)).
Proof.
  unfold on_sym_result. destruct (starts_with _ name); [intros [= <-]; auto|].
  intros (n & Hn & [= <-])%bind_ret. split_and!; [done|done|]. right. by exists n.
Qed.

(** Answers taken from the second channel: the last one that is not unknown stays. *)
Lemma answers_names l st st' :
  each on_sym_result st l = Ret st' ->
  ms_sym_tx st' = ms_sym_tx st /\
  (forall k, k ∈ ms_pending_resolve st' <-> k ∈ ms_pending_resolve st /\ k ∉ l.*1) /\
  (forall k n, ms_kernel_names st' !! k = Some n ->
     ms_kernel_names st !! k = Some n \/
     exists name, (k, name) ∈ l /\ starts_with (lit "unknown_") name = false /\
       normalize_kernel_name name = Ret n) /\
  (forall k name, (k, name) ∈ l -> starts_with (lit "unknown_") name = false ->
     exists name' n, (k, name') ∈ l /\ starts_with (lit "unknown_") name' = false /\
       normalize_kernel_name name' = Ret n /\ ms_kernel_names st' !! k = Some n).
Proof.
  revert st'. induction l as [|[[pid addr] name] l IH] using rev_ind; intros st'.
  { intros [= <-]. split_and!; auto; set_solver. }
  rewrite each_app. intros (st1 & E1 & (st2 & E2 & [= <-])%bind_ret)%bind_ret.
  destruct (IH st1 E1) as (T & P & N & S). destruct (sym_result_names _ _ _ _ _ E2) as (T2 & P2 & N2).
  split_and!.
  - congruence.
  - intros k. rewrite P2, elem_of_difference, P, fmap_app. set_solver.
  - intros k n. destruct N2 as [[_ ->]|(m & Hu & Hm & ->)].
    + intros [|(nm & ? & ?)]%N; [by left|]. right. exists nm. rewrite elem_of_app. auto.
    + intros [[<- <-]|[_ [|(nm & ? & ?)]%N]]%lookup_insert_Some; [right|by left|right].
      * exists name. rewrite elem_of_app. split; [right; by left|done].
      * exists nm. rewrite elem_of_app. auto.
  - intros k nm Hin Hk. destruct N2 as [[Hu W]|(m & Hu & Hm & W)]; rewrite W.
    + apply elem_of_app in Hin as [Hin|[= -> ->]%list_elem_of_singleton]; [|congruence].
      destruct (S k nm Hin Hk) as (nm' & n & ? & ?). exists nm', n. rewrite elem_of_app. auto.
    + destruct (decide ((pid, addr) = k)) as [<-|Hne].
      * exists name, m. rewrite lookup_insert_eq, elem_of_app. split_and!; [right; by left|done..].
      * apply elem_of_app in Hin as [Hin|[= -> ->]%list_elem_of_singleton]; [|done].
        destruct (S k nm Hin Hk) as (nm' & n & ? & ?). exists nm', n.
        rewrite lookup_insert_ne, elem_of_app by done. auto.
Qed.

Lemma each_answers_return l st :
  (forall k name, (k, name) ∈ l -> starts_with (lit "unknown_") name = true \/
     exists n, normalize_kernel_name name = Ret n) ->
  exists st', each on_sym_result st l = Ret st'.
Proof.
  revert st. induction l as [|[[pid addr] name] l IH]; intros st Hl; cbn [each]; [by eexists|].
  assert (exists st1, on_sym_result st (pid, addr, name) = Ret st1) as [st1 ->].
  { unfold on_sym_result. destruct (Hl (pid, addr) name) as [->|[n ->]]; [left|by eexists|].
    case_match; by eexists. }
  cbn [mbind outcome_bind]. apply IH. intros k nm Hin. apply (Hl k). by right.
Qed.

Lemma gc_last_seen full now after u p :
  p ∈ (gc full now after u).2 -> last_seen (us_cache (gc full now after u).1) !! p = None.
Proof.
  unfold gc. cbn [fst snd]. generalize (stale_pids now after (us_cache u)). intros l Hp.
  assert (G : forall l u, last_seen (us_cache u) !! p = None ->
    last_seen (us_cache (foldl (gc_pid full) u l)) !! p = None).
  { clear. intros l. induction l as [|q l IH]; intros u Hu; [done|]. cbn [foldl]. apply IH.
    rewrite gc_pid_eq. cbn [us_cache last_seen]. by apply lookup_delete_None; right. }
  revert u. induction l as [|q l IH]; intros u; [by apply not_elem_of_nil in Hp|]. cbn [foldl].
  apply elem_of_cons in Hp as [<-|Hp]; [|by apply IH]. apply G. rewrite gc_pid_eq. cbn [us_cache last_seen].
  by rewrite lookup_delete_eq.
Qed.

Lemma ratios_names w l st st' :
  each (set_ratio w) st l = Ret st' ->
  (ms_user st', ms_kernel_names st', ms_pending_resolve st', ms_sym_tx st')
  = (ms_user st, ms_kernel_names st, ms_pending_resolve st, ms_sym_tx st).
Proof.
  intros Hr. refine (each_keeps (fun t => (ms_user t, ms_kernel_names t, ms_pending_resolve t, ms_sym_tx t)
    = (ms_user st, ms_kernel_names st, ms_pending_resolve st, ms_sym_tx st)) _ l st st' _ Hr eq_refl).
  intros t [[pid et] x] t'. by intros (lb & _ & [= <-])%bind_ret.
Qed.

(** The gc tick after the answers were taken. *)
Lemma gc_tick_names cfg w results writable st st' :
  lc_mode cfg = Full -> on_gc_tick cfg w results writable st = Ret st' ->
  exists st1 (stale : list Z) l, each on_sym_result st results = Ret st1 /\
    ms_kernel_names st' = filter (fun kv => kv.1.1 ∉ stale) (ms_kernel_names st1) /\
    ms_pending_resolve st' ⊆ ms_pending_resolve st1 /\ ms_sym_tx st' = ms_sym_tx st1 ++ l /\
    forall p, p ∈ stale -> last_seen (us_cache (ms_user st')) !! p = None.
Proof.
  intros Hf. unfold on_gc_tick. rewrite bool_decide_true by done. intros (st1 & E & H)%bind_ret.
  exists st1. revert H. set (st2 := if writable then _ else _).
  assert (ms_kernel_names st2 = ms_kernel_names st1 /\ ms_pending_resolve st2 = ms_pending_resolve st1 /\
    ms_sym_tx st2 = ms_sym_tx st1) as (N2 & P2 & T2) by (unfold st2; by destruct writable).
  clearbody st2. pose proof (gc_last_seen true (w_now w) (lc_stale_after cfg) (ms_user st2)) as Hg.
  cbv zeta. destruct (gc _ _ _ _) as [u stale]. cbn [fst snd] in Hg. rewrite <- N2, <- P2, <- T2.
  intros (st3 & Hr & [= <-])%bind_ret. injection (ratios_names _ _ _ _ Hr) as U3 N3 P3 T3. clear Hr.
  set (s4 := if lc_report cfg then _ else _).
  assert (ms_kernel_names s4 = ms_kernel_names st3 /\ ms_pending_resolve s4 = ms_pending_resolve st3 /\
    ms_sym_tx s4 = ms_sym_tx st3 /\ ms_user s4 = ms_user st3) as (-> & -> & -> & ->)
    by (unfold s4; by destruct (lc_report cfg)).
  rewrite U3, N3, P3, T3.
  destruct (bool_decide_reflect (stale = [])) as [->|_].
  - exists [], []. rewrite map_filter_id, app_nil_r by (intros; apply not_elem_of_nil).
    by split_and!.
  - exists stale, [EvictPids stale]. unfold forget_pids. rewrite bool_decide_true by done.
    split_and!; try done. intros k. cbn. set_solver.
Qed.

Lemma gc_tick_returns cfg w results writable st st1 :
  lc_mode cfg = Full -> answers w -> each on_sym_result st results = Ret st1 ->
  exists st', on_gc_tick cfg w results writable st = Ret st'.
Proof.
  intros Hf Hw E. unfold on_gc_tick. rewrite bool_decide_true, E by done. cbn [mbind outcome_bind]. cbv zeta.
  destruct (gc _ _ _ _) as [u stale].
  match goal with |- context [each (set_ratio w) ?s _] => set (st3 := s) end.
  destruct (each_ratio w (straggler_ratios (ms_nccl_durations st3)) st3 Hw) as (st4 & -> & _). by eexists.
Qed.

(** ** The invariant *)

Section Theorems.
Context `{!LruLaws (Z * Z) str, !LruLaws Z (list MapEntry)}.
Context (proc_path : str) (cfg : LoopCfg) (Hfull : lc_mode cfg = Full).

(** Nothing that is pending is forgotten: its request or its answer is under way. *)
Record naming_inv (regs : list (World * KernelRegEvent)) (st : Naming) : Prop := {
  ni_resolver : consistent proc_path (nm_taken st) (nm_resolver st);
  ni_answers : forall k name, (k, name) ∈ nm_answers st -> answered proc_path (nm_taken st) k name;
  ni_names : forall k n, ms_kernel_names (nm_main st) !! k = Some n ->
    file_name proc_path (nm_taken st) k n \/ registered_name regs k n;
  ni_pending : forall k, k ∈ ms_pending_resolve (nm_main st) ->
    Resolve k.1 k.2 ∈ unserved st \/ k ∈ (nm_answers st).*1;
  ni_taken : (nm_taken st).*2 = take (length (nm_taken st)) (ms_sym_tx (nm_main st))
}.

Lemma naming_init r : naming_inv [] (init_naming r).
Proof.
  split; cbn [init_naming init_main nm_resolver nm_answers nm_main ms_kernel_names ms_pending_resolve].
  - exact (new_resolver_consistent proc_path).
  - intros k name Hin. by apply not_elem_of_nil in Hin.
  - intros k n Hk. by rewrite lookup_empty in Hk.
  - intros k Hk. by apply elem_of_empty in Hk.
  - done.
Qed.

Lemma registered_mono regs regs' k n :
  registered_name regs k n -> registered_name (regs ++ regs') k n.
Proof. intros (w & reg & nm & Hin & Hr). exists w, reg, nm. split; [apply elem_of_app; by left|done]. Qed.

Lemma registered_later regs regs' k n :
  registered_name regs' k n -> registered_name (regs ++ regs') k n.
Proof. intros (w & reg & nm & Hin & Hr). exists w, reg, nm. split; [apply elem_of_app; by right|done]. Qed.

Lemma answered_mono taken taken' k name :
  answered proc_path taken k name -> answered proc_path (taken ++ taken') k name.
Proof.
  intros (hist & fs & rest & -> & Hn). exists hist, fs, (rest ++ taken'). by rewrite <- app_assoc.
Qed.

Lemma taken_length regs st : naming_inv regs st -> (length (nm_taken st) <= length (ms_sym_tx (nm_main st)))%nat.
Proof.
  intros [_ _ _ _ H]. apply (f_equal length) in H. rewrite length_fmap, length_take in H. lia.
Qed.

(** A branch sends requests, resolves pending ones and learns names. *)
Lemma naming_advance regs regs' st m answers l :
  naming_inv regs st ->
  ms_sym_tx m = ms_sym_tx (nm_main st) ++ l ->
  answers = nm_answers st \/ answers = [] ->
  (forall k n, ms_kernel_names m !! k = Some n ->
     ms_kernel_names (nm_main st) !! k = Some n \/ file_name proc_path (nm_taken st) k n \/
     registered_name regs' k n) ->
  (forall k, k ∈ ms_pending_resolve m ->
     (k ∈ ms_pending_resolve (nm_main st) /\ (answers = [] -> k ∉ (nm_answers st).*1)) \/ Resolve k.1 k.2 ∈ l) ->
  naming_inv (regs ++ regs') (with_main m answers st).
Proof.
  intros Hinv Ht Ha Hn Hp. pose proof (taken_length _ _ Hinv) as Hlen. destruct Hinv as [H1 H2 H3 H4 H5].
  split; cbn [with_main nm_main nm_answers nm_resolver nm_taken].
  - done.
  - intros k name Hin. destruct Ha as [->| ->]; [by apply H2|by apply not_elem_of_nil in Hin].
  - intros k n [Hk|[Hk|Hk]]%Hn; [|by left|right; by apply registered_later].
    destruct (H3 k n Hk); [by left|right; by apply registered_mono].
  - intros k Hk. unfold unserved. cbn [with_main nm_main nm_taken]. rewrite Ht, drop_app_le, elem_of_app by done.
    destruct (Hp k Hk) as [[Hk' Hno]|]; [|by left; right]. destruct (H4 k Hk') as [|Hin]; [by left; left|].
    destruct Ha as [->| ->]; [by right|]. by destruct Hno.
  - by rewrite Ht, take_app_le.
Qed.

(** The thread takes a request. *)
Lemma naming_serve_inv fs regs st st' :
  naming_inv regs st -> naming_step proc_path cfg st (N_serve fs) = Ret st' -> naming_inv regs st'.
Proof.
  intros Hinv. cbn [naming_step].
  destruct (ms_sym_tx (nm_main st) !! length (nm_taken st)) as [req|] eqn:Er; [|by intros [= <-]].
  destruct Hinv as [H1 H2 H3 H4 H5]. destruct (serve_spec proc_path (nm_taken st) fs (nm_resolver st) req H1) as [Hc Ho].
  destruct (serve _ _ _ _) as [r out]. cbn [fst snd] in Hc, Ho. intros [= <-].
  unfold unserved in H4. rewrite (drop_S _ req) in H4 by done.
  split; cbn [nm_resolver nm_answers nm_main nm_taken]; try done.
  + intros k name [Hin|Hin]%elem_of_app; [by apply answered_mono, H2|].
    destruct req as [pid addr|pids]; [|subst out; by apply not_elem_of_nil in Hin].
    destruct Ho as (nm & -> & Hnm). apply list_elem_of_singleton in Hin as [= -> ->].
    by exists (nm_taken st), fs, [].
  + intros k n [(nm & Ha & Hr)|]%H3; [left|by right]. exists nm. split; [by apply answered_mono|done].
  + intros k Hk. unfold unserved. cbn [nm_main nm_taken].
    rewrite length_app, Nat.add_comm, fmap_app, elem_of_app. cbn [length Nat.add].
    destruct (H4 k Hk) as [[E|]%elem_of_cons|]; [|by left|by right; left]. subst req. right. right.
    destruct Ho as (nm & -> & _). rewrite <- surjective_pairing. left.
  + rewrite fmap_app, H5, length_app, Nat.add_comm. cbn [length Nat.add fmap list_fmap snd].
    by rewrite (take_S_r _ _ req).
Qed.

Lemma naming_step_inv regs st op st' :
  naming_inv regs st -> naming_step proc_path cfg st op = Ret st' -> naming_inv (regs ++ op_regs op) st'.
Proof.
  intros Hinv. destruct op as [changed events rs|w a l n|w writable|fs]; cbn [naming_step main_step op_regs].
  - intros (m & Em & [= <-])%bind_ret. unfold on_readable in Em. apply bind_ret in Em as (st1 & E1 & E2).
    rewrite (bool_decide_true (lc_mode cfg = Full)) in E1, E2 by done.
    assert (asks (nm_main st) st1) as [A1 (l & A2 & A3)].
    { eapply asks_trans; [|refine (asks_each id _ _ _ _ _ E1); intros; by eapply asks_event].
      apply asks_same. by destruct (bool_decide (changed = ∅)). }
    apply kregs_names in E2 as (P & T & N). rewrite A1 in N. apply (naming_advance regs rs st m (nm_answers st) l); auto.
    + by rewrite T.
    + intros k nm Hk. destruct (N k nm Hk); auto.
    + intros k. rewrite P. intros [Hk|Hk]%A3; [left|by right]. split; [done|]. intros ->. set_solver.
  - intros (m & [A1 (sent & A2 & A3)]%(asks_agg_tick _ _ _ _ _ _ _ Hfull) & [= <-])%bind_ret.
    apply (naming_advance regs [] st _ (nm_answers st) sent); auto.
    + intros k nm. rewrite A1. by left.
    + intros k [Hk|Hk]%A3; [left|by right]. split; [done|]. intros ->. set_solver.
  - intros (m & Em & [= <-])%bind_ret.
    destruct (gc_tick_names _ _ _ _ _ _ Hfull Em) as (m1 & stale & l & E1 & N & P & T & _).
    destruct (answers_names _ _ _ E1) as (T1 & P1 & N1 & _). apply (naming_advance regs [] st m [] l); auto.
    + by rewrite T, T1.
    + rewrite N. intros k nm [Hk _]%map_lookup_filter_Some. destruct (N1 k nm Hk) as [|(name & Hin & Hu & Hr)]; [by left|].
      right; left. exists name. split; [by apply (ni_answers _ _ Hinv)|done].
    + intros k Hk%P%P1. left. by destruct Hk.
  - rewrite app_nil_r. by apply naming_serve_inv.
Qed.

Lemma run_naming_inv regs ops st st' :
  naming_inv regs st -> run_naming proc_path cfg ops st = Ret st' -> naming_inv (regs ++ (ops ≫= op_regs)) st'.
Proof.
  unfold run_naming. revert regs st. induction ops as [|op ops IH]; intros regs st Hinv; cbn [each].
  { intros [= <-]. by rewrite app_nil_r. }
  intros (st1 & E1 & Hr)%bind_ret. rewrite bind_cons, app_assoc. eapply IH; [|exact Hr]. by eapply naming_step_inv.
Qed.

(** ** No request is lost *)

(** The thread catches up. *)
Lemma serve_rest fss regs st :
  naming_inv regs st -> length (unserved st) = length fss ->
  exists st', run_naming proc_path cfg (N_serve <$> fss) st = Ret st' /\
    nm_main st' = nm_main st /\ unserved st' = [] /\ naming_inv regs st' /\
    nm_taken st' = nm_taken st ++ zip fss (unserved st).
Proof.
  unfold run_naming. revert st. induction fss as [|fs fss IH]; intros st Hinv Hn.
  { apply nil_length_inv in Hn as Hu. exists st. rewrite Hu, app_nil_r. by split_and!. }
  destruct (unserved st) as [|req rest] eqn:Hu; [done|].
  assert (Er : ms_sym_tx (nm_main st) !! length (nm_taken st) = Some req).
  { unfold unserved in Hu. rewrite <- (Nat.add_0_r (length _)), <- lookup_drop, Hu. done. }
  pose proof (naming_serve_inv fs regs st) as Hs. rewrite fmap_cons. cbn [each].
  cbn [naming_step] in Hs |- *. rewrite Er in Hs |- *.
  destruct (serve _ _ _ _) as [r out]. set (st1 := mkNaming _ _ _ _) in *.
  assert (Hu1 : unserved st1 = rest).
  { unfold unserved in Hu |- *. cbn [st1 nm_taken nm_main]. rewrite length_app, Nat.add_comm. cbn [length Nat.add].
    rewrite (drop_S _ req) in Hu by done. by injection Hu. }
  destruct (IH st1 (Hs st1 Hinv eq_refl)) as (st' & E & Hm & Hu' & Hi & Ht).
  { rewrite Hu1. cbn [length] in Hn. lia. }
  exists st'. cbn [mbind outcome_bind]. split_and!; [done|done|done|done|].
  rewrite Ht, Hu1. cbn [st1 nm_taken zip zip_with]. by rewrite <- app_assoc.
Qed.
End Theorems.

(** With files that never change, an answer is what they say. *)
Lemma answered_fixed proc_path taken fs k name :
  Forall (fun fr => fr.1 = fs) taken -> answered proc_path taken k name ->
  name = resolve_from proc_path fs fs k.1 k.2.
Proof.
  intros Hf (hist & fs' & rest & -> & (fm & fe & Hm%since_files & He & ->)). rewrite cons_middle, app_assoc in Hf.
  apply Forall_app in Hf as [Hf _]. rewrite Forall_forall in Hf.
  apply list_elem_of_fmap in Hm as (x & -> & Hx), He as (y & -> & Hy).
  by rewrite (Hf x Hx), (Hf y Hy).
Qed.

(** C21: kernel names are true.  In full mode, whatever the loop is fed, however the resolver
    thread and the loop interleave and however files change between the requests, every name in
    the table of kernel names is the normalised name under which the process registered the
    address, or the normalised answer to a request for that address: a name that maps of the
    process, read since the thread was last told that the process is gone, and symbol tables,
    read at any time before, gave.  If the files never changed, that is the name they give. *)
Theorem kernel_names_true `{!LruLaws (Z * Z) str, !LruLaws Z (list MapEntry)} proc_path cfg ops r st k n :
  lc_mode cfg = Full -> run_naming proc_path cfg ops (init_naming r) = Ret st ->
  ms_kernel_names (nm_main st) !! k = Some n ->
  registered_name (ops ≫= op_regs) k n \/
  file_name proc_path (nm_taken st) k n /\
    forall fs, Forall (fun fr => fr.1 = fs) (nm_taken st) ->
      normalize_kernel_name (resolve_from proc_path fs fs k.1 k.2) = Ret n.
Proof.
  intros Hf Hrun Hk. apply (run_naming_inv proc_path cfg Hf []) in Hrun; [|apply naming_init].
  apply Hrun in Hk as [Hk|]; [right|by left]. split; [done|]. intros fs Hfs.
  destruct Hk as (name & Ha & _ & Hn). by rewrite <- (answered_fixed _ _ _ _ _ Hfs Ha).
Qed.

End Names.

(** ** An example *)

#[local] Existing Instance sample_tables.

(** Process 7 launches the kernel at 4400, which is in the symbol f of its library. *)
Definition sample_launch : World * CudaEvent :=
  (sample_world 1, synthetic EVENT_CUDA_LAUNCH_KERNEL 7 0 4400 1 0).

Definition launch_op : naming_op := N_readable ∅ [sample_launch] [].

Definition sample_naming (ops : list naming_op) : outcome Naming :=
  run_naming (lit "/proc") sample_cfg ops (init_naming empty_store).

Definition naming_after (ops : list naming_op) : Naming := ret_or (init_naming empty_store) (sample_naming ops).

Definition named_ops : list naming_op :=
  [launch_op; N_serve (sample_files "1000"); N_gc (sample_world 2) true].

Lemma kernel_names_true_witness :
  registered_name (named_ops ≫= op_regs) (7, 4400) (lit "f") \/
  file_name (lit "/proc") (nm_taken (naming_after named_ops)) (7, 4400) (lit "f").
Proof.
  destruct (kernel_names_true (PM := store_prometheus) (lit "/proc") sample_cfg
    named_ops empty_store (naming_after named_ops) (7, 4400) (lit "f")) as [H|[H _]].
  - reflexivity.
  - apply returns_ret. vm_compute. reflexivity.
  - vm_compute. reflexivity.
  - left. exact H.
  - right. exact H.
Defined.

Lemma launched_facts :
  nm_taken (naming_after [launch_op]) = [] /\ unserved (naming_after [launch_op]) = [Resolve 7 4400] /\
  resolve_from (lit "/proc") (sample_files "1000") (sample_files "1000") 7 4400 = lit "f".
Proof. split_and!; vm_compute; reflexivity. Qed.

Lemma launched_answers k name :
  answered (lit "/proc") (nm_taken (naming_after [launch_op])
    ++ zip [sample_files "1000"] (unserved (naming_after [launch_op]))) k name -> name = lit "f".
Proof.
  destruct launched_facts as (Ht & Hu & Hr). intros Ha. rewrite Ht, Hu in Ha.
  pose proof (answered_fixed (lit "/proc") [(sample_files "1000", Resolve 7 4400)] (sample_files "1000") k name) as Hx.
  rewrite Hx; [|by repeat constructor|exact Ha]. clear Hx.
  destruct Ha as (hist & fs & rest & E & _). destruct hist as [|? [|? ?]]; [|done..].
  injection E as _ <- <- _. exact Hr.
Qed.

