(* ===== verification/System.v ===== *)
(** * The whole tracer: programs, maps and main loop together

    Program runs of the kernel interleave with the branches of the main loop: the
    loop takes records from the ring buffers, drains the aggregation maps key by key
    while programs run, and feeds both to its handle cache.  The theorem follows each
    completed call of a process from its return probe to the counters of a scrape. *)

From stdpp Require Import strings.
From S2P Require Import Prelude RustStd F64 Events Runtime Probes Step Demo Invariant PerCpu Ledger RingLedger Modes Drain Export Tick Kernel Metrics Cache CacheInv Symbols Report Loop LoopInv.

Local Open Scope Z_scope.
#[local] Set Warnings "-clear-no-such-hyp".

(** ** Calls that a full map refuses *)

Section Refused.
Context `{LoadCfg}.

Definition refuses {K V} `{Countable K} `{!AggMap K V} (s : BpfState) (c : Completed) : bool :=
  match am_key (V := V) c with
  | Some k => bool_decide (am_map (V := V) s !! k = None /\
                           (am_cap (V := V) <= size (am_map (V := V) s))%nat)
  | None => false
  end.

Definition rejected (s : BpfState) (c : Completed) : bool :=
  refuses (V := AggValue) s c || refuses (V := NcclAggValue) s c || refuses (V := LaunchAggValue) s c.

Definition refused1 (p : probe) (e : KEnv) (s : BpfState) : list Completed :=
  filter (fun c => rejected s c = true) (option_list (completes p e s)).

Fixpoint refused (t : trace) (s : BpfState) : list Completed :=
  match t with
  | [] => []
  | (p, e) :: t' => refused1 p e s ++ refused t' (run p e s)
  end.
End Refused.

(** ** Accounting for one map and one process *)

(** The process of a key, which a key shares with the calls recorded under it. *)
Class ProcMap `{LoadCfg} (K V : Type) `{AM : AggMap K V} := {
  kpid : K -> Z;
  kpid_key : forall c k, am_key (V := V) c = Some k -> kpid k = cp_pid c;
  kpid_fits : forall k, am_Pk (V := V) k -> fits 32 (kpid k);
  pm_rejected : forall s c, is_Some (am_key (V := V) c) -> rejected s c = refuses (V := V) s c
}.

Section Account.
Context `{LC : LoadCfg} {K V : Type} `{CK : Countable K} {AM : AggMap K V} {PMap : ProcMap K V}.

(** The calls of process [pid] that [c] stands for in this map. *)
Definition share (pid : Z) (c : Completed) : Z :=
  match am_key (V := V) c with
  | Some _ => if cp_pid c =? pid then am_weight (V := V) c else 0
  | None => 0
  end.

Definition shares (pid : Z) (l : list Completed) : Z := sumZ (share pid <$> l).

(** What the map holds of the process, and what userspace took out of it. *)
Definition held (pid : Z) (s : BpfState) : Z :=
  keyed_total (fun k v => if kpid k =? pid then am_count v else 0) (am_map (V := V) s).

Definition taken (pid : Z) (l : list (World * (K * list V))) : Z :=
  sumZ ((fun wkv => if kpid wkv.2.1 =? pid then am_process wkv.2.2 else 0) <$> l).

Lemma shares_app pid l1 l2 : shares pid (l1 ++ l2) = shares pid l1 + shares pid l2.
Proof. unfold shares. by rewrite fmap_app, sumZ_app. Qed.

Lemma taken_app pid l1 l2 : taken pid (l1 ++ l2) = taken pid l1 + taken pid l2.
Proof. unfold taken. by rewrite fmap_app, sumZ_app. Qed.

Lemma run_am p e s :
  am_map (V := V) (run p e s)
  = match completes p e s with
    | Some c => acc_at am_cap am_zero (env_cpu e) (am_key c) (am_step c) (am_first c) (am_map s)
    | None => am_map s
    end.
Proof. apply (run_M am_map am_key am_cap am_zero am_step am_first am_outputs am_emit). Qed.

(** A completed call joins the map or the refused calls. *)
Lemma held_run p e s pid :
  state_wf s -> env_wf e ->
  u64 (held pid (run p e s) + shares pid (refused1 p e s))
  = u64 (held pid s + shares pid (option_list (completes p e s))).
Proof.
  intros Hs He. unfold held, refused1. rewrite run_am.
  destruct (completes p e s) as [c|]; [|done]. change (option_list (Some c)) with [c].
  unfold acc_at. destruct (am_key (V := V) c) as [k|] eqn:Ek.
  2:{ assert (E0 : share pid c = 0) by (unfold share; by rewrite Ek).
      rewrite filter_cons, filter_nil. unfold shares. case_decide; csimpl; by rewrite E0. }
  rewrite <- wrap_add_l.
  rewrite (keyed_total_acc 64 (share pid c) _ _ _ _ _ _ _ _ _ _ (am_wf s Hs) (ew_cpu e He)).
  - rewrite wrap_add_l, <- Z.add_assoc. f_equal. f_equal.
    rewrite filter_cons, filter_nil, pm_rejected by (by rewrite Ek).
    unfold refuses. rewrite Ek. destruct (bool_decide _); unfold shares; csimpl; lia.
  - case_match; [apply am_count_zero|done].
  - intros v Hv. unfold share. rewrite Ek, (kpid_key c k Ek).
    case_match; [by apply am_count_step|by rewrite Z.add_0_r].
  - unfold share. rewrite Ek, (kpid_key c k Ek). case_match; [apply am_count_first|done].
Qed.

Lemma held_trace t s pid :
  state_wf s -> trace_wf t ->
  u64 (held pid (run_trace t s) + shares pid (refused t s))
  = u64 (held pid s + shares pid (ledger t s)).
Proof.
  intros Hs Ht. revert s Hs. induction Ht as [|[p e] t [Hp He] Ht IH]; intros s Hs; [done|].
  cbn [run_trace refused ledger]. rewrite !shares_app.
  pose proof (held_run p e s pid Hs He) as H1.
  specialize (IH (run p e s) (run_wf p e s Hp He Hs)).
  apply wrap_eq_iff in H1 as [q1 H1]; [|done]. apply wrap_eq_iff in IH as [q2 H2]; [|done].
  apply wrap_eq_iff; [done|]. exists (q1 + q2). lia.
Qed.
(** A key that is present stays present, and its total follows the calls. *)
Lemma total_run p e s k :
  state_wf s -> env_wf e -> is_Some (am_map (V := V) s !! k) ->
  is_Some (am_map (V := V) (run p e s) !! k) /\
  u64 (pc_total am_count (am_map (V := V) (run p e s)) k)
  = u64 (pc_total am_count (am_map (V := V) s) k
         + ledger_sum (am_key (V := V)) (am_weight (V := V)) k (option_list (completes p e s))).
Proof.
  intros Hs He Hk. rewrite run_am.
  destruct (completes p e s) as [c|];
    [change (option_list (Some c)) with [c]|split; [done|by rewrite Z.add_0_r]].
  unfold acc_at, ledger_sum. rewrite filter_cons, filter_nil.
  destruct (am_key (V := V) c) as [k'|] eqn:Ek;
    [|split; [done|rewrite decide_False by done; by rewrite Z.add_0_r]].
  destruct (decide (k' = k)) as [->|Hne].
  - rewrite decide_True by done. split; [by apply percpu_acc_present|].
    rewrite (pc_total_acc 64 (am_weight (V := V) c) _ _ _ _ _ _ _ _ _ _ _ (am_wf s Hs) (ew_cpu e He));
      auto using am_count_zero, am_count_step, am_count_first.
    + rewrite decide_True by done. f_equal. csimpl. lia.
    + intros Hn. rewrite Hn in Hk. by destruct Hk.
  - rewrite decide_False by congruence. unfold pc_total. rewrite percpu_acc_other by done.
    split; [done|by rewrite Z.add_0_r].
Qed.

Lemma total_trace t s k :
  state_wf s -> trace_wf t -> is_Some (am_map (V := V) s !! k) ->
  is_Some (am_map (V := V) (run_trace t s) !! k) /\
  u64 (pc_total am_count (am_map (V := V) (run_trace t s)) k)
  = u64 (pc_total am_count (am_map (V := V) s) k
         + ledger_sum (am_key (V := V)) (am_weight (V := V)) k (ledger t s)).
Proof.
  intros Hs Ht. revert s Hs. induction Ht as [|[p e] t [Hp He] Ht IH]; intros s Hs Hk.
  { split; [done|]. by rewrite Z.add_0_r. }
  cbn [run_trace ledger]. rewrite ledger_sum_app.
  destruct (total_run p e s k Hs He Hk) as [Hk' H1].
  destruct (IH (run p e s) (run_wf p e s Hp He Hs) Hk') as [Hk2 H2]. split; [done|].
  apply wrap_eq_iff in H1 as [q1 H1]; [|done]. apply wrap_eq_iff in H2 as [q2 H2]; [|done].
  apply wrap_eq_iff; [done|]. exists (q1 + q2). lia.
Qed.

(** Taken, held, lost and refused calls of every process add up to the ledger. *)
Record account (s : BpfState) (X : list (World * (K * list V))) (L lost refd : list Completed)
    : Prop := {
  ac_wf : state_wf s;
  ac_total : forall pid,
    u64 (taken pid X + held pid s + shares pid lost + shares pid refd) = u64 (shares pid L)
}.

Lemma account_init s :
  state_wf s -> am_map (V := V) s = ∅ -> account s [] [] [] [].
Proof. intros Hs Hm. split; [done|]. intros pid. unfold held. by rewrite Hm, keyed_total_empty. Qed.

Lemma present_fits s k slots :
  state_wf s -> am_map (V := V) s !! k = Some slots -> fits 32 (kpid (V := V) k).
Proof. intros Hs Hk. destruct (am_wf s Hs) as [Hp _ _]. by apply kpid_fits, (Hp k slots). Qed.

Lemma account_trace t s X L lost refd :
  trace_wf t -> account s X L lost refd ->
  account (run_trace t s) X (L ++ ledger t s) lost (refd ++ refused t s).
Proof.
  intros Ht [Hs Hx]. split; [by apply run_trace_wf|]. intros pid. rewrite !shares_app.
  pose proof (held_trace t s pid Hs Ht) as H1. specialize (Hx pid).
  apply wrap_eq_iff in H1 as [q1 H1]; [|done]. apply wrap_eq_iff in Hx as [q2 H2]; [|done].
  apply wrap_eq_iff; [done|]. exists (q1 + q2). lia.
Qed.

(** Whatever else changes in the maps of the tracer is no matter for this map. *)
Lemma account_frame s s' X L lost lost' refd :
  state_wf s' -> am_map (V := V) s' = am_map (V := V) s ->
  Forall (fun c => am_key (V := V) c = None) lost' ->
  account s X L lost refd -> account s' X L (lost ++ lost') refd.
Proof.
  intros Hs' Hm Hl [Hs Hx]. split; [done|]. intros pid. rewrite <- (Hx pid), shares_app.
  assert (shares pid lost' = 0) as ->.
  { unfold shares. induction Hl as [|c l Hc _ IH]; [done|]. csimpl. rewrite IH. unfold share.
    by rewrite Hc. }
  unfold held. rewrite Hm. f_equal. lia.
Qed.

Lemma account_eq s s' X L lost refd :
  state_wf s' -> am_map (V := V) s' = am_map (V := V) s ->
  account s X L lost refd -> account s' X L lost refd.
Proof.
  intros Hs' Hm Ha. rewrite <- (app_nil_r lost). by apply (account_frame s).
Qed.

Lemma shares_key pid k l :
  shares pid (filter (fun c => am_key (V := V) c = Some k) l)
  = if kpid k =? pid then ledger_sum (am_key (V := V)) (am_weight (V := V)) k l else 0.
Proof.
  unfold shares, ledger_sum. induction l as [|c l IH]; [by case_match|].
  rewrite filter_cons. case_decide as Hc; [|done]. csimpl. rewrite IH. unfold share.
  rewrite Hc, (kpid_key c k Hc). destruct (cp_pid c =? pid); reflexivity.
Qed.

(** A drained key: its value at the lookup is taken, and what programs add to it
    until the deletion is lost. *)
Lemma account_drain w k per_cpu mid s X L lost refd :
  trace_wf mid -> am_map (V := V) s !! k = Some per_cpu -> account s X L lost refd ->
  account (am_delete (V := V) k (run_trace mid s)) (X ++ [(w, (k, per_cpu))]) (L ++ ledger mid s)
    (lost ++ filter (fun c => am_key (V := V) c = Some k) (ledger mid s)) (refd ++ refused mid s).
Proof.
  intros Ht Hk Ha. destruct (account_trace mid s _ _ _ _ Ht Ha) as [Hs' Hx].
  destruct (total_trace mid s k (ac_wf _ _ _ _ _ Ha) Ht ltac:(eauto)) as [[slots Hk'] Htot].
  split; [by apply am_delete_wf|]. intros pid. specialize (Hx pid).
  rewrite taken_app, (shares_app pid lost), shares_key. unfold held in *.
  rewrite am_map_delete, (keyed_total_delete _ _ _ _ Hk') in *.
  unfold pc_total in Htot. rewrite Hk, Hk' in Htot.
  change (default [] (Some slots)) with slots in Htot. change (default [] (Some per_cpu)) with per_cpu in Htot.
  assert (E : sumZ ((fun v => if kpid k =? pid then am_count v else 0) <$> slots)
              = if kpid k =? pid then sumZ (am_count <$> slots) else 0).
  { destruct (kpid k =? pid); [done|]. clear. induction slots; csimpl; lia. }
  rewrite E in Hx. unfold taken at 2. csimpl. rewrite am_process_sum.
  apply wrap_eq_iff in Htot as [q1 H1]; [|done]. apply wrap_eq_iff in Hx as [q2 H2]; [|done].
  destruct (proj1 (wrap_eq_iff 64 _ _ ltac:(done)) (wrap_wrap 64 (sumZ (am_count <$> per_cpu))))
    as [q3 H3]. apply wrap_eq_iff; [done|].
  destruct (kpid k =? pid); [exists (q2 - q1 + q3)|exists q2]; lia.
Qed.
End Account.

(** ** The three maps *)

Section Instances.
Context `{LoadCfg}.

Lemma agg_key_type c k : cp_agg_key c = Some k -> profi_is_aggregatable (cp_type c) = true /\ ak_pid k = cp_pid c.
Proof. unfold cp_agg_key. case_match; [|done]. by intros [= <-]. Qed.

Lemma nccl_key_type c k : cp_nccl_key c = Some k -> profi_is_nccl_event (cp_type c) = true /\ ak_pid k = cp_pid c.
Proof. unfold cp_nccl_key. case_match; [|done]. by intros [= <-]. Qed.

Lemma launch_key_type c k :
  cp_launch_key c = Some k -> cp_type c = EVENT_CUDA_LAUNCH_KERNEL /\ lk_pid k = cp_pid c.
Proof.
  unfold cp_launch_key, cp_is_launch. destruct (Z.eqb_spec (cp_type c) EVENT_CUDA_LAUNCH_KERNEL); [|done].
  by intros [= <-].
Qed.

(** A call has a key in the map of its route and in no other. *)
Lemma keys_route c :
  (is_Some (cp_agg_key c) <-> event_route (cp_type c) = R_aggregated) /\
  (is_Some (cp_nccl_key c) <-> event_route (cp_type c) = R_nccl) /\
  (is_Some (cp_launch_key c) <-> event_route (cp_type c) = R_launch).
Proof.
  unfold cp_agg_key, cp_nccl_key, cp_launch_key, cp_is_launch, event_route.
  destruct (profi_is_aggregatable (cp_type c)) eqn:Ea.
  { rewrite (agg_not_nccl _ Ea), (agg_not_launch _ Ea). naive_solver. }
  destruct (profi_is_nccl_event (cp_type c)) eqn:En; [rewrite (nccl_not_launch _ En); naive_solver|].
  repeat case_match; naive_solver.
Qed.

Lemma key_exclusive {A} (o : option A) (r r' : route) : (is_Some o <-> r = r') -> r <> r' -> o = None.
Proof. destruct o; [|done]. intros Hr Hne. destruct Hne. by apply Hr. Qed.

Ltac solve_rejected :=
  let Hc := fresh in
  intros s c Hc; destruct (keys_route c) as (Ha & Hn & Hl); unfold rejected, refuses; cbn in *;
  first [apply Ha in Hc|apply Hn in Hc|apply Hl in Hc]; rewrite Hc in *;
  rewrite ?(key_exclusive _ _ _ Ha), ?(key_exclusive _ _ _ Hn), ?(key_exclusive _ _ _ Hl) by done;
  by rewrite ?orb_false_r.

#[export] Program Instance AGGREGATED_proc : ProcMap AggKey AggValue := {| kpid := ak_pid |}.
Next Obligation. intros c k Hk. by apply agg_key_type in Hk as [_ ?]. Qed.
Next Obligation. intros k Hk. apply Hk. Qed.
Next Obligation. solve_rejected. Qed.

#[export] Program Instance NCCL_AGG_proc : ProcMap AggKey NcclAggValue := {| kpid := ak_pid |}.
Next Obligation. intros c k Hk. by apply nccl_key_type in Hk as [_ ?]. Qed.
Next Obligation. intros k Hk. apply Hk. Qed.
Next Obligation. solve_rejected. Qed.

#[export] Program Instance LAUNCH_AGG_proc : ProcMap LaunchKey LaunchAggValue := {| kpid := lk_pid |}.
Next Obligation. intros c k Hk. by apply launch_key_type in Hk as [_ ?]. Qed.
Next Obligation. intros k Hk. apply Hk. Qed.
Next Obligation. solve_rejected. Qed.
End Instances.

(** ** The machine *)

(** The drain of one key: programs that run before its lookup and between its lookup
    and its deletion, and the world its callback sees. *)
Record Drained (K : Type) := mkDrained {
  dr_before : trace; dr_world : World; dr_key : K; dr_mid : trace
}.
Arguments mkDrained {K}.
Arguments dr_before {K}.
Arguments dr_world {K}.
Arguments dr_key {K}.
Arguments dr_mid {K}.

Section Machine.
Context {LC : LoadCfg} {PM : Prometheus} {HK : HashOrder MetricKey} {HZ : HashOrder Z}
  {UT : UnicodeTables}.

Inductive item :=
| I_run (p : probe) (e : KEnv)
| I_readable (changed : gset Z) (events regs : list World)
| I_tick (w : World) (desired : option (gset Z)) (synced : trace) (aggs : list (Drained AggKey))
    (launches : list (Drained LaunchKey)) (nccls : list (Drained AggKey))
| I_gc (w : World) (results : list (Z * Z * str)) (writable : bool).

(** The maps, the variables of the tick, and the branches the loop was given; the
    ledger of completed calls with those lost to a deletion or to a full map; and the
    program runs so far. *)
Record Tracer := mkTracer {
  tr_bpf : BpfState;
  tr_synced : gset Z;
  tr_tick : TickState;
  tr_ops : list main_op;
  tr_ledger : list Completed;
  tr_lost : list Completed;
  tr_refused : list Completed;
  tr_runs : trace
}.

Definition init_tracer (s : BpfState) : Tracer := mkTracer s ∅ tick_init [] [] [] [] [].

(** Programs run. *)
Definition advance (t : trace) (y : Tracer) : Tracer :=
  mkTracer (run_trace t (tr_bpf y)) (tr_synced y) (tr_tick y) (tr_ops y)
    (tr_ledger y ++ ledger t (tr_bpf y)) (tr_lost y) (tr_refused y ++ refused t (tr_bpf y))
    (tr_runs y ++ t).

Definition set_bpf (s : BpfState) (y : Tracer) : Tracer :=
  mkTracer s (tr_synced y) (tr_tick y) (tr_ops y) (tr_ledger y) (tr_lost y) (tr_refused y) (tr_runs y).

Definition feed (op : main_op) (y : Tracer) : Tracer :=
  mkTracer (tr_bpf y) (tr_synced y) (tr_tick y) (tr_ops y ++ [op]) (tr_ledger y) (tr_lost y)
    (tr_refused y) (tr_runs y).

Section DrainMap.
Context {K V : Type} `{Countable K} `{!AggMap K V}.

(** One iteration of the loop of [drain_percpu_hash]. *)
Definition drain_one (yx : Tracer * list (World * (K * list V))) (d : Drained K)
    : Tracer * list (World * (K * list V)) :=
  let '(y, X) := yx in
  let y := advance (dr_before d) y in
  match am_map (tr_bpf y) !! dr_key d with
  | None => (y, X)
  | Some per_cpu =>
      let y' := advance (dr_mid d) y in
      (mkTracer (am_delete (V := V) (dr_key d) (tr_bpf y')) (tr_synced y') (tr_tick y') (tr_ops y')
         (tr_ledger y')
         (tr_lost y' ++ filter (fun c => am_key (V := V) c = Some (dr_key d))
                          (ledger (dr_mid d) (tr_bpf y)))
         (tr_refused y') (tr_runs y'),
       X ++ [(dr_world d, (dr_key d, per_cpu))])
  end.

Definition drain_map (ds : list (Drained K)) (y : Tracer) : Tracer * list (World * (K * list V)) :=
  foldl drain_one (y, []) ds.
End DrainMap.

(** [upgrade_dirty]: the processes to upgrade go to the map. *)
Definition sync (desired : option (gset Z)) (y : Tracer) : Tracer :=
  match desired with
  | Some d =>
      let '(synced, m) := sync_upgraded d (tr_synced y) (UPGRADED_PIDS (tr_bpf y)) in
      mkTracer (upd_UPGRADED_PIDS (fun _ => m) (tr_bpf y)) synced (tr_tick y) (tr_ops y) (tr_ledger y)
        (tr_lost y) (tr_refused y) (tr_runs y)
  | None => y
  end.

Definition read_drops (y : Tracer) : Tracer :=
  mkTracer (tr_bpf y) (tr_synced y)
    (agg_tick (Some (LAUNCH_DROPPED (tr_bpf y))) (Some (DROPPED (tr_bpf y))) (tr_tick y)) (tr_ops y) (tr_ledger y)
    (tr_lost y) (tr_refused y) (tr_runs y).

Definition tracer_step (cfg : LoopCfg) (y : Tracer) (i : item) : Tracer :=
  match i with
  | I_run p e => advance [(p, e)] y
  | I_readable changed ws rs =>
      let s := tr_bpf y in
      let events := zip ws (EVENTS s) in
      let regs := if bool_decide (lc_mode cfg = Full) then zip rs (KERNEL_REGS s) else [] in
      feed (M_readable changed events regs)
        (set_bpf (upd_KERNEL_REGS (drop (length regs)) (upd_EVENTS (drop (length events)) s)) y)
  | I_tick w desired synced aggs launches nccls =>
      let y := read_drops (advance synced (sync desired y)) in
      let '(y, a) := drain_map aggs y in
      let '(y, l) := if lc_detailed_launches cfg then (y, []) else drain_map launches y in
      let '(y, n) := drain_map nccls y in
      feed (M_agg w a l n) y
  | I_gc w results writable => feed (M_gc w results writable) y
  end.

Definition run_tracer (cfg : LoopCfg) (items : list item) (s : BpfState) : Tracer :=
  foldl (tracer_step cfg) (init_tracer s) items.

Definition drained_wf {K} (d : Drained K) : Prop := trace_wf (dr_before d) /\ trace_wf (dr_mid d).

Definition item_ok (i : item) : Prop :=
  match i with
  | I_run p e => probe_wf p /\ env_wf e
  | I_tick _ _ synced aggs launches nccls =>
      trace_wf synced /\ Forall drained_wf aggs /\ Forall drained_wf launches /\ Forall drained_wf nccls
  | _ => True
  end.

(** ** Properties of the program runs

    A relation between the maps, the program runs so far and the ledger holds after every
    step of the tracer, if program runs keep it and it does not look at the maps that
    userspace writes. *)

Definition same_calls (s s' : BpfState) : Prop :=
  INFLIGHT s' = INFLIGHT s /\ SAMPLE_RATE s' = SAMPLE_RATE s.

Section History.
Variable R : BpfState -> trace -> list Completed -> Prop.
Hypothesis R_run : forall s t L p e,
  R s t L -> R (run p e s) (t ++ [(p, e)]) (L ++ option_list (completes p e s)).
Hypothesis R_frame : forall s s' t L, same_calls s s' -> R s t L -> R s' t L.

Definition history (y : Tracer) : Prop := R (tr_bpf y) (tr_runs y) (tr_ledger y).

Lemma history_advance t y : history y -> history (advance t y).
Proof.
  unfold history, advance. cbn [tr_bpf tr_runs tr_ledger].
  generalize (tr_bpf y), (tr_runs y), (tr_ledger y). induction t as [|[p e] t IH]; intros s u L HR.
  { by rewrite !app_nil_r. }
  cbn [run_trace ledger]. rewrite app_assoc. change ((p, e) :: t) with ([(p, e)] ++ t). rewrite (app_assoc u).
  by apply IH, R_run.
Qed.

Lemma history_drain {K V} `{Countable K} `{!AggMap K V} (ds : list (Drained K)) y :
  (forall k s, same_calls s (am_delete (V := V) k s)) -> history y -> history (drain_map (V := V) ds y).1.
Proof.
  intros Hdel. unfold drain_map. generalize (@nil (World * (K * list V))). revert y.
  induction ds as [|d ds IH]; intros y X Hy; cbn [foldl]; [done|]. unfold drain_one at 2.
  apply (history_advance (dr_before d)) in Hy. case_match; [|by apply IH].
  apply (history_advance (dr_mid d)) in Hy. apply IH.
  exact (R_frame _ _ _ _ (Hdel _ _) Hy).
Qed.

Lemma history_step cfg i y : history y -> history (tracer_step cfg y i).
Proof.
  intros Hy. destruct i as [p e|changed ws rs|w desired t aggs launches nccls|w results writable];
    cbn [tracer_step]; [by apply history_advance|by refine (R_frame _ _ _ _ _ Hy)| |done].
  assert (H0 : history (read_drops (advance t (sync desired y)))).
  { apply (history_advance t). unfold sync. destruct desired as [d|]; [|done]. destruct (sync_upgraded _ _ _) as [synced m].
    by refine (R_frame _ _ _ _ _ Hy). }
  set (y0 := read_drops _) in *.
  apply (history_drain (V := AggValue) aggs) in H0; [|by split].
  destruct (drain_map aggs y0) as [y1 a]. cbn [fst] in H0.
  assert (H1 : history (if lc_detailed_launches cfg then (y1, []) else drain_map launches y1).1).
  { destruct (lc_detailed_launches cfg); [done|]. by apply history_drain. }
  destruct (if lc_detailed_launches cfg then _ else _) as [y2 l]. cbn [fst] in H1.
  apply (history_drain (V := NcclAggValue) nccls) in H1; [|by split].
  by destruct (drain_map nccls y2) as [y3 n].
Qed.

Lemma history_run cfg items s : R s [] [] -> history (run_tracer cfg items s).
Proof.
  intros H0. unfold run_tracer. change (R s [] []) with (history (init_tracer s)) in H0. revert H0.
  generalize (init_tracer s). induction items as [|i items IH]; intros y Hy; [done|].
  by apply IH, history_step.
Qed.
End History.

(** ** What the loop was fed *)

Definition aggs_of (op : main_op) : list (World * (AggKey * list AggValue)) :=
  match op with M_agg _ a _ _ => a | _ => [] end.
Definition launches_of (op : main_op) : list (World * (LaunchKey * list LaunchAggValue)) :=
  match op with M_agg _ _ l _ => l | _ => [] end.
Definition nccls_of (op : main_op) : list (World * (AggKey * list NcclAggValue)) :=
  match op with M_agg _ _ _ n => n | _ => [] end.
Definition events_of (op : main_op) : list CudaEvent :=
  match op with M_readable _ es _ => es.*2 | _ => [] end.

(** Process ids of 32 bits in everything the loop was fed. *)
Definition keys_fit (a : list (World * (AggKey * list AggValue)))
    (l : list (World * (LaunchKey * list LaunchAggValue)))
    (n : list (World * (AggKey * list NcclAggValue))) : Prop :=
  Forall (fun wkv => fits 32 (ak_pid wkv.2.1)) a /\ Forall (fun wkv => fits 32 (lk_pid wkv.2.1)) l /\
  Forall (fun wkv => fits 32 (ak_pid wkv.2.1)) n.

Definition pids_fit (op : main_op) : Prop :=
  Forall (fun e => fits 32 (ce_pid e)) (events_of op) /\
  keys_fit (aggs_of op) (launches_of op) (nccls_of op).

(** ** The invariant, with the values [a], [l], [n] that a tick has drained so far *)

Record tracer_inv (detailed : Z) (y : Tracer) a l n : Prop := {
  tv_agg : account (V := AggValue) (tr_bpf y) ((tr_ops y ≫= aggs_of) ++ a) (tr_ledger y) (tr_lost y)
             (tr_refused y);
  tv_launch : account (V := LaunchAggValue) (tr_bpf y) ((tr_ops y ≫= launches_of) ++ l) (tr_ledger y)
                (tr_lost y) (tr_refused y);
  tv_nccl : account (V := NcclAggValue) (tr_bpf y) ((tr_ops y ≫= nccls_of) ++ n) (tr_ledger y)
              (tr_lost y) (tr_refused y);
  tv_events : (tr_ops y ≫= events_of) ++ EVENTS (tr_bpf y) = omap cp_ring_event (tr_ledger y);
  tv_detailed : cfg_u32 (DETAILED_LAUNCHES (tr_bpf y)) = detailed /\
                Forall (fun c => cp_detailed c = detailed) (tr_ledger y);
  tv_fit : Forall pids_fit (tr_ops y);
  tv_pending : keys_fit a l n
}.

Lemma tracer_inv_advance d t y a l n :
  trace_wf t -> tracer_inv d y a l n -> tracer_inv d (advance t y) a l n.
Proof.
  intros Ht [H1 H2 H3 H4 [H5 H6] H7 H8].
  split; cbn [tr_bpf tr_ops tr_ledger tr_lost tr_refused advance]; try done.
  1-3: by apply account_trace.
  - by rewrite run_trace_EVENTS, app_assoc, H4, omap_app.
  - pose proof (run_trace_config t (tr_bpf y)) as [= _ _ Hd _]. split; [by rewrite Hd|].
    apply Forall_app_2; [done|]. eapply Forall_impl; [apply ledger_config|].
    intros c (_ & _ & Hc). simpl in Hc. congruence.
Qed.

Lemma filter_Forall_impl {A} (P Q : A -> Prop) `{!forall x, Decision (P x)} (l : list A) :
  (forall x, P x -> Q x) -> Forall Q (filter P l).
Proof. intros HPQ. apply Forall_forall. intros x [Hx _]%list_elem_of_filter. by apply HPQ. Qed.

(** The other maps do not see the deletion. *)
Ltac other_map :=
  eapply account_frame; [| | |eassumption];
  [apply am_delete_wf; eapply ac_wf; eassumption|reflexivity
  |apply filter_Forall_impl; intros c Hc; destruct (keys_route c) as (Ha & Hn & Hl); cbn in *;
   first [eapply (key_exclusive _ _ _ Ha)|eapply (key_exclusive _ _ _ Hn)|eapply (key_exclusive _ _ _ Hl)];
   first [rewrite (proj1 Ha) by eauto|rewrite (proj1 Hn) by eauto|rewrite (proj1 Hl) by eauto]; done].

Ltac drain_inv d x y a l n :=
  intros [Hb Hm] H0; pose proof (tracer_inv_advance d _ y a l n Hb H0) as H1; unfold drain_one;
  set (y1 := advance (dr_before x) y) in *;
  destruct (am_map (tr_bpf y1) !! dr_key x) as [per_cpu|] eqn:Ek; [|done];
  pose proof (tracer_inv_advance d _ y1 a l n Hm H1) as H2; destruct H1, H2;
  split; cbn [tr_bpf tr_ops tr_ledger tr_lost tr_refused advance fst snd] in *; try done;
  [first [rewrite app_assoc; by apply account_drain|other_map]..|];
  unfold keys_fit in *; destruct_and!; split_and!; try done; apply Forall_app_2; [done|];
  apply Forall_cons_2; [refine (present_fits _ _ _ _ Ek); eapply ac_wf; eassumption|apply Forall_nil_2].

(** A drained key moves from its map to the values drained so far. *)
Lemma tracer_inv_drain_agg d x y a l n :
  drained_wf x -> tracer_inv d y a l n ->
  tracer_inv d (drain_one (V := AggValue) (y, a) x).1 (drain_one (V := AggValue) (y, a) x).2 l n.
Proof. drain_inv d x y a l n. Qed.

Lemma tracer_inv_drain_launch d x y a l n :
  drained_wf x -> tracer_inv d y a l n ->
  tracer_inv d (drain_one (V := LaunchAggValue) (y, l) x).1 a (drain_one (V := LaunchAggValue) (y, l) x).2 n.
Proof. drain_inv d x y a l n. Qed.

Lemma tracer_inv_drain_nccl d x y a l n :
  drained_wf x -> tracer_inv d y a l n ->
  tracer_inv d (drain_one (V := NcclAggValue) (y, n) x).1 a l (drain_one (V := NcclAggValue) (y, n) x).2.
Proof. drain_inv d x y a l n. Qed.
Lemma tracer_inv_drains {K V} `{Countable K} `{!AggMap K V} (Q : Tracer -> list (World * (K * list V)) -> Prop)
    (ds : list (Drained K)) y :
  (forall y X x, drained_wf x -> Q y X -> Q (drain_one (y, X) x).1 (drain_one (y, X) x).2) ->
  Forall drained_wf ds -> Q y [] -> Q (drain_map ds y).1 (drain_map ds y).2.
Proof.
  intros HQ Hds. unfold drain_map. generalize (@nil (World * (K * list V))). revert y.
  induction Hds as [|x ds Hx _ IH]; intros y X Hy; cbn [foldl]; [done|].
  specialize (HQ y X x Hx Hy). destruct (drain_one (y, X) x) as [y' X']. by apply IH.
Qed.

(** Changes of the maps outside of the programs. *)
Lemma tracer_inv_maps d y y' a l n :
  tracer_inv d y a l n ->
  tr_ops y' = tr_ops y -> tr_ledger y' = tr_ledger y -> tr_lost y' = tr_lost y ->
  tr_refused y' = tr_refused y -> state_wf (tr_bpf y') ->
  AGGREGATED (tr_bpf y') = AGGREGATED (tr_bpf y) -> LAUNCH_AGG (tr_bpf y') = LAUNCH_AGG (tr_bpf y) ->
  NCCL_AGG (tr_bpf y') = NCCL_AGG (tr_bpf y) -> EVENTS (tr_bpf y') = EVENTS (tr_bpf y) ->
  DETAILED_LAUNCHES (tr_bpf y') = DETAILED_LAUNCHES (tr_bpf y) ->
  tracer_inv d y' a l n.
Proof.
  intros [H1 H2 H3 H4 H5 H6 H7] E1 E2 E3 E4 Hw Ea El En Ee Ed.
  split; rewrite ?E1, ?E2, ?E3, ?E4, ?Ee, ?Ed; try done; by eapply account_eq.
Qed.

Lemma tracer_inv_sync d desired y a l n :
  tracer_inv d y a l n -> tracer_inv d (sync desired y) a l n.
Proof.
  intros Hy. destruct desired as [pids|]; [|done]. eapply tracer_inv_maps; try done.
  destruct (ac_wf _ _ _ _ _ (tv_agg _ _ _ _ _ Hy)). by split.
Qed.

(** The loop is given what was drained. *)
Lemma tracer_inv_feed_agg d w y a l n :
  tracer_inv d y a l n -> tracer_inv d (feed (M_agg w a l n) y) [] [] [].
Proof.
  intros [H1 H2 H3 H4 H5 H6 H7].
  split; cbn [feed tr_bpf tr_ops tr_ledger tr_lost tr_refused]; rewrite ?bind_app; csimpl; rewrite ?app_nil_r;
    try done.
  apply Forall_app_2; [done|]. apply Forall_cons_2; [|done]. split; [apply Forall_nil_2|done].
Qed.
Lemma bind_snoc {A B} (f : A -> list B) l x : (l ++ [x]) ≫= f = (l ≫= f) ++ f x.
Proof. rewrite bind_app. csimpl. by rewrite app_nil_r. Qed.

Lemma zip_snd {A B} (l : list A) (k : list B) : (zip l k).*2 = take (length (zip l k)) k.
Proof.
  revert k. induction l as [|x l IH]; intros [|y k]; [done..|]. csimpl. by rewrite IH.
Qed.

Lemma tracer_inv_readable cfg d changed ws rs y :
  tracer_inv d y [] [] [] -> tracer_inv d (tracer_step cfg y (I_readable changed ws rs)) [] [] [].
Proof.
  intros Hy. pose proof (ac_wf _ _ _ _ _ (tv_agg _ _ _ _ _ Hy)) as Hw. cbn [tracer_step].
  set (regs := if bool_decide (lc_mode cfg = Full) then _ else []).
  assert (Hw' : state_wf (upd_KERNEL_REGS (drop (length regs))
    (upd_EVENTS (drop (length (zip ws (EVENTS (tr_bpf y))))) (tr_bpf y)))).
  { destruct Hw. split; try done; simpl; by apply Forall_drop. }
  destruct Hy as [H1 H2 H3 H4 H5 H6 H7].
  split; cbn [feed set_bpf tr_bpf tr_ops tr_ledger tr_lost tr_refused]; rewrite ?bind_snoc;
    cbn [aggs_of launches_of nccls_of events_of]; rewrite ?app_nil_r in *; try done;
    try (by apply (account_eq (tr_bpf y))).
  - rewrite <- H4, <- app_assoc. f_equal. rewrite zip_snd. apply take_drop.
  - apply Forall_app_2; [done|]. apply Forall_cons_2; [|done]. split; [|done]. simpl.
    rewrite zip_snd. apply Forall_take. eapply Forall_impl; [apply (wf_events _ Hw)|]. by intros e [].
Qed.

Lemma tracer_inv_step cfg d i y :
  item_ok i -> tracer_inv d y [] [] [] -> tracer_inv d (tracer_step cfg y i) [] [] [].
Proof.
  intros Hi Hy. destruct i as [p e|changed ws rs|w desired t aggs launches nccls|w results writable].
  - apply tracer_inv_advance; [|done]. by apply Forall_cons_2.
  - by apply tracer_inv_readable.
  - destruct Hi as (Ht & Ha & Hl & Hn). cbn [tracer_step].
    assert (H0 : tracer_inv d (read_drops (advance t (sync desired y))) [] [] []).
    { eapply tracer_inv_maps; [apply (tracer_inv_advance d t); [done|by apply tracer_inv_sync]|try done..].
      apply (ac_wf _ _ _ _ _ (tv_agg _ _ _ _ _ (tracer_inv_advance d t _ _ _ _ Ht
               (tracer_inv_sync d desired _ _ _ _ Hy)))). }
    set (y0 := read_drops _) in *.
    pose proof (tracer_inv_drains (fun y a => tracer_inv d y a [] []) aggs y0
      ltac:(intros; by apply tracer_inv_drain_agg) Ha H0) as H1.
    destruct (drain_map aggs y0) as [y1 a]. cbn [fst snd] in H1.
    assert (H2 : let r := if lc_detailed_launches cfg then (y1, []) else drain_map launches y1 in
                 tracer_inv d r.1 a r.2 []).
    { destruct (lc_detailed_launches cfg); [done|].
      apply (tracer_inv_drains (fun y l => tracer_inv d y a l [])); [|done..].
      intros. by apply tracer_inv_drain_launch. }
    destruct (if lc_detailed_launches cfg then _ else _) as [y2 l]. cbn [fst snd] in H2.
    pose proof (tracer_inv_drains (fun y n => tracer_inv d y a l n) nccls y2
      ltac:(intros; by apply tracer_inv_drain_nccl) Hn H2) as H3.
    destruct (drain_map nccls y2) as [y3 n]. by apply tracer_inv_feed_agg.
  - destruct Hy as [H1 H2 H3 H4 H5 H6 H7].
    split; cbn [tracer_step feed tr_bpf tr_ops tr_ledger tr_lost tr_refused]; rewrite ?bind_snoc;
      cbn [aggs_of launches_of nccls_of events_of]; rewrite ?app_nil_r in *; try done.
    apply Forall_app_2; [done|]. apply Forall_cons_2; [|done]. by split; [apply Forall_nil_2|].
Qed.

Lemma tracer_inv_run cfg items s :
  fresh s -> Forall item_ok items ->
  tracer_inv (cfg_u32 (DETAILED_LAUNCHES s)) (run_tracer cfg items s) [] [] [].
Proof.
  intros Hs Hi. unfold run_tracer.
  assert (H0 : tracer_inv (cfg_u32 (DETAILED_LAUNCHES s)) (init_tracer s) [] [] []).
  { destruct Hs. split; simpl; try done; by apply account_init. }
  revert H0. generalize (init_tracer s). induction Hi as [|i items Hi _ IH]; intros y Hy; cbn [foldl];
    [done|]. by apply IH, tracer_inv_step.
Qed.
(** ** What the loop keeps of a process *)

(** Nothing panics in a branch: every kernel name that is read can be normalised, and the
    enricher answers every lookup. *)
Definition safe_op (op : main_op) : Prop :=
  match op with
  | M_readable _ events regs =>
      Forall (fun we => answers we.1) events /\
      Forall (fun wr => forall name,
        read_kernel_name (w_mem wr.1) (kr_pid wr.2) (kr_name_ptr wr.2) = inr name ->
        exists n, normalize_kernel_name name = Ret n) regs
  | M_agg w aggs launches nccls =>
      answers w /\ Forall (fun wkv => answers wkv.1) aggs /\ Forall (fun wkv => answers wkv.1) launches /\
      Forall (fun wkv => answers wkv.1) nccls
  | M_gc w results _ =>
      answers w /\ Forall (fun res => exists n, normalize_kernel_name res.2 = Ret n) results
  end.

Lemma fit_main_op_ok op : pids_fit op -> safe_op op -> main_op_ok op.
Proof.
  intros (He & Ha & Hl & Hn) Hx. destruct op; simpl in *; [| |done].
  - rewrite Forall_fmap in He. destruct Hx. split; [by apply Forall_and|done].
  - destruct Hx as (? & ? & ? & ?). split_and!; [done|by apply Forall_and..].
Qed.

(** No branch forgets the process: its pod does not change and it is not idle for
    longer than [lc_stale_after] at a gc tick. *)
Definition keeps (cfg : LoopCfg) (pid : Z) (L : ProcLedger) (op : main_op) : bool :=
  match op with
  | M_readable changed _ _ => bool_decide (pid ∉ changed)
  | M_agg _ _ _ _ => true
  | M_gc w _ _ => negb (pl_stale (w_now w) (lc_stale_after cfg) L pid)
  end.

Fixpoint kept (cfg : LoopCfg) (pid : Z) (L : ProcLedger) (ops : list main_op) : bool :=
  match ops with
  | [] => true
  | op :: ops => keeps cfg pid L op && kept cfg pid (ledger_step cfg L op) ops
  end.

Definition calls_at (pid : Z) (L : ProcLedger) : Z := default 0 (pl_calls L !! pid).

Lemma filter_keep (P : Z -> Prop) `{!forall p, Decision (P p)} (m : gmap Z Z) pid :
  P pid -> default 0 (filter (fun kv => P kv.1) m !! pid) = default 0 (m !! pid).
Proof.
  intros Hp. rewrite map_lookup_filter. destruct (m !! pid); simpl; [|done].
  by rewrite option_guard_True.
Qed.

Lemma calls_at_add now p n pid L :
  calls_at pid (pl_add now p n L) = calls_at pid L + if p =? pid then n else 0.
Proof.
  unfold calls_at, pl_add. cbn [pl_calls]. destruct (Z.eqb_spec p pid) as [->|Hne].
  - by rewrite lookup_insert_eq.
  - rewrite lookup_insert_ne by done. lia.
Qed.

Lemma calls_at_drained now p n pid L :
  calls_at pid (pl_drained now p n L) = calls_at pid L + if p =? pid then n else 0.
Proof.
  unfold pl_drained. destruct (Z.eqb_spec n 0) as [->|]; [case_match; lia|]. apply calls_at_add.
Qed.

Lemma calls_at_foldl {A} (f : ProcLedger -> A -> ProcLedger) (g : A -> Z) pid L l :
  (forall L x, calls_at pid (f L x) = calls_at pid L + g x) ->
  calls_at pid (foldl f L l) = calls_at pid L + sumZ (g <$> l).
Proof.
  intros Hf. revert L. induction l as [|x l IH]; intros L; csimpl; [lia|]. rewrite IH, Hf. lia.
Qed.

(** The calls of the process that a branch brings. *)
Definition fed (detailed : bool) (pid : Z) (op : main_op) : Z :=
  taken pid (aggs_of op) + (if detailed then 0 else taken pid (launches_of op))
  + taken pid (nccls_of op) + countZ (fun e => ce_pid e =? pid) (events_of op).

Lemma calls_at_step cfg pid L op :
  keeps cfg pid L op = true ->
  calls_at pid (ledger_step cfg L op) = calls_at pid L + fed (lc_detailed_launches cfg) pid op.
Proof.
  unfold fed. destruct op as [changed es regs|w a l n|w res wr];
    cbn [keeps ledger_step aggs_of launches_of nccls_of events_of].
  - intros Hp%bool_decide_eq_true.
    rewrite (calls_at_foldl _ (fun we => if ce_pid we.2 =? pid then 1 else 0))
      by (intros L' [w e]; apply calls_at_add).
    assert (calls_at pid (pl_forget changed L) = calls_at pid L) as ->
      by exact (filter_keep (fun p => p ∉ changed) (pl_calls L) pid Hp).
    unfold countZ. rewrite <- list_fmap_compose. unfold compose, taken.
    destruct (lc_detailed_launches cfg); simpl; lia.
  - intros _.
    rewrite (calls_at_foldl _ (fun wkv => if ak_pid wkv.2.1 =? pid then at_count (nccl_totals wkv.2.2) else 0))
      by (intros L' [w' [k v]]; apply calls_at_drained).
    set (L1 := foldl _ L a).
    assert (E1 : calls_at pid L1 = calls_at pid L + taken pid a).
    { apply (calls_at_foldl _ (fun wkv => if ak_pid wkv.2.1 =? pid then at_count (agg_totals wkv.2.2) else 0)).
      intros L' [w' [k v]]. apply calls_at_drained. }
    assert (E2 : calls_at pid (if lc_detailed_launches cfg then L1 else
        foldl (fun L wkv => pl_drained (w_now wkv.1) (lk_pid wkv.2.1) (lt_count (launch_totals wkv.2.2)) L) L1 l)
      = calls_at pid L1 + if lc_detailed_launches cfg then 0 else taken pid l).
    { destruct (lc_detailed_launches cfg); [lia|].
      apply (calls_at_foldl _ (fun wkv => if lk_pid wkv.2.1 =? pid then lt_count (launch_totals wkv.2.2) else 0)).
      intros L' [w' [k v]]. apply calls_at_drained. }
    rewrite E2, E1. change (countZ _ []) with 0.
    change (sumZ (_ <$> n)) with (taken pid n). lia.
  - intros Hs%negb_true_iff.
    assert (calls_at pid (pl_gc (w_now w) (lc_stale_after cfg) L) = calls_at pid L) as ->
      by exact (filter_keep (fun p => pl_stale (w_now w) (lc_stale_after cfg) L p = false) (pl_calls L) pid Hs).
    unfold taken, countZ. destruct (lc_detailed_launches cfg); simpl; lia.
Qed.

Lemma calls_at_run cfg pid L ops :
  kept cfg pid L ops = true ->
  calls_at pid (foldl (ledger_step cfg) L ops)
  = calls_at pid L + sumZ (fed (lc_detailed_launches cfg) pid <$> ops).
Proof.
  revert L. induction ops as [|op ops IH]; intros L; [simpl; lia|].
  cbn [kept]. intros [H1 H2]%andb_true_iff. cbn [foldl]. rewrite IH by done. csimpl.
  rewrite calls_at_step by done. lia.
Qed.

Lemma fed_total detailed pid ops :
  sumZ (fed detailed pid <$> ops)
  = taken pid (ops ≫= aggs_of) + (if detailed then 0 else taken pid (ops ≫= launches_of))
    + taken pid (ops ≫= nccls_of) + countZ (fun e => ce_pid e =? pid) (ops ≫= events_of).
Proof.
  induction ops as [|op ops IH]; [by destruct detailed|]. rewrite !bind_cons, !taken_app, countZ_app.
  csimpl. rewrite IH. unfold fed. destruct detailed; lia.
Qed.
End Machine.

(** ** From return probes to a scrape *)

Section Scrape.
Context {LC : LoadCfg} {PM : Prometheus} {PL : PrometheusLaws} {HK : HashOrder MetricKey}
  {HZ : HashOrder Z} {UT : UnicodeTables}.

Definition in_ring (c : Completed) : Z := match cp_ring_event c with Some _ => 1 | None => 0 end.

(** The calls a completed call stands for: its sampling weight if it is of an aggregated
    operation, one otherwise. *)
Definition cp_calls (c : Completed) : Z :=
  match event_route (cp_type c) with R_aggregated => cp_weight c | _ => 1 end.

(** The completed calls of a process. *)
Definition process_calls (pid : Z) (l : list Completed) : Z :=
  sumZ ((fun c => if cp_pid c =? pid then cp_calls c else 0) <$> l).

(** Of them, the calls that the ring buffer had no room for, *)
Definition ring_dropped (pid : Z) (l : list Completed) : Z :=
  countZ (fun c => (cp_pid c =? pid) && cp_ring_dropped c) l.

(** and, with --detailed-launches, the launches that the programs only write to LAUNCH_AGG
    (those in anonymous mode), which the loop then does not read. *)
Definition is_unread (detailed : bool) (c : Completed) : bool :=
  detailed && cp_is_launch c && negb (cp_to_ring c).

Definition unread (detailed : bool) (pid : Z) (l : list Completed) : Z :=
  countZ (fun c => (cp_pid c =? pid) && is_unread detailed c) l.

(** The calls of a process that the aggregation maps carry to userspace. *)
Definition map_calls (detailed : bool) (pid : Z) (l : list Completed) : Z :=
  shares (V := AggValue) pid l + (if detailed then 0 else shares (V := LaunchAggValue) pid l)
  + shares (V := NcclAggValue) pid l.

(** Calls that wait in the maps and in the ring buffer. *)
Definition waiting (detailed : bool) (pid : Z) (s : BpfState) : Z :=
  held (V := AggValue) pid s + (if detailed then 0 else held (V := LaunchAggValue) pid s)
  + held (V := NcclAggValue) pid s + countZ (fun e => ce_pid e =? pid) (EVENTS s).

Lemma ring_calls pid l :
  countZ (fun e => ce_pid e =? pid) (omap cp_ring_event l)
  = sumZ ((fun c => if cp_pid c =? pid then in_ring c else 0) <$> l).
Proof.
  induction l as [|c l IH]; [done|]. rewrite fmap_cons. cbn [sumZ]. rewrite <- IH.
  change (omap cp_ring_event (c :: l)) with
    (match cp_ring_event c with Some e => e :: omap cp_ring_event l | None => omap cp_ring_event l end).
  unfold in_ring. destruct (cp_ring_event c) as [e|] eqn:E; [|destruct (cp_pid c =? pid); lia].
  unfold cp_ring_event in E. destruct (cp_to_ring c && env_events_room (cp_env c)); [|done].
  injection E as <-. unfold countZ. rewrite fmap_cons. reflexivity.
Qed.

(** A call that no map carries is in the ring buffer, dropped by it or unread. *)
Lemma route_ring detailed c :
  cp_detailed c = Z.b2z detailed ->
  in_ring c + (if cp_ring_dropped c then 1 else 0) + (if is_unread detailed c then 1 else 0)
  = match event_route (cp_type c) with
    | R_aggregated | R_nccl => 0
    | R_launch => if detailed then 1 else 0
    | _ => 1
    end.
Proof.
  intros Hd. unfold in_ring, cp_ring_event, cp_ring_dropped, is_unread, event_route, cp_to_ring, cp_is_launch.
  rewrite Hd. destruct (profi_is_aggregatable (cp_type c)) eqn:Ha.
  { rewrite (agg_not_launch _ Ha). by destruct detailed. }
  destruct (profi_is_nccl_event (cp_type c)) eqn:Hn; [rewrite (nccl_not_launch _ Hn); by destruct detailed|].
  destruct (cp_type c =? EVENT_CUDA_LAUNCH_KERNEL); cbn [negb andb orb].
  - destruct detailed, (cp_mode c =? 1), (env_events_room (cp_env c)); done.
  - destruct detailed, (env_events_room (cp_env c)), (cp_type c =? EVENT_CUDA_REGISTER_FUNCTION); done.
Qed.

Lemma cp_calls_split detailed pid c :
  cp_detailed c = Z.b2z detailed ->
  (if cp_pid c =? pid then cp_calls c else 0)
  = share (V := AggValue) pid c + (if detailed then 0 else share (V := LaunchAggValue) pid c)
    + share (V := NcclAggValue) pid c + (if cp_pid c =? pid then in_ring c else 0)
    + (if (cp_pid c =? pid) && cp_ring_dropped c then 1 else 0)
    + (if (cp_pid c =? pid) && is_unread detailed c then 1 else 0).
Proof.
  intros Hd%route_ring. destruct (keys_route c) as (Ha & Hn & Hl). unfold share, cp_calls.
  change (am_key (V := AggValue) c) with (cp_agg_key c).
  change (am_key (V := LaunchAggValue) c) with (cp_launch_key c).
  change (am_key (V := NcclAggValue) c) with (cp_nccl_key c).
  change (am_weight (V := AggValue) c) with (cp_weight c).
  change (am_weight (V := LaunchAggValue) c) with 1. change (am_weight (V := NcclAggValue) c) with 1.
  destruct (event_route (cp_type c));
    rewrite ?(key_exclusive _ _ _ Ha), ?(key_exclusive _ _ _ Hn), ?(key_exclusive _ _ _ Hl) by done;
    [destruct (proj2 Ha eq_refl) as [k ->]|destruct (proj2 Hn eq_refl) as [k ->]
    |destruct (proj2 Hl eq_refl) as [k ->]|..];
    destruct (cp_pid c =? pid); cbn [andb]; destruct detailed; lia.
Qed.

Lemma process_calls_split detailed pid l :
  Forall (fun c => cp_detailed c = Z.b2z detailed) l ->
  process_calls pid l
  = map_calls detailed pid l + countZ (fun e => ce_pid e =? pid) (omap cp_ring_event l)
    + ring_dropped pid l + unread detailed pid l.
Proof.
  rewrite ring_calls. unfold process_calls, map_calls, shares, ring_dropped, unread, countZ.
  induction 1 as [|c l Hc _ IH]; [by destruct detailed|]. rewrite !fmap_cons. cbn [sumZ].
  rewrite IH, (cp_calls_split detailed pid c Hc). destruct detailed; lia.
Qed.

(** The three accounts and the ring buffer together. *)
Lemma tracer_calls cfg y pid :
  tracer_inv (Z.b2z (lc_detailed_launches cfg)) y [] [] [] ->
  let detailed := lc_detailed_launches cfg in
  u64 (sumZ (fed detailed pid <$> tr_ops y) + waiting detailed pid (tr_bpf y)
       + map_calls detailed pid (tr_lost y) + map_calls detailed pid (tr_refused y)
       + ring_dropped pid (tr_ledger y) + unread detailed pid (tr_ledger y))
  = u64 (process_calls pid (tr_ledger y)).
Proof.
  intros [H1 H2 H3 H4 [_ H5] _ _]. cbv zeta. rewrite fed_total, (process_calls_split (lc_detailed_launches cfg)) by done.
  rewrite <- H4, countZ_app. rewrite !app_nil_r in *.
  apply ac_total with (pid := pid) in H1, H2, H3.
  apply wrap_eq_iff in H1 as [q1 H1]; [|done]. apply wrap_eq_iff in H2 as [q2 H2]; [|done].
  apply wrap_eq_iff in H3 as [q3 H3]; [|done]. apply wrap_eq_iff; [done|].
  unfold waiting, map_calls. destruct (lc_detailed_launches cfg).
  - exists (q1 + q3). lia.
  - exists (q1 + q2 + q3). lia.
Qed.

Lemma configure_detailed rate mode (detailed : bool) :
  cfg_u32 (DETAILED_LAUNCHES (configure rate mode (Z.b2z detailed) init_state)) = Z.b2z detailed.
Proof. unfold configure. destruct (1 <? rate), detailed; reflexivity. Qed.

Lemma tracer_inv_configured cfg rate mode items :
  fits 32 rate -> Forall item_ok items ->
  tracer_inv (Z.b2z (lc_detailed_launches cfg))
    (run_tracer cfg items (configure rate mode (Z.b2z (lc_detailed_launches cfg)) init_state)) [] [] [].
Proof.
  intros Hr Hi. pose proof (tracer_inv_run cfg items _ (configure_fresh rate mode (Z.b2z (lc_detailed_launches cfg)) Hr) Hi) as H.
  by rewrite configure_detailed in H.
Qed.

(** The loop runs through and its counters take their part of the calls. *)
Lemma scrape_counts cfg y r pid :
  tracer_inv (Z.b2z (lc_detailed_launches cfg)) y [] [] [] -> children r = [] -> fits 32 pid ->
  Forall safe_op (tr_ops y) -> kept cfg pid (mkProcLedger ∅ ∅) (tr_ops y) = true ->
  let detailed := lc_detailed_launches cfg in
  exists st, run_main cfg (tr_ops y) (init_main r) = Ret st /\
    u64 (exported_calls (us_reg (ms_user st)) pid + waiting detailed pid (tr_bpf y)
         + map_calls detailed pid (tr_lost y) + map_calls detailed pid (tr_refused y)
         + ring_dropped pid (tr_ledger y) + unread detailed pid (tr_ledger y))
    = u64 (process_calls pid (tr_ledger y)).
Proof.
  intros Hinv Hc Hp Hn Hk. cbv zeta.
  assert (Hops : Forall main_op_ok (tr_ops y)).
  { apply Forall_forall. intros op Ho. apply fit_main_op_ok.
    - by apply (proj1 (Forall_forall _ _) (tv_fit _ _ _ _ _ Hinv)).
    - by apply (proj1 (Forall_forall _ _) Hn). }
  destruct (run_sim cfg (tr_ops y) r Hc Hops) as (st & E & [_ _ H3]). exists st. split; [done|].
  rewrite H3 by done. fold (calls_at pid (ledger_of cfg (tr_ops y))).
  unfold ledger_of. rewrite calls_at_run by done. by apply tracer_calls.
Qed.

(** C3: every call of a process reaches its counters.  Take any interleaving of program
    runs with the branches of the main loop, from an empty registry and maps as userspace
    configures them with a sampling rate of 32 bits, such that
    every kernel name that is read can be normalised and the enricher answers every lookup.
    Then the loop does not stop.  For a process that it has not had to forget (its pod does not
    change, and no gc tick finds it idle for longer than the limit), the completed calls of the
    process, modulo 2^64 and each with its sampling weight, are the sum of the calls counters of
    a scrape, the calls that wait in the aggregation maps and in the ring buffer, those that
    completed between the lookup and the deletion of their key, those that a full map refused,
    those that the ring buffer had no room for, and the anonymous launches that are only in
    LAUNCH_AGG although --detailed-launches keeps the loop from reading it. *)
Theorem every_call_reaches_scrape cfg rate mode items r pid :
  fits 32 rate -> children r = [] -> Forall item_ok items -> fits 32 pid ->
  let detailed := lc_detailed_launches cfg in
  let y := run_tracer cfg items (configure rate mode (Z.b2z detailed) init_state) in
  Forall safe_op (tr_ops y) -> kept cfg pid (mkProcLedger ∅ ∅) (tr_ops y) = true ->
  exists st, run_main cfg (tr_ops y) (init_main r) = Ret st /\
    u64 (exported_calls (us_reg (ms_user st)) pid + waiting detailed pid (tr_bpf y)
         + map_calls detailed pid (tr_lost y) + map_calls detailed pid (tr_refused y)
         + ring_dropped pid (tr_ledger y) + unread detailed pid (tr_ledger y))
    = u64 (process_calls pid (tr_ledger y)).
Proof.
  intros Hr Hc Hi Hp. cbv zeta. intros Hn Hk. apply scrape_counts; try done.
  by apply tracer_inv_configured.
Qed.
End Scrape.

(** ** An example *)

#[local] Existing Instance demo_cfg.
#[local] Existing Instance sample_tables.

(** Full mode with detailed launches. *)
Definition sample_system_cfg : LoopCfg := mkLoopCfg Full true sample_limits true 50.

Definition demo_launch (tid time : Z) : trace :=
  [(P_cuda_launch_kernel 4096, demo_env tid time 0 0);
   (P_cuda_launch_kernel_ret, demo_env tid (time + 50) 0 0)].

(** Two copies and a launch; the tick drains the copies while a third one completes;
    the event of the launch is read; a second launch stays in the ring buffer. *)
Definition sample_items : list item :=
  ((fun pe => I_run pe.1 pe.2) <$> demo_copy 1 1000 0 ++ demo_copy 2 2000 1 ++ demo_launch 1 2600) ++
  [I_tick (sample_world 3) (Some {[7]}) [] [mkDrained [] (sample_world 3) demo_copy_key (demo_copy 1 3000 0)]
     [] [];
   I_readable ∅ [sample_world 4; sample_world 5] [];
   I_gc (sample_world 6) [] true] ++
  ((fun pe => I_run pe.1 pe.2) <$> demo_launch 1 4000).

Definition sample_tracer : Tracer :=
  run_tracer sample_system_cfg sample_items (configure 0 0 1 init_state).

Lemma run_items_ok t : trace_wf t -> Forall item_ok ((fun pe => I_run pe.1 pe.2) <$> t).
Proof. intros Ht. by apply Forall_fmap. Qed.

Lemma sample_items_ok : Forall item_ok sample_items.
Proof.
  apply Forall_app_2; [apply run_items_ok; demo_trace_wf|].
  apply Forall_app_2; [|apply run_items_ok; demo_trace_wf].
  apply Forall_cons_2; [|apply Forall_cons_2; [done|apply Forall_cons_2; [done|apply Forall_nil_2]]].
  split; [apply Forall_nil_2|]. split; [|split; apply Forall_nil_2].
  apply Forall_cons_2; [|apply Forall_nil_2]. split; [apply Forall_nil_2|]. demo_trace_wf.
Qed.

(** One launch waits, one copy is lost. *)
Lemma sample_tracer_facts :
  waiting true 7 (tr_bpf sample_tracer) = 1 /\ map_calls true 7 (tr_lost sample_tracer) = 1 /\
  map_calls true 7 (tr_refused sample_tracer) = 0 /\
  ring_dropped 7 (tr_ledger sample_tracer) = 0 /\ unread true 7 (tr_ledger sample_tracer) = 0 /\
  process_calls 7 (tr_ledger sample_tracer) = 5 /\
  kept sample_system_cfg 7 (mkProcLedger ∅ ∅) (tr_ops sample_tracer) = true.
Proof. split_and!; vm_compute; reflexivity. Qed.

Lemma sample_answers now : answers (sample_world now).
Proof. intros pid comm. by eexists. Qed.

(** A branch of which all worlds are sample worlds, without names to read. *)
Definition sample_op (op : main_op) : Prop :=
  let sample w := exists now, w = sample_world now in
  match op with
  | M_readable _ events [] => Forall (fun we => sample we.1) events
  | M_agg w a l n =>
      sample w /\ Forall (fun x => sample x.1) a /\ Forall (fun x => sample x.1) l /\ Forall (fun x => sample x.1) n
  | M_gc w [] _ => sample w
  | _ => False
  end.

Lemma sample_op_safe op : sample_op op -> safe_op op.
Proof.
  assert (G : forall w, (exists now, w = sample_world now) -> answers w) by (intros w [now ->]; apply sample_answers).
  assert (GF : forall A (l : list (World * A)),
    Forall (fun x => exists now, x.1 = sample_world now) l -> Forall (fun x => answers x.1) l).
  { intros A l Hl. apply (Forall_impl _ _ _ Hl). auto. }
  destruct op as [changed es [|r rs]|w a l n|w [|r rs] wr]; cbn [sample_op safe_op]; try done.
  - intros He. split; [auto|apply Forall_nil_2].
  - intros (? & ? & ? & ?). split_and!; auto.
  - intros Hw. split; [auto|apply Forall_nil_2].
Qed.

Ltac sample_ops_safe :=
  apply (Forall_impl sample_op); [|exact sample_op_safe];
  vm_compute; repeat first [apply Forall_nil_2 | apply Forall_cons_2 | split | eexists; reflexivity].

Lemma sample_ops_safe : Forall safe_op (tr_ops sample_tracer).
Proof. sample_ops_safe. Qed.

Lemma every_call_reaches_scrape_witness :
  exists st, run_main sample_system_cfg (tr_ops sample_tracer) (init_main empty_store) = Ret st /\
    u64 (exported_calls (us_reg (ms_user st)) 7 + 1 + 1 + 0 + 0 + 0) = 5.
Proof.
  destruct sample_tracer_facts as (H1 & H2 & H3 & H4 & H5 & H6 & H7).
  destruct (every_call_reaches_scrape (PM := store_prometheus) sample_system_cfg 0 0 sample_items empty_store 7
    ltac:(fits_const) eq_refl sample_items_ok ltac:(fits_const) sample_ops_safe H7) as (st & E & H).
  exists st. split; [exact E|].
  change (u64 (exported_calls (us_reg (ms_user st)) 7 + waiting true 7 (tr_bpf sample_tracer)
    + map_calls true 7 (tr_lost sample_tracer) + map_calls true 7 (tr_refused sample_tracer)
    + ring_dropped 7 (tr_ledger sample_tracer) + unread true 7 (tr_ledger sample_tracer))
    = u64 (process_calls 7 (tr_ledger sample_tracer))) in H.
  rewrite H1, H2, H3, H4, H5, H6 in H. exact H.
Defined.
