(* ===== verification/Enrich.v ===== *)
(** * Pods and GPUs of processes: src/src/enrichment.rs

    The enricher maps a process to its pod through the container id in its cgroup and
    to its GPU through its open devices.  A watch of the Kubernetes API keeps the
    containers up to date from another thread; processes of pods with the annotation
    profi/mode: full are upgraded through UPGRADED_PIDS. *)

From stdpp Require Import strings.
From S2P Require Import Prelude RustStd Runtime Probes Step Demo Tick Metrics Cache.

Local Open Scope Z_scope.
#[local] Set Warnings "-clear-no-such-hyp".

(** ** Container ids *)

Definition is_ascii_hexdigit (c : Z) : bool :=
  is_ascii_digit c || ((65 <=? c) && (c <=? 70)) || ((97 <=? c) && (c <=? 102)).

(** [s.split(sep).next()]: a split has a first piece. *)
Definition first_piece (sep : Z) (s : str) : str := hd [] (split sep s).

(** The id after a marker of the container runtime. *)
Definition id_after (marker line : str) : outcome (option str) :=
  match find_str marker line with
  | Some idx =>
      rest ← slice line (idx + blen marker) (blen line);
      let id := first_piece 46 rest in
      if 12 <=? blen id then (id12 ← slice id 0 12; Ret (Some id12)) else Ret None
  | None => Ret None
  end.

(** The last path segment, when it is 64 hexadecimal digits. *)
Definition id_last_segment (line : str) : outcome (option str) :=
  match rfind_char 47 line with
  | Some last_slash =>
      segment ← slice line (last_slash + 1) (blen line);
      let id := first_piece 46 segment in
      if (64 <=? blen id) && forallb is_ascii_hexdigit id
      then (id12 ← slice id 0 12; Ret (Some id12)) else Ret None
  | None => Ret None
  end.

Definition id_of_line (line : str) : outcome (option str) :=
  r ← id_after (lit "cri-containerd-") line;
  match r with
  | Some id => Ret (Some id)
  | None =>
      r ← id_after (lit "crio-") line;
      match r with
      | Some id => Ret (Some id)
      | None => id_last_segment line
      end
  end.

Fixpoint id_of_lines (ls : list str) : outcome (option str) :=
  match ls with
  | [] => Ret None
  | line :: ls =>
      r ← id_of_line line;
      match r with
      | Some id => Ret (Some id)
      | None => id_of_lines ls
      end
  end.

Definition extract_container_id (cgroup : str) : outcome (option str) := id_of_lines (lines cgroup).

Definition short_container_id (full_id : str) : outcome (option str) :=
  let raw := rsplit_first (lit "://") full_id in
  if 12 <=? blen raw then (id12 ← slice raw 0 12; Ret (Some id12)) else Ret None.

(** ** Pods *)

Record PodInfo := mkPodInfo {
  pi_namespace : str; pi_pod : str; pi_container : str; pi_upgrade : bool
}.

#[export] Instance PodInfo_eq_dec : EqDecision PodInfo.
Proof. solve_decision. Defined.

Definition MODE_ANNOTATION : str := lit "profi/mode".

(** The fields of the Pod type of k8s_openapi that are read. *)
Record ContainerStatus := mkContainerStatus { cs_name : str; cs_container_id : option str }.
Record PodStatus := mkPodStatus {
  ps_container_statuses : option (list ContainerStatus);
  ps_init_container_statuses : option (list ContainerStatus)
}.
Record Pod := mkPod {
  pod_name : option str; pod_namespace : option str;
  pod_annotations : option (gmap str str); pod_status : option PodStatus
}.

Definition pod_upgrade (pod : Pod) : bool :=
  match pod_annotations pod ≫= lookup MODE_ANNOTATION with
  | Some v => bool_decide (v = lit "full")
  | None => false
  end.

Definition add_container (pod : Pod) (map : gmap str PodInfo) (cs : ContainerStatus)
    : outcome (gmap str PodInfo) :=
  match cs_container_id cs with
  | Some id =>
      r ← short_container_id id;
      Ret (match r with
           | Some short =>
               <[short := mkPodInfo (default [] (pod_namespace pod)) (default [] (pod_name pod))
                            (cs_name cs) (pod_upgrade pod)]> map
           | None => map
           end)
  | None => Ret map
  end.

Fixpoint add_containers (pod : Pod) (map : gmap str PodInfo) (css : list ContainerStatus)
    : outcome (gmap str PodInfo) :=
  match css with
  | [] => Ret map
  | cs :: css => map ← add_container pod map cs; add_containers pod map css
  end.

Definition extract_containers_from_pod (pod : Pod) : outcome (gmap str PodInfo) :=
  match pod_status pod with
  | Some status =>
      add_containers pod ∅ (default [] (ps_container_statuses status)
                            ++ default [] (ps_init_container_statuses status))
  | None => Ret ∅
  end.

(** ** GPUs *)

Record GpuDevice := mkGpuDevice { gd_index : Z; gd_uuid : str; gd_name : str }.

(** One line of an information file of the driver. *)
Definition gpu_line (acc : option Z * str * str) (line : str) : option Z * str * str :=
  let '(index, uuid, name) := acc in
  match strip_prefix (lit "Device Minor:") line with
  | Some val => (from_str_radix 32 10 (trim val), uuid, name)
  | None =>
      match strip_prefix (lit "GPU UUID:") line with
      | Some val => (index, trim val, name)
      | None =>
          match strip_prefix (lit "Model:") line with
          | Some val => (index, uuid, trim val)
          | None => acc
          end
      end
  end.

Definition gpu_of_info (info : str) : option GpuDevice :=
  let '(index, uuid, name) := foldl gpu_line (None, [], []) (lines info) in
  (fun idx => mkGpuDevice idx uuid name) <$> index.

(** [sort_by_key], which is stable *)
Fixpoint insert_by_index (d : GpuDevice) (l : list GpuDevice) : list GpuDevice :=
  match l with
  | [] => [d]
  | x :: l' => if gd_index d <=? gd_index x then d :: l else x :: insert_by_index d l'
  end.

(** [infos]: the entries of the directory of the driver whose file can be read. *)
Definition discover_gpu_devices (infos : option (list (option str))) : list GpuDevice :=
  match infos with
  | Some entries => foldr insert_by_index [] (omap (fun info => info ≫= gpu_of_info) entries)
  | None => []
  end.

(** The device a link of /proc/<pid>/fd names. *)
Definition link_minor (minor_to_gpu : gmap Z GpuDevice) (link : option str) : option Z :=
  link_str ← link;
  rest ← strip_prefix (lit "/dev/nvidia") link_str;
  minor ← from_str_radix 32 10 rest;
  if bool_decide (is_Some (minor_to_gpu !! minor)) then Some minor else None.

Definition count_minor (dev_counts : gmap Z Z) (minor : Z) : gmap Z Z :=
  <[minor := u32 (default 0 (dev_counts !! minor) + 1)]> dev_counts.

(** [max_by] on the count, then on the minor number *)
Definition better (a b : Z * Z) : Z * Z :=
  if (b.2 <? a.2) || ((b.2 =? a.2) && (b.1 <? a.1)) then a else b.

Definition max_minor (l : list (Z * Z)) : option (Z * Z) :=
  match l with [] => None | x :: l => Some (foldl better x l) end.

Definition resolve_pid_gpu (minor_to_gpu : gmap Z GpuDevice) (fds : option (list (option str)))
    : option GpuDevice :=
  match fds with
  | Some links =>
      let dev_counts := foldl count_minor ∅ (omap (link_minor minor_to_gpu) links) in
      max_minor (map_to_list dev_counts) ≫= fun mc => minor_to_gpu !! mc.1
  | None => None
  end.

(** ** The enricher *)

Record Enricher := mkEnricher {
  k8s_pid_cache : gmap Z (option PodInfo);
  gpu_pid_cache : gmap Z (option GpuDevice);
  container_map : gmap str PodInfo;
  gpu_devices : list GpuDevice;
  minor_to_gpu : gmap Z GpuDevice;
  changed_pids : gset Z;
  has_changes : bool;
  container_to_pids : gmap str (gset Z);
  upgraded_pids : gset Z;
  upgrade_dirty : bool
}.

Definition new_enricher (infos : option (list (option str))) : Enricher :=
  let devices := discover_gpu_devices infos in
  mkEnricher ∅ ∅ ∅ devices (foldl (fun m d => <[gd_index d := d]> m) ∅ devices) ∅ false ∅ ∅ false.

Definition set_k8s (f : gmap Z (option PodInfo) -> gmap Z (option PodInfo)) (e : Enricher) : Enricher :=
  mkEnricher (f (k8s_pid_cache e)) (gpu_pid_cache e) (container_map e) (gpu_devices e) (minor_to_gpu e)
    (changed_pids e) (has_changes e) (container_to_pids e) (upgraded_pids e) (upgrade_dirty e).

Definition set_gpu (f : gmap Z (option GpuDevice) -> gmap Z (option GpuDevice)) (e : Enricher) : Enricher :=
  mkEnricher (k8s_pid_cache e) (f (gpu_pid_cache e)) (container_map e) (gpu_devices e) (minor_to_gpu e)
    (changed_pids e) (has_changes e) (container_to_pids e) (upgraded_pids e) (upgrade_dirty e).

Definition set_map (f : gmap str PodInfo -> gmap str PodInfo) (e : Enricher) : Enricher :=
  mkEnricher (k8s_pid_cache e) (gpu_pid_cache e) (f (container_map e)) (gpu_devices e) (minor_to_gpu e)
    (changed_pids e) (has_changes e) (container_to_pids e) (upgraded_pids e) (upgrade_dirty e).

Definition set_changed (pids : gset Z) (b : bool) (e : Enricher) : Enricher :=
  mkEnricher (k8s_pid_cache e) (gpu_pid_cache e) (container_map e) (gpu_devices e) (minor_to_gpu e)
    pids b (container_to_pids e) (upgraded_pids e) (upgrade_dirty e).

Definition set_c2p (f : gmap str (gset Z) -> gmap str (gset Z)) (e : Enricher) : Enricher :=
  mkEnricher (k8s_pid_cache e) (gpu_pid_cache e) (container_map e) (gpu_devices e) (minor_to_gpu e)
    (changed_pids e) (has_changes e) (f (container_to_pids e)) (upgraded_pids e) (upgrade_dirty e).

(** A change of the set raises the flag. *)
Definition set_upgraded (pids : gset Z) (e : Enricher) : Enricher :=
  mkEnricher (k8s_pid_cache e) (gpu_pid_cache e) (container_map e) (gpu_devices e) (minor_to_gpu e)
    (changed_pids e) (has_changes e) (container_to_pids e) pids
    (upgrade_dirty e || negb (bool_decide (pids = upgraded_pids e))).

Definition clear_dirty (e : Enricher) : Enricher :=
  mkEnricher (k8s_pid_cache e) (gpu_pid_cache e) (container_map e) (gpu_devices e) (minor_to_gpu e)
    (changed_pids e) (has_changes e) (container_to_pids e) (upgraded_pids e) false.

Definition evict_pid (pid : Z) (e : Enricher) : Enricher :=
  let e := set_k8s (delete pid) e in
  let e := set_gpu (delete pid) e in
  set_upgraded (upgraded_pids e ∖ {[pid]}) e.

(** The steps of [resolve_k8s] on state that the watch shares, each under a lock of its own: the
    load of the container map, the write of the index, the mark of an upgraded process; then the
    answer is cached. *)
Definition k8s_load (cgroup : str) (e : Enricher) : outcome (option str * option PodInfo) :=
  container_id ← extract_container_id cgroup;
  Ret (container_id, container_id ≫= fun id => container_map e !! id).

Definition k8s_index (container_id : option str) (pid : Z) (e : Enricher) : Enricher :=
  match container_id with
  | Some cid => set_c2p (fun m => <[cid := {[pid]} ∪ default ∅ (m !! cid)]> m) e
  | None => e
  end.

Definition k8s_mark (result : option PodInfo) (pid : Z) (e : Enricher) : Enricher :=
  match result with
  | Some info => if pi_upgrade info then set_upgraded ({[pid]} ∪ upgraded_pids e) e else e
  | None => e
  end.

(** The steps one after the other.  [cgroup]: the contents of /proc/<pid>/cgroup *)
Definition resolve_k8s (cgroup : option str) (pid : Z) (e : Enricher) : outcome (Enricher * option PodInfo) :=
  match k8s_pid_cache e !! pid with
  | Some cached => Ret (e, cached)
  | None =>
      match cgroup with
      | None => Ret (e, None)
      | Some cgroup =>
          '(container_id, result) ← k8s_load cgroup e;
          let e := k8s_index container_id pid e in
          let e := k8s_mark result pid e in
          Ret (set_k8s (insert pid result) e, result)
      end
  end.

Definition resolve_gpu (fds : option (list (option str))) (pid : Z) (e : Enricher)
    : Enricher * option GpuDevice :=
  match gpu_pid_cache e !! pid with
  | Some cached => (e, cached)
  | None =>
      let result :=
        if bool_decide (gpu_devices e = []) then None else resolve_pid_gpu (minor_to_gpu e) fds in
      (set_gpu (insert pid result) e, result)
  end.

Definition labels_from (comm : str) (k8s : option PodInfo) (gpu : option GpuDevice) : Labels :=
  mkLabels comm (from_option pi_namespace [] k8s) (from_option pi_pod [] k8s)
    (from_option pi_container [] k8s) (from_option (fun g => to_string (gd_index g)) [] gpu)
    (from_option gd_uuid [] gpu).

Definition lookup_labels (cgroup : option str) (fds : option (list (option str))) (pid : Z) (comm : str)
    (e : Enricher) : outcome (Enricher * Labels) :=
  '(e, k8s) ← resolve_k8s cgroup pid e;
  let '(e, gpu) := resolve_gpu fds pid e in
  Ret (e, labels_from comm k8s gpu).

Definition affected (cids : list str) (e : Enricher) : gset Z :=
  foldl (fun s cid => s ∪ default ∅ (container_to_pids e !! cid)) ∅ cids.

(** The writes of [invalidate_containers], each under a lock of its own. *)
Definition uncache_pids (pids : gset Z) (e : Enricher) : Enricher :=
  set_k8s (filter (fun kv => kv.1 ∉ pids)) e.
Definition unmark_pids (pids : gset Z) (e : Enricher) : Enricher :=
  set_upgraded (upgraded_pids e ∖ pids) e.
Definition announce_pids (pids : gset Z) (e : Enricher) : Enricher :=
  set_changed (changed_pids e ∪ pids) true e.

Definition invalidate_containers (cids : list str) (e : Enricher) : Enricher :=
  let pids := affected cids e in
  if bool_decide (pids = ∅) then e
  else announce_pids pids (unmark_pids pids (uncache_pids pids e)).

(** The loop takes the processes whose pod changed. *)
Definition take_changes (e : Enricher) : Enricher * gset Z :=
  if has_changes e && negb (bool_decide (changed_pids e = ∅))
  then (set_changed ∅ false e, changed_pids e) else (e, ∅).

(** ** The watch of the Kubernetes API *)

Inductive Event := Init | InitApply (pod : Pod) | InitDone | Apply (pod : Pod) | Delete (pod : Pod).

(** The containers that are known for a pod. *)
Definition cids_of_pod (pod : Pod) (map : gmap str PodInfo) : list str :=
  (map_to_list (filter (fun kv => pi_pod kv.2 = default [] (pod_name pod) /\
                                  pi_namespace kv.2 = default [] (pod_namespace pod)) map)).*1.

Definition remove_cids (cids : list str) (map : gmap str PodInfo) : gmap str PodInfo :=
  foldl (fun m cid => delete cid m) map cids.

(** The first step of an event: the container map is replaced.  Gives the pending map of a list in
    progress, the containers to invalidate, and whether the processes without a pod are forgotten
    after that. *)
Definition watch_map (ev : Event) (ep : Enricher * gmap str PodInfo)
    : outcome (Enricher * gmap str PodInfo * list str * bool) :=
  let '(e, pending_map) := ep in
  match ev with
  | Init => Ret (e, ∅, [], false)
  | InitApply pod =>
      containers ← extract_containers_from_pod pod;
      Ret (e, containers ∪ pending_map, [], false)
  | InitDone =>
      let removed := (map_to_list (filter (fun kv => pending_map !! kv.1 = None) (container_map e))).*1 in
      Ret (set_map (fun _ => pending_map) e, ∅, removed, true)
  | Apply pod =>
      new_containers ← extract_containers_from_pod pod;
      let old_cids := cids_of_pod pod (container_map e) in
      Ret (set_map (fun old => new_containers ∪ remove_cids old_cids old) e, pending_map, old_cids, false)
  | Delete pod =>
      let removed_cids := cids_of_pod pod (container_map e) in
      Ret (set_map (remove_cids removed_cids) e, pending_map, removed_cids, false)
  end.

(** At the end of a list the processes without a pod are forgotten. *)
Definition retain_known (init_done : bool) (e : Enricher) : Enricher :=
  if init_done then set_k8s (filter (fun kv => is_Some kv.2)) e else e.

(** One event, all its steps one after the other. *)
Definition on_watch (ev : Event) (ep : Enricher * gmap str PodInfo)
    : outcome (Enricher * gmap str PodInfo) :=
  '(e, pending_map, cids, init_done) ← watch_map ev ep;
  let e := invalidate_containers cids e in
  Ret (retain_known init_done e, pending_map).

(** ** Container ids: lemmas *)

Lemma find_str_Some p s o :
  find_str p s = Some o -> exists a t, s = a ++ p ++ t /\ o = blen a.
Proof.
  revert o. induction s as [|c s IH]; intros o; cbn [find_str].
  - destruct (starts_with p []) eqn:E; [|done]. intros [= <-].
    apply starts_with_spec in E as [t E]. by exists [], t.
  - destruct (starts_with p (c :: s)) eqn:E.
    { intros [= <-]. apply starts_with_spec in E as [t E]. by exists [], t. }
    intros (o' & (a & t & -> & ->)%IH & ->)%fmap_Some. by exists (c :: a), t.
Qed.

Lemma first_piece_app sep s : exists t, s = first_piece sep s ++ t.
Proof.
  unfold first_piece, split. induction s as [|c s [t IH]]; [by exists []|]. cbn [split_by].
  destruct (sep =? c); [by exists (c :: s)|].
  destruct (split_by (Z.eqb sep) s) as [|l ls]; simpl in *; [by exists s|].
  exists t. by rewrite IH at 1.
Qed.

Lemma first_piece_stop sep p t : sep ∉ p -> first_piece sep (p ++ sep :: t) = p.
Proof.
  unfold first_piece, split. induction p as [|c p IH]; intros Hp; cbn [app split_by].
  - by rewrite Z.eqb_refl.
  - apply not_elem_of_cons in Hp as [Hc Hp]. rewrite (proj2 (Z.eqb_neq sep c)) by done.
    specialize (IH Hp). destruct (split_by _ _) as [|l ls]; simpl in *; [|by rewrite IH].
    by rewrite <- IH.
Qed.

Lemma ascii_slice12 s : ascii s -> (12 <=? blen s) = true -> slice s 0 12 = Ret (take 12 s).
Proof.
  intros Ha Hl%Z.leb_le. rewrite ascii_blen in Hl by done. by rewrite ascii_slice by (done || lia).
Qed.

Lemma ascii_first_piece sep s : ascii s -> ascii (first_piece sep s).
Proof. destruct (first_piece_app sep s) as [t E]. rewrite E at 1. by intros [? _]%ascii_app. Qed.

Lemma ascii_id_after m line : ascii line -> exists r, id_after m line = Ret r.
Proof.
  intros Ha. unfold id_after. destruct (find_str m line) as [o|] eqn:E; [|by eexists].
  apply find_str_Some in E as (a & t & -> & ->). rewrite app_assoc, <- blen_app, slice_suffix.
  cbn [mbind outcome_bind]. rewrite !ascii_app in Ha. destruct Ha as (_ & _ & Ht).
  destruct (12 <=? blen _) eqn:E; [|by eexists].
  rewrite ascii_slice12 by (done || by apply ascii_first_piece). by eexists.
Qed.

Lemma ascii_id_last line : ascii line -> exists r, id_last_segment line = Ret r.
Proof.
  intros Ha. unfold id_last_segment. destruct (rfind_char 47 line) as [o|] eqn:E; [|by eexists].
  apply rfind_char_Some in E as (a & t & -> & -> & _).
  change (blen a + 1) with (blen a + blen [47]). change (47 :: t) with ([47] ++ t).
  rewrite <- blen_app, app_assoc, slice_suffix. cbn [mbind outcome_bind]. apply ascii_app in Ha as [_ Ha].
  apply Forall_cons in Ha as [_ Ht].
  destruct ((64 <=? blen _) && _) eqn:E; [|by eexists]. apply andb_true_iff in E as [E%Z.leb_le _].
  rewrite ascii_slice12; [by eexists|by apply ascii_first_piece|apply Z.leb_le; lia].
Qed.

Lemma ascii_lines s : ascii s -> Forall ascii (lines s).
Proof.
  induction 1 as [|c s Hc _ IH]; cbn [lines]; [apply Forall_nil_2|].
  repeat case_match; simplify_eq; try done.
  - by apply Forall_cons_2; [apply Forall_nil_2|].
  - by repeat apply Forall_cons_2; try apply Forall_nil_2.
  - apply Forall_cons in IH as [? ?]. apply Forall_cons_2; [by apply Forall_cons_2|done].
Qed.

Lemma ascii_id_of_lines ls : Forall ascii ls -> exists r, id_of_lines ls = Ret r.
Proof.
  induction 1 as [|line ls Hl _ IH]; [by eexists|]. cbn [id_of_lines]. unfold id_of_line.
  destruct (ascii_id_after (lit "cri-containerd-") line Hl) as [[id|] ->]; cbn [mbind outcome_bind];
    [by eexists|].
  destruct (ascii_id_after (lit "crio-") line Hl) as [[id|] ->]; cbn [mbind outcome_bind]; [by eexists|].
  destruct (ascii_id_last line Hl) as [[id|] ->]; cbn [mbind outcome_bind]; [by eexists|done].
Qed.

Lemma ascii_extract cg : ascii cg -> exists r, extract_container_id cg = Ret r.
Proof. intros Ha. by apply ascii_id_of_lines, ascii_lines. Qed.

Lemma after_last_Some p s r : after_last p s = Some r -> exists a, s = a ++ r.
Proof.
  induction s as [|c s IH]; cbn [after_last]; [done|].
  destruct (after_last p s) as [r'|].
  - intros [= ->]. destruct (IH eq_refl) as [a ->]. by exists (c :: a).
  - case_match; [|done]. intros [= <-]. exists (take (length p) (c :: s)). by rewrite take_drop.
Qed.

Lemma ascii_short id : ascii id -> exists r, short_container_id id = Ret r.
Proof.
  intros Ha. unfold short_container_id, rsplit_first.
  assert (Hr : ascii (default id (after_last (lit "://") id))).
  { destruct (after_last _ id) as [r|] eqn:E; [|done]. apply after_last_Some in E as [a ->].
    by apply ascii_app in Ha as [_ ?]. }
  destruct (12 <=? blen _) eqn:E; [|by eexists]. rewrite ascii_slice12 by done. by eexists.
Qed.

(** ** The id in a cgroup is the id that the API reports *)

(** No proper prefix of the marker is also a suffix of it. *)
Definition borderless (m : str) : bool :=
  forallb (fun k => negb (bool_decide (take k m = drop (length m - k) m))) (seq 1 (length m - 1)).

Lemma starts_with_cut m a b :
  starts_with m (a ++ b) = true -> (length m <= length a)%nat -> starts_with m a = true.
Proof.
  intros [t E]%starts_with_spec Hl. apply starts_with_spec. exists (drop (length m) a).
  assert (Hm : m = take (length m) a).
  { rewrite <- (take_app_le a b) by done. rewrite E. by rewrite take_app_length. }
  rewrite Hm at 1. by rewrite take_drop.
Qed.

Lemma no_overlap m a t :
  borderless m = true -> a <> [] -> (length a < length m)%nat -> starts_with m (a ++ m ++ t) = false.
Proof.
  intros Hb Ha Hl. apply not_true_is_false. intros [u E]%starts_with_spec.
  set (k := (length m - length a)%nat).
  assert (H1 : drop (length a) m = take k m).
  { assert (E1 : take (length m) (a ++ m ++ t) = m) by (rewrite E; apply take_app_length).
    rewrite take_app_ge in E1 by lia. fold k in E1. rewrite take_app_le in E1 by lia.
    rewrite <- E1 at 1. by rewrite drop_app_length. }
  assert (Hk : k ∈ seq 1 (length m - 1)).
  { apply elem_of_seq. destruct a; [done|]. simpl in *. lia. }
  unfold borderless in Hb. rewrite forallb_forall in Hb.
  specialize (Hb k ltac:(by apply list_elem_of_In)). rewrite bool_decide_true in Hb; [done|].
  rewrite <- H1. f_equal. lia.
Qed.

Lemma find_str_first m pre t :
  borderless m = true -> contains m pre = false -> m <> [] ->
  find_str m (pre ++ m ++ t) = Some (blen pre).
Proof.
  intros Hb Hc Hm. induction pre as [|c pre IH].
  - simpl. assert (Hs : starts_with m (m ++ t) = true) by (apply starts_with_spec; by eexists).
    destruct (m ++ t); cbn [find_str]; by rewrite Hs.
  - cbn [contains] in Hc. apply orb_false_iff in Hc as [Hs Hc]. cbn [app find_str].
    assert (E : starts_with m (c :: pre ++ m ++ t) = false).
    { destruct (decide (length m <= length (c :: pre)))%nat as [Hl|Hl].
      - apply not_true_is_false. intros Hst. change (c :: pre ++ m ++ t) with ((c :: pre) ++ m ++ t) in Hst.
        apply starts_with_cut in Hst; [congruence|done].
      - apply (no_overlap m (c :: pre) t Hb); [done|lia]. }
    by rewrite E, (IH Hc).
Qed.

Definition hex_id (id : str) : Prop := Forall (fun c => is_ascii_hexdigit c = true) id.

Lemma hex_char c : is_ascii_hexdigit c = true -> 48 <= c <= 102 /\ c <> 58.
Proof. unfold is_ascii_hexdigit, is_ascii_digit. intros. split; lia. Qed.

Lemma hex_ascii id : hex_id id -> ascii id.
Proof. intros Hh. eapply Forall_impl; [exact Hh|]. intros c Hc%hex_char. lia. Qed.

Lemma hex_absent c id : hex_id id -> c < 48 \/ c = 58 -> c ∉ id.
Proof. intros Hh Hc Hi. apply (proj1 (Forall_forall _ _) Hh) in Hi. apply hex_char in Hi. lia. Qed.

Lemma lines_head line rest :
  line <> [] -> 10 ∉ line -> last line <> Some 13 -> rest = [] \/ head rest = Some 10 ->
  exists ls, lines (line ++ rest) = line :: ls.
Proof.
  intros Hne Hn Hl Hr. induction line as [|c line IH]; [done|].
  apply not_elem_of_cons in Hn as [Hc Hn]. cbn [app lines].
  rewrite (proj2 (Z.eqb_neq c 10)) by done. destruct line as [|d line].
  - simpl. rewrite (proj2 (Z.eqb_neq c 13)) by (intros ->; done). rewrite andb_false_r.
    destruct rest as [|x rest]; [by exists []|]. destruct Hr as [|[= ->]]; [done|]. cbn [lines].
    by exists (lines rest).
  - destruct IH as [ls E]; [done|done|done|]. rewrite bool_decide_false.
    + simpl andb. cbv iota. rewrite E. by exists ls.
    + simpl. intros [= ->]. apply Hn. left.
Qed.

(** The path of a cgroup of containerd. *)
Definition containerd_cgroup (pre id rest : str) : str :=
  (pre ++ lit "cri-containerd-" ++ id ++ lit ".scope") ++ rest.

Lemma extract_containerd pre id rest :
  hex_id id -> (12 <= length id)%nat -> 10 ∉ pre -> contains (lit "cri-containerd-") pre = false ->
  rest = [] \/ head rest = Some 10 ->
  extract_container_id (containerd_cgroup pre id rest) = Ret (Some (take 12 id)).
Proof.
  intros Hh Hl Hpre Hc Hr. unfold extract_container_id, containerd_cgroup.
  set (line := pre ++ lit "cri-containerd-" ++ id ++ lit ".scope").
  assert (Hne : line <> []) by (unfold line; intros E; apply (f_equal length) in E; rewrite !length_app in E; simpl in E; lia).
  destruct (lines_head line rest) as [ls ->]; [done| | |done|].
  - unfold line. rewrite !not_elem_of_app. split_and!; [done| |by apply hex_absent; [|lia]|];
      apply (bool_decide_unpack _); vm_compute; exact I.
  - unfold line. rewrite !app_assoc, last_app. by vm_compute.
  - cbn [id_of_lines]. unfold id_of_line, id_after, line.
    rewrite (find_str_first (lit "cri-containerd-") pre) by done.
    rewrite <- blen_app, app_assoc, slice_suffix. cbn [mbind outcome_bind].
    change (id ++ lit ".scope") with (id ++ 46 :: lit "scope").
    rewrite first_piece_stop by (apply hex_absent; [done|lia]).
    assert (E : (12 <=? blen id) = true) by (apply Z.leb_le; rewrite ascii_blen by (by apply hex_ascii); lia).
    by rewrite E, ascii_slice12 by (done || by apply hex_ascii).
Qed.

Lemma after_last_absent c p s : c ∉ s -> after_last (c :: p) s = None.
Proof.
  induction s as [|x s IH]; intros Hc; [done|]. apply not_elem_of_cons in Hc as [Hx Hc].
  cbn [after_last starts_with]. rewrite IH by done. by rewrite (proj2 (Z.eqb_neq c x)).
Qed.

Lemma after_last_found c p a s : c ∉ p -> c ∉ s -> after_last (c :: p) (a ++ (c :: p) ++ s) = Some s.
Proof.
  intros Hp Hs. induction a as [|x a IH]; cbn [app after_last].
  - rewrite after_last_absent by (rewrite not_elem_of_app; done).
    assert (starts_with (c :: p) (c :: p ++ s) = true) as -> by (apply starts_with_spec; by exists s).
    change (c :: p ++ s) with ((c :: p) ++ s). by rewrite drop_app_length.
  - by change (after_last (c :: p) (a ++ c :: p ++ s)) with (after_last (c :: p) (a ++ (c :: p) ++ s)); rewrite IH.
Qed.

Lemma short_containerd id :
  hex_id id -> (12 <= length id)%nat ->
  short_container_id (lit "containerd://" ++ id) = Ret (Some (take 12 id)).
Proof.
  intros Hh Hl. unfold short_container_id, rsplit_first.
  change (lit "containerd://" ++ id) with (lit "containerd" ++ (58 :: lit "//") ++ id).
  change (lit "://") with (58 :: lit "//").
  rewrite after_last_found; [| |by apply hex_absent; [|lia]].
  2:{ apply (bool_decide_unpack _). vm_compute. exact I. }
  change (default _ (Some id)) with id.
  assert (E : (12 <=? blen id) = true) by (apply Z.leb_le; rewrite ascii_blen by (by apply hex_ascii); lia).
  by rewrite E, ascii_slice12 by (done || by apply hex_ascii).
Qed.

Lemma filter_dom (P : Z * option PodInfo -> Prop) `{!forall x, Decision (P x)} (m : gmap Z (option PodInfo)) :
  dom (filter P m) ⊆ dom m.
Proof. apply subseteq_dom, map_filter_subseteq. Qed.

Lemma invalidate_dom cids e :
  dom (k8s_pid_cache (invalidate_containers cids e)) ⊆ dom (k8s_pid_cache e).
Proof. unfold invalidate_containers. case_bool_decide; [done|]. apply filter_dom. Qed.

Lemma watch_map_frame ev e pending e' pending' cids d :
  watch_map ev (e, pending) = Ret (e', pending', cids, d) -> set_map (fun _ => container_map e') e = e'.
Proof.
  destruct e. destruct ev as [|pod| |pod|pod]; cbn [watch_map];
    try (destruct (extract_containers_from_pod pod); cbn [mbind outcome_bind]; [|done..]); by intros [= <- _ _ _].
Qed.

Lemma watch_dom ev e pending e' pending' :
  on_watch ev (e, pending) = Ret (e', pending') -> dom (k8s_pid_cache e') ⊆ dom (k8s_pid_cache e).
Proof.
  unfold on_watch. destruct (watch_map ev (e, pending)) as [[[[e1 p1] cids] d]| |] eqn:E;
    cbn [mbind outcome_bind]; [|done..]. intros [= <- _].
  rewrite <- (watch_map_frame _ _ _ _ _ _ _ E).
  destruct d; cbn [retain_known]; [etrans; [apply filter_dom|]|]; (etrans; [apply invalidate_dom|done]).
Qed.

(** ** ASCII names never stop the enricher *)

Definition statuses (pod : Pod) : list ContainerStatus :=
  match pod_status pod with
  | Some status => default [] (ps_container_statuses status)
                   ++ default [] (ps_init_container_statuses status)
  | None => []
  end.

Definition pod_ascii (pod : Pod) : Prop :=
  Forall (fun cs => forall id, cs_container_id cs = Some id -> ascii id) (statuses pod).

Definition event_ascii (ev : Event) : Prop :=
  match ev with InitApply pod | Apply pod | Delete pod => pod_ascii pod | _ => True end.

Lemma ascii_add_containers pod m css :
  Forall (fun cs => forall id, cs_container_id cs = Some id -> ascii id) css ->
  exists m', add_containers pod m css = Ret m'.
Proof.
  intros Hc. revert m. induction Hc as [|cs css Hcs _ IH]; intros m; [by eexists|].
  cbn [add_containers]. unfold add_container. destruct (cs_container_id cs) as [id|]; [|apply IH].
  destruct (ascii_short id (Hcs id eq_refl)) as [r ->]. apply IH.
Qed.

Lemma ascii_containers pod : pod_ascii pod -> exists m, extract_containers_from_pod pod = Ret m.
Proof.
  unfold pod_ascii, statuses, extract_containers_from_pod. destruct (pod_status pod); [|by eexists].
  apply ascii_add_containers.
Qed.

Lemma ascii_watch_map ev ep : event_ascii ev -> exists r, watch_map ev ep = Ret r.
Proof.
  destruct ep as [e p]. destruct ev as [|pod| |pod|pod]; cbn [watch_map event_ascii]; try (by eexists);
    intros [m ->]%ascii_containers; by eexists.
Qed.

(** ** Labels *)

Section PodLabels.

Definition info_of (pod : Pod) (cs : ContainerStatus) : PodInfo :=
  mkPodInfo (default [] (pod_namespace pod)) (default [] (pod_name pod)) (cs_name cs) (pod_upgrade pod).

(** The container of a status is in the map of the pod, when its short id names one
    container. *)
Lemma add_containers_mem pod short info css m m' :
  add_containers pod m css = Ret m' ->
  (forall cs id, cs ∈ css -> cs_container_id cs = Some id ->
     short_container_id id = Ret (Some short) -> info_of pod cs = info) ->
  (m !! short = Some info \/
   exists cs id, cs ∈ css /\ cs_container_id cs = Some id /\ short_container_id id = Ret (Some short)) ->
  m' !! short = Some info.
Proof.
  revert m. induction css as [|cs css IH]; intros m; cbn [add_containers].
  { intros [= ->] _ [?|(cs & id & Hc%elem_of_nil & _)]; done. }
  unfold add_container. destruct (cs_container_id cs) as [id|] eqn:Eid.
  - destruct (short_container_id id) as [r| |] eqn:Es; cbn [mbind outcome_bind]; [|done..].
    intros Hadd Hu Hin. apply (IH _ Hadd); [intros; eapply Hu; [by right|done..]|].
    destruct r as [s|].
    + destruct (decide (s = short)) as [->|Hne].
      { left. rewrite lookup_insert_eq. f_equal. symmetry. rewrite <- (Hu cs id); [done|left|done|done]. }
      rewrite lookup_insert_ne by done. destruct Hin as [?|(cs' & id' & Hc & H1 & H2)]; [by left|].
      apply elem_of_cons in Hc as [->|Hc]; [congruence|]. right. eauto.
    + destruct Hin as [?|(cs' & id' & Hc & H1 & H2)]; [by left|].
      apply elem_of_cons in Hc as [->|Hc]; [congruence|]. right. eauto.
  - cbn [mbind outcome_bind]. intros Hadd Hu Hin. apply (IH _ Hadd); [intros; eapply Hu; [by right|done..]|].
    destruct Hin as [?|(cs' & id' & Hc & H1 & H2)]; [by left|].
    apply elem_of_cons in Hc as [->|Hc]; [congruence|]. right. eauto.
Qed.

Lemma resolve_k8s_found cg cid info pid e :
  k8s_pid_cache e !! pid = None -> extract_container_id cg = Ret (Some cid) ->
  container_map e !! cid = Some info ->
  resolve_k8s (Some cg) pid e
  = let e := set_c2p (fun m => <[cid := {[pid]} ∪ default ∅ (m !! cid)]> m) e in
    Ret (set_k8s (insert pid (Some info))
           (if pi_upgrade info then set_upgraded ({[pid]} ∪ upgraded_pids e) e else e), Some info).
Proof.
  intros H1 H2 H3. unfold resolve_k8s, k8s_load. rewrite H1, H2. cbv [mbind outcome_bind option_bind]. by rewrite H3.
Qed.

(** C16: a process of a pod gets the labels of the pod.  When the watch reports a pod with
    a container whose id is containerd://<hex id>, a process that is not cached and
    whose cgroup names cri-containerd-<hex id>.scope is labelled with the namespace, the
    name and the container of the pod, and is upgraded when the pod has the
    annotation. *)
Theorem pod_process_labelled e pending pod cs id pid pre rest fds comm :
  hex_id id -> (12 <= length id)%nat -> 10 ∉ pre -> contains (lit "cri-containerd-") pre = false ->
  rest = [] \/ head rest = Some 10 ->
  pod_ascii pod -> cs ∈ statuses pod -> cs_container_id cs = Some (lit "containerd://" ++ id) ->
  (forall cs' id', cs' ∈ statuses pod -> cs_container_id cs' = Some id' ->
     short_container_id id' = Ret (Some (take 12 id)) -> cs_name cs' = cs_name cs) ->
  k8s_pid_cache e !! pid = None ->
  exists e1 e2 l,
    on_watch (Apply pod) (e, pending) = Ret (e1, pending) /\
    lookup_labels (Some (containerd_cgroup pre id rest)) fds pid comm e1 = Ret (e2, l) /\
    lb_namespace l = default [] (pod_namespace pod) /\ lb_pod l = default [] (pod_name pod) /\
    lb_container l = cs_name cs /\
    (pod_upgrade pod = true -> pid ∈ upgraded_pids e2).
Proof.
  intros Hh Hl Hpre Hc Hr Ha Hin Hid Huniq Hpid. destruct (ascii_containers pod Ha) as [new En].
  assert (Hnew : new !! take 12 id = Some (info_of pod cs)).
  { unfold extract_containers_from_pod, statuses in *. destruct (pod_status pod) as [status|];
      [|by apply elem_of_nil in Hin].
    apply (add_containers_mem pod _ _ _ ∅ new En).
    - intros cs' id' H1 H2 H3. unfold info_of. f_equal. by eapply Huniq.
    - right. exists cs, (lit "containerd://" ++ id). split_and!; [done|done|by apply short_containerd]. }
  assert (Ew : exists e1, on_watch (Apply pod) (e, pending) = Ret (e1, pending) /\
    container_map e1 !! take 12 id = Some (info_of pod cs)).
  { unfold on_watch. cbn [watch_map]. rewrite En. cbn [retain_known mbind outcome_bind]. eexists. split; [done|].
    unfold invalidate_containers. case_bool_decide; simpl; by apply lookup_union_Some_l. }
  destruct Ew as (e1 & Ew & Hmap).
  assert (Hpid1 : k8s_pid_cache e1 !! pid = None).
  { apply not_elem_of_dom. apply watch_dom in Ew. apply not_elem_of_dom in Hpid. set_solver. }
  exists e1. unfold lookup_labels.
  rewrite (resolve_k8s_found _ (take 12 id) (info_of pod cs)) by (done || by apply extract_containerd).
  cbn [mbind outcome_bind]. set (e2 := set_k8s _ _). destruct (resolve_gpu fds pid e2) as [e3 g] eqn:Eg.
  eexists e3, _. split; [done|]. split; [done|]. split_and!; try done. intros Hup.
  assert (E3 : upgraded_pids e3 = upgraded_pids e2).
  { unfold resolve_gpu in Eg. destruct (gpu_pid_cache e2 !! pid); by injection Eg as <- _. }
  rewrite E3. unfold e2, info_of. cbn [pi_upgrade]. rewrite Hup. simpl. set_solver.
Qed.
(** ** Cached pods follow the watch *)

(** [cg] are the cgroups of the processes, [owner] the pod of each container id. *)
Section Coherence.
Variables (cg : Z -> option str) (owner : str -> str * str).

Definition owned_map (m : gmap str PodInfo) : Prop :=
  forall cid info, m !! cid = Some info -> owner cid = (pi_namespace info, pi_pod info).

(** Container ids belong to one pod. *)
Definition pod_owned (pod : Pod) : Prop :=
  forall m, extract_containers_from_pod pod = Ret m -> owned_map m.

(** A list after the first one reports the containers that it has in common with the map
    unchanged. *)
Definition event_fits (ev : Event) (e : Enricher) (pending : gmap str PodInfo) : Prop :=
  match ev with
  | Init => True
  | InitApply pod | Apply pod | Delete pod => pod_owned pod
  | InitDone => forall cid i j, container_map e !! cid = Some i -> pending !! cid = Some j -> i = j
  end.

(** The container of a process. *)
Definition cid_of (pid : Z) (cid : str) : Prop :=
  exists g, cg pid = Some g /\ extract_container_id g = Ret (Some cid).

Lemma affected_elem cids cid pid e :
  cid ∈ cids -> pid ∈ default ∅ (container_to_pids e !! cid) -> pid ∈ affected cids e.
Proof.
  unfold affected. intros Hc Hp. enough (forall s, pid ∈ s \/ cid ∈ cids ->
    pid ∈ foldl (fun s cid => s ∪ default ∅ (container_to_pids e !! cid)) s cids) as H by (apply H; auto).
  clear Hc. induction cids as [|c cids IH]; intros s [Hs|Hc]; cbn [foldl]; try (by apply elem_of_nil in Hc);
    [done|apply IH; set_solver|].
  apply IH. apply elem_of_cons in Hc as [->|Hc]; set_solver.
Qed.

Lemma remove_cids_lookup cids m cid :
  remove_cids cids m !! cid = if decide (cid ∈ cids) then None else m !! cid.
Proof.
  unfold remove_cids. revert m. induction cids as [|c cids IH]; intros m; cbn [foldl];
    [by rewrite decide_False by apply not_elem_of_nil|].
  rewrite IH, lookup_delete. repeat case_decide; set_solver.
Qed.

Lemma cids_of_pod_elem pod m cid :
  cid ∈ cids_of_pod pod m <->
  exists info, m !! cid = Some info /\ pi_pod info = default [] (pod_name pod) /\
    pi_namespace info = default [] (pod_namespace pod).
Proof.
  unfold cids_of_pod. rewrite list_elem_of_fmap. split.
  - intros ([c info] & -> & (Hm & Hp)%elem_of_map_to_list%map_lookup_filter_Some). by exists info.
  - intros (info & Hm & Hp). exists (cid, info). split; [done|].
    apply elem_of_map_to_list, map_lookup_filter_Some. done.
Qed.
Lemma add_containers_pod pod css m m' cid info :
  add_containers pod m css = Ret m' -> m' !! cid = Some info ->
  m !! cid = Some info \/
  (pi_namespace info = default [] (pod_namespace pod) /\ pi_pod info = default [] (pod_name pod)).
Proof.
  revert m. induction css as [|cs css IH]; intros m; cbn [add_containers]; [intros [= ->]; auto|].
  unfold add_container. destruct (cs_container_id cs) as [id|]; [|apply IH].
  destruct (short_container_id id) as [[short|]| |]; cbn [mbind outcome_bind]; [|apply IH|done..].
  intros Ha Hm. destruct (IH _ Ha Hm) as [Hi|?]; [|auto].
  rewrite lookup_insert in Hi. case_decide; [|auto]. injection Hi as <-. auto.
Qed.

Lemma extract_pod pod m cid info :
  extract_containers_from_pod pod = Ret m -> m !! cid = Some info ->
  pi_namespace info = default [] (pod_namespace pod) /\ pi_pod info = default [] (pod_name pod).
Proof.
  unfold extract_containers_from_pod. destruct (pod_status pod) as [status|].
  - intros Ha Hm. destruct (add_containers_pod _ _ _ _ _ _ Ha Hm) as [Hi|?]; [|done].
    by apply lookup_empty_Some in Hi.
  - intros [= <-] Hi. by apply lookup_empty_Some in Hi.
Qed.

(** Containers of a pod that stay are among its old containers. *)
Lemma apply_keeps e pod new cid info :
  owned_map (container_map e) -> extract_containers_from_pod pod = Ret new -> owned_map new ->
  container_map e !! cid = Some info -> cid ∉ cids_of_pod pod (container_map e) ->
  (new ∪ remove_cids (cids_of_pod pod (container_map e)) (container_map e)) !! cid = Some info.
Proof.
  intros H1 En Hown Hi Hn. rewrite lookup_union_r.
  - rewrite remove_cids_lookup. by rewrite decide_False.
  - destruct (new !! cid) as [j|] eqn:Ej; [|done]. destruct Hn. apply cids_of_pod_elem.
    exists info. split; [done|]. pose proof (H1 _ _ Hi) as O1. pose proof (Hown _ _ Ej) as O2.
    rewrite O1 in O2. injection O2 as -> ->. destruct (extract_pod _ _ _ _ En Ej). done.
Qed.

(** A repeated list keeps the containers that it reports. *)
Lemma list_keeps e p cid info :
  event_fits InitDone e p -> container_map e !! cid = Some info ->
  cid ∉ (map_to_list (filter (fun kv => p !! kv.1 = None) (container_map e))).*1 -> p !! cid = Some info.
Proof.
  intros Hev Hi Hn. destruct (p !! cid) as [j|] eqn:Ej; [by rewrite (Hev _ _ _ Hi Ej)|].
  destruct Hn. apply list_elem_of_fmap. exists (cid, info). split; [done|].
  by apply elem_of_map_to_list, map_lookup_filter_Some.
Qed.

End Coherence.

(** a pod can be seen too late.  A process that was looked up before the watch reported
    its pod keeps empty labels after the report, although the container is known; and a
    list that reports a known container with other data leaves the cached data of its
    processes as they were. *)
Theorem late_pods_missed e p pod new pid cid info fds comm cgroup :
  extract_containers_from_pod pod = Ret new ->
  k8s_pid_cache e !! pid = Some info ->
  (cids_of_pod pod (container_map e) = [] -> info = None ->
   exists e1 e2 l, on_watch (Apply pod) (e, p) = Ret (e1, p) /\
     lookup_labels cgroup fds pid comm e1 = Ret (e2, l) /\
     (is_Some (new !! cid) -> container_map e1 !! cid = new !! cid) /\
     lb_namespace l = [] /\ lb_pod l = [] /\ lb_container l = []) /\
  (is_Some info -> affected ((map_to_list (filter (fun kv => new !! kv.1 = None) (container_map e))).*1) e = ∅ ->
   exists e1, on_watch InitDone (e, new) = Ret (e1, ∅) /\ container_map e1 = new /\
     k8s_pid_cache e1 !! pid = Some info).
Proof.
  intros En Hc. split.
  - intros Ho ->. unfold on_watch. cbn [watch_map]. rewrite En, Ho. cbn [retain_known mbind outcome_bind].
    unfold invalidate_containers, affected. cbn [foldl]. rewrite bool_decide_true by done.
    set (e1 := set_map _ e). destruct (resolve_gpu fds pid e1) as [e2 g] eqn:Eg.
    exists e1, e2. eexists. split; [done|]. unfold lookup_labels, resolve_k8s.
    change (k8s_pid_cache e1) with (k8s_pid_cache e). rewrite Hc. cbn [mbind outcome_bind]. rewrite Eg.
    split; [done|]. split; [|done]. intros [j Hj]. simpl. rewrite Hj. by apply lookup_union_Some_l.
  - intros Hs Ha. unfold on_watch. cbn [watch_map retain_known mbind outcome_bind]. eexists. split; [done|]. unfold invalidate_containers.
    change (affected ?c (set_map ?f e)) with (affected c e). rewrite Ha, bool_decide_true by done.
    split; [done|]. simpl. by apply map_lookup_filter_Some.
Qed.
End PodLabels.

(** ** Examples *)

Definition sample_id : str := lit "0123456789abcdef".
Definition sample_status : ContainerStatus :=
  mkContainerStatus (lit "main") (Some (lit "containerd://" ++ sample_id)).
Definition sample_pod : Pod :=
  mkPod (Some (lit "train-0")) (Some (lit "ml")) (Some {[MODE_ANNOTATION := lit "full"]})
    (Some (mkPodStatus (Some [sample_status]) None)).
Definition sample_cgroup : str := containerd_cgroup (lit "0::/kubepods/") sample_id [].
Lemma sample_id_ascii : ascii (lit "containerd://" ++ sample_id).
Proof. apply (bool_decide_unpack _). vm_compute. exact I. Qed.

Lemma sample_pod_ascii : pod_ascii sample_pod.
Proof. apply Forall_cons_2; [|apply Forall_nil_2]. intros id [= <-]. apply sample_id_ascii. Qed.

Lemma pod_process_labelled_witness :
  exists e1 e2 l, on_watch (Apply sample_pod) (new_enricher None, ∅) = Ret (e1, ∅) /\
    lookup_labels (Some sample_cgroup) None 7 (lit "python") e1 = Ret (e2, l) /\
    lb_pod l = lit "train-0" /\ 7 ∈ upgraded_pids e2.
Proof.
  destruct (pod_process_labelled (new_enricher None) ∅ sample_pod sample_status sample_id 7 (lit "0::/kubepods/") []
    None (lit "python")) as (e1 & e2 & l & H1 & H2 & _ & H3 & _ & H4).
  - apply (bool_decide_unpack _). vm_compute. exact I.
  - vm_compute. lia.
  - apply (bool_decide_unpack _). vm_compute. exact I.
  - vm_compute. reflexivity.
  - by left.
  - apply sample_pod_ascii.
  - apply list_elem_of_here.
  - reflexivity.
  - intros cs' id' [->|[]%elem_of_nil]%elem_of_cons _ _. reflexivity.
  - reflexivity.
  - exists e1, e2, l. split_and!; [exact H1|exact H2|exact H3|]. apply H4. vm_compute. reflexivity.
Defined.

Lemma sample_pod_containers :
  exists new, extract_containers_from_pod sample_pod = Ret new /\ is_Some (new !! take 12 sample_id).
Proof.
  destruct (ascii_containers sample_pod sample_pod_ascii) as [new En]. exists new. split; [exact En|].
  exists (info_of sample_pod sample_status). apply (add_containers_mem sample_pod _ _ _ ∅ new En).
  - by intros cs id [->|[]%elem_of_nil]%elem_of_cons _ _.
  - right. exists sample_status, (lit "containerd://" ++ sample_id). split_and!; [apply list_elem_of_here|done|].
    apply short_containerd; [|vm_compute; lia]. apply (bool_decide_unpack _). vm_compute. exact I.
Qed.

(** The process is looked up before the pod is reported. *)
Definition sample_late : Enricher :=
  match resolve_k8s (Some sample_cgroup) 7 (new_enricher None) with Ret (e, _) => e | _ => new_enricher None end.

Lemma late_pods_missed_witness :
  exists e1 e2 l, on_watch (Apply sample_pod) (sample_late, ∅) = Ret (e1, ∅) /\
    lookup_labels (Some sample_cgroup) None 7 [] e1 = Ret (e2, l) /\
    is_Some (container_map e1 !! take 12 sample_id) /\ lb_pod l = [].
Proof.
  destruct sample_pod_containers as (new & En & Hs).
  destruct (late_pods_missed sample_late ∅ sample_pod new 7 (take 12 sample_id) None None [] (Some sample_cgroup))
    as [H _]; [exact En|vm_compute; reflexivity|].
  destruct H as (e1 & e2 & l & H1 & H2 & H3 & _ & H4 & _); [vm_compute; reflexivity|reflexivity|].
  exists e1, e2, l. split_and!; [exact H1|exact H2| |exact H4].
  exact (eq_ind_r (fun o => is_Some o) Hs (H3 Hs)).
Defined.

(** The pod is reported first. *)
Definition sample_known : Enricher :=
  match on_watch (Apply sample_pod) (new_enricher None, ∅) with Ret (e, _) => e | _ => new_enricher None end.

(** A cgroup whose name has a multi-byte character at the twelfth byte of the id makes the
    lookup panic. *)
Lemma multibyte_cgroup_panics :
  extract_container_id (lit "0::/cri-containerd-aaaaaaaaaaa" ++ [233] ++ lit ".scope") = Panic.
Proof. vm_compute. reflexivity. Qed.
