(* ===== verification/Threads.v ===== *)
(** * The loop and the Kubernetes watch on the enricher

    The watch of the Kubernetes API runs on another thread than the loop.  Both work on the maps
    of src/src/enrichment.rs, which have a lock each: a lookup ([resolve_k8s]) and the handling of
    an event ([start_k8s_refresh], [invalidate_containers]) are sequences of steps that interleave.
    [Enrich] has the steps and their sequential composition; here they are the steps of two
    threads. *)

From stdpp Require Import strings.
From S2P Require Import Prelude RustStd Runtime Probes Step Demo Tick Metrics Cache Enrich.

Local Open Scope Z_scope.
#[local] Set Warnings "-clear-no-such-hyp".

(** ** The threads *)

(** What the loop does next: load the container map after a miss of the cache, write the index,
    mark an upgraded process, cache the answer, use the answer; unmark a process it evicts; read
    the set after it has reset the flag. *)
Inductive main_pc :=
| M_idle
| M_load (pid : Z) (cgroup : option str)
| M_index (pid : Z) (container_id : option str) (result : option PodInfo)
| M_mark (pid : Z) (container_id : option str) (result : option PodInfo)
| M_store (pid : Z) (container_id : option str) (result : option PodInfo)
| M_done (pid : Z) (result : option PodInfo)
| M_unmark (pid : Z)
| M_sync.

(** What the watch does next, after it has replaced the container map: read the index, remove the
    processes from the cache, from the set of upgraded ones, announce them; at the end of a list
    forget the processes without a pod. *)
Inductive watch_pc :=
| W_idle
| W_read (cids : list str) (init_done : bool)
| W_forget (pids : gset Z) (init_done : bool)
| W_unmark (pids : gset Z) (init_done : bool)
| W_announce (pids : gset Z) (init_done : bool)
| W_retain.

(** The enricher, the list in progress, the two threads, the loop's record of UPGRADED_PIDS and the
    map itself.  The last two fields are history, which the code does not have: the processes with
    a lookup during which the watch replaced the pod that the lookup had loaded, and those that
    the watch took out of the set of upgraded ones after a lookup had put them there. *)
Record Threads := mkThreads {
  th_enr : Enricher; th_pending : gmap str PodInfo; th_main : main_pc; th_watch : watch_pc;
  th_synced : gset Z; th_map : gmap Z Z; th_raced : gset Z; th_lost : gset Z
}.

Definition with_main (pc : main_pc) (e : Enricher) (t : Threads) : Threads :=
  mkThreads e (th_pending t) pc (th_watch t) (th_synced t) (th_map t) (th_raced t) (th_lost t).

Definition with_watch (pc : watch_pc) (e : Enricher) (t : Threads) : Threads :=
  mkThreads e (th_pending t) (th_main t) pc (th_synced t) (th_map t) (th_raced t) (th_lost t).

(** The answer that the loop has loaded and not cached yet. *)
Definition answering (pc : main_pc) : option (Z * str * PodInfo) :=
  match pc with
  | M_index pid (Some cid) (Some info) | M_mark pid (Some cid) (Some info)
  | M_store pid (Some cid) (Some info) => Some (pid, cid, info)
  | _ => None
  end.

Definition raced_by (m : gmap str PodInfo) (pc : main_pc) : gset Z :=
  match answering pc with
  | Some (pid, cid, info) => if bool_decide (m !! cid = Some info) then ∅ else {[pid]}
  | None => ∅
  end.

(** A process is upgraded when its cached pod has the annotation. *)
Definition upgrading (result : option PodInfo) : bool :=
  match result with Some info => pi_upgrade info | None => false end.

Definition annotated (e : Enricher) (pid : Z) : bool :=
  match k8s_pid_cache e !! pid with Some result => upgrading result | None => false end.

Definition storing (pc : main_pc) (pid : Z) : bool :=
  match pc with M_store q _ result => (q =? pid) && upgrading result | _ => false end.

Inductive thread_op :=
| T_lookup (pid : Z) (cgroup : option str)
| T_return (fds : option (list (option str)))
| T_evict (pid : Z)
| T_take
| T_tick
| T_main
| T_event (ev : Event)
| T_watch.

Section Threads.
Context {LC : LoadCfg}.

(** The loop starts something: what the loop calls when it is not in a call already. *)
Definition main_start (op : thread_op) (t : Threads) : Threads :=
  let e := th_enr t in
  match op with
  | T_lookup pid cgroup =>
      match k8s_pid_cache e !! pid with
      | Some cached => with_main (M_done pid cached) e t
      | None => with_main (M_load pid cgroup) e t
      end
  | T_evict pid => with_main (M_unmark pid) (set_gpu (delete pid) (set_k8s (delete pid) e)) t
  | T_take => with_main M_idle (take_changes e).1 t
  | T_tick => if upgrade_dirty e then with_main M_sync (clear_dirty e) t else t
  | _ => t
  end.

Definition main_next (t : Threads) : outcome Threads :=
  let e := th_enr t in
  match th_main t with
  | M_load pid None => Ret (with_main (M_done pid None) e t)
  | M_load pid (Some cgroup) =>
      '(container_id, result) ← k8s_load cgroup e;
      Ret (with_main (M_index pid container_id result) e t)
  | M_index pid cid result => Ret (with_main (M_mark pid cid result) (k8s_index cid pid e) t)
  | M_mark pid cid result => Ret (with_main (M_store pid cid result) (k8s_mark result pid e) t)
  | M_store pid _ result => Ret (with_main (M_done pid result) (set_k8s (insert pid result) e) t)
  | M_unmark pid => Ret (with_main M_idle (set_upgraded (upgraded_pids e ∖ {[pid]}) e) t)
  | M_sync =>
      let '(synced, m) := sync_upgraded (upgraded_pids e) (th_synced t) (th_map t) in
      Ret (mkThreads e (th_pending t) M_idle (th_watch t) synced m (th_raced t) (th_lost t))
  | _ => Ret t
  end.

Definition watch_end (init_done : bool) : watch_pc := if init_done then W_retain else W_idle.

Definition watch_next (t : Threads) : Threads :=
  let e := th_enr t in
  match th_watch t with
  | W_idle => t
  | W_read cids d =>
      let pids := affected cids e in
      with_watch (if bool_decide (pids = ∅) then watch_end d else W_forget pids d) e t
  | W_forget pids d => with_watch (W_unmark pids d) (uncache_pids pids e) t
  | W_unmark pids d =>
      let lost := filter (fun pid => annotated e pid || storing (th_main t) pid = true) pids in
      let t := with_watch (W_announce pids d) (unmark_pids pids e) t in
      mkThreads (th_enr t) (th_pending t) (th_main t) (th_watch t) (th_synced t) (th_map t) (th_raced t)
        (th_lost t ∪ lost)
  | W_announce pids d => with_watch (watch_end d) (announce_pids pids e) t
  | W_retain => with_watch W_idle (retain_known true e) t
  end.

Definition watch_start (ev : Event) (t : Threads) : outcome Threads :=
  '(e, pending_map, cids, init_done) ← watch_map ev (th_enr t, th_pending t);
  Ret (mkThreads e pending_map (th_main t) (W_read cids init_done) (th_synced t) (th_map t)
         (th_raced t ∪ raced_by (container_map e) (th_main t)) (th_lost t)).

(** One step.  A thread that is in a call does not start another one. *)
Definition thread_step (t : Threads) (op : thread_op) : outcome Threads :=
  match op with
  | T_main => main_next t
  | T_watch => Ret (watch_next t)
  | T_event ev => match th_watch t with W_idle => watch_start ev t | _ => Ret t end
  | T_return fds =>
      match th_main t with
      | M_done pid _ => Ret (with_main M_idle (resolve_gpu fds pid (th_enr t)).1 t)
      | _ => Ret t
      end
  | _ => match th_main t with M_idle => Ret (main_start op t) | _ => Ret t end
  end.

Fixpoint run_threads (ops : list thread_op) (t : Threads) : outcome Threads :=
  match ops with
  | [] => Ret t
  | op :: ops => t ← thread_step t op; run_threads ops t
  end.

Definition init_threads (infos : option (list (option str))) : Threads :=
  mkThreads (new_enricher infos) ∅ M_idle W_idle ∅ ∅ ∅ ∅.

Lemma run_threads_app ops1 ops2 t :
  run_threads (ops1 ++ ops2) t = (t ← run_threads ops1 t; run_threads ops2 t).
Proof.
  revert t. induction ops1 as [|op ops IH]; intros t; [done|]. cbn [app run_threads].
  destruct (thread_step t op); cbn [mbind outcome_bind]; [apply IH|done..].
Qed.

(** ** Without interruption the steps are the calls *)

Lemma lookup_alone t pid cgroup fds comm :
  th_main t = M_idle ->
  run_threads [T_lookup pid cgroup; T_main; T_main; T_main; T_main; T_return fds] t
  = ('(e, _) ← lookup_labels cgroup fds pid comm (th_enr t); Ret (with_main M_idle e t)).
Proof.
  destruct t as [e p m w s mp r l]. cbn [th_main th_enr]. intros ->. unfold lookup_labels, resolve_k8s.
  cbn [run_threads thread_step main_start th_main th_enr].
  destruct (k8s_pid_cache e !! pid) as [c|]; cbn -[resolve_gpu].
  { by destruct (resolve_gpu fds pid e). }
  destruct cgroup as [g|]; cbn -[resolve_gpu k8s_load]; [|by destruct (resolve_gpu fds pid e)].
  destruct (k8s_load g e) as [[cid res]| |]; cbn -[resolve_gpu k8s_mark k8s_index]; [|done..].
  by destruct (resolve_gpu _ _ _).
Qed.

Lemma evict_alone t pid :
  th_main t = M_idle -> run_threads [T_evict pid; T_main] t = Ret (with_main M_idle (evict_pid pid (th_enr t)) t).
Proof. by destruct t as [e p m w s mp r l]; cbn; intros ->. Qed.

Lemma run_watch t ops : run_threads (T_watch :: ops) t = run_threads ops (watch_next t).
Proof. done. Qed.

Lemma watch_alone t ev :
  th_main t = M_idle -> th_watch t = W_idle ->
  run_threads [T_event ev; T_watch; T_watch; T_watch; T_watch; T_watch] t
  = ('(e, p) ← on_watch ev (th_enr t, th_pending t);
     Ret (mkThreads e p M_idle W_idle (th_synced t) (th_map t) (th_raced t) (th_lost t))).
Proof.
  destruct t as [e p m w s mp r l]. cbn [th_main th_watch th_enr th_pending th_synced th_map th_raced th_lost].
  intros -> ->. set (ops := [T_watch; T_watch; T_watch; T_watch; T_watch]).
  change (run_threads (T_event ev :: ops) ?x) with (y ← watch_start ev x; run_threads ops y).
  unfold watch_start, on_watch.
  cbn [th_enr th_pending th_main th_synced th_map th_raced th_lost].
  destruct (watch_map ev (e, p)) as [[[[e1 p1] cids] d]| |]; cbn [mbind outcome_bind]; [|done..].
  change (raced_by _ M_idle) with (∅ : gset Z). rewrite union_empty_r_L. unfold invalidate_containers.
  set (pids := affected cids e1).
  assert (E : filter (fun pid => annotated (uncache_pids pids e1) pid || storing M_idle pid = true) pids = ∅).
  { apply set_eq. intros q. rewrite elem_of_filter. split; [|by intros ?%elem_of_empty]. intros [Ha Hq]. revert Ha.
    unfold annotated, uncache_pids. simpl. rewrite map_lookup_filter.
    destruct (k8s_pid_cache e1 !! q); simpl; [|done]. by rewrite option_guard_False by tauto. }
  unfold ops.
  rewrite run_watch. cbn [watch_next th_watch th_enr]. fold pids. case_bool_decide; [by destruct d|].
  rewrite !run_watch. cbn [watch_next th_watch th_enr th_main with_watch]. rewrite E.
  cbn [th_lost]. rewrite union_empty_r_L. by destruct d.
Qed.
(** ** The set of upgraded processes *)

(** The process whose lookup missed the cache. *)
Definition looking (pc : main_pc) : option Z :=
  match pc with
  | M_load pid _ | M_index pid _ _ | M_mark pid _ _ | M_store pid _ _ => Some pid
  | _ => None
  end.

(** The loop or the watch is about to take the process out of the set. *)
Definition leaving (t : Threads) (pid : Z) : Prop :=
  th_main t = M_unmark pid \/ exists pids d, th_watch t = W_unmark pids d /\ pid ∈ pids.

(** The flag covers the difference from [synced]. *)
Definition dirty_covers (synced : gset Z) (e : Enricher) : Prop :=
  upgrade_dirty e = false -> synced = upgraded_pids e.

(** The set holds the processes whose cached pod has the annotation, but for calls in progress and
    the lost ones; a change of the set that the map does not have raises the flag; a change of
    pods raises the other. *)
Record marks_inv (seen : gset Z) (t : Threads) : Prop := {
  mi_missed : forall pid, looking (th_main t) = Some pid \/ th_main t = M_unmark pid ->
    k8s_pid_cache (th_enr t) !! pid = None;
  mi_set : forall pid, pid ∈ upgraded_pids (th_enr t) ->
    annotated (th_enr t) pid || storing (th_main t) pid = true \/ leaving t pid;
  mi_annotated : forall pid, annotated (th_enr t) pid || storing (th_main t) pid = true ->
    pid ∈ upgraded_pids (th_enr t) \/ pid ∈ th_lost t;
  mi_seen : forall pid, pid ∈ upgraded_pids (th_enr t) \/ looking (th_main t) = Some pid -> pid ∈ seen;
  mi_dirty : th_main t <> M_sync -> dirty_covers (th_synced t) (th_enr t);
  mi_map : th_synced t = dom (th_map t);
  mi_changes : changed_pids (th_enr t) <> ∅ -> has_changes (th_enr t) = true
}.

Lemma dirty_covers_set synced pids e :
  dirty_covers synced e -> dirty_covers synced (set_upgraded pids e).
Proof.
  unfold dirty_covers. simpl. intros Hd [Hf ->%negb_false_iff%bool_decide_eq_true]%orb_false_iff. auto.
Qed.

(** Steps that leave the cache, the set and the flags alone. *)
Record same_marks (e e' : Enricher) : Prop := {
  sm_cache : k8s_pid_cache e' = k8s_pid_cache e;
  sm_set : upgraded_pids e' = upgraded_pids e;
  sm_dirty : upgrade_dirty e' = upgrade_dirty e;
  sm_changed : changed_pids e' = changed_pids e;
  sm_changes : has_changes e' = has_changes e
}.

Lemma same_marks_annotated e e' pid : same_marks e e' -> annotated e' pid = annotated e pid.
Proof. intros [E _ _ _ _]. unfold annotated. by rewrite E. Qed.

(** The loop moves on, and the enricher is as it was. *)
Lemma marks_move seen t pc e :
  marks_inv seen t -> same_marks (th_enr t) e -> th_main t <> M_sync -> pc <> M_sync ->
  (forall pid, th_main t <> M_unmark pid) ->
  (forall pid, storing (th_main t) pid = false /\ storing pc pid = false) ->
  (forall pid, looking pc = Some pid -> k8s_pid_cache (th_enr t) !! pid = None /\ pid ∈ seen) ->
  (forall pid, pc <> M_unmark pid) ->
  marks_inv seen (with_main pc e t).
Proof.
  intros [H1 H2 H3 H4 H5 H6 H7] Hs Hm Hp Hu Hst Hl Hu'. pose proof Hs as [E1 E2 E3 E4 E5].
  split; cbn [with_main th_enr th_main th_watch th_lost th_synced th_map]; rewrite ?E1, ?E2, ?E4, ?E5; try done.
  - intros pid [[? _]%Hl|?]; [done|by destruct (Hu' pid)].
  - intros pid Hin. rewrite (same_marks_annotated (th_enr t)) by done. destruct (Hst pid) as [S1 S2].
    rewrite S2. destruct (H2 pid Hin) as [Ha|[?|Hw]]; [left; by rewrite S1 in Ha|by destruct (Hu pid)|by right; right].
  - intros pid. rewrite (same_marks_annotated (th_enr t)) by done. destruct (Hst pid) as [S1 S2]. rewrite S2, <- S1.
    apply H3.
  - intros pid [?|[_ ?]%Hl]; [apply H4; by left|done].
  - intros _. unfold dirty_covers. rewrite E2, E3. by apply H5.
Qed.
Lemma marks_seen seen seen' t : seen ⊆ seen' -> marks_inv seen t -> marks_inv seen' t.
Proof. intros Hs [H1 H2 H3 H4 H5 H6 H7]. split; auto. Qed.

Lemma same_marks_refl e : same_marks e e.
Proof. by split. Qed.

Lemma same_marks_index cid pid e : same_marks e (k8s_index cid pid e).
Proof. by destruct cid. Qed.

Lemma same_marks_gpu fds pid e : same_marks e (resolve_gpu fds pid e).1.
Proof. unfold resolve_gpu. by destruct (gpu_pid_cache e !! pid). Qed.

(** The loop puts a process into the set. *)
Lemma marks_mark seen t pid cid result :
  th_main t = M_mark pid cid result -> marks_inv seen t ->
  marks_inv seen (with_main (M_store pid cid result) (k8s_mark result pid (th_enr t)) t).
Proof.
  destruct t as [e p m w s mp r l]. cbn [th_main th_enr]. intros -> [H1 H2 H3 H4 H5 H6 H7].
  cbn [th_enr th_main th_watch th_lost th_synced th_map] in *.
  assert (Hu : upgraded_pids (k8s_mark result pid e)
    = if upgrading result then {[pid]} ∪ upgraded_pids e else upgraded_pids e).
  { destruct result as [info|]; [|done]. simpl. by destruct (pi_upgrade info). }
  assert (Hc : k8s_pid_cache (k8s_mark result pid e) = k8s_pid_cache e /\
    changed_pids (k8s_mark result pid e) = changed_pids e /\ has_changes (k8s_mark result pid e) = has_changes e).
  { destruct result as [info|]; [|done]. simpl. by destruct (pi_upgrade info). }
  destruct Hc as (C1 & C2 & C3).
  split; cbn [with_main th_enr th_main th_watch th_lost th_synced th_map looking storing];
    unfold annotated in *; rewrite ?C1, ?C2, ?C3, ?Hu; try done.
  - intros q [?|?]; [apply H1; by left|done].
  - intros q Hq. destruct (decide (pid = q)) as [<-|Hne].
    + destruct (upgrading result) eqn:Er; [left; by rewrite Z.eqb_refl, orb_true_r|].
      rewrite andb_false_r. destruct (H2 pid Hq) as [?|[?|?]]; [by left|done|by right; right].
    + rewrite (proj2 (Z.eqb_neq _ _)) by done. cbn [andb].
      destruct (H2 q) as [?|[?|?]]; [destruct (upgrading result); set_solver|by left|done|by right; right].
  - intros q [Ha|[->%Z.eqb_eq ->]%andb_true_iff]%orb_true_iff; [|left; set_solver].
    destruct (H3 q) as [?|?]; [by rewrite Ha|left; destruct (upgrading result); set_solver|by right].
  - intros q [Hq|[= <-]]; [|apply H4; by right]. destruct (upgrading result); [|apply H4; by left].
    apply elem_of_union in Hq as [->%elem_of_singleton|?]; apply H4; [by right|by left].
  - intros _. assert (Hd : dirty_covers s e) by (by apply H5). destruct result as [info|]; [|done]. simpl.
    destruct (pi_upgrade info); [|done]. by apply dirty_covers_set.
Qed.

(** The loop caches the answer. *)
Lemma marks_store seen t pid cid result :
  th_main t = M_store pid cid result -> marks_inv seen t ->
  marks_inv seen (with_main (M_done pid result) (set_k8s (insert pid result) (th_enr t)) t).
Proof.
  destruct t as [e p m w s mp r l]. cbn [th_main th_enr]. intros -> [H1 H2 H3 H4 H5 H6 H7].
  cbn [th_enr th_main th_watch th_lost th_synced th_map looking storing] in *.
  assert (Ha : forall q, annotated (set_k8s (insert pid result) e) q
    = annotated e q || ((pid =? q) && upgrading result)).
  { intros q. unfold annotated. simpl. rewrite lookup_insert. case_decide as Hq.
    - subst q. rewrite (H1 pid) by (by left). by rewrite Z.eqb_refl.
    - rewrite (proj2 (Z.eqb_neq _ _)) by done. by rewrite orb_false_r. }
  split; cbn [with_main th_enr th_main th_watch th_lost th_synced th_map looking storing]; try done.
  - by intros q [?|?].
  - intros q Hq. rewrite Ha, orb_false_r. destruct (H2 q Hq) as [?|[?|?]]; [by left|done|by right; right].
  - intros q. rewrite Ha, orb_false_r. apply H3.
  - intros q [?|?]; [apply H4; by left|done].
  - intros _. by apply H5.
Qed.

Lemma marks_evict seen t pid :
  th_main t = M_idle -> marks_inv seen t ->
  marks_inv seen (with_main (M_unmark pid) (set_gpu (delete pid) (set_k8s (delete pid) (th_enr t))) t).
Proof.
  destruct t as [e p m w s mp r l]. cbn [th_main th_enr]. intros -> [H1 H2 H3 H4 H5 H6 H7].
  cbn [th_enr th_main th_watch th_lost th_synced th_map looking storing] in *.
  assert (Ha : forall q, annotated (set_gpu (delete pid) (set_k8s (delete pid) e)) q
    = negb (pid =? q) && annotated e q).
  { intros q. unfold annotated. simpl. rewrite lookup_delete. case_decide as Hq.
    - subst q. by rewrite Z.eqb_refl.
    - by rewrite (proj2 (Z.eqb_neq _ _)). }
  split; cbn [with_main th_enr th_main th_watch th_lost th_synced th_map looking storing]; try done.
  - intros q [?|[= <-]]; [done|]. simpl. apply lookup_delete_eq.
  - intros q Hq. rewrite Ha, orb_false_r. destruct (Z.eqb_spec pid q) as [<-|]; [by right; left|].
    destruct (H2 q Hq) as [?|[?|?]]; [left; by rewrite orb_false_r in *|done|by right; right].
  - intros q. rewrite Ha, orb_false_r. intros [_ Hq]%andb_true_iff. apply H3. by rewrite Hq.
  - intros _. by apply H5.
Qed.

Lemma marks_unmark seen t pid :
  th_main t = M_unmark pid -> marks_inv seen t ->
  marks_inv seen (with_main M_idle (set_upgraded (upgraded_pids (th_enr t) ∖ {[pid]}) (th_enr t)) t).
Proof.
  destruct t as [e p m w s mp r l]. cbn [th_main th_enr]. intros -> [H1 H2 H3 H4 H5 H6 H7].
  cbn [th_enr th_main th_watch th_lost th_synced th_map looking storing] in *.
  split; cbn [with_main th_enr th_main th_watch th_lost th_synced th_map looking storing]; simpl; try done.
  - by intros q [?|?].
  - intros q [Hq Hn]%elem_of_difference. destruct (H2 q Hq) as [?|[[= ->]|?]]; [by left|set_solver|by right; right].
  - intros q Hq. destruct (H3 q Hq) as [?|?]; [left|by right]. apply elem_of_difference. split; [done|].
    intros ->%elem_of_singleton. unfold annotated in Hq. simpl in Hq. by rewrite (H1 pid) in Hq by (by right).
  - intros q [[? _]%elem_of_difference|?]; [apply H4; by left|done].
  - intros _. apply dirty_covers_set. by apply H5.
Qed.
Lemma marks_take seen t :
  th_main t = M_idle -> marks_inv seen t -> marks_inv seen (with_main M_idle (take_changes (th_enr t)).1 t).
Proof.
  destruct t as [e p m w s mp r l]. cbn [th_main th_enr]. intros -> H. unfold take_changes. case_match; [|done].
  destruct H as [H1 H2 H3 H4 H5 H6 H7]. by split.
Qed.

(** The tick resets the flag, and brings the map to the set. *)
Lemma marks_reset seen t :
  th_main t = M_idle -> marks_inv seen t -> marks_inv seen (with_main M_sync (clear_dirty (th_enr t)) t).
Proof.
  destruct t as [e p m w s mp r l]. cbn [th_main th_enr]. intros -> [H1 H2 H3 H4 H5 H6 H7].
  split; try done; cbn [with_main th_enr th_main th_lost th_watch looking storing] in *.
  - by intros q [?|?].
  - intros q Hq. destruct (H2 q Hq) as [?|[?|?]]; [by left|done|by right; right].
Qed.

Lemma marks_sync seen t :
  (size seen <= upgraded_pids_max_entries)%nat -> th_main t = M_sync -> marks_inv seen t ->
  let r := sync_upgraded (upgraded_pids (th_enr t)) (th_synced t) (th_map t) in
  marks_inv seen (mkThreads (th_enr t) (th_pending t) M_idle (th_watch t) r.1 r.2 (th_raced t) (th_lost t)).
Proof.
  destruct t as [e p m w s mp r l]. cbn [th_main th_enr th_pending th_watch th_synced th_map th_raced th_lost].
  intros Hsz -> [H1 H2 H3 H4 H5 H6 H7]. cbn [th_enr th_main th_watch th_lost th_synced th_map looking storing] in *.
  destruct (sync_upgraded_exact (upgraded_pids e) s mp) as [S1 S2]; [by right| |].
  { etrans; [|exact Hsz]. apply subseteq_size. intros q Hq. apply H4. by left. }
  split; cbn [th_enr th_main th_watch th_lost th_synced th_map looking storing]; try done.
  - by intros q [?|?].
  - intros q Hq. destruct (H2 q Hq) as [?|[?|?]]; [by left|done|by right; right].
Qed.

(** The watch: the cache shrinks, then the set. *)
Lemma marks_forget seen t w e :
  (forall pid, leaving t pid -> leaving (with_watch w e t) pid) ->
  upgraded_pids e = upgraded_pids (th_enr t) -> upgrade_dirty e = upgrade_dirty (th_enr t) ->
  changed_pids e = changed_pids (th_enr t) -> has_changes e = has_changes (th_enr t) ->
  (forall pid, k8s_pid_cache e !! pid = k8s_pid_cache (th_enr t) !! pid \/
     k8s_pid_cache e !! pid = None /\
     (annotated (th_enr t) pid = true -> exists pids d, w = W_unmark pids d /\ pid ∈ pids)) ->
  marks_inv seen t -> marks_inv seen (with_watch w e t).
Proof.
  intros Hl E1 E2 E3 E4 Hc [H1 H2 H3 H4 H5 H6 H7].
  split; cbn [with_watch th_enr th_main th_lost th_synced th_map]; rewrite ?E1, ?E3, ?E4; try done.
  - intros q Hq%H1. destruct (Hc q) as [->|[? _]]; done.
  - intros q Hq. destruct (H2 q Hq) as [Ha|?]; [|right; by apply Hl].
    unfold annotated. destruct (Hc q) as [->|[-> Hw]]; [by left|].
    apply orb_true_iff in Ha as [Ha|Ha]; [right; right; cbn [th_watch with_watch]; by apply Hw|left; by rewrite Ha].
  - intros q. unfold annotated. destruct (Hc q) as [->|[-> _]]; [apply H3|].
    intros Ha. apply H3. cbn [orb] in Ha. by rewrite Ha, orb_true_r.
  - intros Hm. unfold dirty_covers. rewrite E1, E2. by apply H5.
Qed.

Lemma marks_unmark_watch seen t pids d :
  th_watch t = W_unmark pids d -> marks_inv seen t -> marks_inv seen (watch_next t).
Proof.
  destruct t as [e p m w s mp r l]. cbn [th_watch]. intros ->  [H1 H2 H3 H4 H5 H6 H7]. cbn [watch_next th_watch with_watch th_enr th_main th_lost].
  cbn [th_enr th_main th_watch th_lost th_synced th_map] in *.
  split; cbn [th_enr th_main th_watch th_lost th_synced th_map th_pending th_raced]; simpl; try done.
  - intros q [Hq Hn]%elem_of_difference. destruct (H2 q Hq) as [?|[?|(? & ? & [= <- <-] & ?)]]; [by left|by right; left|done].
  - intros q Hq. destruct (decide (q ∈ pids)) as [Hp|Hp].
    + right. apply elem_of_union_r, elem_of_filter. done.
    + destruct (H3 q Hq); [left|right]; set_solver.
  - intros q [[? _]%elem_of_difference|?]; apply H4; [by left|by right].
  - intros Hm. apply dirty_covers_set. by apply H5.
Qed.

Lemma marks_watch seen t : marks_inv seen t -> marks_inv seen (watch_next t).
Proof.
  intros H. pose proof H as [H1 H2 H3 H4 H5 H6 H7].
  assert (Hleave : forall w e, (forall pids d, th_watch t <> W_unmark pids d) ->
    forall pid, leaving t pid -> leaving (with_watch w e t) pid).
  { intros w e Hn pid [?|(pids & d & ? & _)]; [by left|by destruct (Hn pids d)]. }
  unfold watch_next. destruct (th_watch t) as [|cids d|pids d|pids d|pids d|] eqn:Ew; [done|..].
  - apply marks_forget; try done; [by apply Hleave|by left].
  - apply marks_forget; try done; [by apply Hleave|]. intros q. unfold uncache_pids. simpl.
    rewrite map_lookup_filter. destruct (k8s_pid_cache (th_enr t) !! q); simpl; [|by left].
    destruct (decide (q ∈ pids)); [right|left; by rewrite option_guard_True].
    rewrite option_guard_False by tauto. split; [done|]. intros _. by exists pids, d.
  - pose proof (marks_unmark_watch seen t pids d Ew H) as Hm. unfold watch_next in Hm. by rewrite Ew in Hm.
  - assert (Hm : marks_inv seen (with_watch (watch_end d) (th_enr t) t)).
    { apply marks_forget; try done; [by apply Hleave|by left]. }
    destruct Hm as [M1 M2 M3 M4 M5 M6 M7]. by split.
  - apply marks_forget; try done; [by apply Hleave|]. intros q. unfold retain_known. simpl.
    rewrite map_lookup_filter. unfold annotated. destruct (k8s_pid_cache (th_enr t) !! q) as [o|]; simpl; [|by left].
    case_guard as Hg; [by left|right]. split; [done|]. intros Ha. destruct Hg. destruct o; [by eexists|done].
Qed.

Lemma marks_event seen t ev t' :
  th_watch t = W_idle -> watch_start ev t = Ret t' -> marks_inv seen t -> marks_inv seen t'.
Proof.
  intros Ew. unfold watch_start.
  destruct (watch_map ev (th_enr t, th_pending t)) as [[[[e1 p1] cids] d]| |] eqn:E; cbn [mbind outcome_bind]; [|done..].
  intros <-%Ret_inj H. pose proof (watch_map_frame _ _ _ _ _ _ _ E) as Ee.
  assert (Hm : marks_inv seen (with_watch (W_read cids d) e1 t)).
  { rewrite <- Ee. apply marks_forget; try done; [|by left]. intros pid [?|(? & ? & ? & _)]; [by left|congruence]. }
  destruct Hm as [M1 M2 M3 M4 M5 M6 M7]. by split.
Qed.
(** ** Any interleaving *)

Definition looked_up (ops : list thread_op) : gset Z :=
  list_to_set (omap (fun op => match op with T_lookup pid _ => Some pid | _ => None end) ops).

Definition op_ascii (op : thread_op) : Prop :=
  match op with
  | T_lookup _ (Some cgroup) => ascii cgroup
  | T_event ev => event_ascii ev
  | _ => True
  end.

Definition pc_ascii (pc : main_pc) : Prop :=
  match pc with M_load _ (Some cgroup) => ascii cgroup | _ => True end.

Ltac marks_moves := apply marks_move; try done; try (by apply same_marks_refl).

Lemma marks_start seen t op :
  th_main t = M_idle -> op_ascii op -> marks_inv seen t ->
  marks_inv (looked_up [op] ∪ seen) (main_start op t) /\ pc_ascii (th_main (main_start op t)).
Proof.
  intros Em Ho H. assert (Hs : marks_inv (looked_up [op] ∪ seen) t) by (by eapply marks_seen, H; set_solver).
  destruct op as [pid g|fds|pid| | | |ev|]; cbn [main_start]; try (by rewrite Em).
  - destruct (k8s_pid_cache (th_enr t) !! pid) as [c|] eqn:Ec.
    + split; [|done]. marks_moves; by rewrite Em.
    + split; [|by destruct g]. marks_moves; try by rewrite Em. intros q [= <-]. unfold looked_up. simpl. set_solver.
  - split; [|done]. by apply marks_evict.
  - split; [|done]. by apply marks_take.
  - destruct (upgrade_dirty (th_enr t)); [|by rewrite Em]. split; [|done]. by apply marks_reset.
Qed.

Lemma marks_next seen t :
  (size seen <= upgraded_pids_max_entries)%nat -> pc_ascii (th_main t) -> marks_inv seen t ->
  exists t', main_next t = Ret t' /\ marks_inv seen t' /\ pc_ascii (th_main t').
Proof.
  intros Hsz Ha H. pose proof H as [H1 _ _ H4 _ _ _]. unfold main_next.
  destruct (th_main t) as [|pid [g|]|pid cid r|pid cid r|pid cid r|pid r|pid|] eqn:Em;
    try (exists t; by rewrite Em); cbn [looking] in *.
  - unfold k8s_load. destruct (ascii_extract g Ha) as [cid ->]. cbn [mbind outcome_bind]. eexists. split; [done|].
    split; [|done]. marks_moves; rewrite ?Em; try done. intros q [= <-]. split; [apply H1|apply H4]; auto.
  - eexists. split; [done|]. split; [|done]. marks_moves; by rewrite Em.
  - eexists. split; [done|]. split; [|done]. marks_moves; rewrite ?Em; try done; [apply same_marks_index|].
    intros q [= <-]. split; [apply H1|apply H4]; auto.
  - eexists. split; [done|]. split; [|done]. by apply marks_mark.
  - eexists. split; [done|]. split; [|done]. by apply (marks_store seen t pid cid).
  - eexists. split; [done|]. split; [|done]. by apply marks_unmark.
  - pose proof (marks_sync seen t Hsz Em H) as Hs. cbv zeta in Hs. destruct (sync_upgraded _ _ _) as [s m].
    eexists. split; [done|]. by split.
Qed.

Lemma marks_step seen t op :
  (size (looked_up [op] ∪ seen) <= upgraded_pids_max_entries)%nat -> op_ascii op -> pc_ascii (th_main t) ->
  marks_inv seen t ->
  exists t', thread_step t op = Ret t' /\ marks_inv (looked_up [op] ∪ seen) t' /\ pc_ascii (th_main t').
Proof.
  intros Hsz Ho Ha H. assert (Hs : marks_inv (looked_up [op] ∪ seen) t) by (by eapply marks_seen, H; set_solver).
  assert (Hstart : exists t', match th_main t with M_idle => Ret (main_start op t) | _ => Ret t end = Ret t' /\
    marks_inv (looked_up [op] ∪ seen) t' /\ pc_ascii (th_main t')).
  { destruct (th_main t) eqn:Em; try (exists t; rewrite Em; done). eexists. split; [done|]. by apply marks_start. }
  destruct op as [pid g|fds|pid| | | |ev|]; cbn [thread_step]; try done.
  - destruct (th_main t) eqn:Em; try (exists t; rewrite Em; done). eexists. split; [done|]. split; [|done].
    marks_moves; rewrite ?Em; try done. apply same_marks_gpu.
  - by apply marks_next.
  - destruct (th_watch t) eqn:Ew; try (exists t; done).
    destruct (ascii_watch_map ev (th_enr t, th_pending t) Ho) as [[[[e p] cids] d] E].
    destruct (watch_start ev t) as [t'| |] eqn:Es; [|by unfold watch_start in Es; rewrite E in Es..].
    exists t'. split; [done|]. split; [by apply (marks_event _ t ev)|].
    unfold watch_start in Es. rewrite E in Es. cbn [mbind outcome_bind] in Es. apply Ret_inj in Es as <-. done.
  - eexists. split; [done|]. split; [by apply marks_watch|]. unfold watch_next. by destruct (th_watch t).
Qed.

Lemma looked_up_cons op ops : looked_up (op :: ops) = looked_up [op] ∪ looked_up ops.
Proof. unfold looked_up. destruct op; simpl; set_solver. Qed.

Lemma marks_run ops seen t :
  Forall op_ascii ops -> (size (looked_up ops ∪ seen) <= upgraded_pids_max_entries)%nat ->
  pc_ascii (th_main t) -> marks_inv seen t ->
  exists t', run_threads ops t = Ret t' /\ marks_inv (looked_up ops ∪ seen) t'.
Proof.
  intros Hops. revert seen t. induction Hops as [|op ops Hop _ IH]; intros seen t Hsz Ha Ht; cbn [run_threads].
  - exists t. split; [done|]. eapply marks_seen, Ht. set_solver.
  - assert (Eq : looked_up (op :: ops) ∪ seen = looked_up ops ∪ (looked_up [op] ∪ seen)).
    { rewrite looked_up_cons. set_solver. }
    rewrite Eq in *. destruct (marks_step seen t op) as (t1 & E & H1 & A1); [|done..|].
    { etrans; [|exact Hsz]. apply subseteq_size, union_subseteq_r. }
    rewrite E. cbn [mbind outcome_bind]. by apply IH.
Qed.

Lemma init_marks infos : marks_inv ∅ (init_threads infos).
Proof.
  split; cbn; try done. by intros pid [?%elem_of_empty|?].
Qed.
(** C18: UPGRADED_PIDS follows the annotations of pods.  Take any interleaving of the steps of the
    loop (lookups, evictions, ticks) with those of the watch, with ASCII cgroups and container ids
    and no more processes looked up than UPGRADED_PIDS has entries.  Neither thread stops, and the
    loop never misses a change of the pods of processes.  After a tick from there, the map holds
    every process whose pod, as cached, has profi/mode: full, but for the processes that the watch
    took out of the set after a lookup had put them there; and it holds no other process, but for
    those that the watch is about to take out of the set. *)
Theorem upgraded_map_follows_annotations infos ops :
  Forall op_ascii ops -> (size (looked_up ops) <= upgraded_pids_max_entries)%nat ->
  exists t, run_threads ops (init_threads infos) = Ret t /\
    (take_changes (th_enr t)).2 = changed_pids (th_enr t) /\
    (th_main t = M_idle -> exists t', run_threads [T_tick; T_main] t = Ret t' /\ forall pid,
       (annotated (th_enr t') pid = true -> pid ∈ dom (th_map t') \/ pid ∈ th_lost t') /\
       (pid ∈ dom (th_map t') -> annotated (th_enr t') pid = true \/ leaving t' pid)).
Proof.
  intros Hops Hsz. rewrite <- (union_empty_r_L (looked_up ops)) in Hsz.
  destruct (marks_run ops ∅ (init_threads infos) Hops Hsz I (init_marks infos)) as (t & E & H).
  exists t. split; [done|]. split.
  - unfold take_changes. destruct (decide (changed_pids (th_enr t) = ∅)) as [E0|Hne].
    + rewrite E0. by rewrite bool_decide_true, andb_false_r by done.
    + rewrite (mi_changes _ _ H Hne), bool_decide_false by done. done.
  - intros Em. destruct (marks_run [T_tick; T_main] (looked_up ops ∪ ∅) t) as (t' & E' & H');
      [by apply Forall_cons_2; [|apply Forall_cons_2; [|apply Forall_nil_2]]|by change (looked_up [T_tick; T_main]) with (∅ : gset Z); rewrite union_empty_l_L|by rewrite Em|done|].
    assert (Hidle : th_main t' = M_idle /\ upgrade_dirty (th_enr t') = false).
    { revert E'. cbn [run_threads thread_step]. rewrite Em. cbn [mbind outcome_bind main_start].
      destruct (upgrade_dirty (th_enr t)) eqn:Ed; unfold main_next.
      - cbn [th_main with_main]. destruct (sync_upgraded _ _ _). by intros <-%Ret_inj.
      - rewrite Em. by intros <-%Ret_inj. }
    destruct Hidle as [Em' Ed]. destruct H' as [_ H2 H3 _ H5 H6 _]. rewrite Em' in *.
    assert (Hdom : dom (th_map t') = upgraded_pids (th_enr t')) by (rewrite <- H6; by apply H5).
    exists t'. split; [done|]. intros pid. rewrite Hdom. cbn [storing] in *. split.
    + intros Ha. apply H3. by rewrite Ha.
    + intros [Ha|]%H2; [left|by right]. by rewrite orb_false_r in Ha.
Qed.

(** ** Lookups during an event *)

(** The watch finishes an event while the loop waits. *)
Lemma watch_finish e p m cids s mp r l :
  exists l', run_threads [T_watch; T_watch; T_watch; T_watch] (mkThreads e p m (W_read cids false) s mp r l)
    = Ret (mkThreads (invalidate_containers cids e) p m W_idle s mp r l').
Proof.
  rewrite run_watch. unfold invalidate_containers. cbn [watch_next th_watch th_enr]. case_bool_decide.
  - by exists l.
  - rewrite !run_watch. cbn [watch_next th_watch th_enr with_watch]. eexists. reflexivity.
Qed.

(** The loop finishes a lookup while the watch waits. *)
Lemma lookup_finish e p pid cid r0 w s mp r l :
  run_threads [T_main; T_main; T_main] (mkThreads e p (M_index pid cid r0) w s mp r l)
  = Ret (mkThreads (set_k8s (insert pid r0) (k8s_mark r0 pid (k8s_index cid pid e))) p (M_done pid r0) w s mp r l).
Proof. done. Qed.
(** The loop begins a lookup of a process that is not cached. *)
Lemma lookup_begin e p pid g cid w s mp r l :
  k8s_pid_cache e !! pid = None -> extract_container_id g = Ret (Some cid) ->
  run_threads [T_lookup pid (Some g); T_main] (mkThreads e p M_idle w s mp r l)
  = Ret (mkThreads e p (M_index pid (Some cid) (container_map e !! cid)) w s mp r l).
Proof.
  intros Hc Hg. cbn [run_threads thread_step main_start th_main th_enr]. rewrite Hc.
  cbn [mbind outcome_bind with_main main_next th_main th_enr]. unfold k8s_load. by rewrite Hg.
Qed.

Lemma affected_unindexed cids pid e :
  (forall cid, pid ∉ default ∅ (container_to_pids e !! cid)) -> pid ∉ affected cids e.
Proof.
  intros Hn. unfold affected. enough (forall s, pid ∉ s ->
    pid ∉ foldl (fun s cid => s ∪ default ∅ (container_to_pids e !! cid)) s cids) as H by (apply H; set_solver).
  induction cids as [|c cids IH]; intros s Hs; cbn [foldl]; [done|]. apply IH. specialize (Hn c). set_solver.
Qed.

(** The load comes before the deletion of the pod, the write of the index after it. *)
Lemma stale_answer e p pid g cid info pod s mp r l :
  extract_container_id g = Ret (Some cid) -> container_map e !! cid = Some info ->
  cid ∈ cids_of_pod pod (container_map e) -> k8s_pid_cache e !! pid = None -> pid ∉ changed_pids e ->
  (forall cid, pid ∉ default ∅ (container_to_pids e !! cid)) ->
  exists t', run_threads ([T_lookup pid (Some g); T_main] ++ [T_event (Delete pod)] ++
      [T_watch; T_watch; T_watch; T_watch] ++ [T_main; T_main; T_main]) (mkThreads e p M_idle W_idle s mp r l) = Ret t' /\
    th_main t' = M_done pid (Some info) /\ th_watch t' = W_idle /\ container_map (th_enr t') !! cid = None /\
    k8s_pid_cache (th_enr t') !! pid = Some (Some info) /\ pid ∉ changed_pids (th_enr t').
Proof.
  intros Hg Hi Hcid Hc Hch Hn. rewrite run_threads_app, (lookup_begin e p pid g cid) by done. rewrite Hi.
  cbn [mbind outcome_bind]. rewrite run_threads_app. cbn [run_threads thread_step th_watch]. unfold watch_start.
  cbn [th_enr th_pending th_main th_synced th_map th_raced th_lost watch_map mbind outcome_bind].
  set (cids := cids_of_pod pod (container_map e)) in *. rewrite run_threads_app.
  destruct (watch_finish (set_map (remove_cids cids) e) p (M_index pid (Some cid) (Some info)) cids s mp
    (r ∪ raced_by (container_map (set_map (remove_cids cids) e)) (M_index pid (Some cid) (Some info))) l) as [l' ->].
  cbn [mbind outcome_bind]. rewrite lookup_finish. eexists. split; [done|]. cbn [th_main th_watch th_enr].
  set (e1 := invalidate_containers cids _).
  split_and!; [done|done|..].
  - transitivity (container_map e1 !! cid); [simpl; by destruct (pi_upgrade info)|].
    transitivity (remove_cids cids (container_map e) !! cid); [unfold e1, invalidate_containers; by case_bool_decide|].
    rewrite (remove_cids_lookup (fun _ => ([], []))). by rewrite decide_True.
  - simpl. apply lookup_insert_eq.
  - assert (changed_pids (set_k8s (insert pid (Some info)) (k8s_mark (Some info) pid (k8s_index (Some cid) pid e1)))
      = changed_pids e1) as -> by (simpl; by destruct (pi_upgrade info)).
    unfold e1, invalidate_containers. case_bool_decide; [done|]. simpl.
    apply not_elem_of_union. split; [done|]. by apply affected_unindexed.
Qed.

(** The lookup comes between the write of the cache and the write of the set. *)
Lemma lost_mark e p pid g cid info pod new s mp r l :
  extract_container_id g = Ret (Some cid) -> cid ∈ cids_of_pod pod (container_map e) ->
  extract_containers_from_pod pod = Ret new -> new !! cid = Some info -> pi_upgrade info = true ->
  pid ∈ default ∅ (container_to_pids e !! cid) ->
  exists t', run_threads ([T_event (Apply pod); T_watch; T_watch] ++ [T_lookup pid (Some g); T_main] ++
      [T_main; T_main; T_main] ++ [T_watch; T_watch]) (mkThreads e p M_idle W_idle s mp r l) = Ret t' /\
    th_main t' = M_done pid (Some info) /\ th_watch t' = W_idle /\
    annotated (th_enr t') pid = true /\ pid ∉ upgraded_pids (th_enr t').
Proof.
  intros Hg Hcid En Hi Hup Hidx. rewrite run_threads_app. cbn [run_threads thread_step th_watch]. unfold watch_start.
  cbn [th_enr th_pending th_main th_synced th_map th_raced th_lost watch_map]. rewrite En. cbn [mbind outcome_bind].
  set (cids := cids_of_pod pod (container_map e)) in *. set (e1 := set_map _ e).
  assert (Hpid : pid ∈ affected cids e1) by (by apply (affected_elem (fun _ => None) (fun _ => ([], [])) cids cid pid e1)).
  unfold watch_next at 2. cbn [th_watch th_enr]. rewrite bool_decide_false by set_solver.
  cbn [watch_next th_watch th_enr with_watch]. unfold with_watch.
  cbn [th_pending th_main th_synced th_map th_raced th_lost]. set (pids := affected cids e1) in *. set (e2 := uncache_pids pids e1).
  assert (Hm : container_map e2 !! cid = Some info) by (by apply lookup_union_Some_l).
  rewrite run_threads_app, (lookup_begin e2 p pid g cid); [|simpl|done].
  2:{ rewrite map_lookup_filter. destruct (k8s_pid_cache e !! pid); [|done]. simpl. by rewrite option_guard_False by tauto. }
  cbn [mbind outcome_bind]. rewrite Hm, run_threads_app, lookup_finish. cbn [mbind outcome_bind].
  set (e3 := set_k8s (insert pid (Some info)) _). eexists. split; [reflexivity|]. split_and!; [done|done|..].
  - change (match k8s_pid_cache e3 !! pid with Some result => upgrading result | None => false end = true).
    unfold e3. cbn [set_k8s k8s_pid_cache]. by rewrite lookup_insert_eq.
  - change (pid ∉ upgraded_pids e3 ∖ pids). set_solver.
Qed.

(** C38: a lookup that overlaps an event of the watch can leave the enricher wrong for good.
    (1) A process of a known container is looked up for the first time, and the watch handles the
    deletion of the pod between the load of the container map and the write of the index.  When
    both are done, the container is gone from the map, but the deleted pod is cached for the
    process and the process is not announced as changed.  (2) The watch handles an update of a pod
    that has the annotation before and after, and the loop looks up a known process of it between
    the write of the cache and the write of the set.  When both are done, the cached pod of the
    process has the annotation and the process is not in the set of upgraded ones. *)
Theorem overlapping_lookup_wrong t pid g cid info pod :
  th_main t = M_idle -> th_watch t = W_idle ->
  extract_container_id g = Ret (Some cid) -> container_map (th_enr t) !! cid = Some info ->
  pi_pod info = default [] (pod_name pod) -> pi_namespace info = default [] (pod_namespace pod) ->
  (k8s_pid_cache (th_enr t) !! pid = None -> pid ∉ changed_pids (th_enr t) ->
   (forall cid, pid ∉ default ∅ (container_to_pids (th_enr t) !! cid)) ->
   exists t', run_threads ([T_lookup pid (Some g); T_main] ++ [T_event (Delete pod)] ++
       [T_watch; T_watch; T_watch; T_watch] ++ [T_main; T_main; T_main]) t = Ret t' /\
     th_main t' = M_done pid (Some info) /\ th_watch t' = W_idle /\
     container_map (th_enr t') !! cid = None /\
     k8s_pid_cache (th_enr t') !! pid = Some (Some info) /\ pid ∉ changed_pids (th_enr t')) /\
  (forall new, extract_containers_from_pod pod = Ret new -> new !! cid = Some info -> pi_upgrade info = true ->
   pid ∈ default ∅ (container_to_pids (th_enr t) !! cid) ->
   exists t', run_threads ([T_event (Apply pod); T_watch; T_watch] ++ [T_lookup pid (Some g); T_main] ++
       [T_main; T_main; T_main] ++ [T_watch; T_watch]) t = Ret t' /\
     th_main t' = M_done pid (Some info) /\ th_watch t' = W_idle /\
     annotated (th_enr t') pid = true /\ pid ∉ upgraded_pids (th_enr t')).
Proof.
  destruct t as [e p m w s mp r l]. cbn [th_main th_watch th_enr]. intros -> -> Hg Hi Hp Hns.
  assert (Hcid : cid ∈ cids_of_pod pod (container_map e)).
  { apply cids_of_pod_elem. by exists info. }
  split; [intros; by apply stale_answer|intros; by eapply lost_mark].
Qed.
End Threads.

(** ** Examples *)

(** The pod is reported while process 7 is looked up; the second lookup finds it. *)
Definition sample_schedule : list thread_op :=
  [T_lookup 7 (Some sample_cgroup); T_main; T_event (Apply sample_pod); T_main; T_watch; T_main; T_main; T_return None;
   T_evict 7; T_main; T_lookup 7 (Some sample_cgroup); T_main; T_main; T_main; T_main; T_return None].

Lemma sample_schedule_ascii : Forall op_ascii sample_schedule.
Proof.
  assert (Hg : ascii sample_cgroup) by (apply (bool_decide_unpack _); vm_compute; exact I).
  pose proof sample_pod_ascii as Hp. repeat (apply Forall_cons_2; [first [exact I|exact Hg|exact Hp]|]). apply Forall_nil_2.
Qed.

Definition sample_threads : Threads :=
  ret_or (init_threads None) (run_threads (LC := demo_cfg) sample_schedule (init_threads None)).

Lemma sample_threads_run :
  run_threads (LC := demo_cfg) sample_schedule (init_threads None) = Ret sample_threads /\
  th_main sample_threads = M_idle /\ annotated (th_enr sample_threads) 7 = true /\ th_lost sample_threads = ∅.
Proof. split; [apply returns_ret|]; vm_compute; auto. Qed.

Lemma upgraded_map_follows_annotations_witness :
  exists t', run_threads (LC := demo_cfg) [T_tick; T_main] sample_threads = Ret t' /\
    (annotated (th_enr t') 7 = true -> 7 ∈ dom (th_map t') \/ 7 ∈ th_lost t').
Proof.
  destruct (upgraded_map_follows_annotations (LC := demo_cfg) None sample_schedule sample_schedule_ascii)
    as (t & E & _ & Ht).
  - apply (bool_decide_unpack _). vm_compute. exact I.
  - destruct sample_threads_run as (E' & Hm & _). rewrite E' in E. apply Ret_inj in E as <-.
    destruct (Ht Hm) as (t' & Et & Hp). exists t'. split; [exact Et|]. apply Hp.
Defined.

(** The pod is known, and so is process 7 in the second state. *)
Definition sample_before : Threads := mkThreads sample_known ∅ M_idle W_idle ∅ ∅ ∅ ∅.

Lemma sample_unindexed pid cid : pid ∉ default ∅ (container_to_pids (th_enr sample_before) !! cid).
Proof.
  assert (E : container_to_pids (th_enr sample_before) = ∅) by (vm_compute; reflexivity).
  rewrite E, lookup_empty. apply not_elem_of_empty.
Qed.

Lemma overlapping_lookup_wrong_witness :
  exists t' t'', th_watch t' = W_idle /\ container_map (th_enr t') !! take 12 sample_id = None /\
    k8s_pid_cache (th_enr t') !! 7 = Some (Some (info_of sample_pod sample_status)) /\
    th_watch t'' = W_idle /\ annotated (th_enr t'') 7 = true /\ 7 ∉ upgraded_pids (th_enr t'').
Proof.
  destruct (overlapping_lookup_wrong (LC := demo_cfg) sample_before 7 sample_cgroup (take 12 sample_id)
    (info_of sample_pod sample_status) sample_pod) as [(t' & _ & _ & H1 & H2 & H3 & _) _];
    try (vm_compute; reflexivity); [apply (bool_decide_unpack _); vm_compute; exact I|apply sample_unindexed|].
  destruct (overlapping_lookup_wrong (LC := demo_cfg) sample_threads 7 sample_cgroup (take 12 sample_id)
    (info_of sample_pod sample_status) sample_pod) as [_ H]; try (vm_compute; reflexivity).
  destruct sample_pod_containers as (new & En & Hs).
  destruct (H new) as (t'' & _ & _ & H4 & H5 & H6); [exact En| |vm_compute; reflexivity| |].
  - assert (E : extract_containers_from_pod sample_pod = Ret new) by exact En.
    vm_compute in E. apply Ret_inj in E as <-. vm_compute. reflexivity.
  - apply (bool_decide_unpack _). vm_compute. exact I.
  - exists t', t''. split_and!; [exact H1|exact H2|exact H3|exact H4|exact H5|exact H6].
Defined.
