(* ===== verification/Series.v ===== *)
(** * Labels of series: enricher, watch and handle cache together

    The handles of [Cache] carry the pod labels that the enricher of [Enrich] gave when they were
    made.  The watch of the Kubernetes API changes pods from another thread, as in [Threads]; the
    loop takes the processes whose pod changed and drops their handles.  Here the three run
    together. *)

From stdpp Require Import strings.
From S2P Require Import Prelude RustStd F64 Events Runtime Probes Step Demo Drain Export Tick Kernel Metrics Cache CacheInv Enrich Threads.

Local Open Scope Z_scope.
#[local] Set Warnings "-clear-no-such-hyp".

Section Series.
Context {PM : Prometheus} {PL : PrometheusLaws} {HK : HashOrder MetricKey} {HZ : HashOrder Z} {UT : UnicodeTables}.
Context {LC : LoadCfg}.
Variables (cg : Z -> option str) (owner : str -> str * str).

(** The branch of the ring buffer: processes with changed pods. *)
Definition take_and_invalidate (full : bool) (t : Threads) (u : Userland) : Threads * Userland :=
  let '(e, changed) := take_changes (th_enr t) in
  (with_main M_idle e t, if bool_decide (changed = ∅) then u else invalidate_pids full changed u).

(** The cgroup of a process does not change; container ids belong to one pod, and a repeated list
    reports known containers unchanged. *)
Definition op_fits (t : Threads) (op : thread_op) : Prop :=
  match op with
  | T_lookup pid g => g = cg pid
  | T_event ev => event_fits owner ev (th_enr t) (th_pending t)
  | _ => True
  end.

(** The states of the two threads and the cache.  [get_or_create] asks the enricher exactly if it
    makes a handle, which it does with the answer. *)
Inductive live : Threads -> Userland -> Prop :=
| live_new infos r : live (init_threads infos) (mkUserland new_cache r 0)
| live_step t u op t' :
    live t u -> op <> T_take -> op_fits t op -> thread_step t op = Ret t' -> live t' u
| live_make t u args key event fds pid result e' gpu u' h :
    live t u -> th_main t = M_done pid result -> ce_pid event = pid -> mk_pid key = pid ->
    resolve_gpu fds pid (th_enr t) = (e', gpu) ->
    ca_lookup args pid (event_comm args event) = Ret (labels_from (event_comm args event) result gpu) ->
    get_or_create args key event u = Ret (u', h) -> live (with_main M_idle e' t) u'
| live_hit t u args key event u' h :
    live t u -> get_or_create args key event u = Ret (u', h) ->
    handles (us_cache u') = handles (us_cache u) -> live t u'
| live_touch t u pid now : live t u -> live t (touch pid now u)
| live_take t u full :
    live t u -> th_main t = M_idle -> live (take_and_invalidate full t u).1 (take_and_invalidate full t u).2
| live_gc t u full now stale_after : live t u -> live t (gc full now stale_after u).1.

(** Namespace, pod and container among the labels of a handle. *)
Definition pod_labels (h : CachedHandles) : list str := take 3 (drop 3 (calls_labels h)).

Definition labels_of (info : PodInfo) : list str := [pi_namespace info; pi_pod info; pi_container info].

(** Labels that are those of the container of the process, or none; the enricher knows that the
    process is in the container. *)
Definition tagged (e : Enricher) (pid : Z) (l : list str) : Prop :=
  l = [[]; []; []] \/
  exists cid info, cid_of cg pid cid /\ container_map e !! cid = Some info /\
    pid ∈ default ∅ (container_to_pids e !! cid) /\ l = labels_of info.

(** The processes that the watch is going to announce. *)
Definition doomed (t : Threads) : gset Z :=
  match th_watch t with
  | W_read cids _ => affected cids (th_enr t)
  | W_forget pids _ | W_unmark pids _ | W_announce pids _ => pids
  | _ => ∅
  end.

Definition labelled (t : Threads) (pid : Z) (l : list str) : Prop :=
  pid ∈ changed_pids (th_enr t) \/ pid ∈ doomed t \/ pid ∈ th_raced t \/ tagged (th_enr t) pid l.

(** The watch is going to remove the cached pod of the process. *)
Definition going (t : Threads) (cid : str) (pid : Z) : Prop :=
  match th_watch t with W_read cids _ => cid ∈ cids | W_forget pids _ => pid ∈ pids | _ => False end.

(** An answer that was loaded is in the map, or raced. *)
Definition loaded (t : Threads) (pid : Z) (cid : option str) (result : option PodInfo) : Prop :=
  forall info, result = Some info -> exists c, cid = Some c /\ cid_of cg pid c /\
    (pid ∈ th_raced t \/ container_map (th_enr t) !! c = Some info).

Definition indexed (t : Threads) (pid : Z) (cid : option str) : Prop :=
  forall c, cid = Some c -> pid ∈ default ∅ (container_to_pids (th_enr t) !! c).

Definition main_ok (t : Threads) : Prop :=
  match th_main t with
  | M_load pid g => g = cg pid
  | M_index pid cid result => loaded t pid cid result
  | M_mark pid cid result | M_store pid cid result => loaded t pid cid result /\ indexed t pid cid
  | M_done pid result => labelled t pid (from_option labels_of [[]; []; []] result)
  | _ => True
  end.

Record pods_inv (t : Threads) : Prop := {
  pv_map : owned_map owner (container_map (th_enr t));
  pv_pending : owned_map owner (th_pending t);
  pv_cached : forall pid info, k8s_pid_cache (th_enr t) !! pid = Some (Some info) ->
    pid ∈ th_raced t \/ exists cid, cid_of cg pid cid /\
      pid ∈ default ∅ (container_to_pids (th_enr t) !! cid) /\
      (container_map (th_enr t) !! cid = Some info \/ going t cid pid);
  pv_main : main_ok t;
  pv_flag : changed_pids (th_enr t) <> ∅ -> has_changes (th_enr t) = true
}.

(** ** Steps of the loop *)

(** The loop leaves the container map and the watch alone, and the index grows. *)
Record grows (t t' : Threads) : Prop := {
  gr_map : container_map (th_enr t') = container_map (th_enr t);
  gr_pids : forall cid, default ∅ (container_to_pids (th_enr t) !! cid)
                        ⊆ default ∅ (container_to_pids (th_enr t') !! cid);
  gr_changed : changed_pids (th_enr t') = changed_pids (th_enr t);
  gr_flag : has_changes (th_enr t') = has_changes (th_enr t);
  gr_watch : th_watch t' = th_watch t;
  gr_raced : th_raced t' = th_raced t;
  gr_pending : th_pending t' = th_pending t
}.

Lemma affected_mono cids e e' :
  (forall cid, default ∅ (container_to_pids e !! cid) ⊆ default ∅ (container_to_pids e' !! cid)) ->
  affected cids e ⊆ affected cids e'.
Proof.
  intros Hs. unfold affected. enough (forall s s', s ⊆ s' ->
    foldl (fun s cid => s ∪ default ∅ (container_to_pids e !! cid)) s cids
    ⊆ foldl (fun s cid => s ∪ default ∅ (container_to_pids e' !! cid)) s' cids) as H by (by apply H).
  induction cids as [|c cids IH]; intros s s' Hss; cbn [foldl]; [done|]. apply IH. specialize (Hs c). set_solver.
Qed.

Lemma tagged_grows t t' pid l : grows t t' -> tagged (th_enr t) pid l -> tagged (th_enr t') pid l.
Proof.
  intros [G1 G2 _ _ _ _ _] [->|(cid & info & H1 & H2 & H3 & H4)]; [by left|]. right. exists cid, info.
  rewrite G1. split_and!; [done|done|by apply G2|done].
Qed.

Lemma labelled_grows t t' pid l : grows t t' -> labelled t pid l -> labelled t' pid l.
Proof.
  intros Hg. pose proof Hg as [G1 G2 G3 G4 G5 G6 _]. unfold labelled, doomed. rewrite G3, G5, G6.
  intros [?|[Hd|[?|Ht]]]; [by left|right; left|by right; right; left|right; right; right; by apply (tagged_grows t)].
  destruct (th_watch t); try done. by apply (affected_mono _ (th_enr t)).
Qed.

(** The loop moves on and caches nothing, or the answer that it has stored. *)
Lemma pods_grows t t' :
  pods_inv t -> grows t t' -> main_ok t' ->
  (forall pid info, k8s_pid_cache (th_enr t') !! pid = Some (Some info) ->
     k8s_pid_cache (th_enr t) !! pid = Some (Some info) \/
     exists cid, th_main t = M_store pid cid (Some info)) ->
  pods_inv t'.
Proof.
  intros [H1 H2 H3 H4 H5] Hg Hm Hc. pose proof Hg as [G1 G2 G3 G4 G5 G6 G7].
  split; rewrite ?G1, ?G3, ?G4, ?G6, ?G7; try done. intros pid info Hi. unfold going. rewrite G5.
  destruct (Hc pid info Hi) as [Hi'|(cid & Em)].
  - destruct (H3 pid info Hi') as [?|(c & K1 & K2 & K3)]; [by left|right]. exists c. split_and!; [done|by apply G2|done].
  - unfold main_ok in H4. rewrite Em in H4. destruct H4 as [Hl Hx].
    destruct (Hl info eq_refl) as (c & -> & K1 & [?|K2]); [by left|right]. exists c. split_and!; [done|by apply G2, Hx|by left].
Qed.

Lemma grows_main pc e t :
  container_map e = container_map (th_enr t) ->
  (forall cid, default ∅ (container_to_pids (th_enr t) !! cid) ⊆ default ∅ (container_to_pids e !! cid)) ->
  changed_pids e = changed_pids (th_enr t) -> has_changes e = has_changes (th_enr t) -> grows t (with_main pc e t).
Proof. by split. Qed.

Lemma grows_index pc cid pid t : grows t (with_main pc (k8s_index cid pid (th_enr t)) t).
Proof.
  destruct cid as [c|]; apply grows_main; try done. intros cid. simpl. destruct (decide (c = cid)) as [->|].
  - rewrite lookup_insert_eq. set_solver.
  - by rewrite lookup_insert_ne.
Qed.

Lemma grows_mark pc result pid t : grows t (with_main pc (k8s_mark result pid (th_enr t)) t).
Proof. apply grows_main; destruct result as [i|]; try done; simpl; by destruct (pi_upgrade i). Qed.

(** The enricher changes nothing that [grows] looks at. *)
Lemma grows_same pc e t :
  container_map e = container_map (th_enr t) -> container_to_pids e = container_to_pids (th_enr t) ->
  changed_pids e = changed_pids (th_enr t) -> has_changes e = has_changes (th_enr t) -> grows t (with_main pc e t).
Proof. intros E1 E2 E3 E4. apply grows_main; [done| |done|done]. by rewrite E2. Qed.

Lemma loaded_grows t t' pid cid result : grows t t' -> loaded t pid cid result -> loaded t' pid cid result.
Proof. intros [G1 _ _ _ _ G6 _] Hl info Hi. destruct (Hl info Hi) as (c & ?). exists c. by rewrite G1, G6. Qed.

Lemma indexed_grows t t' pid cid : grows t t' -> indexed t pid cid -> indexed t' pid cid.
Proof. intros [_ G2 _ _ _ _ _] Hx c Hc. by apply G2, Hx. Qed.

(** The answer of a lookup that stored it. *)
Lemma stored_labelled t pid cid result :
  loaded t pid cid result -> indexed t pid cid -> labelled t pid (from_option labels_of [[]; []; []] result).
Proof.
  intros Hl Hx. destruct result as [info|]; [|by right; right; right; left].
  destruct (Hl info eq_refl) as (c & -> & K1 & [?|K2]); [by right; right; left|]. right. right. right. right.
  exists c, info. split_and!; [done|done|by apply Hx|done].
Qed.

Lemma pods_next t t' : pods_inv t -> main_next t = Ret t' -> pods_inv t' /\ grows t t'.
Proof.
  intros H. pose proof (pv_main _ H) as Hm. unfold main_ok in Hm.
  assert (Hstep : forall t', grows t t' -> main_ok t' ->
    (forall pid info, k8s_pid_cache (th_enr t') !! pid = Some (Some info) ->
       k8s_pid_cache (th_enr t) !! pid = Some (Some info) \/ exists cid, th_main t = M_store pid cid (Some info)) ->
    pods_inv t' /\ grows t t') by (intros; split; [by apply (pods_grows t)|done]).
  unfold main_next. destruct (th_main t) as [|pid [g|]|pid cid r|pid cid r|pid cid r|pid r|pid|] eqn:Em.
  - intros <-%Ret_inj. split; [done|by split].
  - unfold k8s_load. destruct (extract_container_id g) as [cid| |] eqn:Eg; cbn [mbind outcome_bind]; [|done..].
    intros <-%Ret_inj. apply Hstep; [by apply grows_same| |by left]. intros info Hi.
    destruct cid as [c|]; [|done]. exists c. split; [done|]. split; [by exists g|by right].
  - intros <-%Ret_inj. apply Hstep; [by apply grows_same| |by left]. by right; right; right; left.
  - intros <-%Ret_inj. pose proof (grows_index (M_mark pid cid r) cid pid t) as Hg.
    apply Hstep; [done| |by destruct cid; left]. split; [by apply (loaded_grows t)|]. intros c ->. simpl.
    rewrite lookup_insert_eq. simpl. set_solver.
  - intros <-%Ret_inj. pose proof (grows_mark (M_store pid cid r) r pid t) as Hg. destruct Hm as [Hl Hx].
    apply Hstep; [done| |intros ??; destruct r as [i|]; [simpl; destruct (pi_upgrade i)|]; by left].
    split; [by apply (loaded_grows t)|by apply (indexed_grows t)].
  - intros <-%Ret_inj. destruct Hm as [Hl Hx]. assert (Hg : grows t (with_main (M_done pid r) (set_k8s (insert pid r) (th_enr t)) t))
      by (by apply grows_same).
    apply Hstep; [done|apply (labelled_grows t); [done|by apply (stored_labelled t pid cid)]|].
    intros q info. simpl. rewrite lookup_insert. case_decide as Hq; [|by left]. intros [= ->]. subst q. right. by exists cid.
  - intros <-%Ret_inj. split; [done|by split].
  - intros <-%Ret_inj. apply Hstep; [by apply grows_same|done|by left].
  - destruct (sync_upgraded _ _ _) as [s m]. intros <-%Ret_inj. apply Hstep; [by split|done|by left].
Qed.

(** A hit of the cache. *)
Lemma cached_labelled t pid r :
  pods_inv t -> k8s_pid_cache (th_enr t) !! pid = Some r ->
  labelled t pid (from_option labels_of [[]; []; []] r).
Proof.
  intros H Hc. destruct r as [info|]; [|by right; right; right; left].
  destruct (pv_cached _ H pid info Hc) as [?|(cid & K1 & K2 & [K3|K3])]; [by right; right; left| |].
  - right. right. right. right. by exists cid, info.
  - right. left. unfold doomed. unfold going in K3. destruct (th_watch t); try done.
    by apply (affected_elem cg owner cids cid).
Qed.

Lemma pods_start t op :
  pods_inv t -> th_main t = M_idle -> op <> T_take -> op_fits t op ->
  pods_inv (main_start op t) /\ grows t (main_start op t).
Proof.
  intros H Em Ht Hf.
  assert (Hstep : forall t', grows t t' -> main_ok t' ->
    (forall pid info, k8s_pid_cache (th_enr t') !! pid = Some (Some info) ->
       k8s_pid_cache (th_enr t) !! pid = Some (Some info)) ->
    pods_inv t' /\ grows t t') by (intros; split; [apply (pods_grows t); auto|done]).
  assert (Hrefl : pods_inv t /\ grows t t) by (split; [done|by split]).
  destruct op as [pid g|fds|pid| | | |ev|]; cbn [main_start]; try done.
  - destruct (k8s_pid_cache (th_enr t) !! pid) as [c|] eqn:Ec; (apply Hstep; [by apply grows_same| |done]); [|exact Hf].
    apply (labelled_grows t); [by apply grows_same|by apply cached_labelled].
  - apply Hstep; [by apply grows_same|done|]. simpl. by intros q info [_ ?]%lookup_delete_Some.
  - destruct (upgrade_dirty (th_enr t)); [|done]. apply Hstep; [by apply grows_same|done|done].
Qed.

Lemma pods_use t e pid r :
  pods_inv t -> th_main t = M_done pid r -> (exists fds gpu, resolve_gpu fds pid (th_enr t) = (e, gpu)) ->
  pods_inv (with_main M_idle e t) /\ grows t (with_main M_idle e t).
Proof.
  intros H Em (fds & gpu & E).
  assert (same_marks (th_enr t) e /\ container_map e = container_map (th_enr t) /\
    container_to_pids e = container_to_pids (th_enr t)) as ([E1 _ _ E2 E3] & E4 & E5).
  { unfold resolve_gpu in E. destruct (gpu_pid_cache (th_enr t) !! pid); by injection E as <- _. }
  assert (Hg : grows t (with_main M_idle e t)) by (by apply grows_same).
  split; [|done]. apply (pods_grows t); [done|done|done|]. simpl. rewrite E1. by left.
Qed.

(** ** Steps of the watch *)

Lemma main_ok_labelled t t' :
  th_main t' = th_main t -> container_map (th_enr t') = container_map (th_enr t) ->
  container_to_pids (th_enr t') = container_to_pids (th_enr t) -> th_raced t' = th_raced t ->
  (forall pid l, labelled t pid l -> labelled t' pid l) -> main_ok t -> main_ok t'.
Proof.
  intros E1 E2 E3 E4 Hl. unfold main_ok, loaded, indexed. rewrite E1, E2, E3, E4.
  destruct (th_main t); try done. apply Hl.
Qed.

(** A step after the container map was replaced. *)
Lemma pods_watch t :
  pods_inv t -> pods_inv (watch_next t) /\ forall pid l, labelled t pid l -> labelled (watch_next t) pid l.
Proof.
  intros H. pose proof H as [H1 H2 H3 H4 H5].
  assert (Hstep : forall t', th_main t' = th_main t -> container_map (th_enr t') = container_map (th_enr t) ->
    container_to_pids (th_enr t') = container_to_pids (th_enr t) -> th_raced t' = th_raced t ->
    th_pending t' = th_pending t -> (forall pid, pid ∈ doomed t -> pid ∈ doomed t' ∪ changed_pids (th_enr t')) ->
    changed_pids (th_enr t) ⊆ changed_pids (th_enr t') ->
    (changed_pids (th_enr t') <> ∅ -> has_changes (th_enr t') = true) ->
    (forall pid info, k8s_pid_cache (th_enr t') !! pid = Some (Some info) ->
       k8s_pid_cache (th_enr t) !! pid = Some (Some info) /\
       (forall cid, pid ∈ default ∅ (container_to_pids (th_enr t) !! cid) -> going t cid pid -> going t' cid pid)) ->
    pods_inv t' /\ forall pid l, labelled t pid l -> labelled t' pid l).
  { intros t' E1 E2 E3 E4 E5 Hd Hc Hf Hk.
    assert (Hl : forall pid l, labelled t pid l -> labelled t' pid l).
    { intros pid l. unfold labelled, tagged. rewrite E2, E3, E4. specialize (Hd pid). set_solver. }
    split; [|done]. split; rewrite ?E2, ?E3, ?E4, ?E5; try done; [|by apply (main_ok_labelled t)].
    intros pid info [Hi Hg]%Hk. destruct (H3 pid info Hi) as [?|(cid & K1 & K2 & [K3|K3])]; [by left|right..]; exists cid; auto. }
  unfold watch_next. unfold doomed, going in Hstep.
  destruct (th_watch t) as [|cids d|pids d|pids d|pids d|] eqn:Ew; [split; [done|auto]|..]; apply Hstep; try done.
  - simpl. intros pid Hp. rewrite bool_decide_false by set_solver. cbn [th_watch with_watch]. set_solver.
  - intros pid info Hi. split; [done|]. intros cid Hp Hc. assert (Ha : pid ∈ affected cids (th_enr t))
      by (by apply (affected_elem cg owner cids cid)). rewrite bool_decide_false by set_solver. done.
  - simpl. set_solver.
  - simpl. intros pid info [Hi Hn]%map_lookup_filter_Some. by split.
  - simpl. set_solver.
  - simpl. set_solver.
  - simpl. set_solver.
  - simpl. intros pid info [Hi Hn]%map_lookup_filter_Some. by split.
Qed.

(** An event keeps the containers that it does not invalidate. *)
Lemma watch_map_keeps ev e p e' p' cids d :
  owned_map owner (container_map e) -> owned_map owner p -> event_fits owner ev e p ->
  watch_map ev (e, p) = Ret (e', p', cids, d) ->
  owned_map owner (container_map e') /\ owned_map owner p' /\
  forall cid info, container_map e !! cid = Some info -> cid ∉ cids -> container_map e' !! cid = Some info.
Proof.
  intros H1 H2 Hev. destruct ev as [|pod| |pod|pod]; cbn [watch_map event_fits] in *.
  - intros [= <- <- <- _]. split_and!; [done|by intros ?? []%lookup_empty_Some|done].
  - destruct (extract_containers_from_pod pod) as [new| |] eqn:En; cbn [mbind outcome_bind]; [|done..].
    intros [= <- <- <- _]. split_and!; [done| |done].
    intros cid info [Hi|[_ Hi]]%lookup_union_Some_raw; [by apply (Hev new)|by apply H2].
  - intros [= <- <- <- _]. split_and!; [done|by intros ?? []%lookup_empty_Some|].
    intros cid info. by apply (list_keeps owner).
  - destruct (extract_containers_from_pod pod) as [new| |] eqn:En; cbn [mbind outcome_bind]; [|done..].
    intros [= <- <- <- _]. split_and!; [|done|].
    + intros cid info [Hi|[_ Hi]]%lookup_union_Some_raw; [by apply (Hev new)|].
      rewrite (remove_cids_lookup owner) in Hi. case_decide; [done|]. by apply H1.
    + intros cid info. apply (apply_keeps owner); [done|done|by apply Hev].
  - intros [= <- <- <- _]. split_and!; [|done|].
    + intros cid info. simpl. rewrite (remove_cids_lookup owner). case_decide; [done|]. apply H1.
    + intros cid info Hi Hn. simpl. rewrite (remove_cids_lookup owner). by rewrite decide_False.
Qed.

Lemma raced_by_index m pid c info pc :
  answering pc = Some (pid, c, info) -> pid ∈ raced_by m pc \/ m !! c = Some info.
Proof. intros E. unfold raced_by. rewrite E. case_bool_decide; [by right|left; set_solver]. Qed.

Lemma pods_event t ev t' :
  pods_inv t -> th_watch t = W_idle -> event_fits owner ev (th_enr t) (th_pending t) ->
  watch_start ev t = Ret t' -> pods_inv t' /\ forall pid l, labelled t pid l -> labelled t' pid l.
Proof.
  intros H Ew Hev. pose proof H as [H1 H2 H3 H4 H5]. unfold watch_start.
  destruct (watch_map ev (th_enr t, th_pending t)) as [[[[e p] cids] d]| |] eqn:E; cbn [mbind outcome_bind]; [|done..].
  intros <-%Ret_inj. destruct (watch_map_keeps ev _ _ _ _ _ _ H1 H2 Hev E) as (M1 & M2 & M3).
  apply watch_map_frame in E. set (t' := mkThreads _ _ _ _ _ _ _ _).
  assert (Ee : k8s_pid_cache e = k8s_pid_cache (th_enr t) /\ container_to_pids e = container_to_pids (th_enr t) /\
    changed_pids e = changed_pids (th_enr t) /\ has_changes e = has_changes (th_enr t)) by (by rewrite <- E).
  destruct Ee as (E1 & E2 & E3 & E4). clear E.
  assert (Haff : forall cid pid, cid ∈ cids -> pid ∈ default ∅ (container_to_pids (th_enr t) !! cid) -> pid ∈ doomed t').
  { intros cid pid Hc Hp. unfold doomed. simpl. apply (affected_elem cg owner cids cid); [done|]. by rewrite E2. }
  assert (Hl : forall pid l, labelled t pid l -> labelled t' pid l).
  { intros pid l [?|[Hd|[?|Ht]]]; [left; simpl; by rewrite E3|unfold doomed in Hd; rewrite Ew in Hd; set_solver
      |right; right; left; simpl; set_solver|].
    destruct Ht as [->|(cid & info & K1 & K2 & K3 & ->)]; [by right; right; right; left|].
    destruct (decide (cid ∈ cids)) as [Hc|Hc]; [right; left; by apply (Haff cid)|]. right. right. right. right.
    exists cid, info. simpl. rewrite E2. split_and!; [done|by apply M3|done|done]. }
  split; [|done]. split; cbn [t' th_enr th_pending th_raced]; rewrite ?E1, ?E2, ?E3, ?E4; try done.
  - intros pid info Hi. destruct (H3 pid info Hi) as [?|(cid & K1 & K2 & K3)]; [left; set_solver|right].
    exists cid. split_and!; [done|done|]. unfold going in K3. rewrite Ew in K3. destruct K3 as [K3|[]].
    destruct (decide (cid ∈ cids)); [by right|left; by apply M3].
  - unfold main_ok in *. cbn [t' th_main]. 
    assert (Hld : forall pid cid r, (forall c info, cid = Some c -> r = Some info -> answering (th_main t) = Some (pid, c, info)) ->
      loaded t pid cid r -> loaded t' pid cid r).
    { intros pid cid r Ha Hld info Hr. destruct (Hld info Hr) as (c & Hc & K1 & _). exists c. split_and!; [done|done|].
      destruct (raced_by_index (container_map e) pid c info (th_main t)) as [?|?]; [by apply Ha|left; simpl; set_solver|by right]. }
    unfold indexed in *. cbn [t' th_enr]. rewrite E2.
    destruct (th_main t) as [| |pid cid r|pid cid r|pid cid r|pid r| |]; try done; [| | |by apply Hl].
    all: try (destruct H4 as [H4 Hx]; split; [|done]). all: apply Hld; [by intros c info -> ->|done].
Qed.

(** ** The cache's steps *)

Lemma create_labels args labels key event r :
  pod_labels (create_handles args labels key event r).2 = [lb_namespace labels; lb_pod labels; lb_container labels].
Proof.
  unfold create_handles.
  destruct (rs_is_nccl_event (mk_event_type key)); repeat case_match; simplify_eq; reflexivity.
Qed.

Lemma get_handles args key event u u' h l :
  get_or_create args key event u = Ret (u', h) ->
  ca_lookup args (ce_pid event) (event_comm args event) = Ret l ->
  handles (us_cache u') = handles (us_cache u) \/
  exists k h, mk_pid k = mk_pid key /\
    handles (us_cache u') = <[k := h]> (handles (us_cache u)) /\
    pod_labels h = [lb_namespace l; lb_pod l; lb_container l].
Proof.
  unfold get_or_create. destruct (limit_key _ key (us_cache u)) as [c k] eqn:El.
  destruct (limit_key_handles _ _ _ _ _ El) as (Eh & Ep & _). intros Hg Hlk. revert Hg.
  destruct (handles c !! k) as [h0|] eqn:Ek; [intros [= <- <-]; by left|].
  case_match; [intros [= <- <-]; by left|]. rewrite Hlk. cbn [mbind outcome_bind].
  pose proof (create_labels args l k event (us_reg u)) as Hlab. destruct (create_handles args l k event (us_reg u)) as [r h1].
  intros [= <- <-]. right. exists k, h1. cbn [us_cache handles]. rewrite <- Eh. done.
Qed.

Lemma invalidate_handles full pids u k h :
  handles (us_cache (invalidate_pids full pids u)) !! k = Some h ->
  handles (us_cache u) !! k = Some h /\ mk_pid k ∉ pids.
Proof.
  rewrite invalidate_pids_eq. cbn [us_cache handles].
  destruct (drop_where full (fun k => mk_pid k ∈ pids) (handles (us_cache u)) (us_reg u)) as [-> _].
  by intros [? ?]%map_lookup_filter_Some.
Qed.

Lemma gc_handles full l u k h :
  handles (us_cache (foldl (gc_pid full) u l)) !! k = Some h -> handles (us_cache u) !! k = Some h.
Proof.
  revert u. induction l as [|q l IH]; intros u; [done|]. cbn [foldl]. intros Hk%IH. revert Hk.
  rewrite gc_pid_eq. cbn [us_cache handles].
  destruct (drop_where full (fun k => mk_pid k = q) (handles (us_cache u)) (us_reg u)) as [-> _].
  by intros [? _]%map_lookup_filter_Some.
Qed.

Record live_inv (t : Threads) (u : Userland) : Prop := {
  li_pods : pods_inv t;
  li_handles : forall k h, handles (us_cache u) !! k = Some h -> labelled t (mk_pid k) (pod_labels h)
}.

Lemma take_inv full t u :
  live_inv t u -> th_main t = M_idle ->
  live_inv (take_and_invalidate full t u).1 (take_and_invalidate full t u).2 /\
  changed_pids (th_enr (take_and_invalidate full t u).1) = ∅ /\
  th_watch (take_and_invalidate full t u).1 = th_watch t /\
  th_raced (take_and_invalidate full t u).1 = th_raced t.
Proof.
  intros [H Hh] Em. pose proof H as [H1 H2 H3 H4 H5]. unfold take_and_invalidate, take_changes.
  destruct (bool_decide_reflect (changed_pids (th_enr t) = ∅)) as [E|E].
  - rewrite andb_false_r. cbn [fst snd]. rewrite bool_decide_true by done. by repeat split.
  - rewrite (H5 E). cbn [andb negb fst snd]. rewrite bool_decide_false by done. split; [|done].
    split; [by split|]. intros k h [Hk Hn]%invalidate_handles.
    destruct (Hh k h Hk) as [|Ht]; [done|]. right. exact Ht.
Qed.

Lemma step_inv t op t' :
  pods_inv t -> op <> T_take -> op_fits t op -> thread_step t op = Ret t' ->
  pods_inv t' /\ forall pid l, labelled t pid l -> labelled t' pid l.
Proof.
  intros H Ht Hf.
  assert (Hrefl : forall t', t = t' -> pods_inv t' /\ forall pid l, labelled t pid l -> labelled t' pid l)
    by (intros ? <-; auto).
  assert (Hgr : forall t', pods_inv t' /\ grows t t' -> pods_inv t' /\ forall pid l, labelled t pid l -> labelled t' pid l).
  { intros t1 [? ?]. split; [done|]. intros pid l. by apply labelled_grows. }
  assert (Hstart : match th_main t with M_idle => Ret (main_start op t) | _ => Ret t end = Ret t' ->
    pods_inv t' /\ forall pid l, labelled t pid l -> labelled t' pid l).
  { destruct (th_main t) eqn:Em; intros E%Ret_inj; try (by apply Hrefl). subst t'. apply Hgr. by apply pods_start. }
  destruct op as [pid g|fds|pid| | | |ev|]; cbn [thread_step]; try done.
  - destruct (th_main t) as [| | | | |pid r| |] eqn:Em; intros E%Ret_inj; try (by apply Hrefl). subst t'. apply Hgr.
    apply (pods_use t _ pid r); [done|done|]. exists fds. destruct (resolve_gpu fds pid (th_enr t)) as [e g]. by exists g.
  - intros E. apply Hgr. by apply pods_next.
  - destruct (th_watch t) eqn:Ew; try (by intros E%Ret_inj; apply Hrefl). by apply pods_event.
  - intros <-%Ret_inj. by apply pods_watch.
Qed.

Lemma live_live_inv t u : live t u -> live_inv t u.
Proof.
  induction 1 as [infos r|t u op t' _ [IH IHh] Ht Hf E|t u args key event fds pid result e' gpu u' h _ [IH IHh] Em Hp Hk Eg Hl E
    |t u args key event u' h _ [IH IHh] _ E|t u pid now _ [IH IHh]|t u full _ IH Em|t u full now after _ [IH IHh]].
  - split; [split; try done; simpl; by intros ?? []%lookup_empty_Some|]. intros k h Hk.
    cbn [us_cache new_cache handles] in Hk. by apply lookup_empty_Some in Hk.
  - destruct (step_inv t op t' IH Ht Hf E) as [Hi Hl]. split; [done|]. intros k h Hk. by apply Hl, IHh.
  - destruct (pods_use t e' pid result) as [Hi Hg]; [done|done|by exists fds, gpu|]. split; [done|].
    pose proof (pv_main _ IH) as Hm. unfold main_ok in Hm. rewrite Em in Hm. subst pid.
    destruct (get_handles args key event u u' h _ E Hl) as [->|(k & h1 & Ek & -> & Hlab)].
    + intros k h1 Hk1. by apply (labelled_grows t), IHh.
    + intros k' h'. intros [[<- <-]|[_ Hk1]]%lookup_insert_Some; [|by apply (labelled_grows t), IHh].
      apply (labelled_grows t); [done|]. rewrite Hlab, Ek, Hk. by destruct result.
  - split; [done|]. intros k h1. rewrite E. apply IHh.
  - by split.
  - by apply take_inv.
  - split; [done|]. intros k h Hk. apply IHh. unfold gc in Hk. cbn [fst] in Hk. by apply gc_handles in Hk.
Qed.

(** Steps that are no events. *)
Lemma live_run ops t t' u :
  Forall (fun op => match op with T_lookup pid g => g = cg pid | T_event _ | T_take => False | _ => True end) ops ->
  live t u -> run_threads ops t = Ret t' -> live t' u.
Proof.
  intros Hops. revert t. induction Hops as [|op ops Hop _ IH]; intros t Hl; cbn [run_threads]; [by intros <-%Ret_inj|].
  intros (t1 & E1 & E)%bind_ret. apply (IH t1); [|done]. apply (live_step t u op); [done|by intros ->| |done].
  by destruct op.
Qed.

(** Labels that the watch last reported for the container of the process, or none. *)
Definition current (t : Threads) (pid : Z) (l : list str) : Prop :=
  l = [[]; []; []] \/
  exists cid info, cid_of cg pid cid /\ container_map (th_enr t) !! cid = Some info /\ l = labels_of info.

Lemma tagged_current t pid l : tagged (th_enr t) pid l -> current t pid l.
Proof. intros [->|(cid & info & K1 & K2 & _ & K3)]; [by left|right; by exists cid, info]. Qed.

(** C17: the labels of series are current.  Assume that the cgroup of a process does not change,
    that container ids belong to one pod, and that repeated lists report known containers
    unchanged.  Take any interleaving of the steps of the watch with those of the loop, which makes,
    drops and evicts handles.  The namespace, pod and container of a cached handle are those that
    the watch last reported for the container of its process, or none, unless its process is among
    the changed ones that the loop has not taken yet, or among those that the event in progress is
    going to announce, or had a lookup during which the watch replaced the pod that the lookup had
    loaded.  When the watch has finished the event and the loop has taken the changes, only the
    last exception is left. *)
Theorem series_labels_current t u full k h :
  live t u ->
  (handles (us_cache u) !! k = Some h ->
     mk_pid k ∈ changed_pids (th_enr t) \/ mk_pid k ∈ doomed t \/ mk_pid k ∈ th_raced t \/
     current t (mk_pid k) (pod_labels h)) /\
  (th_main t = M_idle -> th_watch t = W_idle -> mk_pid k ∉ th_raced t ->
   handles (us_cache (take_and_invalidate full t u).2) !! k = Some h ->
     current (take_and_invalidate full t u).1 (mk_pid k) (pod_labels h)).
Proof.
  intros Hl%live_live_inv. split.
  - intros Hk. destruct (li_handles _ _ Hl k h Hk) as [?|[?|[?|Ht%tagged_current]]]; auto.
  - intros Em Ew Hr Hk. destruct (take_inv full t u Hl Em) as (Ht & Hch & Hw & Hra).
    destruct (li_handles _ _ Ht k h Hk) as [Hx|[Hd|[Hx|Hx%tagged_current]]]; [|..|done].
    + rewrite Hch in Hx. by apply elem_of_empty in Hx.
    + unfold doomed in Hd. rewrite Hw, Ew in Hd. by apply elem_of_empty in Hd.
    + by rewrite Hra in Hx.
Qed.
End Series.

(** ** An example *)

(** The pod is reported, and process 7 makes a call. *)
Definition series_schedule : list thread_op :=
  [T_event (Apply sample_pod); T_watch; T_lookup 7 (Some sample_cgroup); T_main; T_main; T_main; T_main].

Definition series_threads : Threads :=
  ret_or (init_threads None) (run_threads (LC := demo_cfg) series_schedule (init_threads None)).

Definition series_comm : str := event_comm sample_args (sample_event 7 80).

Definition series_info : PodInfo := info_of sample_pod sample_status.

Definition series_args : CreateArgs :=
  mkCreateArgs true (fun _ _ => Ret (labels_from series_comm (Some series_info) None))
    (ca_proc_comm sample_args) ∅ sample_limits.

Definition series_start : Userland := mkUserland new_cache empty_store 0.
Definition series_made : outcome (Userland * CachedHandles) :=
  get_or_create series_args (sample_key 7 80) (sample_event 7 80) series_start.
Definition series_user : Userland := match series_made with Ret (u, _) => u | _ => series_start end.

Lemma series_made_user : exists h, series_made = Ret (series_user, h).
Proof.
  assert (H : returns series_made = true) by (vm_compute; reflexivity). unfold series_user.
  destruct series_made as [[u h]| |]; [by exists h|done..].
Qed.

Definition series_after : Threads := with_main M_idle (resolve_gpu None 7 (th_enr series_threads)).1 series_threads.

Lemma series_prefix :
  live (LC := demo_cfg) (fun _ => Some sample_cgroup) (fun _ => (lit "ml", lit "train-0")) series_threads series_start /\
  th_main series_threads = M_done 7 (Some series_info).
Proof.
  split; [|vm_compute; reflexivity].
  assert (E : run_threads (LC := demo_cfg) series_schedule (init_threads None) = Ret series_threads)
    by (apply returns_ret; vm_compute; reflexivity).
  assert (H0 : live (LC := demo_cfg) (fun _ => Some sample_cgroup) (fun _ => (lit "ml", lit "train-0"))
    (init_threads None) series_start) by apply live_new.
  apply bind_ret in E as (t1 & E1 & E).
  apply (live_run (LC := demo_cfg) _ _ (drop 1 series_schedule) t1); [| |exact E].
  { repeat (apply Forall_cons_2; [first [exact I|reflexivity]|]). apply Forall_nil_2. }
  apply (live_step (LC := demo_cfg) _ _ (init_threads None) series_start (T_event (Apply sample_pod)) t1 H0);
    [discriminate| |exact E1].
  intros m Hm cid info Hi. destruct (extract_pod sample_pod m cid info Hm Hi) as [-> ->]. reflexivity.
Qed.

Lemma series_live :
  live (LC := demo_cfg) (fun _ => Some sample_cgroup) (fun _ => (lit "ml", lit "train-0")) series_after series_user.
Proof.
  destruct series_prefix as [Hl Hm]. destruct series_made_user as [h Hh].
  apply (live_make (LC := demo_cfg) _ _ series_threads series_start series_args (sample_key 7 80) (sample_event 7 80) None 7
    (Some series_info) _ None series_user h Hl Hm); [reflexivity..| |reflexivity|exact Hh].
  vm_compute. reflexivity.
Qed.

Definition has_labels (o : option CachedHandles) : bool :=
  match o with Some h => negb (bool_decide (pod_labels h = [[]; []; []])) | None => false end.

Lemma series_labelled : has_labels (handles (us_cache series_user) !! sample_key 7 80) = true.
Proof. vm_compute. reflexivity. Qed.

Lemma series_labels_current_witness :
  exists h, handles (us_cache series_user) !! sample_key 7 80 = Some h /\ pod_labels h <> [[]; []; []] /\
    (7 ∈ changed_pids (th_enr series_after) \/ 7 ∈ doomed series_after \/ 7 ∈ th_raced series_after \/
     current (fun _ => Some sample_cgroup) series_after 7 (pod_labels h)).
Proof.
  pose proof series_labelled as Hl. destruct (handles (us_cache series_user) !! sample_key 7 80) as [h|] eqn:Hh; [|done].
  assert (pod_labels h <> [[]; []; []]) as Hn by exact (bool_decide_eq_false_1 _ (proj1 (negb_true_iff _) Hl)).
  exists h. split; [reflexivity|]. split; [exact Hn|].
  exact (proj1 (series_labels_current (PM := store_prometheus) (LC := demo_cfg) (fun _ => Some sample_cgroup)
    (fun _ => (lit "ml", lit "train-0")) series_after series_user true (sample_key 7 80) h series_live) Hh).
Defined.
