(* ===== verification/Server.v ===== *)
(** * The HTTP endpoints: src/src/server.rs

    The state the event loop shares with the handlers, the four handlers and the
    routes.  A time is in nanoseconds since [start_time]. *)

From stdpp Require Import strings.
From S2P Require Import Prelude RustStd F64.

Local Open Scope Z_scope.

Record AppState := mkAppState {
  heartbeat_ns : Z;
  ring_buffer_open : bool;
  libs_attached : Z;
  k8s_ready : bool;
  app_events_processed : Z;
  app_kernel_mode : str;
  app_tracked_pids : Z                (* the gauge of [metrics] *)
}.

Definition HEARTBEAT_STALE_NS : Z := 30000000000.

Inductive StatusCode := S_OK | S_UNAUTHORIZED | S_NOT_FOUND | S_METHOD_NOT_ALLOWED | S_SERVICE_UNAVAILABLE.

#[global] Instance StatusCode_eq_dec : EqDecision StatusCode.
Proof. solve_decision. Defined.

Definition handle_health (elapsed : Z) (state : AppState) : StatusCode * str :=
  let heartbeat := heartbeat_ns state in
  let now := u64 elapsed in
  if (heartbeat =? 0) || (saturating_sub now heartbeat <? HEARTBEAT_STALE_NS)
  then (S_OK, lit "ok" ++ [10])
  else (S_SERVICE_UNAVAILABLE, lit "event loop stale" ++ [10]).

Definition handle_ready (state : AppState) : StatusCode * str :=
  if (1 <=? libs_attached state) && ring_buffer_open state && k8s_ready state
  then (S_OK, lit "ready" ++ [10])
  else (S_SERVICE_UNAVAILABLE, lit "not ready" ++ [10]).

Record StatusResponse := mkStatusResponse {
  attached_libraries : Z;
  st_tracked_pids : Z;
  st_events_processed : Z;
  uptime_seconds : f64;
  st_kernel_mode : str
}.

(** [Duration::as_secs_f64] *)
Definition as_secs_f64 (ns : Z) : f64 :=
  f64_add (f64_of (ns / 1000000000)) (f64_div (f64_of (ns mod 1000000000)) (f64_of 1000000000)).

Definition handle_status (elapsed : Z) (state : AppState) : StatusResponse :=
  mkStatusResponse (libs_attached state) (app_tracked_pids state) (app_events_processed state)
    (as_secs_f64 elapsed) (app_kernel_mode state).

(** ** Routes *)

Inductive Method := GET | HEAD | OtherMethod.

Inductive Body := Text (s : str) | Exposition (bytes : list Z) | Json (r : StatusResponse).

Record Response := mkResponse { re_status : StatusCode; re_body : Body }.

Definition of_pair (p : StatusCode * str) : Response := mkResponse p.1 (Text p.2).

(** axum's method router for [get]: HEAD is answered like GET, without the body. *)
Definition get_route (m : Method) (r : Response) : Response :=
  match m with
  | GET => r
  | HEAD => mkResponse (re_status r) (Text [])
  | OtherMethod => mkResponse S_METHOD_NOT_ALLOWED (Text [])
  end.

(** [encoded]: what [Metrics::encode_bytes] gives at the time of the request. *)
Definition base_router (encoded : list Z) (elapsed : Z) (state : AppState) (m : Method) (path : str)
    : Response :=
  if bool_decide (path = lit "/metrics") then get_route m (mkResponse S_OK (Exposition encoded))
  else if bool_decide (path = lit "/health") then get_route m (of_pair (handle_health elapsed state))
  else if bool_decide (path = lit "/ready") then get_route m (of_pair (handle_ready state))
  else if bool_decide (path = lit "/status")
       then get_route m (mkResponse S_OK (Json (handle_status elapsed state)))
  else mkResponse S_NOT_FOUND (Text []).

(** ** The heartbeat of the event loop

    [app_state.heartbeat_ns.store(start_time.elapsed().as_nanos() as u64)] at the head of
    every iteration of the select loop. *)
Definition beat (elapsed : Z) (state : AppState) : AppState :=
  mkAppState (u64 elapsed) (ring_buffer_open state) (libs_attached state) (k8s_ready state)
    (app_events_processed state) (app_kernel_mode state) (app_tracked_pids state).

(** The probe fails exactly when the loop has begun no iteration for 30 seconds after its last
    one, counting from an iteration later than the start itself. *)
Lemma health_stale_iff t now state :
  0 < t <= now -> now < 2 ^ 64 ->
  (handle_health now (beat t state)).1 = S_SERVICE_UNAVAILABLE <-> HEARTBEAT_STALE_NS <= now - t.
Proof.
  intros Ht Hnow. unfold handle_health, beat. cbn [heartbeat_ns].
  rewrite !wrap_small by (unfold fits; lia).
  destruct (Z.eqb_spec t 0); [lia|]. cbn [orb].
  unfold saturating_sub. case_match eqn:E; cbn [fst]; split; intros; (done || lia).
Qed.

(** The router never answers 401 of itself: an unauthorized answer is the middleware's. *)
Lemma router_not_unauthorized encoded elapsed state m path :
  re_status (base_router encoded elapsed state m path) <> S_UNAUTHORIZED.
Proof.
  unfold base_router, get_route, of_pair, handle_health, handle_ready.
  repeat case_match; simpl; congruence.
Qed.
