(* ===== verification/Security.v ===== *)
(** * TLS and authentication of the endpoints: src/src/http_security.rs, src/src/pem.rs

    The configuration and its validation, the TLS configuration built from PEM files, the
    review of bearer tokens with its cache, the middleware in front of the routes, and the
    server that serve_http of src/src/server.rs starts.  A handler waits while the Kubernetes
    API reviews a token, so a request is two steps of the server, and the steps of different
    requests interleave; a client that goes away meanwhile cancels its request. *)

From stdpp Require Import strings.
From S2P Require Import Prelude RustStd Server.

Local Open Scope Z_scope.
#[local] Set Warnings "-clear-no-such-hyp".

(** ** Configuration *)

Inductive TlsMode := TlsOff | TlsServer | TlsMtls.
Inductive AuthMode := AuthOff | AuthBearer | AuthMtlsOrBearer.

#[global] Instance TlsMode_eq_dec : EqDecision TlsMode.
Proof. solve_decision. Defined.
#[global] Instance AuthMode_eq_dec : EqDecision AuthMode.
Proof. solve_decision. Defined.

Record MetricsSecurityArgs := mkMetricsSecurityArgs {
  metrics_tls_mode : TlsMode;
  metrics_tls_cert : option str;
  metrics_tls_key : option str;
  metrics_tls_client_ca : option str;
  metrics_auth_mode : AuthMode;
  metrics_auth_audience : option str;
  metrics_auth_cache_ttl : Z;
  metrics_auth_cache_size : Z
}.

Definition tls_enabled (args : MetricsSecurityArgs) : bool :=
  negb (bool_decide (metrics_tls_mode args = TlsOff)).

Definition auth_enabled (args : MetricsSecurityArgs) : bool :=
  negb (bool_decide (metrics_auth_mode args = AuthOff)).

Definition needs_k8s_client (args : MetricsSecurityArgs) : bool :=
  match metrics_auth_mode args with AuthBearer | AuthMtlsOrBearer => true | AuthOff => false end.

Definition is_none {A} (o : option A) : bool := match o with None => true | Some _ => false end.

Inductive ConfigError := CertAndKeyRequired | ClientCaRequired | MtlsListenerRequired.

Definition validate (args : MetricsSecurityArgs) : result ConfigError unit :=
  if tls_enabled args && (is_none (metrics_tls_cert args) || is_none (metrics_tls_key args))
  then Err CertAndKeyRequired
  else if bool_decide (metrics_tls_mode args = TlsMtls) && is_none (metrics_tls_client_ca args)
  then Err ClientCaRequired
  else if bool_decide (metrics_auth_mode args = AuthMtlsOrBearer)
          && negb (bool_decide (metrics_tls_mode args = TlsMtls))
  then Err MtlsListenerRequired
  else Ok ().

(** ** TLS

    What is used of rustls and rustls_pemfile.  [handshake] says whether a connection with
    the certificates a client presents, if any, gets to the application. *)
Class Tls := {
  Cert : Type;
  PrivateKey : Type;
  RootCertStore : Type;
  ClientVerifier : Type;
  ServerConfig : Type;
  pem_certs : list Z -> option (list Cert);
  pem_private_key : list Z -> option (option PrivateKey);
  roots_empty : RootCertStore;
  roots_add : RootCertStore -> Cert -> option RootCertStore;
  verifier_build : RootCertStore -> option ClientVerifier;
  with_no_client_auth : list Cert -> PrivateKey -> option ServerConfig;
  with_client_cert_verifier : ClientVerifier -> list Cert -> PrivateKey -> option ServerConfig;
  handshake : ServerConfig -> option (list Cert) -> bool;
  signed_by : list Cert -> Cert -> bool
}.

(** [WebPkiClientVerifier] without [allow_unauthenticated]: a client has to present a chain
    that ends at one of the roots. *)
Class TlsLaws `{!Tls} := {
  trusted : RootCertStore -> list Cert;
  trusted_empty : trusted roots_empty = [];
  trusted_add roots cert roots' :
    roots_add roots cert = Some roots' -> trusted roots' = trusted roots ++ [cert];
  verifier_requires roots v certs key cfg client :
    verifier_build roots = Some v -> with_client_cert_verifier v certs key = Some cfg ->
    handshake cfg client = true ->
    exists chain root, client = Some chain /\ root ∈ trusted roots /\ signed_by chain root = true
}.

(** The files of the machine. *)
Definition Files := str -> option (list Z).

Inductive TlsError :=
  | OpenFailed (path : str) | ParseFailed (path : str) | NothingFound (path : str)
  | BadCaCert | BadVerifier | BadCertOrKey.

Section Pem.
Context {T : Tls} (fs : Files).

Definition read_pem_file (path : str) : result TlsError (list Z) := ok_or (OpenFailed path) (fs path).

Definition load_cert_chain (path : str) : result TlsError (list Cert) :=
  match fs path with
  | None => Err (OpenFailed path)
  | Some bytes =>
      match pem_certs bytes with
      | None => Err (ParseFailed path)
      | Some [] => Err (NothingFound path)
      | Some certs => Ok certs
      end
  end.

Definition load_private_key (path : str) : result TlsError PrivateKey :=
  match fs path with
  | None => Err (OpenFailed path)
  | Some bytes =>
      match pem_private_key bytes with
      | None => Err (ParseFailed path)
      | Some None => Err (NothingFound path)
      | Some (Some key) => Ok key
      end
  end.

Fixpoint add_roots (roots : RootCertStore) (certs : list Cert) : option RootCertStore :=
  match certs with
  | [] => Some roots
  | cert :: certs => roots ← roots_add roots cert; add_roots roots certs
  end.

(** [None]: TLS is off. *)
Definition build_rustls_config (args : MetricsSecurityArgs)
    : outcome (result TlsError (option ServerConfig)) :=
  if negb (tls_enabled args) then Ret (Ok None)
  else
    cert_path ← expect (metrics_tls_cert args);
    key_path ← expect (metrics_tls_key args);
    certs ←? Ret (load_cert_chain cert_path);
    key ←? Ret (load_private_key key_path);
    match metrics_tls_mode args with
    | TlsOff => Panic
    | TlsServer =>
        cfg ←? Ret (ok_or BadCertOrKey (with_no_client_auth certs key));
        Ret (Ok (Some cfg))
    | TlsMtls =>
        ca_path ← expect (metrics_tls_client_ca args);
        ca_certs ←? Ret (load_cert_chain ca_path);
        roots ←? Ret (ok_or BadCaCert (add_roots roots_empty ca_certs));
        verifier ←? Ret (ok_or BadVerifier (verifier_build roots));
        cfg ←? Ret (ok_or BadCertOrKey (with_client_cert_verifier verifier certs key));
        Ret (Ok (Some cfg))
    end.
End Pem.

(** ** Token reviews *)

(** The fields of TokenReviewStatus of k8s_openapi that are read. *)
Record TokenReviewStatus := mkTokenReviewStatus {
  authenticated : option bool;
  audiences : option (list str);
  user : option (option str)          (* the user's [username] *)
}.

(** The answer of the API: an error, or the review that was created. *)
Definition Reply := option (option TokenReviewStatus).

Record TokenReviewSpec := mkTokenReviewSpec { sp_token : option str; sp_audiences : option (list str) }.

(** [moka::future::Cache<[u8; 32], CachedAuthn>] with a time to live and a capacity, and the
    digest of sha2.  [c_read] is what a lookup changes (popularity, expired entries). *)
Class TokenCache := {
  Cache_t : Type;
  c_new : Z -> Z -> Cache_t;
  c_get : Cache_t -> list Z -> Z -> option str;
  c_read : Cache_t -> list Z -> Z -> Cache_t;
  c_insert : Cache_t -> list Z -> str -> Z -> Cache_t;
  sha256 : list Z -> list Z
}.

(** An entry is found only while its time to live has not passed, a later insertion of the
    same key replaces it, and no other operation adds entries. *)
Class TokenCacheLaws `{!TokenCache} := {
  c_ttl : Cache_t -> Z;
  ttl_new ttl size : c_ttl (c_new ttl size) = ttl;
  ttl_read c k t : c_ttl (c_read c k t) = c_ttl c;
  ttl_insert c k v t : c_ttl (c_insert c k v t) = c_ttl c;
  get_new ttl size k now : c_get (c_new ttl size) k now = None;
  get_read c k t k' now v : c_get (c_read c k t) k' now = Some v -> c_get c k' now = Some v;
  get_insert c k v t k' now v' :
    c_get (c_insert c k v t) k' now = Some v' ->
    (k' = k /\ v' = v /\ now < t + c_ttl c) \/ (k' <> k /\ c_get c k' now = Some v')
}.

Inductive AuthFailure := NoAuth | TokenReviewDeny | TokenReviewError | AudienceMismatch.

Definition reason (f : AuthFailure) : str :=
  match f with
  | NoAuth => lit "no_auth"
  | TokenReviewDeny => lit "tokenreview_deny"
  | TokenReviewError => lit "tokenreview_error"
  | AudienceMismatch => lit "audience_mismatch"
  end.

(** The counters of [Metrics] that are written here, per label value; the latency histogram
    by its number of observations. *)
Record HttpMetrics := mkHttpMetrics {
  http_auth_success : gmap str Z;
  http_auth_failures : gmap str Z;
  http_tokenreview_cache : gmap str Z;
  http_tokenreview_latency : Z;
  http_tls_handshakes : gmap str Z
}.

Definition bump (label : str) (n : Z) (c : gmap str Z) : gmap str Z :=
  <[label := default 0 (c !! label) + n]> c.

Definition count_success (label : str) (m : HttpMetrics) : HttpMetrics :=
  mkHttpMetrics (bump label 1 (http_auth_success m)) (http_auth_failures m)
    (http_tokenreview_cache m) (http_tokenreview_latency m) (http_tls_handshakes m).
Definition count_failure (f : AuthFailure) (m : HttpMetrics) : HttpMetrics :=
  mkHttpMetrics (http_auth_success m) (bump (reason f) 1 (http_auth_failures m))
    (http_tokenreview_cache m) (http_tokenreview_latency m) (http_tls_handshakes m).
Definition count_cache (label : str) (m : HttpMetrics) : HttpMetrics :=
  mkHttpMetrics (http_auth_success m) (http_auth_failures m)
    (bump label 1 (http_tokenreview_cache m)) (http_tokenreview_latency m) (http_tls_handshakes m).
Definition count_latency (m : HttpMetrics) : HttpMetrics :=
  mkHttpMetrics (http_auth_success m) (http_auth_failures m)
    (http_tokenreview_cache m) (http_tokenreview_latency m + 1) (http_tls_handshakes m).

Section Review.
Context {TC : TokenCache}.

Record TokenReviewer := mkTokenReviewer { audience : option str; cache : Cache_t }.

(** moka's builder panics on a time to live of more than 1000 years of 365 days. *)
Definition YEARS_1000_SECS : Z := 1000 * 365 * 24 * 3600.

Definition new_reviewer (aud : option str) (cache_ttl cache_size : Z) : outcome TokenReviewer :=
  if YEARS_1000_SECS <? cache_ttl then Panic
  else Ret (mkTokenReviewer aud (c_new (cache_ttl * 1000000000) cache_size)).

Definition digest (token : str) : list Z := sha256 (as_bytes token).

(** The first half of [authenticate], up to the call of the API: the user of a cached token,
    or the review to ask for. *)
Definition authenticate_lookup (token : str) (now : Z) (r : TokenReviewer) (m : HttpMetrics)
    : TokenReviewer * HttpMetrics * (str + TokenReviewSpec) :=
  let key := digest token in
  let r' := mkTokenReviewer (audience r) (c_read (cache r) key now) in
  match c_get (cache r) key now with
  | Some username => (r', count_cache (lit "hit") m, inl username)
  | None =>
      (r', count_cache (lit "miss") m,
       inr (mkTokenReviewSpec (Some token) ((fun a => [a]) <$> audience r)))
  end.

(** What the answer of the API says about the token. *)
Definition judge (aud : option str) (reply : Reply) : result AuthFailure str :=
  match reply with
  | None => Err TokenReviewError
  | Some None => Err TokenReviewError
  | Some (Some status) =>
      if negb (default false (authenticated status)) then Err TokenReviewDeny
      else
        let ok := match aud with
                  | Some required =>
                      match audiences status with
                      | Some a => existsb (fun x => bool_decide (x = required)) a
                      | None => false
                      end
                  | None => true
                  end in
        if negb ok then Err AudienceMismatch
        else Ok (default (lit "unknown") (user status ≫= id))
  end.

(** The second half: only an accepted token enters the cache. *)
Definition authenticate_finish (token : str) (reply : Reply) (now : Z) (r : TokenReviewer)
    (m : HttpMetrics) : TokenReviewer * HttpMetrics * result AuthFailure str :=
  let m := count_latency m in
  match judge (audience r) reply with
  | Ok username =>
      (mkTokenReviewer (audience r) (c_insert (cache r) (digest token) username now), m, Ok username)
  | Err f => (r, m, Err f)
  end.
End Review.

(** ** The middleware *)

Record Request := mkRequest {
  rq_method : Method;
  rq_path : str;
  rq_authorization : list (list Z)    (* the values of the Authorization headers, in order *)
}.

(** [HeaderValue::to_str] of the http crate, and what binding a listener depends on. *)
Class Http := {
  Addr : Type;
  header_to_str : list Z -> option str;
  parse_addr : str -> option Addr;
  bind : Addr -> bool
}.

Definition is_unauthenticated_path (path : str) : bool :=
  bool_decide (path = lit "/health") || bool_decide (path = lit "/ready").

Definition unauthorized_response : Response :=
  mkResponse S_UNAUTHORIZED (Text (lit "unauthorized" ++ [10])).

Section Middleware.
Context {TC : TokenCache} {HT : Http}.

(** The bearer token of a request, if there is one. *)
Definition bearer_token (req : Request) : option str :=
  h ← head (rq_authorization req);
  s ← header_to_str h;
  t ← strip_prefix (lit "Bearer ") s;
  let t := trim t in
  if bool_decide (t = []) then None else Some t.

Record AuthLayerState := mkAuthLayerState {
  mode : AuthMode;
  mtls_listener : bool;
  reviewer : option TokenReviewer;
  al_metrics : HttpMetrics
}.

Definition upd_review (r : TokenReviewer) (m : HttpMetrics) (state : AuthLayerState) : AuthLayerState :=
  mkAuthLayerState (mode state) (mtls_listener state) (Some r) m.
Definition upd_metrics (m : HttpMetrics) (state : AuthLayerState) : AuthLayerState :=
  mkAuthLayerState (mode state) (mtls_listener state) (reviewer state) m.

(** What the middleware does with a request: run the routes, refuse, or wait for the review of
    a token. *)
Inductive Verdict := Next | Refuse | Await (token : str) (spec : TokenReviewSpec).

Definition refuse (f : AuthFailure) (state : AuthLayerState) : AuthLayerState * Verdict :=
  (upd_metrics (count_failure f (al_metrics state)) state, Refuse).

(** [auth_middleware] up to the call of the API *)
Definition auth_begin (now : Z) (req : Request) (state : AuthLayerState) : AuthLayerState * Verdict :=
  if bool_decide (mode state = AuthOff) then (state, Next)
  else if is_unauthenticated_path (rq_path req) then (state, Next)
  else if bool_decide (mode state = AuthMtlsOrBearer) && mtls_listener state
  then (upd_metrics (count_success (lit "mtls") (al_metrics state)) state, Next)
  else
    match bearer_token req with
    | None => refuse NoAuth state
    | Some token =>
        match reviewer state with
        | None => refuse TokenReviewError state
        | Some r =>
            let '(r, m, res) := authenticate_lookup token now r (al_metrics state) in
            match res with
            | inl _ => (upd_review r (count_success (lit "bearer") m) state, Next)
            | inr spec => (upd_review r m state, Await token spec)
            end
        end
    end.

(** [auth_middleware] after the API has answered *)
Definition auth_resume (now : Z) (token : str) (reply : Reply) (state : AuthLayerState)
    : AuthLayerState * Verdict :=
  match reviewer state with
  | None => (state, Refuse)
  | Some r =>
      let '(r, m, res) := authenticate_finish token reply now r (al_metrics state) in
      match res with
      | Ok _ => (upd_review r (count_success (lit "bearer") m) state, Next)
      | Err f => (upd_review r (count_failure f m) state, Refuse)
      end
  end.
End Middleware.

(** ** The server *)

(** What a handler reads when it runs: the time, the shared state and the encoded metrics. *)
Record Env := mkEnv { ev_now : Z; ev_app : AppState; ev_encoded : list Z }.

(** An answered call of the API: the review that was asked for, the answer, and when it came. *)
Record Review := mkReview { rv_spec : TokenReviewSpec; rv_reply : Reply; rv_time : Z }.

Inductive ServeError := BadListen | TlsFailed (e : TlsError) | BindFailed.
Inductive StartError := InvalidConfig (e : ConfigError) | NoK8sClient.

Section Serve.
Context {T : Tls} {TC : TokenCache} {HT : Http}.

Record Waiting := mkWaiting {
  wt_conn : option (list Cert); wt_req : Request; wt_token : str; wt_spec : TokenReviewSpec
}.

Record HttpServer := mkHttpServer {
  sv_tls : option ServerConfig;
  sv_auth : AuthLayerState;
  sv_waiting : gmap Z Waiting;
  sv_reviews : list Review;           (* the answers of the API so far *)
  sv_cancelled : nat                  (* the requests cancelled while they waited *)
}.

(** A request that was answered. *)
Record Served := mkServed {
  sd_conn : option (list Cert); sd_req : Request; sd_now : Z; sd_resp : Response
}.

Definition no_metrics : HttpMetrics := mkHttpMetrics ∅ ∅ ∅ 0 ∅.

Definition map_err {E E' A} (f : E -> E') (m : outcome (result E A)) : outcome (result E' A) :=
  r ← m; Ret (match r with Ok a => Ok a | Err e => Err (f e) end).

(** [serve_http] up to the accept loop *)
Definition serve_http (fs : Files) (listen : str) (security : MetricsSecurityArgs)
    (rv : option TokenReviewer) : outcome (result ServeError HttpServer) :=
  let auth := mkAuthLayerState (metrics_auth_mode security)
                (bool_decide (metrics_tls_mode security = TlsMtls)) rv no_metrics in
  addr ←? Ret (ok_or BadListen (parse_addr listen));
  tls ←? map_err TlsFailed (build_rustls_config fs security);
  if negb (bind addr) then Ret (Err BindFailed)
  else
    Ret (Ok (match tls with
             | None => mkHttpServer None auth ∅ [] 0
             | Some cfg =>
                 let m := mkHttpMetrics ∅ ∅ ∅ 0 (bump (lit "ok") 0 ∅) in
                 mkHttpServer (Some cfg) (upd_metrics m auth) ∅ [] 0
             end)).

(** The reviewer that [main] makes.  [client]: the Kubernetes client could be built. *)
Definition start_reviewer (client : bool) (args : MetricsSecurityArgs)
    : outcome (result StartError (option TokenReviewer)) :=
  if needs_k8s_client args then
    if client then
      r ← new_reviewer (metrics_auth_audience args) (metrics_auth_cache_ttl args)
            (metrics_auth_cache_size args);
      Ret (Ok (Some r))
    else Ret (Err NoK8sClient)
  else Ret (Ok None).

(** The parts of [main] that concern the server.  An error of [serve_http] is logged by its task
    and does not end the program. *)
Definition start_server (fs : Files) (client : bool) (listen : str) (args : MetricsSecurityArgs)
    : outcome (result StartError (result ServeError HttpServer)) :=
  match validate args with
  | Err e => Ret (Err (InvalidConfig e))
  | Ok _ =>
      rv ←? start_reviewer client args;
      r ← serve_http fs listen args rv;
      Ret (Ok r)
  end.

Inductive serve_op :=
  | Arrive (id : Z) (conn : option (list Cert)) (req : Request) (e : Env)
  | Reviewed (id : Z) (reply : Reply) (e : Env)
  | Cancelled (id : Z).

Definition connects (sv : HttpServer) (conn : option (list Cert)) : bool :=
  match sv_tls sv with Some cfg => handshake cfg conn | None => true end.

Definition route (e : Env) (req : Request) : Response :=
  base_router (ev_encoded e) (ev_now e) (ev_app e) (rq_method req) (rq_path req).

(** The layer is left out when authentication is off. *)
Definition begin_request (now : Z) (req : Request) (state : AuthLayerState)
    : AuthLayerState * Verdict :=
  if bool_decide (mode state = AuthOff) then (state, Next) else auth_begin now req state.

(** Requests in progress have distinct ids.  When a client disconnects, its request is dropped
    where it waits. *)
Definition serve_step (sv : HttpServer) (op : serve_op) : HttpServer * option Served :=
  match op with
  | Arrive id conn req e =>
      if negb (connects sv conn) || bool_decide (is_Some (sv_waiting sv !! id)) then (sv, None)
      else
        let '(auth, v) := begin_request (ev_now e) req (sv_auth sv) in
        let sv' := mkHttpServer (sv_tls sv) auth (sv_waiting sv) (sv_reviews sv) (sv_cancelled sv) in
        match v with
        | Next => (sv', Some (mkServed conn req (ev_now e) (route e req)))
        | Refuse => (sv', Some (mkServed conn req (ev_now e) unauthorized_response))
        | Await token spec =>
            (mkHttpServer (sv_tls sv) auth (<[id := mkWaiting conn req token spec]> (sv_waiting sv))
               (sv_reviews sv) (sv_cancelled sv), None)
        end
  | Reviewed id reply e =>
      match sv_waiting sv !! id with
      | None => (sv, None)
      | Some w =>
          let '(auth, v) := auth_resume (ev_now e) (wt_token w) reply (sv_auth sv) in
          let resp := match v with Next => route e (wt_req w) | _ => unauthorized_response end in
          (mkHttpServer (sv_tls sv) auth (delete id (sv_waiting sv))
             (sv_reviews sv ++ [mkReview (wt_spec w) reply (ev_now e)]) (sv_cancelled sv),
           Some (mkServed (wt_conn w) (wt_req w) (ev_now e) resp))
      end
  | Cancelled id =>
      match sv_waiting sv !! id with
      | None => (sv, None)
      | Some _ =>
          (mkHttpServer (sv_tls sv) (sv_auth sv) (delete id (sv_waiting sv)) (sv_reviews sv)
             (S (sv_cancelled sv)), None)
      end
  end.

Definition run_server (ops : list serve_op) (sv : HttpServer) : HttpServer * list Served :=
  foldl (fun acc op => let '(sv, ds) := acc in
                       let '(sv, d) := serve_step sv op in (sv, ds ++ option_list d))
    (sv, []) ops.
End Serve.

(** ** What a validated configuration guarantees *)

Section Facts.
Context {T : Tls} {TC : TokenCache} {HT : Http}.

Lemma validate_ok args :
  validate args = Ok () ->
  (metrics_tls_mode args <> TlsOff ->
     is_Some (metrics_tls_cert args) /\ is_Some (metrics_tls_key args)) /\
  (metrics_tls_mode args = TlsMtls -> is_Some (metrics_tls_client_ca args)) /\
  (metrics_auth_mode args = AuthMtlsOrBearer -> metrics_tls_mode args = TlsMtls).
Proof.
  destruct args as [tls [cert|] [key|] [ca|] auth aud ttl sz];
    unfold validate, tls_enabled; simpl; destruct tls, auth; simpl; intros [=];
    split_and!; intros ?; split_and?; eauto; congruence.
Qed.

Lemma map_err_Ok {E E' A} (f : E -> E') (m : outcome (result E A)) a :
  map_err f m = Ret (Ok a) -> m = Ret (Ok a).
Proof. by destruct m as [[]| |]; intros [=]; subst. Qed.

Lemma try_bind_Ok {E A B} (f : A -> outcome (result E B)) m b :
  try_bind f m = Ret (Ok b) -> exists a, m = Ret (Ok a) /\ f a = Ret (Ok b).
Proof. destruct m as [[a|]| |]; simpl; intros H; naive_solver. Qed.

Lemma ok_or_Ok {E A} (e : E) (o : option A) a : ok_or e o = Ok a -> o = Some a.
Proof. destruct o; simpl; congruence. Qed.

(** With a client verifier a connection has a chain to a certificate of the CA file. *)
Lemma add_roots_trusted {TL : TlsLaws} certs roots roots' :
  add_roots roots certs = Some roots' -> trusted roots' = trusted roots ++ certs.
Proof.
  revert roots. induction certs as [|c certs IH]; intros roots; cbn [add_roots].
  { intros [= ->]. by rewrite app_nil_r. }
  intros (r & Ha & H)%bind_Some. rewrite (IH _ H), (trusted_add _ _ _ Ha), <- app_assoc. done.
Qed.

(** [client] presented a chain signed by a certificate of the file of client CAs. *)
Definition verified_client (fs : Files) (args : MetricsSecurityArgs) (client : option (list Cert)) : Prop :=
  exists ca_path cas chain root,
    metrics_tls_client_ca args = Some ca_path /\ load_cert_chain fs ca_path = Ok cas /\
    client = Some chain /\ root ∈ cas /\ signed_by chain root = true.

Lemma mtls_verifies {TL : TlsLaws} fs args cfg client :
  metrics_tls_mode args = TlsMtls ->
  build_rustls_config fs args = Ret (Ok (Some cfg)) -> handshake cfg client = true ->
  verified_client fs args client.
Proof.
  intros Hm. unfold build_rustls_config, tls_enabled. rewrite Hm. simpl.
  destruct (metrics_tls_cert args) as [cp|]; [|done]. simpl.
  destruct (metrics_tls_key args) as [kp|]; [|done]. simpl.
  destruct (load_cert_chain fs cp) as [certs|]; [|done].
  destruct (load_private_key fs kp) as [key|]; [|done].
  destruct (metrics_tls_client_ca args) as [ca_path|] eqn:Hca; [|done]. simpl.
  destruct (load_cert_chain fs ca_path) as [cas|] eqn:Hcas; [|done].
  destruct (add_roots roots_empty cas) as [roots|] eqn:Hr; [|done]. simpl.
  destruct (verifier_build roots) as [v|] eqn:Hv; [|done]. simpl.
  destruct (with_client_cert_verifier v certs key) as [c|] eqn:Hc; [|done].
  intros [= ->] Hs. apply add_roots_trusted in Hr as Ht.
  destruct (verifier_requires _ _ _ _ _ _ Hv Hc Hs) as (chain & root & -> & Hin & Hsig).
  rewrite Ht, trusted_empty in Hin. exists ca_path, cas, chain, root. auto.
Qed.
End Facts.

(** ** The invariant of the server *)

Section Invariant.
Context {T : Tls} {TC : TokenCache} {TCL : TokenCacheLaws} {HT : Http}.
Context (fs : Files) (args : MetricsSecurityArgs).

Definition ttl_ns : Z := metrics_auth_cache_ttl args * 1000000000.

(** What a review has to ask for, and what its answer has to say: the token is authenticated, and
    for the required audience if one is configured. *)
Definition asks_for (token : str) (spec : TokenReviewSpec) : Prop :=
  sp_token spec = Some token /\
  sp_audiences spec = match metrics_auth_audience args with Some a => Some [a] | None => None end.

Definition authenticates (reply : Reply) : Prop :=
  exists status, reply = Some (Some status) /\ authenticated status = Some true /\
    forall required, metrics_auth_audience args = Some required ->
      exists granted, audiences status = Some granted /\ required ∈ granted.

Lemma judge_authenticates reply u :
  judge (metrics_auth_audience args) reply = Ok u -> authenticates reply.
Proof.
  unfold judge, authenticates. destruct reply as [[status|]|]; [|done..].
  destruct (authenticated status) as [[]|] eqn:Ea; simpl; [|done..]. intros Hj. exists status. split_and!; [done|done|].
  intros required Hr. rewrite Hr in Hj. destruct (audiences status) as [granted|]; [|done].
  exists granted. split; [done|]. destruct (existsb _ granted) eqn:Ee; [|done].
  apply existsb_exists in Ee as (x & Hx & ->%bool_decide_eq_true). by apply list_elem_of_In.
Qed.

(** A review that accepted a token with this digest and that a cache hit at [now] may rely on. *)
Definition vouched (reviews : list Review) (k : list Z) (now : Z) : Prop :=
  exists rv token, rv ∈ reviews /\ digest token = k /\ asks_for token (rv_spec rv) /\
    authenticates (rv_reply rv) /\ (now < rv_time rv + ttl_ns \/ now = rv_time rv).

Definition reviewer_ok (reviews : list Review) (r : TokenReviewer) : Prop :=
  audience r = metrics_auth_audience args /\ c_ttl (cache r) = ttl_ns /\
  forall k now u, c_get (cache r) k now = Some u -> vouched reviews k now.

(** The middleware got as far as the token of the request. *)
Definition checked (req : Request) (token : str) : Prop :=
  is_unauthenticated_path (rq_path req) = false /\ bearer_token req = Some token /\
  metrics_auth_mode args <> AuthOff /\
  ~ (metrics_auth_mode args = AuthMtlsOrBearer /\ metrics_tls_mode args = TlsMtls).

Record server_inv (sv : HttpServer) : Prop := {
  si_tls : build_rustls_config fs args = Ret (Ok (sv_tls sv));
  si_mode : mode (sv_auth sv) = metrics_auth_mode args;
  si_mtls : mtls_listener (sv_auth sv) = bool_decide (metrics_tls_mode args = TlsMtls);
  si_reviewer r : reviewer (sv_auth sv) = Some r -> reviewer_ok (sv_reviews sv) r;
  si_waiting id w :
    sv_waiting sv !! id = Some w ->
    connects sv (wt_conn w) = true /\ checked (wt_req w) (wt_token w) /\ asks_for (wt_token w) (wt_spec w)
}.

(** What has to hold of an answer other than 401 to a request for a protected path. *)
Definition entitled (sv : HttpServer) (d : Served) : Prop :=
  match metrics_auth_mode args with
  | AuthOff => True
  | AuthMtlsOrBearer => metrics_tls_mode args = TlsMtls \/
      exists token, bearer_token (sd_req d) = Some token /\
                    vouched (sv_reviews sv) (digest token) (sd_now d)
  | AuthBearer =>
      exists token, bearer_token (sd_req d) = Some token /\
                    vouched (sv_reviews sv) (digest token) (sd_now d)
  end.

Definition answer_ok (sv : HttpServer) (d : Served) : Prop :=
  connects sv (sd_conn d) = true /\
  (is_unauthenticated_path (rq_path (sd_req d)) = false -> re_status (sd_resp d) <> S_UNAUTHORIZED ->
   entitled sv d).

Lemma vouched_mono l l' k now : vouched l k now -> l ⊆ l' -> vouched l' k now.
Proof. intros (rv & u & ? & ? & ? & ?) Hl. exists rv, u. auto. Qed.

Lemma reviewer_read l r k t :
  reviewer_ok l r -> reviewer_ok l (mkTokenReviewer (audience r) (c_read (cache r) k t)).
Proof.
  intros (Ha & Ht & Hc). split_and!; simpl; [done|by rewrite ttl_read|].
  intros k' now u H. eapply Hc. by eapply get_read.
Qed.

(** An accepted token is cached for its time to live; the entries of before stay vouched for. *)
Lemma reviewer_insert l r token spec reply t u :
  reviewer_ok l r -> asks_for token spec -> judge (audience r) reply = Ok u ->
  reviewer_ok (l ++ [mkReview spec reply t])
    (mkTokenReviewer (audience r) (c_insert (cache r) (digest token) u t)).
Proof.
  intros (Ha & Ht & Hc) Hs Hj. split_and!; simpl; [done|by rewrite ttl_insert|].
  intros k now u' [(-> & -> & Hnow) | (_ & H)]%get_insert.
  - exists (mkReview spec reply t), token. simpl. rewrite Ha in Hj.
    split_and!; [set_solver|done|done|by eapply judge_authenticates|left; by rewrite <- Ht].
  - eapply vouched_mono; [by eapply Hc|set_solver].
Qed.

Lemma reviewer_log l r rv : reviewer_ok l r -> reviewer_ok (l ++ [rv]) r.
Proof.
  intros (Ha & Ht & Hc). split_and!; try done.
  intros. eapply vouched_mono; [by eapply Hc|set_solver].
Qed.

(** The first half of a request. *)
Lemma begin_ok sv now req auth v :
  server_inv sv -> begin_request now req (sv_auth sv) = (auth, v) ->
  mode auth = metrics_auth_mode args /\
  mtls_listener auth = bool_decide (metrics_tls_mode args = TlsMtls) /\
  (forall r, reviewer auth = Some r -> reviewer_ok (sv_reviews sv) r) /\
  match v with
  | Next => is_unauthenticated_path (rq_path req) = false ->
            entitled sv (mkServed None req now unauthorized_response)
  | Refuse => True
  | Await token spec => checked req token /\ asks_for token spec
  end.
Proof.
  intros [Htls Hmode Hmtls Hrev Hwait]. unfold begin_request, auth_begin, refuse, entitled.
  rewrite !Hmode, Hmtls.
  destruct (bool_decide_reflect (metrics_auth_mode args = AuthOff)) as [E|E].
  { intros [= <- <-]. split_and!; try done. intros _. by rewrite E. }
  destruct (is_unauthenticated_path _) eqn:Hp.
  { intros [= <- <-]. by split_and!. }
  destruct (bool_decide_reflect (metrics_auth_mode args = AuthMtlsOrBearer)) as [E'|E'];
    destruct (bool_decide_reflect (metrics_tls_mode args = TlsMtls)) as [E''|E'']; cbn [andb].
  { intros [= <- <-]. split_and!; try done. intros _. rewrite E'. by left. }
  all: destruct (bearer_token req) as [token|] eqn:Hb; [|by intros [= <- <-]; split_and!].
  all: destruct (reviewer (sv_auth sv)) as [r|] eqn:Hr; [|intros [= <- <-]; split_and!; try done; simpl; by rewrite Hr].
  all: specialize (Hrev r eq_refl); pose proof (reviewer_read _ _ (digest token) now Hrev) as Hread.
  all: unfold authenticate_lookup; destruct (c_get (cache r) (digest token) now) as [u|] eqn:Hg;
    intros [= <- <-]; simpl; split_and!; try done; try (by intros ? [= <-]).
  all: try (unfold checked; split_and!; tauto).
  all: try (unfold asks_for; simpl; rewrite (proj1 Hrev); split; [done|by destruct (metrics_auth_audience args)]).
  all: intros _; pose proof (proj2 (proj2 Hrev) _ _ _ Hg);
    destruct (metrics_auth_mode args); try done; eauto.
Qed.

Lemma resume_ok sv now token spec reply auth v :
  server_inv sv -> asks_for token spec -> auth_resume now token reply (sv_auth sv) = (auth, v) ->
  let reviews := sv_reviews sv ++ [mkReview spec reply now] in
  mode auth = metrics_auth_mode args /\
  mtls_listener auth = bool_decide (metrics_tls_mode args = TlsMtls) /\
  (forall r, reviewer auth = Some r -> reviewer_ok reviews r) /\
  (v = Next -> vouched reviews (digest token) now).
Proof.
  intros [Htls Hmode Hmtls Hrev Hwait] Hspec. unfold auth_resume, authenticate_finish.
  destruct (reviewer (sv_auth sv)) as [r|] eqn:Hr.
  - specialize (Hrev r eq_refl). destruct (judge (audience r) reply) as [u|f] eqn:Hj;
      intros [= <- <-]; simpl; split_and!; try done; intros ?.
    + intros [= <-]. by apply reviewer_insert.
    + exists (mkReview spec reply now), token. simpl. rewrite (proj1 Hrev) in Hj.
      split_and!; [set_solver|done|done|by eapply judge_authenticates|by right].
    + intros [= <-]. by apply reviewer_log.
  - intros [= <- <-]. split_and!; try done. by rewrite Hr.
Qed.

Lemma step_ok sv op sv' d :
  server_inv sv -> serve_step sv op = (sv', d) ->
  server_inv sv' /\ forall a, d = Some a -> answer_ok sv' a.
Proof.
  intros Hinv. pose proof Hinv as [Htls Hmode Hmtls Hrev Hwait].
  destruct op as [id conn req e|id reply e|id]; cbn [serve_step].
  - destruct (connects sv conn) eqn:Hc; cbn [negb orb]; [|by intros [= <- <-]].
    destruct (bool_decide (is_Some _)); [by intros [= <- <-]|].
    destruct (begin_request _ _ _) as [auth v] eqn:Hb. destruct (begin_ok _ _ _ _ _ Hinv Hb) as (Em & El & Er & Hv).
    destruct v as [| |token spec]; intros [= <- <-]; (split; [split; simpl; auto|]).
    + intros a [= <-]. split; [done|]. intros Hp _. apply Hv in Hp. unfold entitled in *. done.
    + intros a [= <-]. split; [done|]. by intros _ [].
    + intros id' w. rewrite lookup_insert_Some. intros [[<- <-]|[_ H]]; [by destruct Hv|by apply (Hwait id')].
    + done.
  - destruct (sv_waiting sv !! id) as [w|] eqn:Hw; [|by intros [= <- <-]].
    destruct (Hwait _ _ Hw) as (Hconn & (Hp & Hbear & Hoff & Hm) & Hspec).
    destruct (auth_resume _ _ _ _) as [auth v] eqn:Hb.
    destruct (resume_ok _ _ _ _ _ _ _ Hinv Hspec Hb) as (Em & El & Er & Hv).
    intros [= <- <-]. split; [split; simpl; auto|].
    + intros id' w'. rewrite lookup_delete_Some. intros [_ H]. by apply (Hwait id').
    + intros a [= <-]. split; [done|]. simpl. intros _. destruct v; [|by intros []..].
      intros _. unfold entitled. simpl. destruct (metrics_auth_mode args); try done; eauto.
  - destruct (sv_waiting sv !! id) as [w|] eqn:Hw; [|by intros [= <- <-]].
    intros [= <- <-]. split; [split; simpl; auto|done].
    intros id' w'. rewrite lookup_delete_Some. intros [_ H]. by apply (Hwait id').
Qed.

Lemma start_inv client listen sv :
  start_server fs client listen args = Ret (Ok (Ok sv)) -> validate args = Ok () /\ server_inv sv.
Proof.
  unfold start_server, start_reviewer. destruct (validate args) as [[]|] eqn:Hv; [|done].
  intros (rv & Hrv & H)%try_bind_Ok. split; [done|].
  destruct (serve_http fs listen args rv) as [r| |] eqn:Hs; simpl in H; [|done..].
  injection H as ->. unfold serve_http in Hs.
  apply try_bind_Ok in Hs as (addr & _ & (tls & Htls%map_err_Ok & Hs)%try_bind_Ok).
  destruct (bind addr); simpl in Hs; [|done].
  assert (forall r, rv = Some r -> reviewer_ok [] r) as Hr.
  { intros r ->. destruct (needs_k8s_client args); [|done]. destruct client; [|done].
    unfold new_reviewer in Hrv. destruct (_ <? _); simpl in Hrv; [done|]. injection Hrv as <-.
    split_and!; simpl; [done|by rewrite ttl_new|]. intros ???. by rewrite get_new. }
  destruct tls as [cfg|]; injection Hs as <-; split; simpl; (done || auto).
Qed.

Lemma run_inv ops sv ds : server_inv sv -> server_inv (foldl (fun acc op =>
    let '(sv, ds) := acc in let '(sv, d) := serve_step sv op in (sv, ds ++ option_list d)) (sv, ds) ops).1.
Proof.
  revert sv ds. induction ops as [|op ops IH]; intros sv ds H; [done|]. cbn [foldl].
  destruct (serve_step sv op) as [sv' d] eqn:E. apply IH. by eapply step_ok.
Qed.
End Invariant.

(** ** The counters of the middleware *)

Section Counters.
Context {T : Tls} {TC : TokenCache} {HT : Http}.

Definition total (c : gmap str Z) : Z := map_fold (fun _ v a => v + a) 0 c.

Lemma total_bump l n c : total (bump l n c) = total c + n.
Proof.
  assert (forall i x c', c' !! i = None -> total (<[i := x]> c') = x + total c') as Hins.
  { intros i x c' Hi. unfold total. rewrite map_fold_insert_L; [done|intros; lia|done]. }
  unfold bump. destruct (c !! l) as [x|] eqn:E.
  - rewrite <- (insert_delete_id c l x E) at 2. rewrite <- (insert_delete_eq c l).
    rewrite !Hins by apply lookup_delete_eq. simpl. lia.
  - rewrite Hins by done. simpl. lia.
Qed.

(** What the counters say: accepted and refused requests, lookups that missed the cache, and
    answers of the API. *)
Record Tally := mkTally { accepted : Z; refused : Z; missed : Z; answered : Z }.

Definition tally (m : HttpMetrics) : Tally :=
  mkTally (total (http_auth_success m)) (total (http_auth_failures m))
    (default 0 (http_tokenreview_cache m !! lit "miss")) (http_tokenreview_latency m).

Definition tally_add (a b : Tally) : Tally :=
  mkTally (accepted a + accepted b) (refused a + refused b) (missed a + missed b)
    (answered a + answered b).

Lemma Tally_ext a b :
  accepted a = accepted b -> refused a = refused b -> missed a = missed b ->
  answered a = answered b -> a = b.
Proof. destruct a, b. simpl. congruence. Qed.

Lemma tally_success l m : tally (count_success l m) = tally_add (tally m) (mkTally 1 0 0 0).
Proof. apply Tally_ext; simpl; rewrite ?total_bump; lia. Qed.
Lemma tally_failure f m : tally (count_failure f m) = tally_add (tally m) (mkTally 0 1 0 0).
Proof. apply Tally_ext; simpl; rewrite ?total_bump; lia. Qed.
Lemma tally_latency m : tally (count_latency m) = tally_add (tally m) (mkTally 0 0 0 1).
Proof. apply Tally_ext; simpl; lia. Qed.
Lemma tally_miss m : tally (count_cache (lit "miss") m) = tally_add (tally m) (mkTally 0 0 1 0).
Proof. apply Tally_ext; simpl; unfold bump; rewrite ?lookup_insert_eq; simpl; lia. Qed.
Lemma tally_hit m : tally (count_cache (lit "hit") m) = tally m.
Proof. apply Tally_ext; simpl; unfold bump; rewrite ?lookup_insert_ne by done; simpl; lia. Qed.

Lemma tally_add_0 a : tally_add a (mkTally 0 0 0 0) = a.
Proof. apply Tally_ext; simpl; lia. Qed.
Lemma tally_add_assoc a b c : tally_add (tally_add a b) c = tally_add a (tally_add b c).
Proof. apply Tally_ext; simpl; lia. Qed.

Definition protected (d : Served) : bool := negb (is_unauthenticated_path (rq_path (sd_req d))).

Definition is_refusal (d : Served) : Prop := re_status (sd_resp d) = S_UNAUTHORIZED.
Definition is_accept (d : Served) : Prop :=
  re_status (sd_resp d) <> S_UNAUTHORIZED /\ protected d = true.

#[global] Instance is_refusal_dec d : Decision (is_refusal d).
Proof. unfold is_refusal. apply _. Defined.
#[global] Instance is_accept_dec d : Decision (is_accept d).
Proof. unfold is_accept. apply _. Defined.

(** What an answer adds to the counters. *)
Definition answer_tally (d : Served) : Tally :=
  match re_status (sd_resp d) with
  | S_UNAUTHORIZED => mkTally 0 1 0 0
  | _ => mkTally (if protected d then 1 else 0) 0 0 0
  end.

Fixpoint answers_tally (ds : list Served) : Tally :=
  match ds with [] => mkTally 0 0 0 0 | d :: ds => tally_add (answer_tally d) (answers_tally ds) end.

Lemma answers_tally_snoc ds d :
  answers_tally (ds ++ [d]) = tally_add (answers_tally ds) (answer_tally d).
Proof.
  induction ds as [|x ds IH]; cbn [answers_tally app].
  - rewrite tally_add_0. apply Tally_ext; simpl; lia.
  - by rewrite IH, tally_add_assoc.
Qed.

Lemma answers_tally_counts ds :
  answers_tally ds = mkTally (Z.of_nat (length (filter is_accept ds)))
                       (Z.of_nat (length (filter is_refusal ds))) 0 0.
Proof.
  induction ds as [|d ds IH]; [done|]. cbn [answers_tally]. rewrite IH, !filter_cons.
  assert (answer_tally d = mkTally (if decide (is_accept d) then 1 else 0)
                             (if decide (is_refusal d) then 1 else 0) 0 0) as ->.
  { unfold answer_tally. destruct (decide (is_accept d)) as [[H1 H2]|Ha], (decide (is_refusal d)) as [H|H];
      unfold is_refusal, is_accept in *; destruct (re_status (sd_resp d)), (protected d); tauto || congruence. }
  destruct (decide (is_accept d)), (decide (is_refusal d)); apply Tally_ext; simpl; lia.
Qed.

Lemma begin_tally now req st st' v :
  begin_request now req st = (st', v) -> mode st <> AuthOff ->
  tally (al_metrics st') = tally_add (tally (al_metrics st))
    match v with
    | Next => mkTally (if is_unauthenticated_path (rq_path req) then 0 else 1) 0 0 0
    | Refuse => mkTally 0 1 0 0
    | Await _ _ => mkTally 0 0 1 0
    end /\
  mode st' = mode st /\
  (is_Some (reviewer st) -> is_Some (reviewer st')) /\
  (forall token spec, v = Await token spec -> is_Some (reviewer st')).
Proof.
  unfold begin_request, auth_begin, refuse, authenticate_lookup. intros H Hoff.
  rewrite bool_decide_false in H by done. revert H.
  destruct (is_unauthenticated_path (rq_path req)).
  { intros [= <- <-]. rewrite tally_add_0. split_and!; (done || naive_solver). }
  destruct (_ && _).
  { intros [= <- <-]. cbn [upd_metrics al_metrics]. rewrite tally_success. split_and!; (done || naive_solver). }
  destruct (bearer_token req) as [token|].
  2: { intros [= <- <-]. cbn [upd_metrics al_metrics]. rewrite tally_failure. split_and!; (done || naive_solver). }
  destruct (reviewer st) as [r|].
  2: { intros [= <- <-]. cbn [upd_metrics al_metrics]. rewrite tally_failure. split_and!; (done || naive_solver). }
  destruct (c_get _ _ _); intros [= <- <-]; cbn [upd_review al_metrics mode reviewer].
  - rewrite tally_success, tally_hit. split_and!; (done || naive_solver).
  - rewrite tally_miss. split_and!; (done || naive_solver).
Qed.

Lemma resume_tally now token reply st st' v :
  auth_resume now token reply st = (st', v) -> is_Some (reviewer st) ->
  tally (al_metrics st') = tally_add (tally (al_metrics st))
    match v with Next => mkTally 1 0 0 1 | _ => mkTally 0 1 0 1 end /\
  mode st' = mode st /\ is_Some (reviewer st').
Proof.
  unfold auth_resume, authenticate_finish. intros H [r Hr]. rewrite Hr in H. revert H.
  destruct (judge _ _); intros [= <- <-]; cbn [upd_review al_metrics mode reviewer].
  - rewrite tally_success, tally_latency, tally_add_assoc. eauto.
  - rewrite tally_failure, tally_latency, tally_add_assoc. eauto.
Qed.

(** The counters agree with the answers given, the answers of the API and the requests that
    still wait for one. *)
Record counted (sv : HttpServer) (ds : list Served) : Prop := {
  ct_mode : mode (sv_auth sv) <> AuthOff;
  ct_reviewer id w : sv_waiting sv !! id = Some w -> is_Some (reviewer (sv_auth sv));
  ct_waiting id w : sv_waiting sv !! id = Some w -> is_unauthenticated_path (rq_path (wt_req w)) = false;
  ct_tally : tally (al_metrics (sv_auth sv)) =
    tally_add (answers_tally ds)
      (mkTally 0 0 (Z.of_nat (length (sv_reviews sv) + size (sv_waiting sv) + sv_cancelled sv))
         (Z.of_nat (length (sv_reviews sv))))
}.

Lemma route_tally conn req e now :
  answer_tally (mkServed conn req now (route e req)) =
  mkTally (if is_unauthenticated_path (rq_path req) then 0 else 1) 0 0 0.
Proof.
  unfold answer_tally, protected. simpl. unfold route.
  pose proof (router_not_unauthorized (ev_encoded e) (ev_now e) (ev_app e) (rq_method req) (rq_path req)).
  destruct (is_unauthenticated_path (rq_path req)), (re_status _); done.
Qed.

Lemma await_protected now req st st' token spec :
  begin_request now req st = (st', Await token spec) -> is_unauthenticated_path (rq_path req) = false.
Proof.
  unfold begin_request, auth_begin, refuse. repeat case_match; naive_solver.
Qed.

Lemma step_counted sv ds op sv' d :
  counted sv ds -> serve_step sv op = (sv', d) -> counted sv' (ds ++ option_list d).
Proof.
  assert (Hsize : forall id w, sv_waiting sv !! id = Some w ->
    size (sv_waiting sv) = S (size (delete id (sv_waiting sv)))).
  { intros id w Hid. rewrite <- (insert_delete_id _ _ _ Hid) at 1.
    by rewrite map_size_insert_None by apply lookup_delete_eq. }
  intros [Hm Hr Hw Ht]. destruct op as [id conn req e|id reply e|id]; cbn [serve_step].
  - destruct (negb (connects sv conn) || _) eqn:Hid; [intros [= <- <-]; by rewrite app_nil_r|].
    apply orb_false_iff in Hid as [_ Hid%bool_decide_eq_false].
    rewrite <- eq_None_not_Some in Hid.
    destruct (begin_request _ _ _) as [auth v] eqn:Hb.
    destruct (begin_tally _ _ _ _ _ Hb Hm) as (Et & Em & Er & Ea).
    destruct v as [| |token spec]; intros [= <- <-]; (split; simpl; [congruence|eauto|eauto|]).
    + rewrite answers_tally_snoc, route_tally, Et, Ht. apply Tally_ext; simpl; lia.
    + rewrite answers_tally_snoc, Et, Ht. apply Tally_ext; simpl; lia.
    + intros id' w. rewrite lookup_insert_Some. intros [[<- <-]|[_ ?]]; simpl; [|eauto].
      by eapply await_protected.
    + rewrite app_nil_r, Et, Ht, map_size_insert_None by done. apply Tally_ext; simpl; lia.
  - destruct (sv_waiting sv !! id) as [w|] eqn:Hid; [|intros [= <- <-]; by rewrite app_nil_r].
    destruct (auth_resume _ _ _ _) as [auth v] eqn:Hb.
    destruct (resume_tally _ _ _ _ _ _ Hb (Hr _ _ Hid)) as (Et & Em & Er).
    intros [= <- <-]. split; simpl; [congruence|done| |].
    + intros id' w'. rewrite lookup_delete_Some. intros [_ ?]. eauto.
    + rewrite answers_tally_snoc, Et, Ht, length_app, (Hsize _ _ Hid).
      destruct v; rewrite ?route_tally, ?(Hw _ _ Hid); apply Tally_ext; simpl; lia.
  - destruct (sv_waiting sv !! id) as [w|] eqn:Hid; intros [= <- <-]; rewrite app_nil_r; [|done].
    split; simpl; [done| | |].
    + intros id' w'. rewrite lookup_delete_Some. intros [_ ?]. eauto.
    + intros id' w'. rewrite lookup_delete_Some. intros [_ ?]. eauto.
    + rewrite Ht, (Hsize _ _ Hid). apply Tally_ext; simpl; lia.
Qed.
End Counters.

(** ** Theorems *)

Section Theorems.
Context {T : Tls} {TL : TlsLaws} {TC : TokenCache} {TCL : TokenCacheLaws} {HT : Http}.

Lemma run_server_snoc ops op sv :
  run_server (ops ++ [op]) sv =
  let '(sv', ds) := run_server ops sv in
  let '(sv'', d) := serve_step sv' op in (sv'', ds ++ option_list d).
Proof. unfold run_server. rewrite foldl_app. simpl. by repeat case_match. Qed.

(** The server starts with nothing in progress and all its counters at zero. *)
Lemma start_fresh fs client listen args sv :
  start_server fs client listen args = Ret (Ok (Ok sv)) ->
  sv_reviews sv = [] /\ sv_waiting sv = ∅ /\ sv_cancelled sv = 0%nat /\
  tally (al_metrics (sv_auth sv)) = mkTally 0 0 0 0.
Proof.
  unfold start_server, start_reviewer. destruct (validate args) as [[]|]; [|done].
  intros (rv & _ & H)%try_bind_Ok. unfold serve_http in H.
  destruct (ok_or _ _); [|done]. cbn [try_bind mbind outcome_bind] in H.
  destruct (map_err _ _) as [[[cfg|]|]| |]; cbn [try_bind mbind outcome_bind] in H; try done.
  all: destruct (bind _); simpl in H; [|done]; by injection H as <-.
Qed.

(** C11: Whatever requests arrive and are cancelled, and however the answers of the Kubernetes API
    interleave with them, a request for anything but /health and /ready that is not refused with
    401 had its credentials checked.  With bearer authentication its Authorization header carries
    a token of which profi asked the API for a review, naming the configured audience if there is
    one (of this token or of one with the same digest), and the API answered, no longer ago than
    the configured time to live, that the token is authenticated, and is valid for that audience;
    in mtls-or-bearer mode the client presented a chain to a certificate of the client CA file.
    And with an mTLS listener every answered request, of any path, came from such a client. *)
Theorem protected_routes_need_credentials fs client listen args sv0 ops op sv' d :
  start_server fs client listen args = Ret (Ok (Ok sv0)) ->
  serve_step (run_server ops sv0).1 op = (sv', Some d) ->
  (metrics_tls_mode args = TlsMtls -> verified_client fs args (sd_conn d)) /\
  (is_unauthenticated_path (rq_path (sd_req d)) = false ->
   re_status (sd_resp d) <> S_UNAUTHORIZED ->
   match metrics_auth_mode args with
   | AuthOff => True
   | AuthBearer => exists token,
       bearer_token (sd_req d) = Some token /\
       vouched args (sv_reviews sv') (digest token) (sd_now d)
   | AuthMtlsOrBearer => verified_client fs args (sd_conn d)
   end).
Proof.
  intros [Hv Hinv]%start_inv Hs. apply (run_inv fs args ops _ []) in Hinv. fold (run_server ops sv0) in Hinv.
  destruct (step_ok fs args _ _ _ _ Hinv Hs) as [[Htls _ _ _ _] Hd].
  destruct (Hd _ eq_refl) as [Hconn Hent]. apply validate_ok in Hv as (_ & _ & Hmb).
  assert (metrics_tls_mode args = TlsMtls -> verified_client fs args (sd_conn d)) as Hmtls.
  { intros Hm. unfold connects in Hconn. destruct (sv_tls sv') as [cfg|]; [by eapply mtls_verifies|].
    exfalso. revert Htls. unfold build_rustls_config, tls_enabled. rewrite Hm. simpl.
    repeat (case_match || destruct (expect _) || destruct (ok_or _ _) || simpl); done. }
  split; [done|]. intros Hp Hst. specialize (Hent Hp Hst). unfold entitled in Hent.
  destruct (metrics_auth_mode args); auto.
Qed.

(** In mtls-or-bearer mode a bearer token is never looked at: a configuration that passes
    validation has an mTLS listener, every connection that gets through the handshake is
    accepted whatever its headers are, and the Kubernetes API is asked nothing. *)
Theorem mtls_or_bearer_ignores_tokens fs client listen args sv0 ops sv ds :
  start_server fs client listen args = Ret (Ok (Ok sv0)) ->
  metrics_auth_mode args = AuthMtlsOrBearer ->
  run_server ops sv0 = (sv, ds) ->
  metrics_tls_mode args = TlsMtls /\ sv_reviews sv = [] /\ sv_waiting sv = ∅ /\
  forall d, d ∈ ds -> re_status (sd_resp d) <> S_UNAUTHORIZED.
Proof.
  intros Hstart Hmode. pose proof (start_inv fs args _ _ _ Hstart) as [Hv Hinv].
  apply validate_ok in Hv as (_ & _ & Hm). specialize (Hm Hmode).
  pose proof (start_fresh _ _ _ _ _ Hstart) as (Hr0 & Hw0 & _ & _).
  revert sv ds. induction ops as [|op ops IH] using rev_ind; intros sv ds.
  { intros [= <- <-]. split_and!; try done. by intros d ?%elem_of_nil. }
  rewrite run_server_snoc. pose proof (run_inv fs args ops _ [] Hinv) as [_ Em El _ _].
  fold (run_server ops sv0) in Em, El.
  destruct (run_server ops sv0) as [sv1 ds1]. destruct (IH _ _ eq_refl) as (_ & Er & Ew & Hall).
  destruct op as [id conn req e|id reply e|id]; cbn [serve_step].
  - destruct (_ || _); [simpl; rewrite app_nil_r; by intros [= <- <-]|].
    unfold begin_request, auth_begin. cbn [fst] in Em, El. rewrite El, Em, Hmode, Hm. simpl.
    destruct (is_unauthenticated_path _); intros [= <- <-]; split_and!; try done;
      (intros d [?|Hd%list_elem_of_singleton]%elem_of_app; [auto|subst d; apply router_not_unauthorized]).
  - rewrite Ew, lookup_empty. simpl. rewrite app_nil_r. by intros [= <- <-].
  - rewrite Ew, lookup_empty. simpl. rewrite app_nil_r. by intros [= <- <-].
Qed.

(** C33: The metrics of the middleware are exact.  With authentication on, after any
    interleaving of requests, answers of the API and requests cancelled by their client, the
    failure counters add up to the number of 401 answers, the success counters to the number of
    other answers to protected paths, the latency histogram has one observation per answer of the
    API to a request that was not cancelled, and every cache miss is an answered, a still waiting
    or a cancelled review. *)
Theorem auth_counters_exact fs client listen args sv0 ops sv ds :
  start_server fs client listen args = Ret (Ok (Ok sv0)) ->
  metrics_auth_mode args <> AuthOff ->
  run_server ops sv0 = (sv, ds) ->
  let m := al_metrics (sv_auth sv) in
  total (http_auth_failures m) = Z.of_nat (length (filter is_refusal ds)) /\
  total (http_auth_success m) = Z.of_nat (length (filter is_accept ds)) /\
  http_tokenreview_latency m = Z.of_nat (length (sv_reviews sv)) /\
  default 0 (http_tokenreview_cache m !! lit "miss") =
    Z.of_nat (length (sv_reviews sv) + size (sv_waiting sv) + sv_cancelled sv).
Proof.
  intros Hstart Hmode Hrun. pose proof (start_fresh _ _ _ _ _ Hstart) as (Hr0 & Hw0 & Hc0 & Hm0).
  assert (counted sv ds) as [_ _ _ Ht].
  { revert sv ds Hrun. induction ops as [|op ops IH] using rev_ind; intros sv ds.
    - intros [= <- <-]. apply (start_inv fs args) in Hstart as [_ [_ Em _ _ _]].
      split; [congruence|by rewrite Hw0..|]. by rewrite Hm0, Hr0, Hw0, Hc0.
    - rewrite run_server_snoc. destruct (run_server ops sv0) as [sv1 ds1].
      destruct (serve_step sv1 op) as [sv2 d] eqn:Hs. intros [= <- <-]. eauto using step_counted. }
  rewrite answers_tally_counts in Ht. injection Ht as H1 H2 H3 H4. simpl in *. lia.
Qed.

Lemma build_never_panics fs args :
  validate args = Ok () -> exists r, build_rustls_config fs args = Ret r.
Proof.
  intros (Hck & Hca & _)%validate_ok. unfold build_rustls_config, tls_enabled.
  destruct (metrics_tls_mode args); simpl; [eauto|..].
  all: destruct (Hck ltac:(done)) as [[cp ->] [kp ->]]; simpl.
  all: destruct (load_cert_chain fs cp), (load_private_key fs kp); simpl; eauto.
  - destruct (with_no_client_auth _ _); simpl; eauto.
  - destruct (Hca eq_refl) as [ca ->]; simpl. destruct (load_cert_chain fs ca); simpl; [|eauto].
    destruct (add_roots _ _); simpl; [|eauto]. destruct (verifier_build _); simpl; [|eauto].
    destruct (with_client_cert_verifier _ _ _); simpl; eauto.
Qed.

Lemma serve_never_panics fs listen args rv :
  validate args = Ok () -> exists r, serve_http fs listen args rv = Ret r.
Proof.
  intros Hv. unfold serve_http. destruct (parse_addr listen) as [a|]; simpl; [|eauto].
  destruct (build_never_panics fs args Hv) as [r Hr]. unfold map_err. rewrite Hr.
  destruct r; simpl; [|eauto]. destruct (bind a); simpl; eauto.
Qed.

(** Starting the server panics in one case only: bearer tokens are to be reviewed, the
    Kubernetes client was built, and the time to live of the cache is more than 1000 years.
    Validation makes every path the TLS configuration expects available, and all other
    failures are errors. *)
Theorem server_panics_iff fs client listen args :
  start_server fs client listen args = Panic <->
  validate args = Ok () /\ needs_k8s_client args = true /\ client = true /\
  YEARS_1000_SECS < metrics_auth_cache_ttl args.
Proof.
  unfold start_server, start_reviewer. destruct (validate args) as [[]|] eqn:Hv; [|naive_solver].
  pose proof (serve_never_panics fs listen args) as Hs.
  destruct (needs_k8s_client args); simpl.
  - destruct client; simpl; [|naive_solver].
    unfold new_reviewer. destruct (Z.ltb_spec YEARS_1000_SECS (metrics_auth_cache_ttl args)); simpl.
    + split; [intros _; by split_and!|done].
    + match goal with |- context [serve_http fs listen args ?rv] => destruct (Hs rv Hv) as [r ->] end.
      simpl. split; [done|]. intros (_ & _ & _ & ?). lia.
  - destruct (Hs None Hv) as [r ->]. simpl. naive_solver.
Qed.
End Theorems.

(** ** A concrete instance

    Certificates are numbers, a chain is signed by every root it contains, a PEM file is the
    list of its certificates, the digest is the identity. *)

Definition demo_tls : Tls := {|
  Cert := Z; PrivateKey := Z; RootCertStore := list Z; ClientVerifier := list Z;
  ServerConfig := option (list Z);
  pem_certs bytes := Some bytes;
  pem_private_key bytes := Some (head bytes);
  roots_empty := [];
  roots_add roots c := Some (roots ++ [c]);
  verifier_build roots := Some roots;
  with_no_client_auth _ _ := Some None;
  with_client_cert_verifier v _ _ := Some (Some v);
  handshake cfg client :=
    match cfg, client with
    | None, _ => true
    | Some roots, Some chain => existsb (fun r => bool_decide (r ∈ chain)) roots
    | Some _, None => false
    end;
  signed_by chain r := bool_decide (r ∈ chain)
|}.

#[global] Instance demo_tls_laws : @TlsLaws demo_tls.
Proof.
  refine {| trusted := fun r => (r : @RootCertStore demo_tls) |}; simpl; try congruence.
  intros roots v certs key cfg client [= ->] [= <-]. simpl. destruct client as [chain|]; [|done].
  intros (r & Hin & Hr)%existsb_exists. exists chain, r. split_and!; try done.
  by apply list_elem_of_In.
Defined.

Definition demo_cache : TokenCache := {|
  Cache_t := Z * Z * list (list Z * (str * Z));
  c_new ttl size := (ttl, size, []);
  c_get c k now :=
    match list_find (fun e => e.1 = k) c.2 with
    | Some (_, (_, (u, t))) => if now <? t + c.1.1 then Some u else None
    | None => None
    end;
  c_read c k now := c;
  c_insert c k u t := (c.1.1, c.1.2, (k, (u, t)) :: c.2);
  sha256 bs := bs
|}.

#[global] Instance demo_cache_laws : @TokenCacheLaws demo_cache.
Proof.
  refine {| c_ttl := fun c => (c : @Cache_t demo_cache).1.1 |}; simpl; try done.
  intros [[ttl size] l] k v t k' now v'. simpl. case_decide as E.
  - subst k'. simpl. destruct (Z.ltb_spec now (t + ttl)); [|done]. intros [= <-]. by left.
  - intros H. right. split; [congruence|].
    destruct (list_find _ l) as [[i [kk [u tt]]]|]; simpl in *; done.
Defined.

Definition demo_http : Http := {|
  Addr := str;
  header_to_str bs := if forallb (fun b => (32 <=? b) && (b <=? 126)) bs then Some bs else None;
  parse_addr s := Some s;
  bind _ := true
|}.

#[local] Existing Instance demo_tls.
#[local] Existing Instance demo_cache.
#[local] Existing Instance demo_http.

(** One file serves as certificate chain, key and client CA. *)
Definition demo_files : Files := fun path => if bool_decide (path = lit "pem") then Some [7] else None.

Definition bearer_args : MetricsSecurityArgs :=
  mkMetricsSecurityArgs TlsMtls (Some (lit "pem")) (Some (lit "pem")) (Some (lit "pem"))
    AuthBearer (Some (lit "profi")) 60 1024.
Definition either_args : MetricsSecurityArgs :=
  mkMetricsSecurityArgs TlsMtls (Some (lit "pem")) (Some (lit "pem")) (Some (lit "pem"))
    AuthMtlsOrBearer None 60 1024.

Definition request_env (now : Z) : Env := mkEnv now (mkAppState 0 true 1 true 0 (lit "full") 0) [].
Definition scrape (auth : list (list Z)) : Request := mkRequest GET (lit "/metrics") auth.
Definition accepting : Reply :=
  Some (Some (mkTokenReviewStatus (Some true) (Some [lit "profi"]) (Some (Some (lit "prom"))))).

(** A token is reviewed and accepted, and a second request hits the cache. *)
Definition demo_ops : list serve_op :=
  [Arrive 1 (Some [7]) (scrape [lit "Bearer tok"]) (request_env 0);
   Arrive 2 (Some [7]) (scrape []) (request_env 1);
   Arrive 4 (Some [7]) (scrape [lit "Bearer other"]) (request_env 1); Cancelled 4;
   Reviewed 1 accepting (request_env 2)].
Definition demo_hit : serve_op := Arrive 3 (Some [7]) (scrape [lit "Bearer tok"]) (request_env 1000).

Definition started (args : MetricsSecurityArgs) : HttpServer :=
  match start_server demo_files true (lit "0.0.0.0:9401") args with
  | Ret (Ok (Ok sv)) => sv
  | _ => mkHttpServer None (mkAuthLayerState AuthOff false None no_metrics) ∅ [] 0
  end.

Definition demo_served (args : MetricsSecurityArgs) (ops : list serve_op) (op : serve_op)
    : HttpServer * option Served := serve_step (run_server ops (started args)).1 op.

Lemma protected_routes_need_credentials_witness :
  exists sv d token, demo_served bearer_args demo_ops demo_hit = (sv, Some d) /\
    bearer_token (sd_req d) = Some token /\
    vouched bearer_args (sv_reviews sv) (digest token) (sd_now d).
Proof.
  assert (start_server demo_files true (lit "0.0.0.0:9401") bearer_args = Ret (Ok (Ok (started bearer_args))))
    as Hstart by reflexivity.
  assert ((fun d => (re_status (sd_resp d), rq_path (sd_req d)))
            <$> (demo_served bearer_args demo_ops demo_hit).2 = Some (S_OK, lit "/metrics")) as Hd
    by (vm_compute; reflexivity).
  revert Hd. destruct (demo_served bearer_args demo_ops demo_hit) as [sv [d|]] eqn:E; intros Hd; [|discriminate Hd].
  assert (re_status (sd_resp d) = S_OK /\ rq_path (sd_req d) = lit "/metrics") as [H1 H2] by (by injection Hd).
  destruct (protected_routes_need_credentials _ _ _ _ _ _ _ _ _ Hstart E) as [_ H].
  rewrite H1, H2 in H. destruct (H ltac:(reflexivity) ltac:(done)) as (token & Ht & Hv).
  exists sv, d, token. exact (conj eq_refl (conj Ht Hv)).
Defined.

Lemma mtls_or_bearer_ignores_tokens_witness :
  metrics_tls_mode either_args = TlsMtls /\
  sv_reviews (run_server demo_ops (started either_args)).1 = [].
Proof.
  assert (start_server demo_files true (lit "0.0.0.0:9401") either_args = Ret (Ok (Ok (started either_args))))
    as Hstart by reflexivity.
  destruct (mtls_or_bearer_ignores_tokens _ _ _ _ _ demo_ops _ _ Hstart eq_refl (surjective_pairing _))
    as (H1 & H2 & _). done.
Defined.

Lemma auth_counters_exact_witness :
  total (http_auth_failures (al_metrics (sv_auth (run_server demo_ops (started bearer_args)).1))) = 1.
Proof.
  assert (start_server demo_files true (lit "0.0.0.0:9401") bearer_args = Ret (Ok (Ok (started bearer_args))))
    as Hstart by reflexivity.
  destruct (auth_counters_exact _ _ _ _ _ demo_ops _ _ Hstart ltac:(done) (surjective_pairing _)) as [H _].
  rewrite H. vm_compute. reflexivity.
Defined.
