(* ===== verification/Otlp.v ===== *)
(** * The OTLP bridge: src/src/otlp.rs

    Configuration from flags and environment, the translation of gathered Prometheus families
    into OTLP metrics, the exporter's settings and the periodic push.  The types of the
    prometheus, opentelemetry and tonic crates are records of the fields that are read or
    written; times are nanoseconds. *)

From stdpp Require Import strings.
From Stdlib Require Import Floats.SpecFloat.
From S2P Require Import Prelude RustStd F64 Metrics Server Security.

Local Open Scope Z_scope.

(** ** Configuration *)

Inductive OtlpProtocol := Grpc | HttpProtobuf.

Record OtlpConfig := mkOtlpConfig {
  endpoint : str;
  protocol : OtlpProtocol;
  interval : Z;
  timeout : Z;
  service_name : str;
  headers : list (str * str);
  ca_cert_path : option str;
  client_cert_path : option str;
  client_key_path : option str;
  insecure : bool;
  resource_attrs : list (str * str)
}.

Record OtlpArgs := mkOtlpArgs {
  otlp_endpoint : option str;
  otlp_protocol : str;
  otlp_interval_secs : Z;
  otlp_timeout_secs : Z;
  otlp_service_name : str;
  otlp_headers : option str;
  otlp_ca_cert : option str;
  otlp_client_cert : option str;
  otlp_client_key : option str;
  otlp_insecure : bool;
  otlp_resource_attrs : option str
}.

(** [split(',')], and [splitn(2, '=')] of each piece *)
Definition parse_kv (kv : str) : option (str * str) :=
  '(k, v) ← split_once 61 kv;
  let k := trim k in
  if bool_decide (k = []) then None else Some (k, trim v).

Definition parse_kv_list (raw : str) : list (str * str) := omap parse_kv (split 44 raw).

Inductive OtlpError := InvalidProtocol (s : str) | InvalidInterval (s : str).

(** [std::env::var] of the variables that are read. *)
Record EnvVars := mkEnvVars {
  env_export_interval : option str;   (* OTEL_METRIC_EXPORT_INTERVAL *)
  env_hostname : option str;
  env_node_name : option str
}.

Definition MILLI : Z := 1000000.
Definition SECOND : Z := 1000000000.

(** [Ok None]: no endpoint, no bridge. *)
Definition resolve (env : EnvVars) (args : OtlpArgs) : result OtlpError (option OtlpConfig) :=
  match (trim <$> otlp_endpoint args) ≫= (fun s => if bool_decide (s = []) then None else Some s) with
  | None => Ok None
  | Some endpoint =>
      let p := otlp_protocol args in
      let protocol :=
        if bool_decide (p = lit "grpc") || bool_decide (p = lit "grpc/protobuf") then Some Grpc
        else if bool_decide (p = lit "http/protobuf") || bool_decide (p = lit "http") then Some HttpProtobuf
        else None in
      match protocol with
      | None => Err (InvalidProtocol p)
      | Some protocol =>
          let interval :=
            match env_export_interval env with
            | Some ms_str => Z.mul MILLI <$> from_str_radix 64 10 ms_str
            | None => Some (otlp_interval_secs args * SECOND)
            end in
          match interval with
          | None => Err (InvalidInterval (default [] (env_export_interval env)))
          | Some interval =>
              Ok (Some (mkOtlpConfig endpoint protocol interval (otlp_timeout_secs args * SECOND)
                          (otlp_service_name args)
                          (default [] (parse_kv_list <$> otlp_headers args))
                          (otlp_ca_cert args) (otlp_client_cert args) (otlp_client_key args)
                          (otlp_insecure args)
                          (default [] (parse_kv_list <$> otlp_resource_attrs args))))
          end
      end
  end.

Definition SELF_OBS_PREFIX : str := lit "profi_system_".

Definition should_skip_metric (name : str) : bool := starts_with SELF_OBS_PREFIX name.

(** The pairs given to [Resource::new], the later ones overriding the earlier ones. *)
Definition build_resource (version : str) (env : EnvVars) (cfg : OtlpConfig) : list (str * str) :=
  [(lit "service.name", service_name cfg); (lit "service.version", version)]
  ++ match env_hostname env with
     | Some h => if bool_decide (h = []) then []
                 else [(lit "service.instance.id", h); (lit "host.name", h)]
     | None => []
     end
  ++ match env_node_name env with
     | Some n => if bool_decide (n = []) then [] else [(lit "k8s.node.name", n)]
     | None => []
     end
  ++ resource_attrs cfg.

(** ** Labels *)

Definition LABEL_MAP : list (str * str) :=
  [(lit "pod", lit "k8s.pod.name");
   (lit "namespace", lit "k8s.namespace.name");
   (lit "container", lit "k8s.container.name");
   (lit "gpu", lit "gpu.id");
   (lit "gpu_uuid", lit "gpu.uuid");
   (lit "gpu_model", lit "gpu.model");
   (lit "pid", lit "process.pid");
   (lit "comm", lit "process.command");
   (lit "operation", lit "profi.operation");
   (lit "kernel", lit "profi.kernel");
   (lit "kernel_class", lit "profi.kernel.class");
   (lit "phase", lit "profi.phase");
   (lit "direction", lit "profi.memcpy.direction");
   (lit "stream", lit "profi.cuda.stream");
   (lit "error_code", lit "profi.error.code")].

Fixpoint find_label (name : str) (table : list (str * str)) : option str :=
  match table with
  | [] => None
  | (prom, otel) :: table => if bool_decide (prom = name) then Some otel else find_label name table
  end.

Definition translate_name (name : str) : str :=
  match find_label name LABEL_MAP with
  | Some otel => otel
  | None => lit "profi." ++ name
  end.

Definition translate_labels (labels : list (str * str)) : list (str * str) :=
  (fun lp => (translate_name lp.1, lp.2)) <$> labels.

(** ** Families *)

Inductive MetricType := COUNTER | GAUGE | SUMMARY | UNTYPED | HISTOGRAM.

#[global] Instance MetricType_eq_dec : EqDecision MetricType.
Proof. solve_decision. Defined.

Record Bucket := mkBucket { upper_bound : f64; cumulative_count : Z }.

Record PromHistogram := mkPromHistogram {
  sample_count : Z; sample_sum : f64; buckets : list Bucket
}.

Record PromMetric := mkPromMetric {
  pm_label : list (str * str);
  pm_counter : f64;
  pm_gauge : f64;
  pm_histogram : PromHistogram
}.

Record MetricFamily := mkMetricFamily {
  mf_name : str; mf_help : str; mf_type : MetricType; mf_metric : list PromMetric
}.

Record DataPoint := mkDataPoint {
  dp_attributes : list (str * str); dp_start_time : Z; dp_time : Z; dp_value : f64
}.

Record HistogramDataPoint := mkHistogramDataPoint {
  hp_attributes : list (str * str); hp_start_time : Z; hp_time : Z;
  hp_count : Z; hp_sum : f64; hp_bounds : list f64; hp_bucket_counts : list Z
}.

Inductive Temporality := Cumulative | Delta.

Inductive Aggregation :=
  | Sum (data_points : list DataPoint) (temporality : Temporality) (is_monotonic : bool)
  | GaugeData (data_points : list DataPoint)
  | HistogramData (data_points : list HistogramDataPoint) (temporality : Temporality).

Record OtlpMetric := mkOtlpMetric {
  om_name : str; om_description : str; om_unit : str; om_data : Aggregation
}.

Definition data_point (value : PromMetric -> f64) (start_time now : Z) (m : PromMetric) : DataPoint :=
  mkDataPoint (translate_labels (pm_label m)) start_time now (value m).

Definition counter_family_to_otlp (family : MetricFamily) (start_time now : Z) : option OtlpMetric :=
  if negb (bool_decide (mf_type family = COUNTER)) then None
  else
    match data_point pm_counter start_time now <$> mf_metric family with
    | [] => None
    | data_points =>
        Some (mkOtlpMetric (mf_name family) (mf_help family) [] (Sum data_points Cumulative true))
    end.

Definition gauge_family_to_otlp (family : MetricFamily) (start_time now : Z) : option OtlpMetric :=
  if negb (bool_decide (mf_type family = GAUGE)) then None
  else
    match data_point pm_gauge start_time now <$> mf_metric family with
    | [] => None
    | data_points => Some (mkOtlpMetric (mf_name family) (mf_help family) [] (GaugeData data_points))
    end.

(** [f64::is_finite] *)
Definition is_finite (x : f64) : bool :=
  match x with S754_zero _ | S754_finite _ _ _ => true | S754_infinity _ | S754_nan => false end.

(** The counts of the single buckets from the cumulative ones, [prev] the count before them. *)
Fixpoint bucket_deltas (prev : Z) (finite : list Bucket) (sample_count : Z) : list Z :=
  match finite with
  | [] => [saturating_sub sample_count prev]
  | b :: finite =>
      saturating_sub (cumulative_count b) prev :: bucket_deltas (cumulative_count b) finite sample_count
  end.

Definition histogram_to_otlp (h : PromHistogram) (attributes : list (str * str)) (start_time now : Z)
    : HistogramDataPoint :=
  let finite := filter (fun b => is_finite (upper_bound b) = true) (buckets h) in
  mkHistogramDataPoint attributes start_time now (sample_count h) (sample_sum h)
    (upper_bound <$> finite) (bucket_deltas 0 finite (sample_count h)).

Definition histogram_family_to_otlp (family : MetricFamily) (start_time now : Z) : option OtlpMetric :=
  if negb (bool_decide (mf_type family = HISTOGRAM)) then None
  else
    match (fun m => histogram_to_otlp (pm_histogram m) (translate_labels (pm_label m)) start_time now)
            <$> mf_metric family with
    | [] => None
    | data_points =>
        Some (mkOtlpMetric (mf_name family) (mf_help family) [] (HistogramData data_points Cumulative))
    end.

Definition convert_metric_family (family : MetricFamily) (start_time now : Z) : option OtlpMetric :=
  match mf_type family with
  | COUNTER => counter_family_to_otlp family start_time now
  | GAUGE => gauge_family_to_otlp family start_time now
  | HISTOGRAM => histogram_family_to_otlp family start_time now
  | _ => None
  end.

(** ** The exporter *)

Record ClientTls := mkClientTls {
  ct_ca : option (list Z);
  ct_identity : option (list Z * list Z)
}.

Record Exporter := mkExporter {
  ex_protocol : OtlpProtocol;
  ex_endpoint : str;
  ex_timeout : Z;
  ex_headers : list (str * str);      (* as inserted, a later one replacing an earlier one *)
  ex_tls : option ClientTls
}.

(** What the tonic and opentelemetry-otlp crates accept: a metadata key and value, and the
    settings of an exporter. *)
Class OtlpLib := {
  metadata_key : str -> option str;
  metadata_value : str -> option str;
  exporter_build : Exporter -> bool
}.

Inductive ExporterError :=
  | InvalidHeaderKey (k : str) | InvalidHeaderValue (k : str) | Unreadable (path : str) | BuildFailed.

Section Bridge.
Context {OL : OtlpLib} (fs : Files).

Fixpoint metadata (hs : list (str * str)) : result ExporterError (list (str * str)) :=
  match hs with
  | [] => Ok []
  | (k, v) :: hs =>
      match metadata_key k, metadata_value v with
      | None, _ => Err (InvalidHeaderKey k)
      | Some _, None => Err (InvalidHeaderValue k)
      | Some key, Some val =>
          match metadata hs with Ok md => Ok ((key, val) :: md) | Err e => Err e end
      end
  end.

Definition read_pem (path : str) : result ExporterError (list Z) := ok_or (Unreadable path) (fs path).

Definition build_tls_config (cfg : OtlpConfig) : result ExporterError ClientTls :=
  let ca := match ca_cert_path cfg with
            | Some path => match read_pem path with Ok pem => Ok (Some pem) | Err e => Err e end
            | None => Ok None
            end in
  match ca with
  | Err e => Err e
  | Ok ca =>
      match client_cert_path cfg, client_key_path cfg with
      | Some cert, Some key =>
          match read_pem cert with
          | Err e => Err e
          | Ok cert_pem =>
              match read_pem key with
              | Err e => Err e
              | Ok key_pem => Ok (mkClientTls ca (Some (cert_pem, key_pem)))
              end
          end
      | _, _ => Ok (mkClientTls ca None)
      end
  end.

Definition need_tls (cfg : OtlpConfig) : bool :=
  negb (insecure cfg)
  && (starts_with (lit "https://") (endpoint cfg)
      || negb (is_none (ca_cert_path cfg)) || negb (is_none (client_cert_path cfg))).

Definition finish_build (e : Exporter) : result ExporterError Exporter :=
  if exporter_build e then Ok e else Err BuildFailed.

Definition build_exporter (cfg : OtlpConfig) : result ExporterError Exporter :=
  match protocol cfg with
  | Grpc =>
      match metadata (headers cfg) with
      | Err e => Err e
      | Ok md =>
          if need_tls cfg then
            match build_tls_config cfg with
            | Err e => Err e
            | Ok tls => finish_build (mkExporter Grpc (endpoint cfg) (timeout cfg) md (Some tls))
            end
          else finish_build (mkExporter Grpc (endpoint cfg) (timeout cfg) md None)
      end
  | HttpProtobuf =>
      finish_build (mkExporter HttpProtobuf (endpoint cfg) (timeout cfg) (headers cfg) None)
  end.

(** ** The push task *)

Record Bridge := mkBridge {
  br_exporter : Exporter; br_resource : list (str * str); br_start : Z; br_interval : Z
}.

(** [start]: what the task is spawned with.  [wall] is the wall clock and [elapsed] the time
    since the process started; the subtraction fails below the range of the clock, 64-bit
    seconds. *)
Definition start_bridge (version : str) (env : EnvVars) (cfg : OtlpConfig) (wall elapsed : Z)
    : result ExporterError Bridge :=
  match build_exporter cfg with
  | Err e => Err e
  | Ok exporter =>
      Ok (mkBridge exporter (build_resource version env cfg)
            (if - 2 ^ 63 * SECOND <=? wall - elapsed then wall - elapsed else wall) (interval cfg))
  end.

(** [tokio::time::interval] panics on a zero period; the first tick is skipped. *)
Definition task_begin (b : Bridge) : outcome Bridge :=
  if br_interval b =? 0 then Panic else Ret b.

(** One later tick: the batch that is exported, if there is anything to export. *)
Definition push (b : Bridge) (now : Z) (families : list MetricFamily) : option (list OtlpMetric) :=
  let otlp_metrics :=
    omap (fun f => convert_metric_family f (br_start b) now)
      (filter (fun f => should_skip_metric (mf_name f) = false) families) in
  match otlp_metrics with [] => None | _ => Some otlp_metrics end.
End Bridge.

(** ** Key-value lists *)

(** [k1=v1,k2=v2] *)
Fixpoint print_kv_list (kvs : list (str * str)) : str :=
  match kvs with
  | [] => []
  | [(k, v)] => k ++ 61 :: v
  | (k, v) :: kvs => k ++ 61 :: v ++ 44 :: print_kv_list kvs
  end.

(** A pair that the format can carry. *)
Definition plain_pair (kv : str * str) : Prop :=
  kv.1 <> [] /\ trim kv.1 = kv.1 /\ trim kv.2 = kv.2 /\
  (61 ∉ kv.1) /\ (44 ∉ kv.1) /\ (44 ∉ kv.2).

Lemma split_app sep a b : sep ∉ a -> split sep (a ++ sep :: b) = a :: split sep b.
Proof.
  unfold split. induction a as [|c a IH]; intros H; cbn [app split_by].
  - by rewrite Z.eqb_refl.
  - rewrite not_elem_of_cons in H. destruct H as [Hc Ha].
    destruct (Z.eqb_spec sep c); [done|]. by rewrite IH.
Qed.

Lemma split_none sep a : sep ∉ a -> split sep a = [a].
Proof.
  unfold split. induction a as [|c a IH]; intros H; cbn [split_by]; [done|].
  rewrite not_elem_of_cons in H. destruct H as [Hc Ha].
  destruct (Z.eqb_spec sep c); [done|]. by rewrite IH.
Qed.

Lemma split_once_app sep a b : sep ∉ a -> split_once sep (a ++ sep :: b) = Some (a, b).
Proof.
  induction a as [|c a IH]; intros H; cbn [app split_once].
  - by rewrite Z.eqb_refl.
  - rewrite not_elem_of_cons in H. destruct H as [Hc Ha].
    destruct (Z.eqb_spec c sep); [congruence|]. by rewrite IH.
Qed.

Lemma parse_kv_plain k v : plain_pair (k, v) -> parse_kv (k ++ 61 :: v) = Some (k, v).
Proof.
  intros (Hne & Hk & Hv & H61 & _). simpl in *. unfold parse_kv. rewrite split_once_app by done.
  simpl. rewrite Hk, Hv, bool_decide_false by done. done.
Qed.

Lemma not_comma k v : plain_pair (k, v) -> 44 ∉ k ++ 61 :: v.
Proof.
  intros (_ & _ & _ & _ & H1 & H2). simpl in *.
  rewrite elem_of_app, elem_of_cons. intros [?|[?|?]]; (done || lia).
Qed.

Lemma parse_print_kv kvs : Forall plain_pair kvs -> kvs <> [] -> parse_kv_list (print_kv_list kvs) = kvs.
Proof.
  unfold parse_kv_list. induction kvs as [|[k v] kvs IH]; intros Hall Hne; [done|].
  apply Forall_cons in Hall as [Hkv Hall]. destruct kvs as [|kv kvs].
  - cbn [print_kv_list]. rewrite split_none by by apply not_comma. cbn. by rewrite parse_kv_plain.
  - replace (print_kv_list ((k, v) :: kv :: kvs))
      with ((k ++ 61 :: v) ++ 44 :: print_kv_list (kv :: kvs))
      by (cbn [print_kv_list]; by rewrite <- app_assoc).
    rewrite split_app by by apply not_comma.
    change (omap parse_kv (?x :: ?l)) with
      (match parse_kv x with Some y => y :: omap parse_kv l | None => omap parse_kv l end).
    rewrite parse_kv_plain, IH by done. done.
Qed.

(** ** Labels stay apart *)

(** A Prometheus label name has no dot. *)
Definition valid_label (name : str) : Prop := 46 ∉ name.

Lemma find_label_elem name table otel : find_label name table = Some otel -> (name, otel) ∈ table.
Proof.
  induction table as [|[p o] table IH]; simpl; [done|].
  case_bool_decide; [intros [= ->]; subst; by left|]. intros. right. auto.
Qed.

(** An OTel name of the table is not the prefixed name of a label outside it. *)
Lemma table_separate otel prom name :
  (prom, otel) ∈ LABEL_MAP -> otel = lit "profi." ++ name -> valid_label name ->
  is_Some (find_label name LABEL_MAP).
Proof.
  assert (forallb (fun po => let rest := drop 6 po.2 in
            negb (starts_with (lit "profi.") po.2) || bool_decide (46 ∈ rest)
            || bool_decide (is_Some (find_label rest LABEL_MAP))) LABEL_MAP = true) as Hall
    by (vm_compute; reflexivity).
  rewrite forallb_forall in Hall. intros Hin%list_elem_of_In -> Hv. specialize (Hall _ Hin). simpl in Hall.
  apply orb_true_iff in Hall as [H%bool_decide_eq_true|H%bool_decide_eq_true]; done.
Qed.

Lemma table_otel_inj p1 p2 otel : (p1, otel) ∈ LABEL_MAP -> (p2, otel) ∈ LABEL_MAP -> p1 = p2.
Proof.
  assert (NoDup LABEL_MAP.*2) as Hnd by (apply (bool_decide_unpack _); by vm_compute).
  intros [i Hi]%list_elem_of_lookup [j Hj]%list_elem_of_lookup.
  assert (i = j) as <-.
  { eapply NoDup_lookup; [exact Hnd|..]; rewrite list_lookup_fmap; [by rewrite Hi|by rewrite Hj]. }
  congruence.
Qed.

Lemma translate_name_inj n1 n2 :
  valid_label n1 -> valid_label n2 -> translate_name n1 = translate_name n2 -> n1 = n2.
Proof.
  unfold translate_name. intros H1 H2.
  destruct (find_label n1 LABEL_MAP) as [o1|] eqn:E1, (find_label n2 LABEL_MAP) as [o2|] eqn:E2.
  - intros <-. eauto using table_otel_inj, find_label_elem.
  - intros E. apply find_label_elem in E1. destruct (table_separate _ _ _ E1 E H2) as [? ?]. congruence.
  - intros E. apply find_label_elem in E2. destruct (table_separate _ _ _ E2 (eq_sym E) H1) as [? ?].
    congruence.
  - apply app_inv_head.
Qed.

(** ** Histograms *)

Section Histograms.
Context {X : Type} (le : X -> f64 -> bool) (obs : list X).

(** How many observations satisfy [p]. *)
Definition cnt (p : X -> bool) : Z := Z.of_nat (length (List.filter p obs)).

Lemma cnt_split (p q : X -> bool) :
  (forall x, p x = true -> q x = true) -> cnt q = cnt p + cnt (fun x => q x && negb (p x)).
Proof.
  intros Hpq. unfold cnt. induction obs as [|x l IH]; [done|]. simpl. specialize (Hpq x).
  destruct (p x), (q x); simpl; lia || by specialize (Hpq eq_refl).
Qed.

Lemma cnt_sub (p q : X -> bool) :
  (forall x, p x = true -> q x = true) ->
  saturating_sub (cnt q) (cnt p) = cnt (fun x => q x && negb (p x)).
Proof. intros ->%cnt_split. unfold saturating_sub, cnt. lia. Qed.

(** Bounds in ascending order, the observations within [p] before them. *)
Fixpoint ascending (p : X -> bool) (bs : list Bucket) : Prop :=
  match bs with
  | [] => True
  | b :: bs => (forall x, p x = true -> le x (upper_bound b) = true) /\
               ascending (fun x => le x (upper_bound b)) bs
  end.

Definition finite_buckets (h : PromHistogram) : list Bucket :=
  filter (fun b => is_finite (upper_bound b) = true) (buckets h).

(** A Prometheus histogram of the observations: every bucket counts those within its bound. *)
Definition histogram_of (h : PromHistogram) : Prop :=
  sample_count h = cnt (fun _ => true) /\ ascending (fun _ => false) (finite_buckets h) /\
  Forall (fun b => cumulative_count b = cnt (fun x => le x (upper_bound b))) (finite_buckets h).

(** Within the [i]-th bound, or any value after the last bound, [p] being before the first. *)
Definition up_to (p : X -> bool) (bounds : list f64) (i : nat) (x : X) : bool :=
  match i with
  | O => p x
  | S j => match bounds !! j with Some b => le x b | None => true end
  end.

(** In the [i]-th bucket: above the bound before it and within its own. *)
Definition in_bucket (p : X -> bool) (bounds : list f64) (i : nat) (x : X) : bool :=
  up_to p bounds (S i) x && negb (up_to p bounds i x).

Lemma deltas_exact bs p n i :
  ascending p bs -> Forall (fun b => cumulative_count b = cnt (fun x => le x (upper_bound b))) bs ->
  n = cnt (fun _ => true) -> (i <= length bs)%nat ->
  bucket_deltas (cnt p) bs n !! i = Some (cnt (in_bucket p (upper_bound <$> bs) i)).
Proof.
  revert p i. induction bs as [|b bs IH]; intros p i Hasc Hc Hn Hi; cbn [bucket_deltas].
  - destruct i; [|simpl in Hi; lia]. simpl. rewrite Hn, cnt_sub by done. done.
  - destruct Hasc as [Hp Hasc]. apply Forall_cons in Hc as [Hb Hc]. rewrite Hb.
    destruct i as [|i]; cbn [lookup list_lookup].
    + rewrite cnt_sub by done. done.
    + rewrite IH by (done || simpl in Hi; lia). f_equal. unfold cnt. f_equal. f_equal.
      by destruct i.
Qed.

Lemma bucket_deltas_length prev bs n : length (bucket_deltas prev bs n) = S (length bs).
Proof. revert prev. induction bs as [|b bs IH]; intros prev; simpl; [done|]. by rewrite IH. Qed.

Lemma bucket_deltas_sum bs p n :
  ascending p bs -> Forall (fun b => cumulative_count b = cnt (fun x => le x (upper_bound b))) bs ->
  n = cnt (fun _ => true) -> sumZ (bucket_deltas (cnt p) bs n) = n - cnt p.
Proof.
  assert (forall q r : X -> bool, (forall x, q x = true -> r x = true) ->
            saturating_sub (cnt r) (cnt q) = cnt r - cnt q) as Hsub.
  { intros q r Hqr. rewrite cnt_sub, (cnt_split q r) by done. lia. }
  revert p. induction bs as [|b bs IH]; intros p Hasc Hc Hn; cbn [bucket_deltas sumZ].
  - rewrite Hn, Hsub by done. lia.
  - destruct Hasc as [Hp Hasc]. apply Forall_cons in Hc as [Hb Hc]. rewrite Hb, Hsub, IH by done. lia.
Qed.

(** C24: The OTLP form of a Prometheus histogram counts every observation in its own bucket.
    When the cumulative buckets of a gathered histogram count the observations within their
    ascending bounds, with or without an explicit bucket at infinity, the data point has the
    finite bounds, one count more than bounds, its i-th count is the number of observations
    above bound i-1 and within bound i, and the counts add up to the sample count. *)
Theorem histogram_buckets_exact h attributes start_time now :
  histogram_of h ->
  let d := histogram_to_otlp h attributes start_time now in
  hp_bounds d = upper_bound <$> finite_buckets h /\
  length (hp_bucket_counts d) = S (length (hp_bounds d)) /\
  (forall i, (i <= length (hp_bounds d))%nat ->
     hp_bucket_counts d !! i = Some (cnt (in_bucket (fun _ => false) (hp_bounds d) i))) /\
  sumZ (hp_bucket_counts d) = hp_count d.
Proof.
  intros (Hn & Hasc & Hc) d. unfold d, histogram_to_otlp. fold (finite_buckets h).
  cbn [hp_bounds hp_bucket_counts hp_count].
  assert (cnt (fun _ => false) = 0) as H0.
  { unfold cnt. clear. induction obs; simpl; lia. }
  split_and!; [done|by rewrite bucket_deltas_length, length_fmap| |].
  - intros i Hi. rewrite length_fmap in Hi. rewrite <- H0. by apply deltas_exact.
  - rewrite <- H0. rewrite bucket_deltas_sum by done. lia.
Qed.
End Histograms.

(** ** The batch *)

Definition convertible (t : MetricType) : bool :=
  match t with COUNTER | GAUGE | HISTOGRAM => true | _ => false end.

(** The families that are to be shipped. *)
Definition shippable (f : MetricFamily) : Prop :=
  should_skip_metric (mf_name f) = false /\ convertible (mf_type f) = true /\ mf_metric f <> [].

#[global] Instance shippable_dec f : Decision (shippable f).
Proof. unfold shippable. apply _. Defined.

Definition same_point (value : PromMetric -> f64) (start now : Z) (m : PromMetric) (p : DataPoint) : Prop :=
  dp_attributes p = translate_labels (pm_label m) /\ dp_start_time p = start /\ dp_time p = now /\
  dp_value p = value m.

(** [m] is the OTLP form of [f]: a cumulative monotonic sum for a counter, a gauge for a
    gauge, a cumulative histogram for a histogram, with one point per series. *)
Definition same_metric (start now : Z) (f : MetricFamily) (m : OtlpMetric) : Prop :=
  om_name m = mf_name f /\ om_description m = mf_help f /\
  match om_data m with
  | Sum ps t mono => mf_type f = COUNTER /\ t = Cumulative /\ mono = true /\
                     Forall2 (same_point pm_counter start now) (mf_metric f) ps
  | GaugeData ps => mf_type f = GAUGE /\ Forall2 (same_point pm_gauge start now) (mf_metric f) ps
  | HistogramData ps t =>
      mf_type f = HISTOGRAM /\ t = Cumulative /\
      Forall2 (fun s p => hp_attributes p = translate_labels (pm_label s) /\
                          hp_count p = sample_count (pm_histogram s) /\
                          hp_sum p = sample_sum (pm_histogram s)) (mf_metric f) ps
  end.

Lemma convert_shippable f start now :
  convertible (mf_type f) = true -> mf_metric f <> [] ->
  exists m, convert_metric_family f start now = Some m /\ same_metric start now f m.
Proof.
  destruct f as [name help t [|s ss]]; simpl; [done|]. intros Ht _.
  assert (forall v, Forall2 (same_point v start now) (s :: ss) (data_point v start now <$> s :: ss)) as Hps.
  { intros v. apply Forall2_fmap_r, Forall_Forall2_diag, Forall_true. intros x. by split_and!. }
  destruct t; try done; (eexists; split; [reflexivity|]); unfold same_metric; cbn; split_and!; try done;
    try apply Hps.
  apply Forall2_cons. split; [done|]. apply Forall2_fmap_r, Forall_Forall2_diag, Forall_true. by intros x.
Qed.

Lemma convert_none f start now :
  convertible (mf_type f) = false \/ mf_metric f = [] -> convert_metric_family f start now = None.
Proof. destruct f as [name help [] [|s ss]]; simpl; intros [?|?]; done. Qed.

Lemma push_batch b now fs :
  let ms := omap (fun f => convert_metric_family f (br_start b) now)
              (filter (fun f => should_skip_metric (mf_name f) = false) fs) in
  Forall2 (same_metric (br_start b) now) (filter shippable fs) ms.
Proof.
  induction fs as [|f fs IH]; [constructor|]. cbn zeta in *. rewrite !filter_cons.
  destruct (decide (shippable f)) as [(Hs & Ht & Hne)|Hno].
  - rewrite decide_True by done.
    change (omap ?g (?x :: ?l)) with (match g x with Some y => y :: omap g l | None => omap g l end).
    destruct (convert_shippable f (br_start b) now Ht Hne) as (m & -> & Hm). by constructor.
  - destruct (decide (should_skip_metric (mf_name f) = false)) as [Hs|]; [|done].
    change (omap ?g (?x :: ?l)) with (match g x with Some y => y :: omap g l | None => omap g l end).
    cbv beta. rewrite convert_none; [done|]. unfold shippable in Hno.
    destruct (convertible (mf_type f)), (mf_metric f); auto. exfalso. apply Hno. by split_and!.
Qed.

(** C25: A push ships every series and nothing else.  The batch of a tick has, in order, one
    metric for each gathered counter, gauge or histogram family that has series and whose
    name does not start with profi_system_, of the same name and with one data point per
    series that carries its translated labels and its value; there is no export when there is
    no such family. *)
Theorem push_ships_every_series b now fs :
  Forall2 (same_metric (br_start b) now) (filter shippable fs) (default [] (push b now fs)) /\
  (push b now fs = None <-> filter shippable fs = []) /\
  Forall (fun m => starts_with (lit "profi_system_") (om_name m) = false) (default [] (push b now fs)).
Proof.
  pose proof (push_batch b now fs) as H. cbn zeta in H. unfold push.
  set (ms := omap _ _) in *.
  assert (default [] (match ms with [] => None | _ => Some ms end) = ms) as -> by by destruct ms.
  split_and!; [done| |].
  - inversion H as [E1 E2|x y l l' Hx Hl E1 E2]; [done|]. split; done.
  - apply Forall_lookup. intros i m Hi.
    destruct (Forall2_lookup_r _ _ _ _ _ H Hi) as (f & Hf & Hname & _).
    apply list_elem_of_lookup_2, list_elem_of_filter in Hf as [[Hs _] _]. by rewrite Hname.
Qed.

(** Translation keeps labels apart.  On label names without a dot, which all names of the
    modelled families are, two lists of labels have the same translation only if they are the
    same list, and distinct label names get distinct attribute keys: no two series of a family
    become one, and no attribute hides another. *)
Theorem translated_labels_stay_apart l1 l2 :
  Forall (fun lp => valid_label lp.1) l1 -> Forall (fun lp => valid_label lp.1) l2 ->
  (translate_labels l1 = translate_labels l2 -> l1 = l2) /\
  (NoDup l1.*1 -> NoDup (translate_labels l1).*1) /\
  (forall m, Forall (fun n => valid_label (lit n)) (label_names m)).
Proof.
  intros H1 H2. split_and!.
  - revert l2 H2. induction H1 as [|[n v] l1 Hn H1 IH]; intros l2 H2.
    + by destruct l2.
    + destruct l2 as [|[n2 v2] l2]; [done|]. apply Forall_cons in H2 as [Hn2 H2].
      unfold translate_labels in *. csimpl. intros [= En Ev El].
      apply translate_name_inj in En; [|done..]. f_equal; [congruence|auto].
  - intros Hnd. replace (translate_labels l1).*1 with (translate_name <$> l1.*1)
      by (unfold translate_labels; by rewrite <- !list_fmap_compose).
    apply Forall_fmap in H1. clear H2.
    induction Hnd as [|n l Hn Hnd IH]; csimpl; [constructor|].
    apply Forall_cons in H1 as [Hv H1]. constructor; [|auto].
    intros (n' & E & Hin)%list_elem_of_fmap. rewrite Forall_forall in H1.
    apply translate_name_inj in E; [subst; done|done|auto].
  - intros m. apply (bool_decide_unpack _). by destruct m; vm_compute.
Qed.

(** A zero push interval kills the bridge after start-up has succeeded.  Whatever else is
    configured, when the configuration is accepted and the exporter is built, the spawned task
    panics before its first push exactly if OTEL_METRIC_EXPORT_INTERVAL reads 0, or is unset
    with --otlp-interval-secs=0; start-up reports no error. *)
Theorem zero_interval_kills_bridge {OL : OtlpLib} fs version env args cfg wall elapsed b :
  resolve env args = Ok (Some cfg) ->
  start_bridge fs version env cfg wall elapsed = Ok b ->
  task_begin b = Panic <->
  match env_export_interval env with
  | Some ms => from_str_radix 64 10 ms = Some 0
  | None => otlp_interval_secs args = 0
  end.
Proof.
  unfold resolve, start_bridge, task_begin. intros Hr Hb.
  destruct (build_exporter fs cfg) as [e|]; [|done]. injection Hb as <-. cbn [br_interval].
  destruct (mbind _ _) as [ep|]; [|done]. destruct (if _ || _ then _ else _) as [p|]; [|done].
  destruct (env_export_interval env) as [ms|]; cbn [default] in Hr.
  - destruct (from_str_radix 64 10 ms) as [n|]; [|done]. simpl in Hr. injection Hr as <-. cbn [interval].
    destruct (Z.eqb_spec (MILLI * n) 0) as [E|E]; unfold MILLI in E; split; intros H; try done;
      [f_equal; lia|injection H as ->; lia].
  - injection Hr as <-. cbn [interval].
    destruct (Z.eqb_spec (otlp_interval_secs args * SECOND) 0) as [E|E]; unfold SECOND in E;
      split; intros H; (done || lia).
Qed.

(** ** Witnesses *)

(** Bounds 10 and 20 with an explicit bucket at infinity, and four observations. *)
Definition demo_le (x : Z) (b : f64) : bool := x <=? f64_as_u64 b.
Definition demo_histogram : PromHistogram :=
  mkPromHistogram 4 (f64_of 61)
    [mkBucket (f64_of 10) 1; mkBucket (f64_of 20) 3; mkBucket (S754_infinity false) 4].

Lemma histogram_buckets_exact_witness :
  hp_bucket_counts (histogram_to_otlp demo_histogram [] 0 1) !! 1%nat = Some 2.
Proof.
  destruct (histogram_buckets_exact demo_le [5; 15; 16; 25] demo_histogram [] 0 1)
    as (_ & _ & H & _).
  - split_and!; [reflexivity| |].
    + change (finite_buckets demo_histogram) with [mkBucket (f64_of 10) 1; mkBucket (f64_of 20) 3].
      cbn [ascending upper_bound]. split; [done|]. split; [|exact I]. intros x. unfold demo_le.
      change (f64_as_u64 (f64_of 10)) with 10. change (f64_as_u64 (f64_of 20)) with 20. lia.
    + apply (bool_decide_unpack _). by vm_compute.
  - rewrite (H 1%nat) by (apply Nat.leb_le; reflexivity). reflexivity.
Defined.

Lemma translated_labels_stay_apart_witness :
  NoDup (translate_labels [(lit "pod", lit "a"); (lit "le", lit "1")]).*1.
Proof.
  refine (proj1 (proj2 (translated_labels_stay_apart
    [(lit "pod", lit "a"); (lit "le", lit "1")] [] _ _)) _).
  all: apply (bool_decide_unpack _); by vm_compute.
Defined.

Definition demo_otlp_lib : OtlpLib := {|
  metadata_key k := Some k; metadata_value v := Some v; exporter_build _ := true |}.

Definition demo_otlp_args : OtlpArgs :=
  mkOtlpArgs (Some (lit "http://collector:4317")) (lit "grpc") 60 10 (lit "profi") None None None None
    false None.
Definition zero_env : EnvVars := mkEnvVars (Some (lit "0")) None None.

Lemma zero_interval_kills_bridge_witness :
  exists cfg b, resolve zero_env demo_otlp_args = Ok (Some cfg) /\
    start_bridge (OL := demo_otlp_lib) (fun _ => None) [] zero_env cfg 1000 10 = Ok b /\
    task_begin b = Panic.
Proof.
  eexists _, _. split; [reflexivity|]. split; [reflexivity|].
  apply (zero_interval_kills_bridge (OL := demo_otlp_lib) (fun _ => None) [] zero_env demo_otlp_args
           _ 1000 10 _ eq_refl eq_refl). reflexivity.
Defined.
