(* ===== verification/Discovery.v ===== *)
(** * Library discovery: src/src/discovery.rs

    One scan of /proc: which files are mapped under the name of a library by which process,
    by device and inode, leaving out those that are attached already. *)

From stdpp Require Import strings.
From S2P Require Import Prelude RustStd.

Local Open Scope Z_scope.
#[local] Set Warnings "-clear-no-such-hyp".

Record DevInode := mkDevInode { di_dev : Z; di_ino : Z }.

#[global] Instance DevInode_eq_dec : EqDecision DevInode.
Proof. solve_decision. Defined.
#[global] Instance DevInode_countable : Countable DevInode.
Proof.
  refine (inj_countable' (fun d => (di_dev d, di_ino d)) (fun p => mkDevInode p.1 p.2) _).
  by intros [].
Defined.

(** A directory entry of /proc: its name, and the lines of its maps file when it can be opened.
    [None] among the lines is a read that fails. *)
Record ProcEntry := mkProcEntry { pe_name : str; pe_maps : option (list (option str)) }.

(** What a scan reads: the directory, when it can be listed, and which paths exist. *)
Record Proc := mkProc { pr_entries : option (list ProcEntry); pr_exists : str -> bool }.

Section Scan.
Context (makedev : Z -> Z -> Z) (proc_path : str) (proc : Proc).

(** The device, the inode and the path of a line of a maps file. *)
Definition parse_mapping (line : str) : option (DevInode * str) :=
  match split_whitespace line with
  | _ :: _ :: _ :: dev_s :: ino_s :: container_path :: _ =>
      ino ← from_str_radix 64 10 ino_s;
      '(maj_s, min_s) ← split_once 58 dev_s;
      let major := default 0 (from_str_radix 32 16 maj_s) in
      let minor := default 0 (from_str_radix 32 16 min_s) in
      Some (mkDevInode (makedev major minor) ino, container_path)
  | _ => None
  end.

Definition Lib : Type := str * gset DevInode.

(** Per library, what the scan has seen and what it has found. *)
Record Found := mkFound {
  fo_seen : gmap str (gset DevInode);
  fo_results : gmap str (list (str * DevInode))
}.

Definition seen_of (lib : str) (f : Found) : gset DevInode := default ∅ (fo_seen f !! lib).
Definition results_of (lib : str) (f : Found) : list (str * DevInode) := default [] (fo_results f !! lib).

Definition host_path (pid container_path : str) : str :=
  proc_path ++ 47 :: pid ++ lit "/root" ++ container_path.

(** One library on one line. *)
Definition scan_lib (pid line : str) (acc : gset str * Found) (lib : Lib) : gset str * Found :=
  let '(remaining, f) := acc in
  let '(lib_name, attached) := lib in
  if negb (contains lib_name line) then acc
  else
    match parse_mapping line with
    | None => acc
    | Some (di, container_path) =>
        let remaining := remaining ∖ {[lib_name]} in
        if decide (di ∈ attached \/ di ∈ seen_of lib_name f) then (remaining, f)
        else
          let path := host_path pid container_path in
          (remaining,
           mkFound (<[lib_name := {[di]} ∪ seen_of lib_name f]> (fo_seen f))
             (if pr_exists proc path
              then <[lib_name := results_of lib_name f ++ [(path, di)]]> (fo_results f)
              else fo_results f))
    end.

Definition scan_line (libs : list Lib) (pid line : str) (acc : gset str * Found) : gset str * Found :=
  foldl (scan_lib pid line) acc libs.

(** The lines of one process, until every library has been met. *)
Fixpoint scan_lines (libs : list Lib) (pid : str) (lines : list (option str)) (acc : gset str * Found)
    : gset str * Found :=
  match lines with
  | [] | None :: _ => acc
  | Some line :: lines =>
      let acc := scan_line libs pid line acc in
      if decide (acc.1 = ∅) then acc else scan_lines libs pid lines acc
  end.

(** Whether a directory entry is a process to look at. *)
Definition selected (only_pids : option (gset Z)) (name : str) : bool :=
  match name with
  | c :: _ =>
      is_ascii_digit c
      && match only_pids with
         | Some pids => match from_str_radix 32 10 name with
                        | Some pid_num => bool_decide (pid_num ∈ pids)
                        | None => true
                        end
         | None => true
         end
  | [] => false
  end.

Definition scan_entry (libs : list Lib) (only_pids : option (gset Z)) (f : Found) (entry : ProcEntry) : Found :=
  if selected only_pids (pe_name entry) then
    match pe_maps entry with
    | Some lines => (scan_lines libs (pe_name entry) lines (list_to_set libs.*1, f)).2
    | None => f
    end
  else f.

Definition nothing_found (libs : list Lib) : Found :=
  mkFound (list_to_map ((fun l => (l.1, ∅)) <$> libs)) (list_to_map ((fun l => (l.1, [])) <$> libs)).

Definition scan (libs : list Lib) (only_pids : option (gset Z)) : Found :=
  match pr_entries proc with
  | Some entries => foldl (scan_entry libs only_pids) (nothing_found libs) entries
  | None => nothing_found libs
  end.

Definition scan_proc_for_libs (libs : list Lib) (only_pids : option (gset Z))
    : gmap str (list (str * DevInode)) := fo_results (scan libs only_pids).

(** ** What a scan finds *)

(** [entry] maps [di] under the name [lib], at [container_path]. *)
Definition maps_lib (lib : str) (entry : ProcEntry) (di : DevInode) (container_path : str) : Prop :=
  exists lines line, pe_maps entry = Some lines /\ Some line ∈ lines /\ contains lib line = true /\
    parse_mapping line = Some (di, container_path).

(** The line maps a file under the name of the library. *)
Definition matched (lib line : str) : bool :=
  contains lib line && bool_decide (is_Some (parse_mapping line)).

(** The first file a process maps under the name of a library, before a read fails. *)
Fixpoint first_mapping (lib : str) (lines : list (option str)) : option (DevInode * str) :=
  match lines with
  | [] | None :: _ => None
  | Some line :: lines => if matched lib line then parse_mapping line else first_mapping lib lines
  end.

Lemma scan_lib_remaining pid line acc lib x :
  x ∈ (scan_lib pid line acc lib).1 <-> x ∈ acc.1 /\ ~ (x = lib.1 /\ matched lib.1 line = true).
Proof.
  destruct acc as [R f], lib as [l att]. unfold scan_lib, matched. simpl.
  destruct (contains l line); simpl; [|naive_solver].
  destruct (parse_mapping line) as [[di cp]|]; simpl; [|naive_solver].
  case_decide; simpl; set_solver.
Qed.

Lemma scan_line_remaining libs pid line acc x :
  x ∈ (scan_line libs pid line acc).1 <-> x ∈ acc.1 /\ ~ (x ∈ libs.*1 /\ matched x line = true).
Proof.
  unfold scan_line. revert acc. induction libs as [|lib libs IH]; intros acc; csimpl.
  - set_solver.
  - rewrite IH, scan_lib_remaining, elem_of_cons. naive_solver.
Qed.

(** Once every library has been met, the rest of the lines is not read. *)
Lemma scan_lines_stop libs pid pre post R f :
  R <> ∅ -> R ⊆ list_to_set libs.*1 ->
  (forall lib, lib ∈ R -> is_Some (first_mapping lib pre)) ->
  scan_lines libs pid (pre ++ post) (R, f) = scan_lines libs pid pre (R, f).
Proof.
  revert R f. induction pre as [|[line|] pre IH]; intros R f Hne Hsub Hall; cbn [app scan_lines].
  - apply set_choose_L in Hne as [x Hx]. by destruct (Hall x Hx).
  - destruct (scan_line libs pid line (R, f)) as [R' f'] eqn:E.
    assert (forall x, x ∈ R' <-> x ∈ R /\ ~ (x ∈ libs.*1 /\ matched x line = true)) as HR'.
    { intros x. pose proof (scan_line_remaining libs pid line (R, f) x) as H. by rewrite E in H. }
    cbn [fst]. case_decide; [done|]. apply IH; [done|set_solver|].
    intros lib [HR Hno]%HR'. destruct (Hall lib HR) as [y Hy]. cbn [first_mapping] in Hy.
    destruct (matched lib line) eqn:Hm; [|by exists y]. exfalso. apply Hno. set_solver.
  - done.
Qed.

(** Lines that do not match a library leave what is known about it unchanged. *)
Lemma scan_lib_other pid line acc lib x :
  x <> lib.1 ->
  seen_of x (scan_lib pid line acc lib).2 = seen_of x acc.2 /\
  results_of x (scan_lib pid line acc lib).2 = results_of x acc.2.
Proof.
  destruct acc as [R f], lib as [l att]. intros Hne. unfold scan_lib. simpl in *.
  destruct (contains l line); simpl; [|done]. destruct (parse_mapping line) as [[di cp]|]; [|done].
  case_decide; [done|]. simpl. unfold seen_of, results_of. simpl.
  rewrite lookup_insert_ne by done. destruct (pr_exists _ _); [|done]. by rewrite lookup_insert_ne by done.
Qed.

(** ** One library *)

Section OneLib.
Context (libs : list Lib) (Hnd : NoDup libs.*1) (lib : str) (attached : gset DevInode)
  (Hlib : (lib, attached) ∈ libs) (only_pids : option (gset Z)) (entries : list ProcEntry).

(** [di] is mapped at [path] by a selected process. *)
Definition origin (di : DevInode) (path : str) : Prop :=
  exists entry container_path, entry ∈ entries /\ selected only_pids (pe_name entry) = true /\
    maps_lib lib entry di container_path /\ path = host_path (pe_name entry) container_path.

Record lib_inv (f : Found) : Prop := {
  li_nodup : NoDup (results_of lib f).*2;
  li_results r : r ∈ results_of lib f ->
    r.2 ∈ seen_of lib f /\ origin r.2 r.1 /\ pr_exists proc r.1 = true;
  li_seen di : di ∈ seen_of lib f ->
    (di ∉ attached) /\
    (di ∈ (results_of lib f).*2 \/ exists path, origin di path /\ pr_exists proc path = false)
}.

Lemma lib_attached att : (lib, att) ∈ libs -> att = attached.
Proof.
  intros [i Hi]%list_elem_of_lookup. apply list_elem_of_lookup in Hlib as [j Hj].
  assert (i = j) as <-.
  { eapply (NoDup_lookup _ _ _ lib Hnd); rewrite list_lookup_fmap; [by rewrite Hi|by rewrite Hj]. }
  congruence.
Qed.

Lemma scan_lib_same pid line acc :
  (scan_lib pid line acc (lib, attached)).2 =
  match (if contains lib line then parse_mapping line else None) with
  | Some (di, cp) =>
      if decide (di ∈ attached \/ di ∈ seen_of lib acc.2) then acc.2
      else mkFound (<[lib := {[di]} ∪ seen_of lib acc.2]> (fo_seen acc.2))
             (if pr_exists proc (host_path pid cp)
              then <[lib := results_of lib acc.2 ++ [(host_path pid cp, di)]]> (fo_results acc.2)
              else fo_results acc.2)
  | None => acc.2
  end.
Proof.
  destruct acc as [R f]. unfold scan_lib. simpl. destruct (contains lib line); [|done]. simpl.
  destruct (parse_mapping line) as [[di cp]|]; [|done]. by case_decide.
Qed.

Lemma inv_other f f' :
  seen_of lib f' = seen_of lib f -> results_of lib f' = results_of lib f -> lib_inv f -> lib_inv f'.
Proof. intros Hs Hr [H1 H2 H3]. split; rewrite ?Hs, ?Hr; done. Qed.

(** A new file. *)
Lemma inv_new f di path :
  lib_inv f -> di ∉ attached -> di ∉ seen_of lib f -> origin di path ->
  lib_inv (mkFound (<[lib := {[di]} ∪ seen_of lib f]> (fo_seen f))
             (if pr_exists proc path then <[lib := results_of lib f ++ [(path, di)]]> (fo_results f)
              else fo_results f)).
Proof.
  intros [H1 H2 H3] Hatt Hseen Ho.
  set (f' := mkFound _ _).
  assert (seen_of lib f' = {[di]} ∪ seen_of lib f) as Es
    by (unfold f', seen_of; simpl; by rewrite lookup_insert_eq).
  assert (results_of lib f' = if pr_exists proc path then results_of lib f ++ [(path, di)]
                              else results_of lib f) as Er
    by (unfold f', results_of; simpl; destruct (pr_exists proc path); [by rewrite lookup_insert_eq|done]).
  split; rewrite Er, ?Es.
  - destruct (pr_exists proc path); [|done]. rewrite fmap_app. apply NoDup_app. split_and!; [done| |].
    + intros x Hx Hy%list_elem_of_singleton. subst x. apply list_elem_of_fmap in Hx as (r & E & Hr). simpl in E.
      apply H2 in Hr as (Hr & _). by rewrite <- E in Hr.
    + apply NoDup_singleton.
  - intros r Hr. destruct (pr_exists proc path) eqn:Ex.
    + apply elem_of_app in Hr as [Hr|Hr%list_elem_of_singleton]; [|subst r].
      * apply H2 in Hr as (? & ? & ?). split_and!; [set_solver|done..].
      * simpl. split_and!; [set_solver|done..].
    + apply H2 in Hr as (? & ? & ?). split_and!; [set_solver|done..].
  - intros x. rewrite elem_of_union, elem_of_singleton. intros [->|Hx].
    + split; [done|]. destruct (pr_exists proc path) eqn:Ex; [|right; by exists path].
      left. rewrite fmap_app. set_solver.
    + apply H3 in Hx as [Hna [Hx|Hx]]; (split; [done|]); [left|by right].
      destruct (pr_exists proc path); [|done]. rewrite fmap_app. set_solver.
Qed.

(** One line of a selected process. *)
Lemma scan_line_inv entry lines line acc ls :
  entry ∈ entries -> selected only_pids (pe_name entry) = true -> pe_maps entry = Some lines ->
  Some line ∈ lines -> (forall l, l ∈ ls -> l ∈ libs) ->
  lib_inv acc.2 ->
  lib_inv (foldl (scan_lib (pe_name entry) line) acc ls).2 /\
  seen_of lib acc.2 ⊆ seen_of lib (foldl (scan_lib (pe_name entry) line) acc ls).2 /\
  (forall di cp, lib ∈ ls.*1 -> matched lib line = true -> parse_mapping line = Some (di, cp) ->
     di ∈ attached \/ di ∈ seen_of lib (foldl (scan_lib (pe_name entry) line) acc ls).2).
Proof.
  intros Hin Hsel Hmaps Hline. revert acc. induction ls as [|[l att] ls IH]; intros acc Hls Hinv; cbn [foldl].
  { split_and!; [done..|]. by intros di cp ?%elem_of_nil. }
  destruct (decide (l = lib)) as [->|Hne].
  - assert (att = attached) as -> by (apply lib_attached, Hls; by left).
    set (acc' := scan_lib _ _ acc _).
    assert (lib_inv acc'.2 /\ seen_of lib acc.2 ⊆ seen_of lib acc'.2 /\
      (forall di cp, contains lib line = true -> parse_mapping line = Some (di, cp) ->
         di ∈ attached \/ di ∈ seen_of lib acc'.2)) as (Hi & Hs & Hm).
    { unfold acc'. rewrite scan_lib_same. destruct (contains lib line) eqn:Hc; [|split_and!; done].
      destruct (parse_mapping line) as [[di cp]|] eqn:Hp; [|split_and!; done].
      case_decide as Hd; [split_and!; [done..|]; intros ? ? _ [= <- _]; tauto|].
      assert (origin di (host_path (pe_name entry) cp)) as Ho.
      { exists entry, cp. split_and!; try done. exists lines, line. done. }
      split; [apply inv_new; tauto|]. unfold seen_of at 2 4. cbn [fo_seen]. rewrite lookup_insert_eq.
      split; [set_solver|]. intros ? ? _ [= <- _]. right. set_solver. }
    destruct (IH acc') as (H1 & H2 & H3); [set_solver|done|].
    split_and!; [done|set_solver|]. intros di cp _ [Hc _]%andb_true_iff Hp.
    destruct (Hm di cp Hc Hp); [by left|right; set_solver].
  - destruct (scan_lib_other (pe_name entry) line acc (l, att) lib) as [Es Er]; [done|].
    destruct (IH (scan_lib (pe_name entry) line acc (l, att))) as (H1 & H2 & H3);
      [set_solver|by eapply inv_other|].
    rewrite Es in H2. split_and!; [done|done|]. intros di cp. csimpl. rewrite elem_of_cons.
    intros [?|?]; [done|]. by apply H3.
Qed.

Lemma scan_lines_inv entry lines todo acc :
  entry ∈ entries -> selected only_pids (pe_name entry) = true -> pe_maps entry = Some lines ->
  (forall l, l ∈ todo -> l ∈ lines) -> lib_inv acc.2 ->
  lib_inv (scan_lines libs (pe_name entry) todo acc).2 /\
  seen_of lib acc.2 ⊆ seen_of lib (scan_lines libs (pe_name entry) todo acc).2 /\
  (forall di cp, lib ∈ acc.1 -> first_mapping lib todo = Some (di, cp) ->
     di ∈ attached \/ di ∈ seen_of lib (scan_lines libs (pe_name entry) todo acc).2).
Proof.
  intros Hin Hsel Hmaps. revert acc. induction todo as [|[line|] todo IH]; intros acc Hsub Hinv;
    cbn [scan_lines first_mapping]; [by split_and!| |by split_and!].
  destruct (scan_line_inv entry lines line acc libs) as (H1 & H2 & H3); [set_solver..|done|].
  fold (scan_line libs (pe_name entry) line acc) in H1, H2, H3.
  set (acc' := scan_line libs (pe_name entry) line acc) in *.
  assert (lib ∈ libs.*1) as Hl by (apply list_elem_of_fmap; by exists (lib, attached)).
  assert (lib ∈ acc'.1 <-> lib ∈ acc.1 /\ matched lib line = false) as Hrem.
  { unfold acc'. rewrite scan_line_remaining. destruct (matched lib line); (split; [intros [? Hn]|intros [? ?]]); try (split; [done|]); try done;
      [by destruct Hn|by intros []]. }
  case_decide as Hd.
  - split_and!; [done..|]. intros di cp Hr. destruct (matched lib line) eqn:Hm; [eauto|].
    exfalso. assert (lib ∈ acc'.1) as Hx by by apply Hrem. rewrite Hd in Hx. set_solver.
  - destruct (IH acc') as (K1 & K2 & K3); [set_solver|done|]. split_and!; [done|set_solver|].
    intros di cp Hr. destruct (matched lib line) eqn:Hm.
    + intros Hp. destruct (H3 di cp Hl eq_refl Hp); [by left|right; set_solver].
    + apply K3. by apply Hrem.
Qed.

Lemma scan_entries_inv todo f :
  (forall e, e ∈ todo -> e ∈ entries) -> lib_inv f ->
  lib_inv (foldl (scan_entry libs only_pids) f todo) /\
  seen_of lib f ⊆ seen_of lib (foldl (scan_entry libs only_pids) f todo) /\
  (forall entry lines di cp, entry ∈ todo -> selected only_pids (pe_name entry) = true ->
     pe_maps entry = Some lines -> first_mapping lib lines = Some (di, cp) ->
     di ∈ attached \/ di ∈ seen_of lib (foldl (scan_entry libs only_pids) f todo)).
Proof.
  revert f. induction todo as [|e todo IH]; intros f Hsub Hinv; cbn [foldl].
  { split_and!; [done..|]. by intros ? ? ? ? ?%elem_of_nil. }
  assert (lib ∈ (list_to_set libs.*1 : gset str)) as Hl.
  { apply elem_of_list_to_set, list_elem_of_fmap. by exists (lib, attached). }
  set (f' := scan_entry libs only_pids f e).
  assert (lib_inv f' /\ seen_of lib f ⊆ seen_of lib f' /\
    (forall lines di cp, selected only_pids (pe_name e) = true -> pe_maps e = Some lines ->
       first_mapping lib lines = Some (di, cp) -> di ∈ attached \/ di ∈ seen_of lib f')) as (H1 & H2 & H3).
  { unfold f', scan_entry. destruct (selected only_pids (pe_name e)) eqn:Hs; [|by split_and!].
    destruct (pe_maps e) as [lines|] eqn:Hm; [|by split_and!].
    destruct (scan_lines_inv e lines lines (list_to_set libs.*1, f)) as (K1 & K2 & K3); try done; [set_solver|].
    split_and!; [done..|]. intros ls di cp _ [= <-] Hf. by eapply K3. }
  destruct (IH f') as (K1 & K2 & K3); [set_solver|done|]. split_and!; [done|set_solver|].
  intros entry lines di cp [->|Hin]%elem_of_cons Hs Hm Hf; [|by eapply K3].
  destruct (H3 lines di cp Hs Hm Hf); [by left|right; set_solver].
Qed.

Lemma nothing_inv : lib_inv (nothing_found libs).
Proof.
  assert (seen_of lib (nothing_found libs) = ∅ /\ results_of lib (nothing_found libs) = []) as [Es Er].
  { unfold seen_of, results_of, nothing_found. cbn [fo_seen fo_results]. clear. split.
    - induction libs as [|[l a] ls IH]; csimpl; [done|].
      destruct (decide (l = lib)) as [->|]; [by rewrite lookup_insert_eq|by rewrite lookup_insert_ne].
    - induction libs as [|[l a] ls IH]; csimpl; [done|].
      destruct (decide (l = lib)) as [->|]; [by rewrite lookup_insert_eq|by rewrite lookup_insert_ne]. }
  split; rewrite ?Es, ?Er; [constructor|by intros ? ?%elem_of_nil|set_solver].
Qed.
End OneLib.

(** The first file that a scanned process maps under a name is not overlooked. *)
Lemma scan_complete libs lib attached only_pids entries entry lines di container_path :
  NoDup libs.*1 -> (lib, attached) ∈ libs -> pr_entries proc = Some entries ->
  entry ∈ entries -> selected only_pids (pe_name entry) = true -> pe_maps entry = Some lines ->
  first_mapping lib lines = Some (di, container_path) ->
  di ∈ attached \/ di ∈ (default [] (scan_proc_for_libs libs only_pids !! lib)).*2 \/
  exists path, origin lib only_pids entries di path /\ pr_exists proc path = false.
Proof.
  intros Hnd Hlib Hent Hin Hsel Hm Hf.
  destruct (scan_entries_inv libs Hnd lib attached Hlib only_pids entries entries (nothing_found libs))
    as ([H1 H2 H3] & _ & Hc); [done|by eapply nothing_inv|].
  assert (foldl (scan_entry libs only_pids) (nothing_found libs) entries = scan libs only_pids) as E
    by (unfold scan; by rewrite Hent).
  rewrite E in H3, Hc. fold (results_of lib (scan libs only_pids)).
  destruct (Hc _ _ _ _ Hin Hsel Hm Hf) as [?|Hs]; [by left|]. right. by apply H3.
Qed.

(** C26: What a scan reports about a library is exact.  The reported files are distinct, are
    not attached yet, exist, and each is mapped under the library's name by a process of the
    scan, below whose root the reported path lies.  Conversely the first file that a scanned
    process maps under the name is attached already, or reported, or was met first at a path
    that does not exist. *)
Theorem scan_exact libs lib attached only_pids entries :
  NoDup libs.*1 -> (lib, attached) ∈ libs -> pr_entries proc = Some entries ->
  let found := default [] (scan_proc_for_libs libs only_pids !! lib) in
  NoDup found.*2 /\
  (forall path di, (path, di) ∈ found ->
     (di ∉ attached) /\ pr_exists proc path = true /\ origin lib only_pids entries di path) /\
  (forall entry lines di container_path,
     entry ∈ entries -> selected only_pids (pe_name entry) = true -> pe_maps entry = Some lines ->
     first_mapping lib lines = Some (di, container_path) ->
     di ∈ attached \/ di ∈ found.*2 \/
     exists path, origin lib only_pids entries di path /\ pr_exists proc path = false).
Proof.
  intros Hnd Hlib Hent found.
  destruct (scan_entries_inv libs Hnd lib attached Hlib only_pids entries entries (nothing_found libs))
    as ([H1 H2 H3] & _ & _); [done|by eapply nothing_inv|].
  assert (foldl (scan_entry libs only_pids) (nothing_found libs) entries = scan libs only_pids) as E
    by (unfold scan; by rewrite Hent).
  rewrite E in H1, H2, H3. fold (results_of lib (scan libs only_pids)) in found.
  split_and!; [done| |].
  - intros path di Hin. destruct (H2 _ Hin) as (Hs & Ho & He). split_and!; try done. by apply H3.
  - intros entry lines di cp. by apply scan_complete.
Qed.

(** A second version of a library is never discovered.  When the first lines of a process
    map every library that is looked for, the lines after them change nothing: whatever other
    files they map under those names, and whether or not the first ones are attached already,
    no scan reports them. *)
Theorem later_versions_missed libs only_pids f name pre post :
  libs <> [] -> (forall lib, lib ∈ libs.*1 -> is_Some (first_mapping lib pre)) ->
  scan_entry libs only_pids f (mkProcEntry name (Some (pre ++ post))) =
  scan_entry libs only_pids f (mkProcEntry name (Some pre)).
Proof.
  intros Hne Hall. unfold scan_entry. cbn [pe_name pe_maps]. destruct (selected only_pids name); [|done].
  rewrite scan_lines_stop; [done| |done|].
  - destruct libs as [|l ls]; [done|]. csimpl. set_solver.
  - intros lib Hl%elem_of_list_to_set. auto.
Qed.
End Scan.

(** ** Witnesses *)

Definition demo_line : str :=
  lit "7f00-7f01 r-xp 00000000 08:01 42 /usr/lib/libcudart.so.12".
Definition demo_line_old : str :=
  lit "7f02-7f03 r-xp 00000000 08:01 43 /opt/lib/libcudart.so.11".
Definition demo_entry : ProcEntry := mkProcEntry (lit "1234") (Some [Some demo_line; Some demo_line_old]).
Definition demo_proc : Proc := mkProc (Some [demo_entry]) (fun _ => true).
Definition demo_libs : list Lib := [(lit "libcudart.so", ∅)].

Lemma scan_exact_witness :
  mkDevInode 2049 42 ∈
    (default [] (scan_proc_for_libs (fun a b => 256 * a + b) (lit "/proc") demo_proc demo_libs None
                   !! lit "libcudart.so")).*2.
Proof.
  destruct (scan_exact (fun a b => 256 * a + b) (lit "/proc") demo_proc demo_libs (lit "libcudart.so") ∅ None
              [demo_entry]) as (_ & _ & H); [apply NoDup_singleton|by left|done|].
  destruct (H demo_entry [Some demo_line; Some demo_line_old] (mkDevInode 2049 42)
              (lit "/usr/lib/libcudart.so.12")) as [Hx|[Hx|(path & _ & Hx)]];
    [by left|reflexivity..|by apply not_elem_of_empty in Hx|exact Hx|done].
Defined.

Lemma later_versions_missed_witness :
  scan_entry (fun a b => 256 * a + b) (lit "/proc") demo_proc demo_libs None (nothing_found demo_libs)
    demo_entry =
  scan_entry (fun a b => 256 * a + b) (lit "/proc") demo_proc demo_libs None (nothing_found demo_libs)
    (mkProcEntry (lit "1234") (Some [Some demo_line])).
Proof.
  apply (later_versions_missed (fun a b => 256 * a + b) (lit "/proc") demo_proc demo_libs None
           (nothing_found demo_libs) (lit "1234") [Some demo_line] [Some demo_line_old]); [done|].
  intros lib ->%list_elem_of_singleton. by eexists.
Defined.
