(* ===== verification/Attach.v ===== *)
(** * Attaching the programs: the probe tables and the attach branch of src/src/main.rs

    Which program goes to which function of which library, how the links are made, the thread
    that looks for libraries and the branch of the event loop that attaches to them.  Then what
    the links mean for a call of a traced process: which programs of the tracer run at its entry
    and at its return. *)

From stdpp Require Import strings.
From S2P Require Import Prelude RustStd Events Runtime Probes Step Demo Ledger Calls Loop Server Discovery.

Local Open Scope Z_scope.
#[local] Set Warnings "-clear-no-such-hyp".

(** ** Probe tables *)

Inductive ProbeProfile := ProbeLean | ProbeFull.

Definition DIAGNOSTIC_ONLY_FN_NAMES : list string :=
  ["cudaStreamSynchronize"; "cudaEventSynchronize"; "cudaMemsetAsync"; "cudaMemset";
   "cudaMallocHost"; "cudaFreeHost"].

Definition probes_base : list (string * string) :=
  [("cuda_malloc", "cudaMalloc"); ("cuda_malloc_ret", "cudaMalloc");
   ("cuda_free", "cudaFree"); ("cuda_free_ret", "cudaFree");
   ("cuda_memcpy", "cudaMemcpy"); ("cuda_memcpy_ret", "cudaMemcpy");
   ("cuda_memcpy_async", "cudaMemcpyAsync"); ("cuda_memcpy_async_ret", "cudaMemcpyAsync");
   ("cuda_launch_kernel", "cudaLaunchKernel"); ("cuda_launch_kernel_ret", "cudaLaunchKernel");
   ("cuda_malloc_async", "cudaMallocAsync"); ("cuda_malloc_async_ret", "cudaMallocAsync");
   ("cuda_free_async", "cudaFreeAsync"); ("cuda_free_async_ret", "cudaFreeAsync");
   ("cuda_graph_launch", "cudaGraphLaunch"); ("cuda_graph_launch_ret", "cudaGraphLaunch");
   ("cuda_graph_instantiate", "cudaGraphInstantiate");
   ("cuda_graph_instantiate_ret", "cudaGraphInstantiate")].

Definition diagnostic_programs (fn_name : string) : option (string * string) :=
  if String.eqb fn_name "cudaStreamSynchronize" then Some ("cuda_stream_sync", "cuda_stream_sync_ret")
  else if String.eqb fn_name "cudaEventSynchronize" then Some ("cuda_event_sync", "cuda_event_sync_ret")
  else if String.eqb fn_name "cudaMemsetAsync" then Some ("cuda_memset_async", "cuda_memset_async_ret")
  else if String.eqb fn_name "cudaMemset" then Some ("cuda_memset", "cuda_memset_ret")
  else if String.eqb fn_name "cudaMallocHost" then Some ("cuda_malloc_host", "cuda_malloc_host_ret")
  else if String.eqb fn_name "cudaFreeHost" then Some ("cuda_free_host", "cuda_free_host_ret")
  else None.

Definition runtime_probes (kernel_mode : KernelMode) (profile : ProbeProfile) : list (string * string) :=
  probes_base
  ++ match kernel_mode with Full => [("cuda_register_function", "__cudaRegisterFunction")] | _ => [] end
  ++ match profile with
     | ProbeFull =>
         mjoin ((fun fn_name => match diagnostic_programs fn_name with
                                | Some (entry, ret) => [(entry, fn_name); (ret, fn_name)]
                                | None => []
                                end) <$> DIAGNOSTIC_ONLY_FN_NAMES)
     | ProbeLean => []
     end.

Definition launch_probes : list (string * string) :=
  [("cu_launch_kernel", "cuLaunchKernel"); ("cu_launch_kernel_ret", "cuLaunchKernel");
   ("cu_launch_kernel_ex", "cuLaunchKernelEx"); ("cu_launch_kernel_ex_ret", "cuLaunchKernelEx");
   ("cu_launch_cooperative_kernel", "cuLaunchCooperativeKernel");
   ("cu_launch_cooperative_kernel_ret", "cuLaunchCooperativeKernel");
   ("cu_graph_launch", "cuGraphLaunch"); ("cu_graph_launch_ret", "cuGraphLaunch");
   ("cu_module_load_data", "cuModuleLoadData"); ("cu_module_load_data_ret", "cuModuleLoadData")].

Definition driver_probes (kernel_mode : KernelMode) : list (string * string) :=
  match kernel_mode with
  | Full => [("cu_module_get_function", "cuModuleGetFunction");
             ("cu_module_get_function_ret", "cuModuleGetFunction")] ++ launch_probes
  | Anonymous => launch_probes
  | Off => []
  end.

Definition nvtx_probes : list (string * string) :=
  [("nvtx_range_push", "nvtxRangePushA"); ("nvtx_range_pop", "nvtxRangePop")].

(** ** Programs by name *)

Definition arg (args : list Z) (i : nat) : Z := default 0 (args !! i).

(** The programs [attach_uprobe] knows, as the program that runs with the arguments of a call. *)
Definition uprobe_programs (args : list Z) : list (string * probe) :=
  let a := arg args in
  [("cuda_malloc", P_cuda_malloc (a 0%nat) (a 1%nat)); ("cuda_malloc_ret", P_cuda_malloc_ret);
   ("cuda_free", P_cuda_free (a 0%nat)); ("cuda_free_ret", P_cuda_free_ret);
   ("cuda_memcpy", P_cuda_memcpy (a 0%nat) (a 1%nat) (a 2%nat) (a 3%nat));
   ("cuda_memcpy_ret", P_cuda_memcpy_ret);
   ("cuda_memcpy_async", P_cuda_memcpy_async (a 0%nat) (a 1%nat) (a 2%nat) (a 3%nat) (a 4%nat));
   ("cuda_memcpy_async_ret", P_cuda_memcpy_async_ret);
   ("cuda_launch_kernel", P_cuda_launch_kernel (a 0%nat));
   ("cuda_launch_kernel_ret", P_cuda_launch_kernel_ret);
   ("cuda_malloc_async", P_cuda_malloc_async (a 0%nat) (a 1%nat) (a 2%nat));
   ("cuda_malloc_async_ret", P_cuda_malloc_async_ret);
   ("cuda_free_async", P_cuda_free_async (a 0%nat) (a 1%nat));
   ("cuda_free_async_ret", P_cuda_free_async_ret);
   ("cuda_register_function", P_cuda_register_function (a 0%nat) (a 1%nat) (a 2%nat) (a 3%nat));
   ("cu_module_get_function", P_cu_module_get_function (a 0%nat) (a 1%nat) (a 2%nat));
   ("cu_module_get_function_ret", P_cu_module_get_function_ret);
   ("cu_launch_kernel", P_cu_launch_kernel (a 0%nat)); ("cu_launch_kernel_ret", P_cu_launch_kernel_ret);
   ("cu_launch_kernel_ex", P_cu_launch_kernel_ex (a 0%nat) (a 1%nat));
   ("cu_launch_kernel_ex_ret", P_cu_launch_kernel_ex_ret);
   ("cu_launch_cooperative_kernel", P_cu_launch_cooperative_kernel (a 0%nat));
   ("cu_launch_cooperative_kernel_ret", P_cu_launch_cooperative_kernel_ret);
   ("cu_graph_launch", P_cu_graph_launch (a 0%nat) (a 1%nat)); ("cu_graph_launch_ret", P_cu_graph_launch_ret);
   ("cuda_stream_sync", P_cuda_stream_sync (a 0%nat)); ("cuda_stream_sync_ret", P_cuda_stream_sync_ret);
   ("cuda_event_sync", P_cuda_event_sync (a 0%nat)); ("cuda_event_sync_ret", P_cuda_event_sync_ret);
   ("cuda_malloc_host", P_cuda_malloc_host (a 0%nat) (a 1%nat)); ("cuda_malloc_host_ret", P_cuda_malloc_host_ret);
   ("cuda_free_host", P_cuda_free_host (a 0%nat)); ("cuda_free_host_ret", P_cuda_free_host_ret);
   ("cuda_memset", P_cuda_memset (a 0%nat) (a 1%nat) (a 2%nat)); ("cuda_memset_ret", P_cuda_memset_ret);
   ("cuda_memset_async", P_cuda_memset_async (a 0%nat) (a 1%nat) (a 2%nat) (a 3%nat));
   ("cuda_memset_async_ret", P_cuda_memset_async_ret);
   ("cuda_graph_launch", P_cuda_graph_launch (a 0%nat) (a 1%nat)); ("cuda_graph_launch_ret", P_cuda_graph_launch_ret);
   ("cuda_graph_instantiate", P_cuda_graph_instantiate);
   ("cuda_graph_instantiate_ret", P_cuda_graph_instantiate_ret);
   ("cu_module_load_data", P_cu_module_load_data); ("cu_module_load_data_ret", P_cu_module_load_data_ret);
   ("nvtx_range_push", P_nvtx_range_push (a 0%nat)); ("nvtx_range_pop", P_nvtx_range_pop);
   ("nccl_all_reduce", P_nccl_all_reduce (a 0%nat) (a 1%nat) (a 2%nat) (a 3%nat));
   ("nccl_all_reduce_ret", P_nccl_all_reduce_ret);
   ("nccl_all_gather", P_nccl_all_gather (a 0%nat) (a 1%nat) (a 2%nat) (a 3%nat));
   ("nccl_all_gather_ret", P_nccl_all_gather_ret);
   ("nccl_reduce_scatter", P_nccl_reduce_scatter (a 0%nat) (a 1%nat) (a 2%nat) (a 3%nat));
   ("nccl_reduce_scatter_ret", P_nccl_reduce_scatter_ret);
   ("nccl_broadcast", P_nccl_broadcast (a 0%nat) (a 1%nat) (a 2%nat) (a 3%nat));
   ("nccl_broadcast_ret", P_nccl_broadcast_ret);
   ("nccl_send", P_nccl_send (a 0%nat) (a 1%nat) (a 2%nat)); ("nccl_send_ret", P_nccl_send_ret);
   ("nccl_recv", P_nccl_recv (a 0%nat) (a 1%nat) (a 2%nat)); ("nccl_recv_ret", P_nccl_recv_ret)].

(** The programs attached by [attach_nccl_probes_multi]. *)
Definition multi_programs (args : list Z) : list (string * probe) :=
  let a := arg args in
  [("nccl_count_dtype_3_4", P_nccl_count_dtype_3_4 (a 0%nat) (a 1%nat) (a 2%nat) (a 3%nat));
   ("nccl_count_dtype_2_3", P_nccl_count_dtype_2_3 (a 0%nat) (a 1%nat) (a 2%nat));
   ("nccl_multi_ret", P_nccl_multi_ret)].

Fixpoint by_name {A} (name : string) (l : list (string * A)) : option A :=
  match l with
  | [] => None
  | (n, x) :: l => if String.eqb n name then Some x else by_name name l
  end.

Definition program (name : string) (args : list Z) : option probe :=
  by_name name (uprobe_programs args ++ multi_programs args).

(** ** Links *)

(** A link: a program on functions of a file, each with its cookie, at entry or at return, for
    one process or ([None], pid -1) for all. *)
Record Link := mkLink {
  lk_prog : string;
  lk_funcs : list (string * Z);
  lk_ret : bool;
  lk_path : str;
  lk_pid : option Z
}.

(** libbpf: whether a link to functions of a file can be made. *)
Class Loader := { can_attach : string -> list string -> str -> option Z -> bool }.

Inductive AttachError := UnknownProgram (prog_name : string) | AttachFailed (prog_name : string).

Fixpoint ends_with_ret (s : string) : bool :=
  String.eqb s "_ret" || match s with EmptyString => false | String _ s => ends_with_ret s end.

Section Attach.
Context {L : Loader}.

Definition attach_uprobe (prog_name fn_name : string) (binary_path : str) (pid_opt : option Z)
    : result AttachError Link :=
  let retprobe := ends_with_ret prog_name in
  match by_name prog_name (uprobe_programs []) with
  | None => Err (UnknownProgram prog_name)
  | Some _ =>
      if can_attach prog_name [fn_name] binary_path pid_opt
      then Ok (mkLink prog_name [(fn_name, 0)] retprobe binary_path pid_opt)
      else Err (AttachFailed prog_name)
  end.

(** The links made before a failure stay. *)
Fixpoint attach_probes (links : list Link) (probes : list (string * string)) (binary_path : str)
    (pid_opt : option Z) : list Link * result AttachError Z :=
  match probes with
  | [] => (links, Ok 0)
  | (prog, func) :: probes =>
      match attach_uprobe prog func binary_path pid_opt with
      | Err e => (links, Err e)
      | Ok link =>
          let '(links, r) := attach_probes (links ++ [link]) probes binary_path pid_opt in
          (links, match r with Ok n => Ok (n + 1) | Err e => Err e end)
      end
  end.

Definition attach_multi (prog : string) (retprobe : bool) (funcs : list (string * Z)) (binary_path : str)
    (pid_opt : option Z) : result AttachError Link :=
  if can_attach prog funcs.*1 binary_path pid_opt
  then Ok (mkLink prog funcs retprobe binary_path pid_opt) else Err (AttachFailed prog).

Definition count_dtype_3_4 : list (string * Z) :=
  [("ncclAllReduce", EVENT_NCCL_ALL_REDUCE); ("ncclAllGather", EVENT_NCCL_ALL_GATHER);
   ("ncclReduceScatter", EVENT_NCCL_REDUCE_SCATTER); ("ncclBroadcast", EVENT_NCCL_BROADCAST)].
Definition count_dtype_2_3 : list (string * Z) :=
  [("ncclSend", EVENT_NCCL_SEND); ("ncclRecv", EVENT_NCCL_RECV)].
Definition retprobes : list (string * Z) :=
  (fun f => (f, 0)) <$> ["ncclAllReduce"; "ncclAllGather"; "ncclReduceScatter"; "ncclBroadcast";
                         "ncclSend"; "ncclRecv"].

Definition attach_nccl_probes_multi (links : list Link) (binary_path : str) (pid_opt : option Z)
    : list Link * result AttachError Z :=
  match attach_multi "nccl_count_dtype_3_4" false count_dtype_3_4 binary_path pid_opt with
  | Err e => (links, Err e)
  | Ok l1 =>
      match attach_multi "nccl_count_dtype_2_3" false count_dtype_2_3 binary_path pid_opt with
      | Err e => (links ++ [l1], Err e)
      | Ok l2 =>
          match attach_multi "nccl_multi_ret" true retprobes binary_path pid_opt with
          | Err e => (links ++ [l1; l2], Err e)
          | Ok l3 => (links ++ [l1; l2; l3], Ok 3)
          end
      end
  end.

(** ** The event loop's side *)

Record AttachRequest := mkAttachRequest { ar_lib : str; ar_host_path : str; ar_devinode : DevInode }.

Record AttachCfg := mkAttachCfg {
  ac_mode : KernelMode; ac_profile : ProbeProfile; ac_nvtx : bool; ac_pid : option Z
}.

(** The links, the counter of attached libraries, and whether the event loop still runs. *)
Record Attached := mkAttached {
  at_links : list Link; at_libs_attached : Z; at_running : bool
}.

Definition probeset (cfg : AttachCfg) (lib : str) : list (string * string) :=
  if bool_decide (lib = lit "libcudart.so") then runtime_probes (ac_mode cfg) (ac_profile cfg)
  else if bool_decide (lib = lit "libcuda.so") then driver_probes (ac_mode cfg)
  else if bool_decide (lib = lit "libnvtx3interop.so") && ac_nvtx cfg then nvtx_probes
  else [].

Definition on_attach (cfg : AttachCfg) (req : AttachRequest) (st : Attached) : Attached :=
  if negb (at_running st) then st
  else if bool_decide (ar_lib req = lit "libnccl.so") then
    match attach_nccl_probes_multi (at_links st) (ar_host_path req) (ac_pid cfg) with
    | (links, Ok _) => mkAttached links (at_libs_attached st + 1) true
    | (links, Err _) => mkAttached links (at_libs_attached st) false
    end
  else
    match attach_probes (at_links st) (probeset cfg (ar_lib req)) (ar_host_path req) (ac_pid cfg) with
    | (links, Ok _) => mkAttached links (at_libs_attached st + 1) true
    | (links, Err _) => mkAttached links (at_libs_attached st) true
    end.

(** The attach to --cudart at start-up: the links, the inodes that count as attached, and the
    initial [libs_attached].  [meta]: the result of stat on the path. *)
Definition initial_attach (cfg : AttachCfg) (cudart : str) (exist : bool) (meta : option DevInode)
    : Attached * gset DevInode :=
  let libs := if exist then 1 else 0 in
  if exist then
    match attach_probes [] (runtime_probes (ac_mode cfg) (ac_profile cfg)) cudart (ac_pid cfg) with
    | (links, Ok _) => (mkAttached links libs true, match meta with Some di => {[di]} | None => ∅ end)
    | (links, Err _) => (mkAttached links libs true, ∅)
    end
  else (mkAttached [] libs true, ∅).

Definition pid_option (pid : Z) : option Z := if 0 <? pid then Some pid else None.
End Attach.

(** ** The discovery thread *)

Record Discoverer := mkDiscoverer { dc_attached : gmap str (gset DevInode); dc_iteration : Z }.

Definition attached_of (lib : str) (d : Discoverer) : gset DevInode := default ∅ (dc_attached d !! lib).

Definition known_libs : list str :=
  [lit "libcudart.so"; lit "libnccl.so"; lit "libcuda.so"; lit "libnvtx3interop.so"].

Definition libs_to_scan (nvtx : bool) (d : Discoverer) : list Lib :=
  (fun lib => (lib, attached_of lib d))
    <$> [lit "libcudart.so"; lit "libnccl.so"; lit "libcuda.so"]
        ++ if nvtx then [lit "libnvtx3interop.so"] else [].

(** One file that was found: marked and requested, unless it is marked already. *)
Definition request_one (acc : Discoverer * list AttachRequest) (lf : str * (str * DevInode))
    : Discoverer * list AttachRequest :=
  let '(d, reqs) := acc in
  let '(lib_name, (path, di)) := lf in
  if bool_decide (lib_name ∈ known_libs) && negb (bool_decide (di ∈ attached_of lib_name d)) then
    (mkDiscoverer (<[lib_name := {[di]} ∪ attached_of lib_name d]> (dc_attached d)) (dc_iteration d),
     reqs ++ [mkAttachRequest lib_name path di])
  else acc.

(** One iteration.  [order] is the order in which the map of results is visited. *)
Definition discover (makedev : Z -> Z -> Z) (proc_path : str) (nvtx : bool) (proc : Proc)
    (known_pids : gset Z) (order : list str) (d : Discoverer) : Discoverer * list AttachRequest :=
  let only_pids := if dc_iteration d mod 6 =? 0 then None else Some known_pids in
  let d := mkDiscoverer (dc_attached d) (u64 (dc_iteration d + 1)) in
  let found := scan_proc_for_libs makedev proc_path proc (libs_to_scan nvtx d) only_pids in
  let items := mjoin ((fun lib => (fun item => (lib, item)) <$> default [] (found !! lib)) <$> order) in
  foldl request_one (d, []) items.

Definition new_discoverer (initial : gset DevInode) : Discoverer :=
  mkDiscoverer {[lit "libcudart.so" := initial]} 0.

(** ** Which programs a call runs *)

Definition with_cookie (cookie : Z) (e : KEnv) : KEnv :=
  mkKEnv (env_pid_tgid e) (env_ktime e) (env_cpu e) (env_comm e) cookie (env_rc e) (env_sp e)
    (env_user_u64 e) (env_user_str e) (env_events_room e) (env_kregs_room e) (env_lru_inflight e)
    (env_lru_malloc_sizes e) (env_lru_malloc_ptrs e) (env_lru_nvtx e).

(** The cookie with which a link applies to the entry or the return of a function. *)
Definition applies (ret : bool) (path : str) (func : string) (e : KEnv) (l : Link) : option Z :=
  if Bool.eqb (lk_ret l) ret && bool_decide (lk_path l = path)
     && match lk_pid l with Some p => p =? pid_of (env_pid_tgid e) | None => true end
  then by_name func (lk_funcs l) else None.

(** The program runs at the entry or the return of a call of [func] in the file at [path]. *)
Definition fire (links : list Link) (ret : bool) (path : str) (func : string) (args : list Z) (e : KEnv)
    : trace :=
  omap (fun l => cookie ← applies ret path func e l;
                 p ← program (lk_prog l) args;
                 Some (p, with_cookie cookie e)) links.

(** ** Links of a table *)

Lemma fire_app l1 l2 ret path func args e :
  fire (l1 ++ l2) ret path func args e = fire l1 ret path func args e ++ fire l2 ret path func args e.
Proof. apply omap_app. Qed.

Lemma fire_elsewhere links ret path func args e :
  Forall (fun l => lk_path l <> path) links -> fire links ret path func args e = [].
Proof.
  intros H. unfold fire. induction H as [|l links Hl H IH]; [done|].
  change (omap ?g (?x :: ?l)) with (match g x with Some y => y :: omap g l | None => omap g l end).
  cbv beta. unfold applies at 1. rewrite bool_decide_false by done. rewrite andb_false_r. exact IH.
Qed.

Definition table_link (path : str) (pid : option Z) (pf : string * string) : Link :=
  mkLink pf.1 [(pf.2, 0)] (ends_with_ret pf.1) path pid.

Lemma attach_probes_ok `{Loader} links probes path pid links' n :
  attach_probes links probes path pid = (links', Ok n) -> links' = links ++ (table_link path pid <$> probes).
Proof.
  revert links n. induction probes as [|[prog func] probes IH]; intros links n; cbn [attach_probes].
  { intros [= <- _]. by rewrite app_nil_r. }
  unfold attach_uprobe at 1. destruct (by_name _ _); [|done]. destruct (can_attach _ _ _ _); [|done].
  destruct (attach_probes (links ++ _) probes path pid) as [ls [m|]] eqn:E; [|done].
  intros [= -> _]. rewrite (IH _ _ E), <- app_assoc. done.
Qed.

(** What the links of a table run, whatever their file. *)
Definition fire_table (ret : bool) (func : string) (args : list Z) (e : KEnv)
    (table : list (string * list (string * Z) * bool)) : trace :=
  omap (fun l => let '(prog, funcs, r) := l in
                 if Bool.eqb r ret then
                   cookie ← by_name func funcs;
                   p ← program prog args;
                   Some (p, with_cookie cookie e)
                 else None) table.

Definition uprobe_table (probes : list (string * string)) : list (string * list (string * Z) * bool) :=
  (fun pf => (pf.1, [(pf.2, 0)], ends_with_ret pf.1)) <$> probes.

Definition nccl_table : list (string * list (string * Z) * bool) :=
  [("nccl_count_dtype_3_4", count_dtype_3_4, false); ("nccl_count_dtype_2_3", count_dtype_2_3, false);
   ("nccl_multi_ret", retprobes, true)].

Definition pid_matches (pid : option Z) (e : KEnv) : Prop :=
  match pid with Some p => p = pid_of (env_pid_tgid e) | None => True end.

Lemma fire_table_links table path pid ret func args e :
  pid_matches pid e ->
  fire ((fun l => let '(prog, funcs, r) := l in mkLink prog funcs r path pid) <$> table) ret path func args e
  = fire_table ret func args e table.
Proof.
  intros Hpid.
  assert (match pid with Some p => p =? pid_of (env_pid_tgid e) | None => true end = true) as Hp.
  { destruct pid as [p|]; [|done]. simpl in Hpid. subst. apply Z.eqb_refl. }
  unfold fire, fire_table. induction table as [|[[prog funcs] r] table IH]; [done|].
  change (omap ?g (?h <$> (?x :: ?l)))
    with (match g (h x) with Some y => y :: omap g (h <$> l) | None => omap g (h <$> l) end).
  change (omap ?g ((prog, funcs, r) :: ?l))
    with (match g (prog, funcs, r) with Some y => y :: omap g l | None => omap g l end).
  rewrite IH. clear IH. cbv beta iota. unfold applies. cbn [lk_ret lk_path lk_pid lk_funcs lk_prog].
  rewrite Hp, bool_decide_true, !andb_true_r by done. by destruct (Bool.eqb r ret).
Qed.

(** ** The programs of a traced function *)

Definition entry_type (p : probe) (cookie : Z) : option Z :=
  match p with
  | P_cuda_malloc _ _ => Some EVENT_CUDA_MALLOC
  | P_cuda_free _ => Some EVENT_CUDA_FREE
  | P_cuda_memcpy _ _ _ _ => Some EVENT_CUDA_MEMCPY
  | P_cuda_memcpy_async _ _ _ _ _ => Some EVENT_CUDA_MEMCPY_ASYNC
  | P_cuda_malloc_async _ _ _ => Some EVENT_CUDA_MALLOC_ASYNC
  | P_cuda_free_async _ _ => Some EVENT_CUDA_FREE_ASYNC
  | P_cuda_launch_kernel _ | P_cu_launch_kernel _ | P_cu_launch_kernel_ex _ _
  | P_cu_launch_cooperative_kernel _ | P_cu_graph_launch _ _ => Some EVENT_CUDA_LAUNCH_KERNEL
  | P_cuda_stream_sync _ => Some EVENT_CUDA_STREAM_SYNC
  | P_cuda_event_sync _ => Some EVENT_CUDA_EVENT_SYNC
  | P_cuda_malloc_host _ _ => Some EVENT_CUDA_MALLOC_HOST
  | P_cuda_free_host _ => Some EVENT_CUDA_FREE_HOST
  | P_cuda_memset _ _ _ => Some EVENT_CUDA_MEMSET
  | P_cuda_memset_async _ _ _ _ => Some EVENT_CUDA_MEMSET_ASYNC
  | P_cuda_graph_launch _ _ => Some EVENT_CUDA_GRAPH_LAUNCH
  | P_cuda_graph_instantiate => Some EVENT_CUDA_GRAPH_INSTANTIATE
  | P_cu_module_load_data => Some EVENT_CUDA_MODULE_LOAD
  | P_nccl_count_dtype_3_4 _ _ _ _ | P_nccl_count_dtype_2_3 _ _ _ => Some (u32 cookie)
  | P_nccl_all_reduce _ _ _ _ => Some EVENT_NCCL_ALL_REDUCE
  | P_nccl_all_gather _ _ _ _ => Some EVENT_NCCL_ALL_GATHER
  | P_nccl_reduce_scatter _ _ _ _ => Some EVENT_NCCL_REDUCE_SCATTER
  | P_nccl_broadcast _ _ _ _ => Some EVENT_NCCL_BROADCAST
  | P_nccl_send _ _ _ => Some EVENT_NCCL_SEND
  | P_nccl_recv _ _ _ => Some EVENT_NCCL_RECV
  | _ => None
  end.

(** The entry program of a traced function ends in [save_entry] with its type. *)
Lemma entry_runs `{LoadCfg} p e s t :
  entry_type p (env_cookie e) = Some t ->
  exists a b c s', run p e s = save_entry t a b c e s' /\ INFLIGHT s' = INFLIGHT s /\
    SAMPLE_RATE s' = SAMPLE_RATE s /\ SAMPLE_COUNTER s' = SAMPLE_COUNTER s.
Proof.
  intros Ht. destruct (opens p e s) as [[[[t' a] b] c]|] eqn:Ho.
  - assert (t' = t) as -> by (destruct p; simpl in Ht, Ho; try done; congruence).
    exists a, b, c. by apply opens_run.
  - destruct p; simpl in Ht, Ho; done.
Qed.

Lemma entry_INFLIGHT `{LoadCfg} p e s t :
  entry_type p (env_cookie e) = Some t -> INFLIGHT s !! env_pid_tgid e = None -> sampled_in t e s = true ->
  exists en, INFLIGHT (run p e s) = lru_update (env_lru_inflight e) (env_pid_tgid e) en (INFLIGHT s) /\
             en_event_type en = t /\ en_timestamp_ns en = env_ktime e.
Proof.
  intros (a & b & c & s' & -> & Hi & Hr & Hc)%(entry_runs p e s) Hnone Hsam.
  rewrite save_entry_INFLIGHT, Hi, Hnone.
  replace (sampled_in t e s') with (sampled_in t e s) by (unfold sampled_in; by rewrite Hr, Hc).
  rewrite Hsam. by exists (entry_of t a b c e).
Qed.

(** The kind of a program does not depend on its arguments. *)
Definition same_kind (x y : string * probe) : Prop :=
  x.1 = y.1 /\ entry_type x.2 = entry_type y.2 /\ is_exit x.2 = is_exit y.2.

Lemma program_kind name args p0 :
  program name [] = Some p0 ->
  exists p, program name args = Some p /\ entry_type p = entry_type p0 /\ is_exit p = is_exit p0.
Proof.
  assert (Forall2 same_kind (uprobe_programs args ++ multi_programs args)
            (uprobe_programs [] ++ multi_programs [])) as H by (repeat constructor).
  unfold program. induction H as [|[n x] [n0 y] l l0 (E & H1 & H2) H IH]; cbn [by_name]; [done|].
  simpl in E, H1, H2. subst n0. destruct (String.eqb n name); [|done].
  intros [= <-]. by exists x.
Qed.

(** The programs, with their cookies, that the links of a table run for a function. *)
Definition hits (ret : bool) (func : string) (table : list (string * list (string * Z) * bool))
    : list (string * Z) :=
  omap (fun l => let '(prog, funcs, r) := l in
                 if Bool.eqb r ret then (fun cookie => (prog, cookie)) <$> by_name func funcs else None) table.

Lemma fire_table_hits ret func args e table :
  fire_table ret func args e table =
  omap (fun pc => p ← program pc.1 args; Some (p, with_cookie pc.2 e)) (hits ret func table).
Proof.
  unfold fire_table, hits. induction table as [|[[prog funcs] r] table IH]; [done|].
  change (omap ?g ((prog, funcs, r) :: ?l))
    with (match g (prog, funcs, r) with Some y => y :: omap g l | None => omap g l end).
  cbv beta iota. destruct (Bool.eqb r ret); [|exact IH]. rewrite IH.
  by destruct (by_name func funcs).
Qed.

(** Exactly one program at the entry, of the type of the function, and one at the return. *)
Definition paired (table : list (string * list (string * Z) * bool)) (ft : string * Z) : bool :=
  match hits false ft.1 table, hits true ft.1 table with
  | [(p1, c1)], [(p2, _)] =>
      match program p1 [], program p2 [] with
      | Some q1, Some q2 => bool_decide (entry_type q1 c1 = Some ft.2) && is_exit q2
      | _, _ => false
      end
  | _, _ => false
  end.

Lemma paired_fires table func t args e1 e2 :
  paired table (func, t) = true ->
  exists p1 c1 p2 c2,
    fire_table false func args e1 table = [(p1, with_cookie c1 e1)] /\
    fire_table true func args e2 table = [(p2, with_cookie c2 e2)] /\
    entry_type p1 c1 = Some t /\ is_exit p2 = true.
Proof.
  unfold paired. cbn [fst snd]. rewrite !fire_table_hits.
  destruct (hits false func table) as [|[p1 c1] [|]]; try done.
  destruct (hits true func table) as [|[p2 c2] [|]]; try done.
  destruct (program p1 []) as [q1|] eqn:E1; [|done]. destruct (program p2 []) as [q2|] eqn:E2; [|done].
  intros [Ht%bool_decide_eq_true Hx]%andb_true_iff.
  destruct (program_kind p1 args q1 E1) as (r1 & F1 & K1 & _).
  destruct (program_kind p2 args q2 E2) as (r2 & F2 & _ & K2).
  assert (forall n c q e, program n args = Some q ->
            omap (fun pc => p ← program pc.1 args; Some (p, with_cookie pc.2 e)) [(n, c)]
            = [(q, with_cookie c e)]) as Ho.
  { intros n c q e Hq. change (omap ?g [?x]) with (match g x with Some y => [y] | None => [] end).
    cbv beta. cbn [fst snd]. by rewrite Hq. }
  exists r1, c1, r2, c2. rewrite (Ho _ _ _ _ F1), (Ho _ _ _ _ F2), K1, K2. done.
Qed.

Definition lib_table (cfg : AttachCfg) (lib : str) : list (string * list (string * Z) * bool) :=
  if bool_decide (lib = lit "libnccl.so") then nccl_table else uprobe_table (probeset cfg lib).

(** The functions of the library's table whose entry program records a call, with its event type. *)
Definition traced (cfg : AttachCfg) (lib : str) : list (string * Z) :=
  lib_table cfg lib ≫= fun l =>
    let '(prog, funcs, ret) := l in
    if ret : bool then []
    else omap (fun fc => q ← program prog []; t ← entry_type q fc.2; Some (fc.1, t)) funcs.

Lemma traced_paired cfg lib ft : ft ∈ traced cfg lib -> paired (lib_table cfg lib) ft = true.
Proof.
  intros Hin. apply list_elem_of_In in Hin. revert ft Hin. apply forallb_forall.
  unfold traced, lib_table, probeset. destruct cfg as [mode profile nvtx pid]. cbn [ac_mode ac_profile ac_nvtx].
  destruct (decide (lib = lit "libcudart.so")) as [->|E1]; [destruct mode, profile; vm_compute; reflexivity|].
  destruct (decide (lib = lit "libcuda.so")) as [->|E2]; [destruct mode; vm_compute; reflexivity|].
  destruct (decide (lib = lit "libnccl.so")) as [->|E3]; [vm_compute; reflexivity|].
  rewrite !bool_decide_false by done. by destruct (bool_decide _ && nvtx); vm_compute.
Qed.

(** ** Theorems *)

Section Theorems.
Context {LC : LoadCfg} {L : Loader}.

(** A library that was counted has the links of its whole table. *)
Lemma on_attach_ok cfg req st :
  at_running st = true ->
  at_libs_attached (on_attach cfg req st) = at_libs_attached st + 1 ->
  at_links (on_attach cfg req st) =
    at_links st ++ ((fun l => let '(prog, funcs, r) := l in
                              mkLink prog funcs r (ar_host_path req) (ac_pid cfg))
                      <$> lib_table cfg (ar_lib req)).
Proof.
  intros Hrun. unfold on_attach, lib_table. rewrite Hrun. cbn [negb]. case_bool_decide as E.
  - unfold attach_nccl_probes_multi, attach_multi. repeat (case_match; simplify_eq/=; try lia). done.
  - destruct (attach_probes _ _ _ _) as [ls [n|]] eqn:Ha; cbn [at_libs_attached at_links]; [|lia].
    intros _. rewrite (attach_probes_ok _ _ _ _ _ _ Ha). f_equal.
    unfold uprobe_table. by rewrite <- list_fmap_compose.
Qed.

(** C12: A library that profi reports as attached is traced.  The running loop takes an attach
    request for a file that no program is linked to yet and counts the library.  Then, in any
    kernel mode and probe profile, a call of one of the library's traced functions (those of its
    table whose entry program records a call: not __cudaRegisterFunction, cuModuleGetFunction and
    the nvtx ranges) by a process that the process filter lets through runs exactly one program at
    its entry and one at its return.  If the thread has no call in flight, the call is sampled in
    and INFLIGHT takes its entry, and if in between other threads run whatever probes that do not
    evict the entry and the thread itself only enters further traced functions, the two programs
    complete exactly one call, of the event type of the function and with the time between the
    two. *)
Theorem attached_call_traced cfg req st func t args e1 e2 mid s :
  let st' := on_attach cfg req st in
  let entry := fire (at_links st') false (ar_host_path req) func args e1 in
  let ret := fire (at_links st') true (ar_host_path req) func args e2 in
  at_running st = true -> at_libs_attached st' = at_libs_attached st + 1 ->
  Forall (fun l => lk_path l <> ar_host_path req) (at_links st) ->
  (func, t) ∈ traced cfg (ar_lib req) ->
  pid_matches (ac_pid cfg) e1 -> env_pid_tgid e2 = env_pid_tgid e1 ->
  INFLIGHT s !! env_pid_tgid e1 = None -> sampled_in t e1 s = true ->
  lru_fail (env_lru_inflight e1) = false ->
  Forall (keeps_entry (env_pid_tgid e1)) mid ->
  length entry = 1%nat /\ length ret = 1%nat /\ ledger entry s = [] /\
  exists c, ledger ret (run_trace (entry ++ mid) s) = [c] /\ cp_type c = t /\
            cp_duration c = Z.max 0 (env_ktime e2 - env_ktime e1).
Proof.
  intros st' entry ret Hrun Hcount Hnew Htr Hpid Hid Hnone Hsam Hlru Hsp.
  pose proof (on_attach_ok _ _ _ Hrun Hcount) as Hlinks. fold st' in Hlinks.
  assert (pid_matches (ac_pid cfg) e2) as Hpid2 by (unfold pid_matches; by rewrite Hid).
  destruct (paired_fires _ func t args e1 e2 (traced_paired _ _ _ Htr)) as (p1 & c1 & p2 & c2 & F1 & F2 & Ht & Hx).
  assert (entry = [(p1, with_cookie c1 e1)]) as ->.
  { unfold entry. rewrite Hlinks, fire_app, fire_elsewhere, fire_table_links by done. done. }
  assert (ret = [(p2, with_cookie c2 e2)]) as ->.
  { unfold ret. rewrite Hlinks, fire_app, fire_elsewhere, fire_table_links by done. done. }
  destruct (entry_INFLIGHT p1 (with_cookie c1 e1) s t) as (en & Hen & Ety & Ets); [done..|].
  split; [done|]. split; [done|]. split.
  { cbn [ledger]. rewrite (completes_none p1 (with_cookie c1 e1)) by done. done. }
  cbn [ledger]. rewrite run_trace_app. cbn [run_trace].
  destruct (completes_exit p2 (with_cookie c2 e2) (run_trace mid (run p1 (with_cookie c1 e1) s)) en)
    as (c & Hc & Hce & Hcenv & _); [done| |].
  { cbn [with_cookie env_pid_tgid] in *. rewrite Hid. apply run_trace_keeps_entry; [done|].
    rewrite Hen. by apply lru_update_lookup. }
  rewrite Hc. exists c. split; [done|]. unfold cp_type, cp_duration. rewrite Hce, Hcenv, Ety, Ets. done.
Qed.

(** ** At most one request per file *)

Definition req_key (r : AttachRequest) : str * DevInode := (ar_lib r, ar_devinode r).

(** Every request so far is marked, and no two are for the same file of a library. *)
Record unique (initial d : Discoverer) (reqs : list AttachRequest) : Prop := {
  un_nodup : NoDup (req_key <$> reqs);
  un_marked r : r ∈ reqs -> ar_devinode r ∈ attached_of (ar_lib r) d;
  un_new r : r ∈ reqs -> ar_devinode r ∉ attached_of (ar_lib r) initial;
  un_grows lib : attached_of lib initial ⊆ attached_of lib d
}.

Lemma request_one_unique initial d reqs lf :
  unique initial d reqs ->
  unique initial (request_one (d, reqs) lf).1 (request_one (d, reqs) lf).2.
Proof.
  intros [H1 H2 H3 H4]. destruct lf as [lib [path di]]. unfold request_one.
  destruct (bool_decide (lib ∈ known_libs)); [|done]. cbn [andb].
  destruct (bool_decide_reflect (di ∈ attached_of lib d)) as [|Hdi]; [done|]. cbn [negb fst snd].
  set (d' := mkDiscoverer _ _).
  assert (forall l, attached_of l d ⊆ attached_of l d') as Hsub.
  { intros l. unfold d', attached_of. cbn [dc_attached]. destruct (decide (l = lib)) as [->|].
    - rewrite lookup_insert_eq. set_solver.
    - by rewrite lookup_insert_ne. }
  split.
  - rewrite fmap_app. apply NoDup_app. split_and!; [done| |apply NoDup_singleton].
    intros k Hk Hk'%list_elem_of_singleton. subst k. apply list_elem_of_fmap in Hk as (r & [= -> ->] & Hr).
    by apply H2 in Hr.
  - intros r [Hr|Hr%list_elem_of_singleton]%elem_of_app; [by apply Hsub, H2|]. subst r. simpl.
    unfold d', attached_of. cbn [dc_attached]. rewrite lookup_insert_eq. set_solver.
  - intros r [Hr|Hr%list_elem_of_singleton]%elem_of_app; [by apply H3|]. subst r. simpl. set_solver.
  - intros l. etrans; [apply H4|apply Hsub].
Qed.

Lemma discover_unique makedev proc_path nvtx proc known order initial d reqs :
  unique initial d reqs ->
  unique initial (discover makedev proc_path nvtx proc known order d).1
    (reqs ++ (discover makedev proc_path nvtx proc known order d).2).
Proof.
  intros H. unfold discover. cbn zeta. set (d1 := mkDiscoverer (dc_attached d) _).
  assert (unique initial d1 reqs) as H' by (by destruct H; split).
  generalize (mjoin ((fun lib => (fun item => (lib, item)) <$>
    default [] (scan_proc_for_libs makedev proc_path proc (libs_to_scan nvtx d1)
                  (if dc_iteration d mod 6 =? 0 then None else Some known) !! lib)) <$> order)).
  clear H. intros items. clearbody d1.
  assert (forall new, unique initial d1 (reqs ++ new) ->
    unique initial (foldl request_one (d1, new) items).1 (reqs ++ (foldl request_one (d1, new) items).2))
    as Hgen; [|apply Hgen; by rewrite app_nil_r].
  clear H'. revert d1. induction items as [|lf items IH]; intros d1 new Hu; [done|]. cbn [foldl].
  pose proof (request_one_unique initial d1 (reqs ++ new) lf Hu) as Hn.
  destruct lf as [lib [path di]]. unfold request_one in Hn |- * at 2 4. cbn iota in *.
  destruct (bool_decide (lib ∈ known_libs) && negb (bool_decide (di ∈ attached_of lib d1))).
  - apply IH. cbn [fst snd] in Hn. by rewrite app_assoc.
  - by apply IH.
Qed.

(** What one iteration of the thread reads. *)
Record ScanInput := mkScanInput { si_proc : Proc; si_known : gset Z; si_order : list str }.

Fixpoint discover_all (makedev : Z -> Z -> Z) (proc_path : str) (nvtx : bool) (ins : list ScanInput)
    (d : Discoverer) : Discoverer * list AttachRequest :=
  match ins with
  | [] => (d, [])
  | i :: ins =>
      let '(d, r1) := discover makedev proc_path nvtx (si_proc i) (si_known i) (si_order i) d in
      let '(d, r2) := discover_all makedev proc_path nvtx ins d in
      (d, r1 ++ r2)
  end.

(** C28: No file is attached twice, and none is tried twice.  Whatever the scans of the
    discovery thread see, over any number of iterations, at most one attach request is sent for
    a file of a library, and none for the file that start-up attached to.  The thread does not
    learn how an attach ended, so a file whose attach fails is never requested again. *)
Theorem file_requested_once makedev proc_path nvtx ins initial :
  let reqs := (discover_all makedev proc_path nvtx ins (new_discoverer initial)).2 in
  NoDup (req_key <$> reqs) /\
  forall r, r ∈ reqs -> ar_lib r = lit "libcudart.so" -> ar_devinode r ∉ initial.
Proof.
  assert (forall d0 ins d reqs, unique d0 d reqs ->
    exists d', unique d0 d' (reqs ++ (discover_all makedev proc_path nvtx ins d).2)) as Hgen.
  { intros d0 ins'. induction ins' as [|i ins' IH]; intros d reqs Hu; cbn [discover_all].
    - exists d. by rewrite app_nil_r.
    - pose proof (discover_unique makedev proc_path nvtx (si_proc i) (si_known i) (si_order i) d0 d reqs Hu) as H1.
      destruct (discover _ _ _ _ _ _ d) as [d1 r1]. cbn [fst snd] in H1.
      destruct (IH _ _ H1) as [d' H2]. destruct (discover_all _ _ _ ins' d1) as [d2 r2].
      exists d'. cbn [snd] in *. by rewrite app_assoc. }
  destruct (Hgen (new_discoverer initial) ins (new_discoverer initial) []) as [d' [H1 _ H3 _]].
  { split; [constructor|by intros ? ?%elem_of_nil..|done]. }
  split; [done|]. intros r Hr Hl. specialize (H3 r Hr). rewrite Hl in H3.
  unfold attached_of, new_discoverer in H3. cbn [dc_attached] in H3.
  by rewrite lookup_singleton_eq in H3.
Qed.

(** ** Failures *)

Lemma attach_probes_fail links prog func probes path pid :
  (forall p fs, can_attach p fs path pid = false) ->
  exists e, attach_probes links ((prog, func) :: probes) path pid = (links, Err e).
Proof.
  intros Hf. cbn [attach_probes]. unfold attach_uprobe at 1. rewrite Hf.
  destruct (by_name prog (uprobe_programs [])); eauto.
Qed.

(** What failed attaches do.  When --cudart exists and no program can be attached to it,
    start-up leaves no link and yet counts the library, so with the ring buffer open /ready
    answers that profi is ready; and a failed attach to an NCCL library ends the event loop,
    after which no request is served. *)
Theorem failed_attach_effects cfg cudart meta req st st2 hb events mode pids :
  (forall prog funcs path pid, can_attach prog funcs path pid = false) ->
  at_running st = true -> ar_lib req = lit "libnccl.so" ->
  let init := (initial_attach cfg cudart true meta).1 in
  at_links init = [] /\
  handle_ready (mkAppState hb true (at_libs_attached init) true events mode pids)
    = (S_OK, lit "ready" ++ [10]) /\
  at_running (on_attach cfg req st) = false /\
  on_attach cfg st2 (on_attach cfg req st) = on_attach cfg req st.
Proof.
  intros Hf Hrun Hlib. cbn zeta.
  assert (at_running (on_attach cfg req st) = false) as Hstop.
  { unfold on_attach, attach_nccl_probes_multi, attach_multi. rewrite Hrun, Hlib, Hf. done. }
  unfold initial_attach.
  destruct (attach_probes_fail [] "cuda_malloc" "cudaMalloc"
              (drop 1 (runtime_probes (ac_mode cfg) (ac_profile cfg))) cudart (ac_pid cfg)) as [e He]; [auto|].
  change (_ :: drop 1 _) with (runtime_probes (ac_mode cfg) (ac_profile cfg)) in He.
  rewrite He. cbn [fst at_links at_libs_attached]. split_and!; try done.
  unfold on_attach at 1. by rewrite Hstop.
Qed.

(** Kernel mode off still traces kernels.  With --kernel-mode=off, which configures the
    tracer with launch mode 0, an attached libcudart.so has a program on cudaLaunchKernel, and
    a launch of a process that is not upgraded is recorded under the address of its kernel. *)
Theorem off_mode_traces_kernels cfg req st args e1 e2 s :
  let st' := on_attach cfg req st in
  let entry := fire (at_links st') false (ar_host_path req) "cudaLaunchKernel" args e1 in
  let ret := fire (at_links st') true (ar_host_path req) "cudaLaunchKernel" args e2 in
  ac_mode cfg = Off -> at_running st = true -> ar_lib req = lit "libcudart.so" ->
  at_libs_attached st' = at_libs_attached st + 1 ->
  Forall (fun l => lk_path l <> ar_host_path req) (at_links st) ->
  pid_matches (ac_pid cfg) e1 -> env_pid_tgid e2 = env_pid_tgid e1 ->
  INFLIGHT s !! env_pid_tgid e1 = None -> lru_fail (env_lru_inflight e1) = false ->
  cfg_u32 (KERNEL_AGG_MODE s) = 0 -> UPGRADED_PIDS s !! pid_of (env_pid_tgid e1) = None ->
  exists c, ledger ret (run_trace entry s) = [c] /\
    cp_launch_key c = Some (mkLaunchKey (pid_of (env_pid_tgid e1)) 0 (arg args 0) 0).
Proof.
  intros st' entry ret Hoff Hrun Hlib Hcount Hnew Hpid Hid Hnone Hlru Hmode Hup.
  pose proof (on_attach_ok _ _ _ Hrun Hcount) as Hlinks. fold st' in Hlinks.
  assert (pid_matches (ac_pid cfg) e2) as Hpid2 by (unfold pid_matches; by rewrite Hid).
  set (ev1 := with_cookie 0 e1). set (ev2 := with_cookie 0 e2).
  assert (entry = [(P_cuda_launch_kernel (arg args 0), ev1)]) as ->.
  { unfold entry. rewrite Hlinks, fire_app, fire_elsewhere, fire_table_links, Hlib by done.
    rewrite fire_table_hits. unfold lib_table, probeset. rewrite Hoff. by destruct (ac_profile cfg). }
  assert (ret = [(P_cuda_launch_kernel_ret, ev2)]) as ->.
  { unfold ret. rewrite Hlinks, fire_app, fire_elsewhere, fire_table_links, Hlib by done.
    rewrite fire_table_hits. unfold lib_table, probeset. rewrite Hoff. by destruct (ac_profile cfg). }
  cbn [ledger run_trace].
  set (s1 := run (P_cuda_launch_kernel (arg args 0)) ev1 s).
  assert (INFLIGHT s1 !! env_pid_tgid ev2 = Some (entry_of EVENT_CUDA_LAUNCH_KERNEL (arg args 0) 0 0 ev1)) as Hen.
  { unfold s1. rewrite (opens_INFLIGHT (P_cuda_launch_kernel (arg args 0)) ev1 s _ _ _ _ eq_refl).
    cbn [ev1 ev2 with_cookie env_pid_tgid]. rewrite Hid, Hnone. by apply lru_update_lookup. }
  assert (KERNEL_AGG_MODE s1 = KERNEL_AGG_MODE s /\ UPGRADED_PIDS s1 = UPGRADED_PIDS s) as [Em Eu].
  { unfold s1, run, cuda_launch_kernel, save_entry. by repeat case_match. }
  unfold completes, completed_at. cbn [is_exit]. rewrite Hen. cbn [option_list app].
  eexists. split; [reflexivity|]. unfold cp_launch_key, cp_is_launch, cp_type, cp_pid.
  cbn [cp_entry cp_env cp_mode entry_of en_event_type en_arg0 en_arg2 ev2 with_cookie env_pid_tgid].
  unfold launch_mode. rewrite Em, Eu, Hid, Hup, Hmode. done.
Qed.
End Theorems.

(** ** Witnesses *)

Section Witnesses.
#[local] Existing Instance demo_cfg.

Definition demo_loader : Loader := {| can_attach _ _ _ _ := true |}.
Definition broken_loader : Loader := {| can_attach _ _ _ _ := false |}.

Definition off_cfg : AttachCfg := mkAttachCfg Off ProbeLean false None.
Definition cudart_request : AttachRequest :=
  mkAttachRequest (lit "libcudart.so") (lit "/proc/7/root/libcudart.so.12") (mkDevInode 1 42).
Definition nccl_request : AttachRequest :=
  mkAttachRequest (lit "libnccl.so") (lit "/proc/7/root/libnccl.so.2") (mkDevInode 1 43).
Definition nothing_attached : Attached := mkAttached [] 0 true.

Lemma attached_call_traced_witness :
  exists c, ledger (fire (at_links (on_attach (L := demo_loader) off_cfg nccl_request nothing_attached)) true
                      (ar_host_path nccl_request) "ncclSend" [0; 8; 7] (demo_env 1 3000 0 0))
              (run_trace (fire (at_links (on_attach (L := demo_loader) off_cfg nccl_request nothing_attached))
                            false (ar_host_path nccl_request) "ncclSend" [0; 8; 7] (demo_env 1 1000 0 0) ++ [])
                 init_state) = [c] /\
    cp_type c = EVENT_NCCL_SEND /\ cp_duration c = 2000.
Proof.
  destruct (attached_call_traced (L := demo_loader) off_cfg nccl_request nothing_attached "ncclSend"
              EVENT_NCCL_SEND [0; 8; 7] (demo_env 1 1000 0 0) (demo_env 1 3000 0 0) [] init_state)
    as (_ & _ & _ & H); try reflexivity; [constructor| |constructor|exact H].
  apply list_elem_of_In. vm_compute. auto 10.
Defined.

Lemma failed_attach_effects_witness :
  handle_ready (mkAppState 1 true
      (at_libs_attached (initial_attach (L := broken_loader) off_cfg (lit "/cudart") true None).1)
      true 0 [] 0) = (S_OK, lit "ready" ++ [10]).
Proof.
  destruct (failed_attach_effects (L := broken_loader) off_cfg (lit "/cudart") None nccl_request
              nothing_attached cudart_request 1 0 [] 0) as (_ & H & _); (reflexivity || exact H).
Defined.

Lemma off_mode_traces_kernels_witness :
  exists c, ledger (fire (at_links (on_attach (L := demo_loader) off_cfg cudart_request nothing_attached)) true
                      (ar_host_path cudart_request) "cudaLaunchKernel" [77] (demo_env 1 3000 0 0))
              (run_trace (fire (at_links (on_attach (L := demo_loader) off_cfg cudart_request nothing_attached))
                            false (ar_host_path cudart_request) "cudaLaunchKernel" [77] (demo_env 1 1000 0 0))
                 (configure 1 0 0 init_state)) = [c] /\
    cp_launch_key c = Some (mkLaunchKey 7 0 77 0).
Proof.
  destruct (off_mode_traces_kernels (L := demo_loader) off_cfg cudart_request nothing_attached [77]
              (demo_env 1 1000 0 0) (demo_env 1 3000 0 0) (configure 1 0 0 init_state)) as (c & H1 & H2);
    try reflexivity; [constructor|]. exists c. exact (conj H1 H2).
Defined.
End Witnesses.
