(* ===== verification/Nvml.v ===== *)
(** * GPU hardware metrics: src/src/nvml.rs

    The NVML library is what it answers: at initialisation the devices, at every poll the
    readings of each device, any of which can fail.  The gauges hold the last reading, the ECC
    counter adds up the growth of the driver's counts. *)

From stdpp Require Import strings.
From S2P Require Import Prelude RustStd F64.

Local Open Scope Z_scope.

Record DeviceInfo := mkDeviceInfo { dv_index : Z; dv_uuid : str; dv_index_str : str }.

Record NvmlPoller := mkNvmlPoller { devices : list DeviceInfo; prev_ecc : list (list Z) }.

(** What initialisation gets: the number of devices, and per index the answer of
    [device_by_index] with the answer of [uuid]. *)
Record NvmlInit := mkNvmlInit { in_count : option Z; in_device : Z -> option (option str) }.

Definition new_poller (nvml : option NvmlInit) : option NvmlPoller :=
  nvml ← nvml;
  count ← in_count nvml;
  let devices :=
    omap (fun i => uuid ← in_device nvml i;
                   Some (mkDeviceInfo i (default (lit "unknown-" ++ to_string i) uuid) (to_string i)))
      (Z.of_nat <$> seq 0 (Z.to_nat count)) in
  Some (mkNvmlPoller devices (replicate (length devices) (replicate 4 0))).

(** ** A poll *)

Inductive ThrottleReason :=
  | GPU_IDLE | SW_POWER_CAP | SW_THERMAL_SLOWDOWN | HW_THERMAL_SLOWDOWN | HW_POWER_BRAKE_SLOWDOWN
  | SYNC_BOOST.

#[global] Instance ThrottleReason_eq_dec : EqDecision ThrottleReason.
Proof. solve_decision. Defined.

(** The answers of one device. *)
Record Readings := mkReadings {
  rd_temperature : option Z;
  rd_power_mw : option Z;
  rd_clock_sm : option Z;
  rd_clock_mem : option Z;
  rd_utilization : option (Z * Z);                 (* gpu, memory *)
  rd_memory : option (Z * Z * Z);                  (* used, free, total *)
  rd_ecc : list (option Z);                        (* corrected, uncorrected *)
  rd_throttle : option (list ThrottleReason)
}.

(** The gauges by family and labels, and the ECC counter by labels. *)
Record GpuMetrics := mkGpuMetrics {
  gauges : gmap (str * list str) f64;
  gpu_ecc_errors : gmap (list str) Z
}.

Definition set_gauge (family : str) (labels : list str) (v : f64) (m : GpuMetrics) : GpuMetrics :=
  mkGpuMetrics (<[(family, labels) := v]> (gauges m)) (gpu_ecc_errors m).

Definition inc_ecc (labels : list str) (n : Z) (m : GpuMetrics) : GpuMetrics :=
  mkGpuMetrics (gauges m) (<[labels := u64 (default 0 (gpu_ecc_errors m !! labels) + n)]> (gpu_ecc_errors m)).

Definition on_reading {A} (r : option A) (f : A -> GpuMetrics -> GpuMetrics) (m : GpuMetrics) : GpuMetrics :=
  match r with Some a => f a m | None => m end.

Definition poll_gauges (gpu uuid : str) (r : Readings) (m : GpuMetrics) : GpuMetrics :=
  let set family extra v := set_gauge (lit family) ([gpu; uuid] ++ extra) v in
  let m := on_reading (rd_temperature r) (fun t => set "gpu_temperature" [] (f64_of t)) m in
  let m := on_reading (rd_power_mw r)
             (fun p => set "gpu_power" [] (f64_div (f64_of p) (f64_of 1000))) m in
  let m := on_reading (rd_clock_sm r) (fun c => set "gpu_clock" [lit "sm"] (f64_of c)) m in
  let m := on_reading (rd_clock_mem r) (fun c => set "gpu_clock" [lit "mem"] (f64_of c)) m in
  let m := on_reading (rd_utilization r) (fun u m =>
             set "gpu_utilization" [lit "memory"] (f64_div (f64_of u.2) (f64_of 100))
               (set "gpu_utilization" [lit "gpu"] (f64_div (f64_of u.1) (f64_of 100)) m)) m in
  on_reading (rd_memory r) (fun mem m =>
    set "gpu_memory" [lit "total"] (f64_of mem.2)
      (set "gpu_memory" [lit "free"] (f64_of mem.1.2)
         (set "gpu_memory" [lit "used"] (f64_of mem.1.1) m))) m.

Definition ecc_types : list (str * nat) := [(lit "corrected", 0%nat); (lit "uncorrected", 1%nat)].

Definition ecc_labels (gpu uuid type_label : str) : list str := [gpu; uuid; type_label; lit "all"].

(** One error type of one device: the counts of before and the counter. *)
Definition poll_ecc (gpu uuid : str) (r : Readings) (acc : list Z * GpuMetrics) (ty : str * nat)
    : list Z * GpuMetrics :=
  let '(prevs, m) := acc in
  let '(type_label, ecc_idx) := ty in
  match rd_ecc r !! ecc_idx with
  | Some (Some count) =>
      let prev := default 0 (prevs !! ecc_idx) in
      (<[ecc_idx := count]> prevs,
       if prev <? count then inc_ecc (ecc_labels gpu uuid type_label) (count - prev) m else m)
  | _ => acc
  end.

Definition throttle_checks : list (str * ThrottleReason) :=
  [(lit "idle", GPU_IDLE); (lit "power", SW_POWER_CAP); (lit "thermal", SW_THERMAL_SLOWDOWN);
   (lit "hw_thermal", HW_THERMAL_SLOWDOWN); (lit "hw_power", HW_POWER_BRAKE_SLOWDOWN);
   (lit "sync_boost", SYNC_BOOST)].

Definition poll_throttle (gpu uuid : str) (r : Readings) (m : GpuMetrics) : GpuMetrics :=
  match rd_throttle r with
  | Some reasons =>
      foldl (fun m c => set_gauge (lit "gpu_throttle") [gpu; uuid; c.1]
                          (if bool_decide (c.2 ∈ reasons) then f64_of 1 else f64_of 0) m)
        m throttle_checks
  | None => m
  end.

(** [answers]: per device index, its readings when the device can be accessed. *)
Definition poll_device (answers : Z -> option Readings) (acc : NvmlPoller * GpuMetrics) (dev_idx : nat)
    : NvmlPoller * GpuMetrics :=
  let '(p, m) := acc in
  match devices p !! dev_idx with
  | None => acc
  | Some d =>
      match answers (dv_index d) with
      | None => acc
      | Some r =>
          let gpu := dv_index_str d in
          let uuid := dv_uuid d in
          let m := poll_gauges gpu uuid r m in
          let '(prevs, m) := foldl (poll_ecc gpu uuid r) (default [] (prev_ecc p !! dev_idx), m) ecc_types in
          (mkNvmlPoller (devices p) (<[dev_idx := prevs]> (prev_ecc p)), poll_throttle gpu uuid r m)
      end
  end.

Definition poll (answers : Z -> option Readings) (p : NvmlPoller) (m : GpuMetrics) : NvmlPoller * GpuMetrics :=
  foldl (poll_device answers) (p, m) (seq 0 (length (devices p))).

Definition poll_all (polls : list (Z -> option Readings)) (p : NvmlPoller) (m : GpuMetrics)
    : NvmlPoller * GpuMetrics := foldl (fun acc a => poll a acc.1 acc.2) (p, m) polls.

(** ** The ECC counter *)

(** A poller whose devices have their own labels and a row of counts each. *)
Record poller_wf (p : NvmlPoller) : Prop := {
  pw_rows : length (prev_ecc p) = length (devices p);
  pw_row i row : prev_ecc p !! i = Some row -> length row = 4%nat;
  pw_labels : NoDup (dv_index_str <$> devices p)
}.

(** The last count and the counter of one error type of one device. *)
Definition view (i : nat) (d : DeviceInfo) (ty : str * nat) (acc : NvmlPoller * GpuMetrics) : Z * Z :=
  (default 0 (prev_ecc acc.1 !! i ≫= lookup ty.2),
   default 0 (gpu_ecc_errors acc.2 !! ecc_labels (dv_index_str d) (dv_uuid d) ty.1)).

Definition reading (ty : str * nat) (r : option Readings) : option Z :=
  r ≫= fun r => rd_ecc r !! ty.2 ≫= id.

(** What a reading does to the two. *)
Definition ecc_step (v : Z * Z) (count : option Z) : Z * Z :=
  match count with
  | Some c => (c, if v.1 <? c then u64 (v.2 + (c - v.1)) else v.2)
  | None => v
  end.

Lemma poll_gauges_ecc gpu uuid r m : gpu_ecc_errors (poll_gauges gpu uuid r m) = gpu_ecc_errors m.
Proof. unfold poll_gauges, on_reading. by repeat case_match. Qed.

Lemma poll_throttle_ecc gpu uuid r m : gpu_ecc_errors (poll_throttle gpu uuid r m) = gpu_ecc_errors m.
Proof.
  unfold poll_throttle. destruct (rd_throttle r) as [rs|]; [|done].
  generalize throttle_checks. intros l. revert m. induction l as [|c l IH]; intros m; [done|].
  cbn [foldl]. by rewrite IH.
Qed.

Lemma inc_ecc_lookup l l' n m :
  default 0 (gpu_ecc_errors (inc_ecc l n m) !! l') =
  if decide (l = l') then u64 (default 0 (gpu_ecc_errors m !! l) + n) else default 0 (gpu_ecc_errors m !! l').
Proof.
  unfold inc_ecc. cbn [gpu_ecc_errors]. case_decide as E.
  - subst. by rewrite lookup_insert_eq.
  - by rewrite lookup_insert_ne.
Qed.

(** One error type of one device. *)
Definition pair_of (gpu uuid : str) (ty : str * nat) (acc : list Z * GpuMetrics) : Z * Z :=
  (default 0 (acc.1 !! ty.2), default 0 (gpu_ecc_errors acc.2 !! ecc_labels gpu uuid ty.1)).

Lemma poll_ecc_same gpu uuid r acc ty :
  (ty.2 < length acc.1)%nat ->
  pair_of gpu uuid ty (poll_ecc gpu uuid r acc ty) =
  ecc_step (pair_of gpu uuid ty acc) (reading ty (Some r)).
Proof.
  destruct acc as [prevs m], ty as [l i]. unfold pair_of, poll_ecc, reading. simpl. intros Hi.
  destruct (rd_ecc r !! i) as [[c|]|]; simpl; [|done..].
  rewrite list_lookup_insert_eq by done. simpl. f_equal. case_match; [|done].
  rewrite inc_ecc_lookup. by rewrite decide_True.
Qed.

Lemma poll_ecc_other gpu uuid r acc ty ty' :
  ty.1 <> ty'.1 -> ty.2 <> ty'.2 ->
  pair_of gpu uuid ty' (poll_ecc gpu uuid r acc ty) = pair_of gpu uuid ty' acc.
Proof.
  destruct acc as [prevs m], ty as [l i], ty' as [l' i']. unfold pair_of, poll_ecc. simpl. intros Hl Hi.
  destruct (rd_ecc r !! i) as [[c|]|]; simpl; [|done..].
  rewrite list_lookup_insert_ne by done. f_equal. case_match; [|done].
  rewrite inc_ecc_lookup. rewrite decide_False; [done|]. unfold ecc_labels. congruence.
Qed.

Lemma poll_ecc_frame gpu uuid r acc ty l :
  (forall t, l <> ecc_labels gpu uuid t) ->
  length (poll_ecc gpu uuid r acc ty).1 = length acc.1 /\
  gpu_ecc_errors (poll_ecc gpu uuid r acc ty).2 !! l = gpu_ecc_errors acc.2 !! l.
Proof.
  destruct acc as [prevs m], ty as [tl i]. unfold poll_ecc. intros Hl.
  destruct (rd_ecc r !! i) as [[c|]|]; simpl; [|done..]. rewrite length_insert. split; [done|].
  case_match; [|done]. unfold inc_ecc. cbn [gpu_ecc_errors]. by rewrite lookup_insert_ne.
Qed.

(** The two error types of one device. *)
Lemma poll_ecc_types gpu uuid r acc ty :
  length acc.1 = 4%nat -> ty ∈ ecc_types ->
  pair_of gpu uuid ty (foldl (poll_ecc gpu uuid r) acc ecc_types) =
    ecc_step (pair_of gpu uuid ty acc) (reading ty (Some r)).
Proof.
  intros Hlen Hty. unfold ecc_types in *. cbn [foldl].
  destruct (poll_ecc_frame gpu uuid r acc (lit "corrected", 0%nat) []) as [Hlen' _]; [done|].
  apply elem_of_cons in Hty as [->|Hty%list_elem_of_singleton]; [|subst ty].
  - rewrite poll_ecc_other by done. rewrite poll_ecc_same; [done|]. simpl. lia.
  - rewrite poll_ecc_same by (simpl; lia). by rewrite poll_ecc_other by done.
Qed.

Lemma poll_ecc_types_frame gpu uuid r acc l :
  (forall t, l <> ecc_labels gpu uuid t) ->
  length (foldl (poll_ecc gpu uuid r) acc ecc_types).1 = length acc.1 /\
  gpu_ecc_errors (foldl (poll_ecc gpu uuid r) acc ecc_types).2 !! l = gpu_ecc_errors acc.2 !! l.
Proof.
  intros Hl. unfold ecc_types. cbn [foldl].
  destruct (poll_ecc_frame gpu uuid r acc (lit "corrected", 0%nat) l Hl) as [E1 E2].
  destruct (poll_ecc_frame gpu uuid r (poll_ecc gpu uuid r acc (lit "corrected", 0%nat))
              (lit "uncorrected", 1%nat) l Hl) as [E3 E4].
  split; congruence.
Qed.

(** A poll of device [j], seen from device [i]. *)
Lemma poll_device_view answers p m i j d ty :
  poller_wf p -> devices p !! i = Some d -> ty ∈ ecc_types ->
  let acc := poll_device answers (p, m) j in
  poller_wf acc.1 /\ devices acc.1 = devices p /\
  view i d ty acc = if decide (i = j) then ecc_step (view i d ty (p, m)) (reading ty (answers (dv_index d)))
                    else view i d ty (p, m).
Proof.
  intros [Hrows Hrow Hnd] Hd Hty acc. unfold acc, poll_device.
  destruct (devices p !! j) as [dj|] eqn:Hj.
  2: { split_and!; [done..|]. rewrite decide_False; [done|congruence]. }
  destruct (answers (dv_index dj)) as [r|] eqn:Ha.
  2: { split_and!; [done..|]. case_decide; [|done]. subst j. simplify_eq. by rewrite Ha. }
  destruct (lookup_lt_is_Some_2 (prev_ecc p) j) as [prevs Hp].
  { rewrite Hrows. by eapply lookup_lt_Some. }
  set (m1 := poll_gauges (dv_index_str dj) (dv_uuid dj) r m). rewrite Hp.
  change (default [] (Some prevs)) with prevs.
  pose proof (fun l => poll_ecc_types_frame (dv_index_str dj) (dv_uuid dj) r (prevs, m1) l) as Hfr.
  pose proof (fun H => poll_ecc_types (dv_index_str dj) (dv_uuid dj) r (prevs, m1) ty H Hty) as Hst.
  destruct (foldl _ _ ecc_types) as [prevs' m2]. cbn [fst snd] in *.
  destruct (Hfr []) as [Hlen _]; [done|]. pose proof (Hrow j prevs Hp) as Hr4.
  split_and!; [|done|].
  - split; simpl; [by rewrite length_insert| |done].
    intros k row. rewrite list_lookup_insert. case_decide; [|by apply Hrow].
    intros [= <-]. congruence.
  - unfold view. cbn [fst snd prev_ecc]. rewrite poll_throttle_ecc. case_decide as E.
    + subst j. simplify_eq. rewrite list_lookup_insert_eq by (by eapply lookup_lt_Some).
      specialize (Hst Hr4). unfold pair_of in Hst. cbn [fst snd] in Hst. rewrite Ha, Hp. simpl.
      rewrite Hst. unfold m1. by rewrite poll_gauges_ecc.
    + rewrite list_lookup_insert_ne by done. f_equal.
      destruct (Hfr (ecc_labels (dv_index_str d) (dv_uuid d) ty.1)) as [_ E'].
      { intros t [= Ei _ _]. apply E. eapply (NoDup_lookup _ _ _ (dv_index_str d) Hnd);
          rewrite list_lookup_fmap; [by rewrite Hd|by rewrite Hj, Ei]. }
      rewrite E'. unfold m1. by rewrite poll_gauges_ecc.
Qed.

Lemma poll_devices_view answers js p m i d ty :
  poller_wf p -> devices p !! i = Some d -> ty ∈ ecc_types -> NoDup js ->
  let acc := foldl (poll_device answers) (p, m) js in
  poller_wf acc.1 /\ devices acc.1 = devices p /\
  view i d ty acc = if decide (i ∈ js) then ecc_step (view i d ty (p, m)) (reading ty (answers (dv_index d)))
                    else view i d ty (p, m).
Proof.
  intros Hwf Hd Hty Hnd. revert p m Hwf Hd. induction Hnd as [|j js Hj Hnd IH]; intros p m Hwf Hd; cbn zeta.
  { by split_and!. }
  destruct (poll_device_view answers p m i j d ty Hwf Hd Hty) as (W & D & V). cbn [foldl].
  destruct (poll_device answers (p, m) j) as [p1 m1]. cbn [fst snd] in *.
  destruct (IH p1 m1 W) as (W' & D' & V'); [by rewrite D|].
  split_and!; [done|congruence|]. rewrite V', V.
  destruct (decide (i = j)) as [->|Hij].
  - rewrite decide_False by done. rewrite decide_True; [done|]. by left.
  - destruct (decide (i ∈ js)), (decide (i ∈ j :: js)) as [?|Hn]; try done.
    + exfalso. apply Hn. by right.
    + exfalso. by apply elem_of_cons in e as [?|?].
Qed.

Lemma poll_view answers p m i d ty :
  poller_wf p -> devices p !! i = Some d -> ty ∈ ecc_types ->
  poller_wf (poll answers p m).1 /\ devices (poll answers p m).1 = devices p /\
  view i d ty (poll answers p m) = ecc_step (view i d ty (p, m)) (reading ty (answers (dv_index d))).
Proof.
  intros Hwf Hd Hty. unfold poll.
  destruct (poll_devices_view answers (seq 0 (length (devices p))) p m i d ty) as (W & D & V); try done.
  { apply NoDup_seq. }
  split_and!; [done..|]. rewrite V, decide_True; [done|].
  apply elem_of_seq. apply lookup_lt_Some in Hd. lia.
Qed.

Lemma poll_all_view polls p m i d ty :
  poller_wf p -> devices p !! i = Some d -> ty ∈ ecc_types ->
  view i d ty (poll_all polls p m) =
    foldl ecc_step (view i d ty (p, m)) ((fun a => reading ty (a (dv_index d))) <$> polls).
Proof.
  unfold poll_all. revert p m. induction polls as [|a polls IH]; intros p m Hwf Hd Hty; [done|].
  destruct (poll_view a p m i d ty Hwf Hd Hty) as (W & D & V). csimpl.
  destruct (poll a p m) as [p1 m1]. cbn [fst snd] in *. rewrite IH by (done || by rewrite D). by rewrite V.
Qed.

(** Counts that never fall below the one before. *)
Fixpoint never_drops (prev : Z) (counts : list (option Z)) : Prop :=
  match counts with
  | [] => True
  | None :: counts => never_drops prev counts
  | Some c :: counts => prev <= c < 2 ^ 64 /\ never_drops c counts
  end.

Definition last_count (prev : Z) (counts : list (option Z)) : Z :=
  foldl (fun a o => default a o) prev counts.

Lemma ecc_steps_grow counts prev :
  0 <= prev < 2 ^ 64 -> never_drops prev counts ->
  foldl ecc_step (prev, prev) counts = (last_count prev counts, last_count prev counts).
Proof.
  unfold last_count. revert prev. induction counts as [|[c|] counts IH]; intros prev Hp Hn; [done| |by apply IH].
  destruct Hn as [Hc Hn]. cbn [foldl ecc_step fst snd].
  change (default prev (Some c)) with c. rewrite <- (IH c) by (done || lia). f_equal. f_equal.
  destruct (Z.ltb_spec prev c); [|lia]. rewrite wrap_small; unfold fits; lia.
Qed.

Lemma new_poller_wf nvml n p :
  in_count nvml = Some n -> n < 2 ^ 32 -> new_poller (Some nvml) = Some p ->
  poller_wf p /\ forall i row, prev_ecc p !! i = Some row -> row = replicate 4 0.
Proof.
  intros Hn Hlt. unfold new_poller. cbn [mbind option_bind]. rewrite Hn. cbn [mbind option_bind].
  intros [= <-]. cbn [devices prev_ecc].
  assert (forall i row k, replicate k (replicate 4 0) !! i = Some row -> row = replicate 4 0) as Hrow.
  { intros i row k H. by apply lookup_replicate in H as [-> _]. }
  split; [split; cbn [devices prev_ecc]|intros i row H; exact (Hrow i row _ H)].
  - by rewrite length_replicate.
  - intros i row H. apply Hrow in H as ->. done.
  - set (f := fun i : Z => _). assert (NoDup (Z.of_nat <$> seq 0 (Z.to_nat n))) as Hnd.
    { apply NoDup_fmap_2; [apply _|apply NoDup_seq]. }
    assert (Forall (fits 64) (Z.of_nat <$> seq 0 (Z.to_nat n))) as Hf.
    { apply Forall_forall. intros x (k & -> & Hk%elem_of_seq)%list_elem_of_fmap.
      assert (2 ^ 32 < 2 ^ 64) by done. unfold fits. lia. }
    revert Hnd Hf. generalize (Z.of_nat <$> seq 0 (Z.to_nat n)). intros l Hnd Hf.
    assert (forall (l : list Z) x, x ∈ dv_index_str <$> omap f l -> exists i, i ∈ l /\ x = to_string i) as Hin.
    { intros l' x (d & -> & (i & Hi & Hd)%list_elem_of_omap)%list_elem_of_fmap.
      unfold f in Hd. apply bind_Some in Hd as (u & _ & [= <-]). by exists i. }
    induction Hnd as [|i l Hi Hnd IH]; [constructor|]. apply Forall_cons in Hf as [Hfi Hf].
    change (omap f (i :: l)) with (match f i with Some y => y :: omap f l | None => omap f l end).
    destruct (f i) as [d|] eqn:E; [|auto]. csimpl. constructor; [|auto].
    unfold f in E. apply bind_Some in E as (u & _ & [= <-]). cbn [dv_index_str].
    intros (k & Hk & Ek)%Hin. rewrite Forall_forall in Hf. apply to_string_inj in Ek; [by subst|done|auto].
Qed.

(** C34: The ECC counter follows the driver.  From a fresh poller, however often it polls and
    whichever readings fail, as long as the driver's volatile count of an error type of a
    device does not fall, the exported counter of that device and type is the last count that
    was read. *)
Theorem ecc_counter_follows_driver nvml n p polls i d ty :
  in_count nvml = Some n -> n < 2 ^ 32 -> new_poller (Some nvml) = Some p ->
  devices p !! i = Some d -> ty ∈ ecc_types ->
  let counts := (fun a => reading ty (a (dv_index d))) <$> polls in
  never_drops 0 counts ->
  default 0 (gpu_ecc_errors (poll_all polls p (mkGpuMetrics ∅ ∅)).2
               !! ecc_labels (dv_index_str d) (dv_uuid d) ty.1) = last_count 0 counts.
Proof.
  intros Hn Hlt Hp Hd Hty counts Hdrop. destruct (new_poller_wf nvml n p Hn Hlt Hp) as [Hwf Hrow].
  pose proof (poll_all_view polls p (mkGpuMetrics ∅ ∅) i d ty Hwf Hd Hty) as Hv.
  assert (view i d ty (p, mkGpuMetrics ∅ ∅) = (0, 0)) as E.
  { unfold view. cbn [fst snd gpu_ecc_errors]. rewrite lookup_empty. f_equal.
    destruct (prev_ecc p !! i) as [row|] eqn:Hr; [|done]. rewrite (Hrow _ _ Hr). simpl.
    apply elem_of_cons in Hty as [->|Hty%list_elem_of_singleton]; [done|by subst ty]. }
  rewrite E in Hv. fold counts in Hv. rewrite ecc_steps_grow in Hv by (done || lia).
  unfold view in Hv. by injection Hv.
Qed.

(** Two polls, the first of which reads 3 corrected errors and the second 5. *)
Definition demo_nvml : NvmlInit := mkNvmlInit (Some 1) (fun _ => Some (Some (lit "GPU-0"))).
Definition demo_poll (c : Z) : Z -> option Readings := fun _ =>
  Some (mkReadings None None None None None None [Some c; None] None).

Lemma ecc_counter_follows_driver_witness :
  exists p d, new_poller (Some demo_nvml) = Some p /\ devices p !! 0%nat = Some d /\
    default 0 (gpu_ecc_errors (poll_all [demo_poll 3; demo_poll 5] p (mkGpuMetrics ∅ ∅)).2
                 !! ecc_labels (dv_index_str d) (dv_uuid d) (lit "corrected")) = 5.
Proof.
  eexists _, _. split; [reflexivity|]. split; [reflexivity|].
  apply (ecc_counter_follows_driver demo_nvml 1 _ [demo_poll 3; demo_poll 5] 0 _ (lit "corrected", 0%nat));
    try reflexivity; [by left|]. simpl. lia.
Defined.
