(* ===== verification/Profi.v ===== *)
(** * Traced applications and profi together

    Applications call functions of libraries; profi attaches its programs to the libraries;
    every call runs the programs that the links of the moment put on its function; and the
    main loop brings what the programs record to a scrape.  The theorem counts the calls of a
    process from the application's side and finds them on the other. *)

From stdpp Require Import strings.
From S2P Require Import Prelude RustStd F64 Events Runtime Probes Step Demo Invariant PerCpu Ledger RingLedger Calls Modes Drain Export Tick Kernel Metrics Cache CacheInv Symbols Report Loop LoopInv System Discovery Attach.

Local Open Scope Z_scope.
#[local] Set Warnings "-clear-no-such-hyp".

(** ** What program runs say about calls

    The calls in flight and the completed ones, read off the runs alone: type and start of the
    call a thread is in, and thread, type and duration of the completed ones. *)

Record Threads := mkThreads { th_open : gmap Z (Z * Z); th_done : list (Z * Z * Z) }.

(** Programs that do not record calls. *)
Definition bystander (p : probe) : bool :=
  match p with
  | P_cuda_register_function _ _ _ _ | P_nvtx_range_push _ | P_nvtx_range_pop => true
  | _ => false
  end.

(** The LRU map of calls in flight takes the new entry and keeps the others. *)
Definition lru_keeps {A} (m : gmap Z A) (e : KEnv) : bool :=
  negb (lru_fail (env_lru_inflight e)) && bool_decide (lru_evict (env_lru_inflight e) ## dom m).

Definition replay1 (x : Threads) (pe : probe * KEnv) : option Threads :=
  let '(p, e) := pe in
  let id := env_pid_tgid e in
  match entry_type p (env_cookie e) with
  | Some t =>
      match th_open x !! id with
      | None => if lru_keeps (th_open x) e
                then Some (mkThreads (<[id := (t, env_ktime e)]> (th_open x)) (th_done x)) else None
      | Some _ => None
      end
  | None =>
      if is_exit p then
        match th_open x !! id with
        | Some (t, start) =>
            Some (mkThreads (delete id (th_open x))
                    (th_done x ++ [(id, t, Z.max 0 (env_ktime e - start))]))
        | None => None
        end
      else if bystander p then Some x else None
  end.

Definition replay (t : trace) (x : Threads) : option Threads :=
  foldl (fun x pe => x ≫= fun x => replay1 x pe) (Some x) t.

Lemma foldl_bind_None {A B} (f : A -> B -> option A) (l : list B) :
  foldl (fun x b => x ≫= fun x => f x b) None l = None.
Proof. induction l as [|b l IH]; [done|]. exact IH. Qed.

Lemma replay_app t1 t2 x : replay (t1 ++ t2) x = replay t1 x ≫= replay t2.
Proof.
  unfold replay. rewrite foldl_app. destruct (foldl _ (Some x) t1); [done|]. by rewrite foldl_bind_None.
Qed.

(** The maps agree with the replay. *)
Definition entry_view (en : EntryData) : Z * Z := (en_event_type en, en_timestamp_ns en).
Definition call_view (c : Completed) : Z * Z * Z := (env_pid_tgid (cp_env c), cp_type c, cp_duration c).

Definition replayed (s : BpfState) (t : trace) (l : list Completed) : Prop :=
  cfg_u32 (SAMPLE_RATE s) <= 1 /\ Forall (fun c => cp_rate c <= 1) l /\
  forall x, replay t (mkThreads ∅ []) = Some x ->
    entry_view <$> INFLIGHT s = th_open x /\ call_view <$> l = th_done x.

Section Replay.
Context {LC : LoadCfg}.

Lemma unsampled t e s : cfg_u32 (SAMPLE_RATE s) <= 1 -> sampled_in t e s = true.
Proof.
  intros Hr. unfold sampled_in. destruct (Z.ltb_spec 1 (cfg_u32 (SAMPLE_RATE s))); [lia|].
  by rewrite andb_false_r.
Qed.

Lemma lru_keeps_update {A} (f : EntryData -> A) (m : gmap Z EntryData) e en :
  lru_keeps (f <$> m) e = true ->
  f <$> lru_update (env_lru_inflight e) (env_pid_tgid e) en m = <[env_pid_tgid e := f en]> (f <$> m).
Proof.
  unfold lru_keeps, lru_update. intros [Hf%negb_true_iff Hd%bool_decide_eq_true]%andb_true_iff.
  rewrite Hf, fmap_insert. f_equal. f_equal. apply map_filter_id. intros k v Hk Hin.
  apply (Hd k); [done|]. apply elem_of_dom. rewrite lookup_fmap, Hk. by eexists.
Qed.

Lemma bystander_run p e s :
  bystander p = true -> INFLIGHT (run p e s) = INFLIGHT s /\ completes p e s = None.
Proof.
  destruct p; try done; intros _; (split; [|done]); unfold run, cuda_register_function, nvtx_range_push;
    by repeat case_match.
Qed.

Lemma replayed_run s t l p e :
  replayed s t l -> replayed (run p e s) (t ++ [(p, e)]) (l ++ option_list (completes p e s)).
Proof.
  intros (Hr & Hl & Hx). pose proof (run_config p e s) as [= Hrate _ _ _].
  assert (Hc : forall c, completes p e s = Some c -> cp_rate c <= 1).
  { unfold completes, completed_at. intros c. repeat case_match; try done; by intros [= <-]. }
  split; [by rewrite Hrate|]. split.
  { apply Forall_app_2; [done|]. destruct (completes p e s); [|apply Forall_nil_2].
    apply Forall_cons_2; [by apply Hc|apply Forall_nil_2]. }
  intros x'. rewrite replay_app. intros (x & Ex & E1)%bind_Some. destruct (Hx x Ex) as [Ho Hd].
  cbn in E1. rewrite <- Ho in E1. rewrite lookup_fmap in E1.
  destruct (entry_type p (env_cookie e)) as [ty|] eqn:Ety.
  - destruct (INFLIGHT s !! env_pid_tgid e) as [en|] eqn:En; [done|]. cbn in E1.
    destruct (lru_keeps _ e) eqn:Hk; [|done]. injection E1 as <-. cbn [th_open th_done].
    destruct (entry_INFLIGHT p e s ty Ety En (unsampled ty e s Hr)) as (en & -> & Et & Es).
    rewrite completes_none, app_nil_r by done. split; [|done].
    rewrite lru_keeps_update by done. unfold entry_view at 1. by rewrite Et, Es.
  - destruct (is_exit p) eqn:Hp.
    + destruct (INFLIGHT s !! env_pid_tgid e) as [en|] eqn:En; [|done]. cbn in E1.
      injection E1 as <-. cbn [th_open th_done]. rewrite (exit_INFLIGHT p e s Hp), fmap_delete.
      split; [done|]. destruct (completes_exit p e s en Hp En) as (c & -> & Hce & Hcv & _).
      change (option_list (Some c)) with [c]. rewrite fmap_app, Hd. f_equal. csimpl. f_equal.
      unfold call_view, cp_type, cp_duration. by rewrite Hce, Hcv.
    + destruct (bystander p) eqn:Hb; [|done]. injection E1 as <-.
      destruct (bystander_run p e s Hb) as [-> ->]. by rewrite app_nil_r.
Qed.

Lemma replayed_frame s s' t l : same_calls s s' -> replayed s t l -> replayed s' t l.
Proof. intros [Hi Hr]. unfold replayed. by rewrite Hi, Hr. Qed.

Lemma replayed_init rate mode detailed :
  rate <= 1 -> replayed (configure rate mode detailed init_state) [] [].
Proof.
  intros Hr. unfold configure. destruct (Z.ltb_spec 1 rate); [lia|].
  split; [done|]. split; [apply Forall_nil_2|]. intros x [= <-]. split; [apply fmap_empty|done].
Qed.
End Replay.

(** ** Applications *)

(** What happens around profi: the attach branch of the main loop serves a request, a thread
    enters a function of a file, a thread returns from one. *)
Inductive app_op :=
| A_attach (req : AttachRequest)
| A_enter (path : str) (func : string) (args : list Z) (e : KEnv)
| A_leave (path : str) (func : string) (args : list Z) (e : KEnv).

(** The programs that the links of the moment run. *)
Definition runs_of (st : Attached) (op : app_op) : trace :=
  match op with
  | A_attach _ => []
  | A_enter path func args e => fire (at_links st) false path func args e
  | A_leave path func args e => fire (at_links st) true path func args e
  end.

Definition attach_op `{Loader} (cfg : AttachCfg) (st : Attached) (op : app_op) : Attached :=
  match op with A_attach req => on_attach cfg req st | _ => st end.

Fixpoint app_runs `{Loader} (cfg : AttachCfg) (st : Attached) (ops : list app_op) : trace :=
  match ops with
  | [] => []
  | op :: ops => runs_of st op ++ app_runs cfg (attach_op cfg st op) ops
  end.

(** Beside the links: the library of each file that was attached in full, the call that a
    thread is in (file, function, type and start), and the calls that returned (thread, type and
    duration). *)
Record App := mkApp {
  ap_attach : Attached;
  ap_libs : gmap str str;
  ap_open : gmap Z (str * string * (Z * Z));
  ap_done : list (Z * Z * Z)
}.

#[global] Instance pid_matches_dec pid e : Decision (pid_matches pid e).
Proof. destruct pid; unfold pid_matches; apply _. Defined.

#[global] Instance Link_eq_dec : EqDecision Link.
Proof. solve_decision. Defined.

(** The type of a call that is to be traced. *)
Definition call_type (cfg : AttachCfg) (x : App) (path : str) (func : string) (e : KEnv) : option Z :=
  lib ← ap_libs x !! path;
  if decide (pid_matches (ac_pid cfg) e) then by_name func (traced cfg lib) else None.

Definition only_bystanders (t : trace) : bool := forallb (fun pe => bystander pe.1) t.

(** The calls of orderly applications.  A thread is in one traced call at a time and returns
    from it before the next; the LRU map of calls in flight does not overflow; programs on
    functions that are not in the tables record no calls; and a file is attached once. *)
Definition app_step `{Loader} (cfg : AttachCfg) (x : App) (op : app_op) : option App :=
  let st := ap_attach x in
  match op with
  | A_attach req =>
      if decide (ap_libs x !! ar_host_path req = None /\
                 Forall (fun l => lk_path l <> ar_host_path req) (at_links st)) then
        let st' := on_attach cfg req st in
        Some (mkApp st'
                (if at_libs_attached st' =? at_libs_attached st + 1
                 then <[ar_host_path req := ar_lib req]> (ap_libs x) else ap_libs x)
                (ap_open x) (ap_done x))
      else None
  | A_enter path func args e =>
      match call_type cfg x path func e with
      | Some t =>
          match ap_open x !! env_pid_tgid e with
          | None =>
              if lru_keeps (ap_open x) e then
                Some (mkApp st (ap_libs x)
                        (<[env_pid_tgid e := (path, func, (t, env_ktime e))]> (ap_open x)) (ap_done x))
              else None
          | Some _ => None
          end
      | None => if only_bystanders (runs_of st op) then Some x else None
      end
  | A_leave path func args e =>
      match call_type cfg x path func e with
      | Some _ =>
          match ap_open x !! env_pid_tgid e with
          | Some (path', func', (t, start)) =>
              if bool_decide (path' = path /\ func' = func) then
                Some (mkApp st (ap_libs x) (delete (env_pid_tgid e) (ap_open x))
                        (ap_done x ++ [(env_pid_tgid e, t, Z.max 0 (env_ktime e - start))]))
              else None
          | None => None
          end
      | None => if only_bystanders (runs_of st op) then Some x else None
      end
  end.

Definition app_run `{Loader} (cfg : AttachCfg) (ops : list app_op) (x : App) : option App :=
  foldl (fun x op => x ≫= fun x => app_step cfg x op) (Some x) ops.

Definition links_of (cfg : AttachCfg) (lib path : str) : list Link :=
  (fun l => let '(prog, funcs, r) := l in mkLink prog funcs r path (ac_pid cfg)) <$> lib_table cfg lib.

(** After start-up. *)
Definition init_app `{Loader} (cfg : AttachCfg) (cudart : str) (exist : bool) (meta : option DevInode) : App :=
  let st := (initial_attach cfg cudart exist meta).1 in
  mkApp st
    (if decide (at_links st = links_of cfg (lit "libcudart.so") cudart)
     then {[cudart := lit "libcudart.so"]} else ∅)
    ∅ [].

(** ** The replay of what orderly applications run *)

Section Apps.
Context {L : Loader}.

(** The links of an attached file are those of its table, and no others. *)
Definition linked (cfg : AttachCfg) (x : App) : Prop :=
  forall path lib, ap_libs x !! path = Some lib ->
    exists pre post, at_links (ap_attach x) = pre ++ links_of cfg lib path ++ post /\
      Forall (fun l => lk_path l <> path) (pre ++ post).

Lemma linked_fire cfg x path lib ret func args e :
  linked cfg x -> ap_libs x !! path = Some lib -> pid_matches (ac_pid cfg) e ->
  fire (at_links (ap_attach x)) ret path func args e = fire_table ret func args e (lib_table cfg lib).
Proof.
  intros Hx (pre & post & -> & [Hpre Hpost]%Forall_app)%Hx Hp.
  rewrite !fire_app, (fire_elsewhere pre), (fire_elsewhere post), app_nil_r by done.
  by apply fire_table_links.
Qed.

Lemma attach_probes_grows links probes path pid :
  exists news, (attach_probes links probes path pid).1 = links ++ news /\
    Forall (fun l => lk_path l = path) news.
Proof.
  revert links. induction probes as [|[prog func] probes IH]; intros links; cbn [attach_probes].
  { exists []. by rewrite app_nil_r. }
  unfold attach_uprobe. destruct (by_name prog _); [|exists []; by rewrite app_nil_r].
  destruct (can_attach _ _ _ _); [|exists []; by rewrite app_nil_r]. specialize (IH (links ++ [mkLink prog [(func, 0)] (ends_with_ret prog) path pid])).
  destruct (attach_probes _ probes path pid) as [ls r]. destruct IH as (news & E & Hn).
  cbn [fst] in *. subst. eexists (_ :: news). split; [by rewrite <- app_assoc|by constructor].
Qed.

Lemma on_attach_grows cfg req st :
  exists news, at_links (on_attach cfg req st) = at_links st ++ news /\
    Forall (fun l => lk_path l = ar_host_path req) news.
Proof.
  unfold on_attach. destruct (at_running st); cbn [negb]; [|exists []; by rewrite app_nil_r].
  case_bool_decide.
  - unfold attach_nccl_probes_multi, attach_multi. repeat case_match; simplify_eq; cbn [at_links];
      first [exists []; by rewrite app_nil_r|eexists; split; [reflexivity|by repeat constructor]].
  - pose proof (attach_probes_grows (at_links st) (probeset cfg (ar_lib req)) (ar_host_path req) (ac_pid cfg))
      as (news & E & Hn).
    destruct (attach_probes _ _ _ _) as [ls r]. cbn [fst] in E. subst. exists news. by destruct r.
Qed.

Lemma linked_attach cfg x req x' :
  linked cfg x -> app_step cfg x (A_attach req) = Some x' -> linked cfg x'.
Proof.
  intros Hx. cbn [app_step]. case_decide as Hnew; [|done]. destruct Hnew as [Hfree Hnew].
  intros [= <-] path lib.
  cbn [ap_libs ap_attach]. destruct (on_attach_grows cfg req (ap_attach x)) as (news & E & Hn).
  assert (Hold : path <> ar_host_path req -> ap_libs x !! path = Some lib ->
    exists pre post, at_links (on_attach cfg req (ap_attach x)) = pre ++ links_of cfg lib path ++ post /\
      Forall (fun l => lk_path l <> path) (pre ++ post)).
  { intros Hne (pre & post & El & Hpp)%Hx. exists pre, (post ++ news). split.
    - by rewrite E, El, <- !app_assoc.
    - rewrite app_assoc. apply Forall_app_2; [done|]. eapply Forall_impl; [exact Hn|]. cbv beta. congruence. }
  destruct (Z.eqb_spec (at_libs_attached (on_attach cfg req (ap_attach x)))
              (at_libs_attached (ap_attach x) + 1)) as [Hc|].
  2:{ intros Hp. apply Hold; congruence. }
  destruct (decide (path = ar_host_path req)) as [->|Hne]; [|rewrite lookup_insert_ne by done; by apply Hold].
  rewrite lookup_insert_eq. intros [= <-]. exists (at_links (ap_attach x)), []. rewrite !app_nil_r.
  split; [|done]. apply on_attach_ok; [|done]. unfold on_attach in Hc.
  destruct (at_running (ap_attach x)); [done|]. cbn [negb] in Hc. lia.
Qed.

Lemma linked_init cfg cudart exist meta : linked cfg (init_app cfg cudart exist meta).
Proof.
  intros path lib. unfold init_app. cbn [ap_libs ap_attach].
  case_decide as E; [|by rewrite lookup_empty]. intros [-> <-]%lookup_singleton_Some.
  exists [], []. by rewrite E, app_nil_r.
Qed.

Definition threads (x : App) : Threads := mkThreads (snd <$> ap_open x) (ap_done x).

Lemma replay_one pe x : replay [pe] x = replay1 x pe.
Proof. done. Qed.

Lemma replay_bystanders t x : only_bystanders t = true -> replay t x = Some x.
Proof.
  induction t as [|[p e] t IH]; [done|]. intros [Hp Ht]%andb_true_iff.
  change ((p, e) :: t) with ([(p, e)] ++ t). rewrite replay_app, replay_one. cbn [replay1 fst] in *.
  destruct p; try done; by apply IH.
Qed.

Lemma exit_no_entry p c : is_exit p = true -> entry_type p c = None.
Proof. by destruct p. Qed.

Lemma by_name_elem {A} n (l : list (string * A)) v : by_name n l = Some v -> (n, v) ∈ l.
Proof.
  induction l as [|[n' v'] l IH]; cbn [by_name]; [done|].
  destruct (String.eqb_spec n' n) as [->|]; [intros [= ->]; by left|]. intros H. right. by apply IH.
Qed.

(** The programs of a call that is to be traced. *)
Lemma call_fires cfg x path func args e t :
  linked cfg x -> call_type cfg x path func e = Some t ->
  exists p1 c1 p2 c2,
    runs_of (ap_attach x) (A_enter path func args e) = [(p1, with_cookie c1 e)] /\
    runs_of (ap_attach x) (A_leave path func args e) = [(p2, with_cookie c2 e)] /\
    entry_type p1 c1 = Some t /\ is_exit p2 = true.
Proof.
  intros Hx. unfold call_type. intros (lib & Hl & Ht)%bind_Some. case_decide as Hp; [|done].
  unfold runs_of. rewrite !(linked_fire cfg x path lib) by done.
  apply paired_fires, traced_paired, by_name_elem, Ht.
Qed.

Lemma app_step_replay cfg x op x' :
  linked cfg x -> app_step cfg x op = Some x' ->
  linked cfg x' /\ ap_attach x' = attach_op cfg (ap_attach x) op /\
  replay (runs_of (ap_attach x) op) (threads x) = Some (threads x').
Proof.
  intros Hx Hs. destruct op as [req|path func args e|path func args e].
  - split; [by eapply linked_attach|]. cbn [app_step] in Hs. case_decide; [|done]. by injection Hs as <-.
  - cbn [app_step] in Hs. destruct (call_type cfg x path func e) as [t|] eqn:Et.
    2:{ case_match eqn:Eb; [|done]. injection Hs as <-. by rewrite replay_bystanders. }
    destruct (ap_open x !! env_pid_tgid e) as [?|] eqn:Eo; [done|].
    destruct (lru_keeps (ap_open x) e) eqn:Ek; [|done]. injection Hs as <-.
    split; [exact Hx|]. split; [done|].
    destruct (call_fires cfg x path func args e t Hx Et) as (p1 & c1 & _ & _ & -> & _ & Hty & _).
    rewrite replay_one. cbn [replay1 with_cookie env_cookie env_pid_tgid env_ktime].
    unfold threads. cbn [th_open th_done ap_open ap_done]. rewrite Hty, lookup_fmap, Eo. cbn [fmap option_fmap option_map].
    unfold lru_keeps in *. rewrite dom_fmap_L. cbn [with_cookie env_lru_inflight]. rewrite Ek, fmap_insert. done.
  - cbn [app_step] in Hs. destruct (call_type cfg x path func e) as [t|] eqn:Et.
    2:{ case_match eqn:Eb; [|done]. injection Hs as <-. by rewrite replay_bystanders. }
    destruct (ap_open x !! env_pid_tgid e) as [[[path' func'] [t' start]]|] eqn:Eo; [|done].
    case_bool_decide; [|done]. injection Hs as <-. split; [exact Hx|]. split; [done|].
    destruct (call_fires cfg x path func args e t Hx Et) as (_ & _ & p2 & c2 & _ & -> & _ & Hex).
    rewrite replay_one. cbn [replay1 with_cookie env_cookie env_pid_tgid env_ktime].
    unfold threads. cbn [th_open th_done ap_open ap_done].
    by rewrite exit_no_entry, Hex, lookup_fmap, Eo, fmap_delete.
Qed.

Lemma app_run_replay cfg ops x x' :
  linked cfg x -> app_run cfg ops x = Some x' ->
  replay (app_runs cfg (ap_attach x) ops) (threads x) = Some (threads x').
Proof.
  revert x. induction ops as [|op ops IH]; intros x Hx; [by intros [= <-]|].
  unfold app_run. cbn [foldl app_runs]. cbn [mbind option_bind]. destruct (app_step cfg x op) as [x1|] eqn:E1.
  - intros Hr. destruct (app_step_replay _ _ _ _ Hx E1) as (Hx1 & Ea & Er).
    rewrite replay_app, Er. cbn [mbind option_bind]. rewrite <- Ea. by apply IH.
  - by rewrite foldl_bind_None.
Qed.
End Apps.

(** ** From applications to a scrape *)

(** The returned calls of a process. *)
Definition calls_of (pid : Z) (l : list (Z * Z * Z)) : Z := countZ (fun c => pid_of c.1.1 =? pid) l.

(** Without sampling, every completed call stands for itself. *)
Lemma calls_of_ledger pid l :
  Forall (fun c => cp_rate c <= 1) l -> process_calls pid l = calls_of pid (call_view <$> l).
Proof.
  unfold process_calls, calls_of, countZ.
  induction 1 as [|c l Hc _ IH]; [done|]. rewrite !fmap_cons. cbn [sumZ]. rewrite <- IH. clear IH.
  change (pid_of (call_view c).1.1) with (cp_pid c).
  assert (cp_weight c = 1) as Hw by (unfold cp_weight; destruct (Z.ltb_spec 1 (cp_rate c)); lia).
  unfold cp_calls. rewrite Hw. destruct (cp_pid c =? pid); [|lia]. by destruct (event_route (cp_type c)).
Qed.

Section Whole.
Context {LC : LoadCfg} {PM : Prometheus} {PL : PrometheusLaws} {HK : HashOrder MetricKey}
  {HZ : HashOrder Z} {UT : UnicodeTables} {LD : Loader}.

End Whole.

(** ** An example *)

#[local] Existing Instance demo_cfg.
#[local] Existing Instance sample_tables.
#[local] Existing Instance demo_loader.

(** --cudart is attached at start-up, the NCCL library while a copy is in progress.  Two threads
    of process 7 copy twice and reduce once, and call a file that nothing is attached to. *)
Definition demo_attach_cfg : AttachCfg := mkAttachCfg Full ProbeFull false None.
Definition demo_libc : str := lit "/proc/7/root/libc.so.6".
Definition demo_cudart : str := lit "/cudart".
Definition demo_nccl : str := ar_host_path nccl_request.

Definition demo_app_ops : list app_op :=
  [A_enter demo_cudart "cudaMemcpy" [0; 0; 64; 1] (demo_env 1 1000 0 0);
   A_attach nccl_request;
   A_enter demo_nccl "ncclAllReduce" [0; 0; 8; 7] (demo_env 2 1500 1 0);
   A_leave demo_cudart "cudaMemcpy" [] (demo_env 1 2000 0 0);
   A_enter demo_libc "memcpy" [] (demo_env 1 2100 0 0);
   A_leave demo_libc "memcpy" [] (demo_env 1 2200 0 0);
   A_leave demo_nccl "ncclAllReduce" [] (demo_env 2 3000 1 0);
   A_enter demo_cudart "cudaMemcpy" [0; 0; 64; 1] (demo_env 1 3100 0 0);
   A_leave demo_cudart "cudaMemcpy" [] (demo_env 1 3200 0 0)].

Definition demo_runs : trace :=
  [(P_cuda_memcpy 0 0 64 1, with_cookie 0 (demo_env 1 1000 0 0));
   (P_nccl_count_dtype_3_4 0 0 8 7, with_cookie EVENT_NCCL_ALL_REDUCE (demo_env 2 1500 1 0));
   (P_cuda_memcpy_ret, with_cookie 0 (demo_env 1 2000 0 0));
   (P_nccl_multi_ret, with_cookie 0 (demo_env 2 3000 1 0))].

Definition demo_late_runs : trace :=
  [(P_cuda_memcpy 0 0 64 1, with_cookie 0 (demo_env 1 3100 0 0));
   (P_cuda_memcpy_ret, with_cookie 0 (demo_env 1 3200 0 0))].

(** The second copy completes while the tick drains the first. *)
Definition demo_items : list item :=
  ((fun pe => I_run pe.1 pe.2) <$> demo_runs) ++
  [I_tick (sample_world 3) None []
     [mkDrained [] (sample_world 3) (mkAggKey EVENT_CUDA_MEMCPY 7 1 0 0) demo_late_runs] []
     [mkDrained [] (sample_world 3) (mkAggKey EVENT_NCCL_ALL_REDUCE 7 7 0 0) []];
   I_gc (sample_world 6) [] true].

Definition demo_app : App := init_app demo_attach_cfg demo_cudart true None.
Definition demo_app_end : App := default demo_app (app_run demo_attach_cfg demo_app_ops demo_app).
Definition demo_tracer : Tracer :=
  run_tracer sample_system_cfg demo_items
    (configure 1 0 (Z.b2z (lc_detailed_launches sample_system_cfg)) init_state).

Lemma with_cookie_wf c e : fits 64 c -> @env_wf demo_cfg e -> @env_wf demo_cfg (with_cookie c e).
Proof. by intros Hc []; split. Qed.

Lemma demo_run_wf (p : probe) c e : probe_wf p -> fits 64 c -> env_wf e -> probe_wf p /\ env_wf (with_cookie c e).
Proof. intros Hp Hc He. split; [done|]. by apply with_cookie_wf. Qed.

Ltac demo_runs_wf :=
  repeat first
    [apply Forall_nil_2
    |apply Forall_cons_2; [apply demo_run_wf;
       [apply (bool_decide_unpack _); vm_compute; exact I|fits_const
       |apply demo_env_wf; [lia|fits_const|lia|fits_const]]|]].

Lemma demo_items_ok : Forall item_ok demo_items.
Proof.
  apply Forall_app_2; [apply run_items_ok; demo_runs_wf|].
  apply Forall_cons_2; [|by apply Forall_cons_2; [|apply Forall_nil_2]].
  split; [apply Forall_nil_2|]. split; [|split; [apply Forall_nil_2|]];
    (apply Forall_cons_2; [|apply Forall_nil_2]); (split; [apply Forall_nil_2|]); [demo_runs_wf|apply Forall_nil_2].
Qed.

Lemma demo_ops_safe : Forall safe_op (tr_ops demo_tracer).
Proof. sample_ops_safe. Qed.

Lemma demo_tracer_facts :
  let d := lc_detailed_launches sample_system_cfg in
  waiting d 7 (tr_bpf demo_tracer) = 0 /\ map_calls d 7 (tr_lost demo_tracer) = 1 /\
  map_calls d 7 (tr_refused demo_tracer) = 0 /\ ring_dropped 7 (tr_ledger demo_tracer) = 0 /\
  unread d 7 (tr_ledger demo_tracer) = 0 /\
  tr_runs demo_tracer = app_runs demo_attach_cfg (ap_attach demo_app) demo_app_ops /\
  kept sample_system_cfg 7 (mkProcLedger ∅ ∅) (tr_ops demo_tracer) = true.
Proof. split_and!; vm_compute; reflexivity. Qed.

Lemma demo_app_facts :
  app_run demo_attach_cfg demo_app_ops demo_app = Some demo_app_end /\
  calls_of 7 (ap_done demo_app_end) = 3.
Proof. split; vm_compute; reflexivity. Qed.

