(* ===== verification/Select.v ===== *)
(** * The select loop of src/src/main.rs, all branches

    The loop as a whole: the heartbeat at the head of every iteration, the branches of [Loop],
    the attach branch of [Attach], the report, and the ways in which the loop ends.  Then what
    the report shows of the calls that the loop was fed. *)

From stdpp Require Import strings.
From S2P Require Import Prelude RustStd F64 Events Runtime Ledger RingLedger Drain Export Tick Kernel Metrics Cache CacheInv Symbols Report Loop LoopInv Straggler Server Discovery Attach.

Local Open Scope Z_scope.

Section Select.
Context {PM : Prometheus} {HK : HashOrder MetricKey} {HZ : HashOrder Z} {UT : UnicodeTables} {LD : Loader}.

Inductive branch :=
| B_main (op : main_op)
| B_poll_error
| B_attach (req : AttachRequest)
| B_report
| B_ctrl_c.

(** The state of the loop with what it shares or prints: [sl_heartbeat] is [heartbeat_ns], the
    flag of [sl_attached] says whether the loop goes on. *)
Record Selector := mkSelector {
  sl_main : MainState;
  sl_attached : Attached;
  sl_heartbeat : Z;
  sl_printed : list str
}.

Definition running (st : Selector) : bool := at_running (sl_attached st).

Definition stop (st : Selector) : Selector :=
  let a := sl_attached st in
  mkSelector (sl_main st) (mkAttached (at_links a) (at_libs_attached a) false) (sl_heartbeat st)
    (sl_printed st).

(** The report is printed when there is something to report; without --report its interval does
    not exist and the branch is never taken. *)
Definition on_report (cfg : LoopCfg) (st : Selector) : Selector :=
  let ts := ms_term_stats (sl_main st) in
  if lc_report cfg && negb (bool_decide (ts = ∅))
  then mkSelector (sl_main st) (sl_attached st) (sl_heartbeat st) (sl_printed st ++ print_report ts)
  else st.

(** One iteration that begins [elapsed] nanoseconds after the start. *)
Definition select_step (cfg : LoopCfg) (acfg : AttachCfg) (st : Selector) (eb : Z * branch)
    : outcome Selector :=
  if negb (running st) then Ret st
  else
    let '(elapsed, b) := eb in
    let st := mkSelector (sl_main st) (sl_attached st) (u64 elapsed) (sl_printed st) in
    match b with
    | B_main op =>
        m ← main_step cfg (sl_main st) op;
        Ret (mkSelector m (sl_attached st) (sl_heartbeat st) (sl_printed st))
    | B_poll_error => Ret (stop st)
    | B_attach req =>
        Ret (mkSelector (sl_main st) (on_attach acfg req (sl_attached st)) (sl_heartbeat st)
               (sl_printed st))
    | B_report => Ret (on_report cfg st)
    | B_ctrl_c => Ret (stop st)
    end.

Definition run_select (cfg : LoopCfg) (acfg : AttachCfg) (bs : list (Z * branch)) (st : Selector)
    : outcome Selector :=
  each (select_step cfg acfg) st bs.

(** What the handlers of the HTTP server see of the loop. *)
Definition shared (mode : str) (st : Selector) : AppState :=
  mkAppState (sl_heartbeat st) true (at_libs_attached (sl_attached st)) true
    (ms_events_processed (sl_main st)) mode (ms_tracked_pids (sl_main st)).

(** ** Statistics of the report *)

(** The calls under a key that an iteration brings. *)
Definition fed_stats (key : Z * Z) (op : main_op) : Z :=
  match op with
  | M_readable _ events _ =>
      countZ (fun we => bool_decide ((ce_event_type we.2, ce_memcpy_kind we.2) = key)) events
  | M_agg _ aggs _ _ =>
      sumZ ((fun wkv => if bool_decide ((ak_event_type wkv.2.1, ak_memcpy_kind wkv.2.1) = key)
                        then at_count (agg_totals wkv.2.2) else 0) <$> aggs)
  | M_gc _ _ _ => 0
  end.

Definition count_at (key : Z * Z) (m : gmap (Z * Z) TermStats) : Z :=
  ts_count (default ts_default (m !! key)).

Definition local_count key st := count_at key (ms_local_term_stats st).
Definition term_count key st := count_at key (ms_term_stats st).

(** The two tables of statistics. *)
Definition stats_of_main (st : MainState) := (ms_local_term_stats st, ms_term_stats st).

Lemma stats_see_pid w pid st : stats_of_main (see_pid w pid st) = stats_of_main st.
Proof. unfold see_pid, stats_of_main. simpl. by case_match. Qed.

Lemma stats_request_name cfg pid addr st : stats_of_main (request_name cfg pid addr st) = stats_of_main st.
Proof. unfold request_name, stats_of_main. by case_match. Qed.

Lemma count_at_insert key k s m :
  count_at key (<[k := s]> m) = if bool_decide (k = key) then ts_count s else count_at key m.
Proof.
  unfold count_at. case_bool_decide as E; [subst; by rewrite lookup_insert_eq|by rewrite lookup_insert_ne].
Qed.

(** A step that adds [n] to the count of a key and leaves the totals alone. *)
Definition adds (key : Z * Z) (n : Z) (st st' : MainState) : Prop :=
  u64 (local_count key st') = u64 (local_count key st + n) /\ ms_term_stats st' = ms_term_stats st /\
  (fits 64 (local_count key st) -> fits 64 (local_count key st')).

Lemma adds_trans key n1 n2 st1 st2 st3 :
  adds key n1 st1 st2 -> adds key n2 st2 st3 -> adds key (n1 + n2) st1 st3.
Proof.
  intros (H1 & H2 & F1) (H3 & H4 & F2). split; [|split; [congruence|auto]]. rewrite H3, <- wrap_add_l, H1, wrap_add_l. f_equal. lia.
Qed.

Lemma adds_same key st st' : stats_of_main st' = stats_of_main st -> adds key 0 st st'.
Proof. intros [= H1 H2]. unfold adds, local_count. by rewrite H1, H2, Z.add_0_r. Qed.

Lemma adds_stats key n st0 st st1 st' :
  stats_of_main st0 = stats_of_main st -> stats_of_main st' = stats_of_main st1 ->
  adds key n st0 st1 -> adds key n st st'.
Proof. 
  intros [= H1 H2] [= H3 H4] (H5 & H6 & H7). unfold adds, local_count in *.
  rewrite <- H1, <- H2, H3, H4. done.
Qed.

Lemma adds_each {A S} (p : S -> MainState) key (f : S -> A -> outcome S) (g : A -> Z) l s s' :
  (forall s a s', f s a = Ret s' -> adds key (g a) (p s) (p s')) -> each f s l = Ret s' ->
  adds key (sumZ (g <$> l)) (p s) (p s').
Proof.
  intros Hf. revert s. induction l as [|a l IH]; intros s; cbn [each]; [intros [= <-]; by apply adds_same|].
  intros (s1 & E & Hl)%bind_ret. csimpl. eapply adds_trans; [by apply Hf|by apply IH].
Qed.

Lemma stats_each {A} (f : MainState -> A -> outcome MainState) l st st' :
  (forall st a st', f st a = Ret st' -> stats_of_main st' = stats_of_main st) ->
  each f st l = Ret st' -> stats_of_main st' = stats_of_main st.
Proof.
  intros Hf He. apply (each_keeps (fun s => stats_of_main s = stats_of_main st) f l st st'); [|done|done].
  intros s a s' Hs <-. by eapply Hf.
Qed.

Lemma adds_event cfg key st we st' :
  lc_report cfg = true -> on_event cfg st we = Ret st' ->
  adds key (Z.b2z (bool_decide ((ce_event_type we.2, ce_memcpy_kind we.2) = key))) st st'.
Proof.
  intros Hr. destruct we as [w e]. intros (u & h & ->)%on_event_inv. unfold event_effect. rewrite Hr. cbv zeta.
  set (st1 := see_pid _ _ _).
  assert (E : stats_of_main st1 = stats_of_main st).
  { unfold st1. rewrite stats_see_pid. case_match; rewrite ?stats_request_name; by case_match. }
  clearbody st1. injection E as E1 E2. unfold adds, local_count. cbn [upd_stats ms_local_term_stats ms_term_stats snd].
  rewrite E1, count_at_insert. destruct (bool_decide_reflect ((ce_event_type e, ce_memcpy_kind e) = key))
    as [<-|]; [|by rewrite Z.add_0_r].
  cbn [record ts_count]. rewrite wrap_wrap. split_and!; [done|done|]. intros _. by apply wrap_fits.
Qed.

Lemma adds_agg cfg key sd wkv sd' :
  lc_report cfg = true -> agg_callback cfg sd wkv = Ret sd' ->
  adds key (if bool_decide ((ak_event_type wkv.2.1, ak_memcpy_kind wkv.2.1) = key)
            then at_count (agg_totals wkv.2.2) else 0) sd.1 sd'.1.
Proof.
  intros Hr. destruct sd as [st delta], wkv as [w [k v]]. unfold agg_callback. rewrite Hr. cbn [fst snd].
  destruct (Z.eqb_spec (at_count (agg_totals v)) 0) as [->|_]; [intros [= <-]; case_match; by apply adds_same|].
  intros ([u h] & _ & <-%Ret_inj)%bind_ret. cbv zeta. set (st1 := see_pid _ _ _).
  assert (E : stats_of_main st1 = stats_of_main st) by (unfold st1; by rewrite stats_see_pid).
  clearbody st1. injection E as E1 E2. unfold adds, local_count. cbn [fst upd_stats ms_local_term_stats ms_term_stats].
  rewrite E1, count_at_insert.
  destruct (bool_decide_reflect ((ak_event_type k, ak_memcpy_kind k) = key)) as [<-|]; [|by rewrite Z.add_0_r].
  cbn [add_totals ts_count]. rewrite wrap_wrap. split_and!; [done|done|]. intros _. by apply wrap_fits.
Qed.

Lemma stats_launch cfg st wkv st' : launch_callback cfg st wkv = Ret st' -> stats_of_main st' = stats_of_main st.
Proof.
  destruct wkv as [w [k v]]. unfold launch_callback. case_match; [by intros [= <-]|].
  intros ([u h] & _ & [= <-])%bind_ret. rewrite stats_see_pid. case_match; by rewrite ?stats_request_name.
Qed.

Lemma stats_nccl cfg st wkv st' : nccl_callback cfg st wkv = Ret st' -> stats_of_main st' = stats_of_main st.
Proof.
  destruct wkv as [w [k v]]. unfold nccl_callback. case_match; [by intros [= <-]|].
  intros ([u h] & _ & [= <-])%bind_ret. by rewrite stats_see_pid.
Qed.

Lemma adds_agg_tick cfg key w a l n st st' :
  lc_report cfg = true -> on_agg_tick cfg w a l n st = Ret st' -> adds key (fed_stats key (M_agg w a l n)) st st'.
Proof.
  intros Hr ([st1 delta] & E1 & (st2 & E2 & (st3 & E3 & E4)%bind_ret)%bind_ret)%bind_ret.
  apply (adds_each fst key) with (g := fun wkv => if bool_decide ((ak_event_type wkv.2.1, ak_memcpy_kind wkv.2.1) = key)
            then at_count (agg_totals wkv.2.2) else 0) in E1; [|intros; by eapply adds_agg].
  cbn [fst] in E1. eapply adds_stats; [reflexivity| |exact E1].
  apply stats_each in E4; [rewrite E4|by intros s pid s' (lb & _ & [= <-])%bind_ret].
  rewrite (stats_each _ _ _ _ (stats_nccl cfg) E3).
  destruct (lc_detailed_launches cfg); [by injection E2 as <-|]. exact (stats_each _ _ _ _ (stats_launch cfg) E2).
Qed.

Lemma stats_kreg st wr st' : on_kreg st wr = Ret st' -> stats_of_main st' = stats_of_main st.
Proof.
  destruct wr as [w reg]. unfold on_kreg. case_match; [by intros [= <-]|]. case_match; [by intros [= <-]|].
  destruct (normalize_kernel_name _); [|done|done]. by intros [= <-].
Qed.

Lemma stats_sym st res st' : on_sym_result st res = Ret st' -> stats_of_main st' = stats_of_main st.
Proof.
  destruct res as [[pid addr] name]. unfold on_sym_result. case_match; [by intros [= <-]|].
  destruct (normalize_kernel_name _); [|done|done]. by intros [= <-].
Qed.

Lemma adds_readable cfg key changed events regs st st' :
  lc_report cfg = true -> on_readable cfg changed events regs st = Ret st' ->
  adds key (fed_stats key (M_readable changed events regs)) st st'.
Proof.
  intros Hr (st1 & E1 & E2)%bind_ret.
  apply (adds_each id key) with
    (g := fun we => Z.b2z (bool_decide ((ce_event_type we.2, ce_memcpy_kind we.2) = key))) in E1;
    [|intros; by eapply adds_event].
  eapply adds_stats; [| |exact E1]; unfold id; [by destruct (bool_decide (changed = ∅))|].
  destruct (bool_decide (lc_mode cfg = Full)); [|by injection E2 as <-].
  exact (stats_each _ _ _ _ stats_kreg E2).
Qed.

(** Flushing moves the local counts to the totals. *)
Lemma flush_counts key l ts :
  u64 (count_at key (foldl (fun ts (kv : Z * Z * TermStats) =>
         <[kv.1 := merge (default ts_default (ts !! kv.1)) kv.2]> ts) ts l))
  = u64 (count_at key ts + sumZ ((fun kv => if bool_decide (kv.1 = key) then ts_count kv.2 else 0) <$> l)).
Proof.
  revert ts. induction l as [|[k s] l IH]; intros ts; cbn [foldl]; [by rewrite Z.add_0_r|].
  rewrite IH, count_at_insert. csimpl. case_bool_decide as E; [subst k|f_equal; lia].
  fold (count_at key ts). rewrite <- wrap_add_l. rewrite Z.add_assoc, <- (wrap_add_l 64 (count_at key ts + _)). f_equal. f_equal.
  unfold merge, count_at. case_match eqn:E; [apply Z.eqb_eq in E; rewrite E; f_equal; lia|].
  cbn [ts_count]. by rewrite wrap_wrap.
Qed.

Lemma flush_fits key l ts :
  fits 64 (count_at key ts) ->
  fits 64 (count_at key (foldl (fun ts (kv : Z * Z * TermStats) =>
             <[kv.1 := merge (default ts_default (ts !! kv.1)) kv.2]> ts) ts l)).
Proof.
  intros Hts. apply (foldl_keeps (fun ts => fits 64 (count_at key ts))); [|done].
  intros m [k s] Hm. rewrite count_at_insert. cbn [fst snd]. case_bool_decide as E; [subst k|done].
  unfold merge. case_match; [exact Hm|]. by apply wrap_fits.
Qed.

Lemma count_total key m :
  sumZ ((fun kv => if bool_decide (kv.1 = key) then ts_count kv.2 else 0) <$> map_to_list m) = count_at key m.
Proof.
  induction m as [|k s m Hk IH] using map_ind; [done|].
  rewrite map_to_list_insert by done. csimpl. rewrite IH, count_at_insert.
  case_bool_decide as E; [subst|done]. unfold count_at. rewrite Hk. simpl. lia.
Qed.

Lemma gc_flushes cfg key w results writable st st' :
  lc_report cfg = true -> on_gc_tick cfg w results writable st = Ret st' ->
  local_count key st' = 0 /\ u64 (term_count key st') = u64 (term_count key st + local_count key st) /\
  (fits 64 (term_count key st) -> fits 64 (term_count key st')).
Proof.
  intros Hr. unfold on_gc_tick. rewrite Hr.
  destruct (if bool_decide (lc_mode cfg = Full) then _ else _) as [st1| |] eqn:E1; [|done|done].
  assert (H1 : stats_of_main st1 = stats_of_main st).
  { case_match; [exact (stats_each _ _ _ _ stats_sym E1)|by injection E1 as <-]. }
  cbn [mbind outcome_bind]. cbv zeta. destruct (gc _ _ _ _) as [u stale]. intros (st2 & E2 & [= <-])%bind_ret.
  apply stats_each in E2; [|intros s [[pid et] x] s'; by intros (lb & _ & [= <-])%bind_ret].
  assert (H2 : stats_of_main st2 = stats_of_main st).
  { rewrite <- H1, E2. by destruct (bool_decide (stale = [])), writable. }
  injection H2 as Hl Ht. unfold local_count, term_count, flush_stats.
  cbn [upd_stats ms_local_term_stats ms_term_stats]. rewrite Hl, Ht. split; [done|].
  rewrite flush_counts, count_total. split; [done|]. apply flush_fits.
Qed.

(** ** What a report shows *)

(** The calls under a key before the last gc tick, and those since. *)
Definition stats_step (key : Z * Z) (fp : Z * Z) (op : main_op) : Z * Z :=
  match op with
  | M_gc _ _ _ => (fp.1 + fp.2, 0)
  | _ => (fp.1, fp.2 + fed_stats key op)
  end.

Definition reported (key : Z * Z) (ops : list main_op) : Z := (foldl (stats_step key) (0, 0) ops).1.

Definition stats_agree (key : Z * Z) (fp : Z * Z) (st : MainState) : Prop :=
  u64 (term_count key st) = u64 fp.1 /\ u64 (local_count key st) = u64 fp.2 /\
  fits 64 (term_count key st) /\ fits 64 (local_count key st).

Lemma stats_agree_step cfg key fp op st st' :
  lc_report cfg = true -> stats_agree key fp st -> main_step cfg st op = Ret st' ->
  stats_agree key (stats_step key fp op) st'.
Proof.
  intros Hr (H1 & H2 & F1 & F2) Hst.
  assert (Hadd : forall n, adds key n st st' -> stats_agree key (fp.1, fp.2 + n) st').
  { intros n (A1 & A2 & A3). unfold stats_agree, term_count in *. rewrite A2. split_and!; auto.
    rewrite A1, <- wrap_add_l, H2, wrap_add_l. done. }
  destruct op as [changed es regs|w a l n|w results writable]; cbn [main_step stats_step] in *.
  - by apply Hadd, (adds_readable cfg).
  - by eapply Hadd, adds_agg_tick.
  - destruct (gc_flushes cfg key _ _ _ _ _ Hr Hst) as (G1 & G2 & G3). unfold stats_agree. rewrite G1, G2.
    split_and!; [|done|auto|by split]. cbn [fst]. rewrite <- wrap_add_l, <- wrap_add_r, H1, H2.
    by rewrite wrap_add_l, wrap_add_r.
Qed.

Lemma stats_agree_run cfg key ops fp st st' :
  lc_report cfg = true -> stats_agree key fp st -> run_main cfg ops st = Ret st' ->
  stats_agree key (foldl (stats_step key) fp ops) st'.
Proof.
  intros Hr. unfold run_main. revert fp st. induction ops as [|op ops IH]; intros fp st Hst; cbn [each foldl].
  { by intros [= <-]. }
  destruct (main_step cfg st op) as [st1| |] eqn:E1; [|done|done]. cbn [mbind outcome_bind].
  apply IH. by eapply stats_agree_step.
Qed.

(** The branches of [Loop] that an execution takes before it ends. *)
Fixpoint main_ops (acfg : AttachCfg) (a : Attached) (bs : list (Z * branch)) : list main_op :=
  match bs with
  | [] => []
  | (_, b) :: bs =>
      if negb (at_running a) then []
      else
        match b with
        | B_main op => op :: main_ops acfg a bs
        | B_attach req => main_ops acfg (on_attach acfg req a) bs
        | B_report => main_ops acfg a bs
        | B_poll_error | B_ctrl_c => []
        end
  end.

Lemma main_ops_stopped acfg a bs : at_running a = false -> main_ops acfg a bs = [].
Proof. intros Ha. destruct bs as [|[e b] bs]; [done|]. cbn [main_ops]. by rewrite Ha. Qed.

(** The loop refines its branches: attaching, reporting and the heartbeat leave its state alone. *)
Lemma run_select_main cfg acfg bs st st' :
  run_select cfg acfg bs st = Ret st' ->
  run_main cfg (main_ops acfg (sl_attached st) bs) (sl_main st) = Ret (sl_main st').
Proof.
  unfold run_select. revert st. induction bs as [|[e b] bs IH]; intros st; cbn [each]; [by intros [= <-]|].
  unfold select_step, running. cbn [main_ops]. destruct (at_running (sl_attached st)) eqn:Ha; cbn [negb].
  2:{ cbn [mbind outcome_bind]. intros H. apply IH in H. by rewrite main_ops_stopped in H by done. }
  assert (Hstop : forall s, at_running (sl_attached s) = false -> sl_main s = sl_main st ->
            each (select_step cfg acfg) s bs = Ret st' -> run_main cfg [] (sl_main st) = Ret (sl_main st')).
  { intros s Hs Hm H. apply IH in H. by rewrite main_ops_stopped, Hm in H by done. }
  destruct b as [op| |req| |]; cbn [mbind outcome_bind].
  - cbn [sl_main]. unfold run_main. cbn [each]. destruct (main_step cfg (sl_main st) op) as [m| |]; [|done|done].
    cbn [mbind outcome_bind]. intros H. apply IH in H. exact H.
  - by apply Hstop.
  - intros H. apply IH in H. exact H.
  - intros H. apply IH in H. unfold on_report in H. by case_match.
  - by apply Hstop.
Qed.

Lemma report_row stats key s :
  key.1 ∈ reported_types -> stats !! key = Some s -> ts_count s <> 0 -> row_of key s ∈ report_rows stats.
Proof.
  intros Hk Hs Hc. unfold report_rows. apply list_elem_of_bind. exists key.1. split; [|done].
  apply list_elem_of_bind. exists key. split.
  - rewrite Hs. destruct (Z.eqb_spec (ts_count s) 0); [done|]. by apply list_elem_of_singleton.
  - rewrite merge_sort_Permutation. apply list_elem_of_filter. split; [done|].
    apply list_elem_of_fmap. exists (key, s). split; [done|]. by apply elem_of_map_to_list.
Qed.

(** C13: the report counts the calls.  Run the loop with --report from its initial state, through
    any branches that it survives, and let the report be printed.  For every operation and
    direction the table of statistics holds the number of calls that the ring buffer and the
    aggregation map AGGREGATED brought before the last gc tick (modulo 2^64).  If that is not zero
    and the operation is one of the five that the report lists (cudaMalloc, cudaFree, cudaMemcpy,
    cudaMemcpyAsync, cudaLaunchKernel), a line with this count is among the printed ones.
    Launches and collectives that are drained from LAUNCH_AGG and NCCL_AGG are not in it. *)
Theorem report_counts_calls cfg acfg bs r st0 st elapsed key :
  lc_report cfg = true -> sl_main st0 = init_main r -> run_select cfg acfg bs st0 = Ret st ->
  running st = true ->
  let n := u64 (reported key (main_ops acfg (sl_attached st0) bs)) in
  exists lines s,
    select_step cfg acfg st (elapsed, B_report)
      = Ret (mkSelector (sl_main st) (sl_attached st) (u64 elapsed) (sl_printed st ++ lines)) /\
    default ts_default (ms_term_stats (sl_main st) !! key) = s /\ row_count (row_of key s) = n /\
    (n <> 0 -> key.1 ∈ reported_types -> row_text (row_of key s) ∈ lines).
Proof.
  intros Hr H0 Hrun Hgo n. apply run_select_main in Hrun. rewrite H0 in Hrun.
  assert (Hi : stats_agree key (0, 0) (init_main r)) by (split_and!; done).
  destruct (stats_agree_run cfg key _ _ _ _ Hr Hi Hrun) as (H1 & _ & F1 & _).
  fold (reported key (main_ops acfg (sl_attached st0) bs)) in H1. fold n in H1.
  rewrite (wrap_small 64 (term_count _ _)) in H1 by done. unfold term_count, count_at in H1.
  set (ts := ms_term_stats (sl_main st)) in *. set (s := default ts_default (ts !! key)) in *.
  exists (if bool_decide (ts = ∅) then [] else print_report ts), s. split.
  { unfold select_step. rewrite Hgo. cbn [negb]. unfold on_report. cbn [sl_main sl_attached sl_heartbeat sl_printed].
    fold ts. rewrite Hr. cbn [andb]. case_bool_decide; cbn [negb]; by rewrite ?app_nil_r. }
  split; [done|]. split; [exact H1|]. intros Hn Hk. destruct (ts !! key) as [s'|] eqn:Es.
  2:{ destruct Hn. by rewrite <- H1. }
  rewrite bool_decide_false by (intros E; by rewrite E, lookup_empty in Es).
  unfold print_report. right. right. apply elem_of_app. left. apply list_elem_of_fmap.
  exists (row_of key s). split; [done|]. apply report_row; [done|done|].
  intros E0. apply Hn. rewrite <- H1. exact E0.
Qed.

(** The health probe watches the loop: after an iteration it fails exactly when none has begun for
    30 seconds. *)
Lemma health_follows_loop cfg acfg st eb st' mode now :
  running st = true -> select_step cfg acfg st eb = Ret st' -> 0 < eb.1 <= now -> now < 2 ^ 64 ->
  (handle_health now (shared mode st')).1 = S_SERVICE_UNAVAILABLE <-> HEARTBEAT_STALE_NS <= now - eb.1.
Proof.
  intros Hgo Hst Ht Hnow. assert (sl_heartbeat st' = u64 eb.1) as Hb.
  { destruct eb as [e b]. unfold select_step in Hst. rewrite Hgo in Hst. cbn [negb] in Hst.
    destruct b; try (by injection Hst as <-).
    - cbn [sl_main] in Hst. destruct (main_step _ _ _); [|done|done]. by injection Hst as <-.
    - injection Hst as <-. unfold on_report. by case_match. }
  pose proof (health_stale_iff eb.1 now (shared mode st') Ht Hnow) as H. unfold handle_health, beat in *.
  cbn [shared heartbeat_ns] in *. by rewrite Hb.
Qed.
End Select.

(** ** An example *)

#[local] Existing Instance sample_tables.
#[local] Existing Instance demo_loader.

Definition start_selector : Selector :=
  mkSelector (init_main empty_store) (mkAttached [] 0 true) 0 [].

(** Five allocations and two copies before the gc tick, one copy after it. *)
Definition demo_branches : list (Z * branch) :=
  [(1, B_attach cudart_request);
   (2, B_main (M_readable ∅ [(sample_world 0, sample_event 7 80)] []));
   (3, B_main (M_agg (sample_world 20)
        [(sample_world 21, (mkAggKey EVENT_CUDA_MALLOC 9 0 0 0, [mkAggValue 5 900 640 (replicate 14 0)]))] [] []));
   (4, B_main (M_gc (sample_world 22) [] true));
   (5, B_main (M_readable ∅ [(sample_world 23, sample_event 7 80)] []))].

Definition demo_acfg : AttachCfg := mkAttachCfg Full ProbeFull false None.

Definition demo_end : Selector :=
  ret_or start_selector (run_select sample_cfg demo_acfg demo_branches start_selector).

Lemma demo_end_facts :
  run_select sample_cfg demo_acfg demo_branches start_selector = Ret demo_end /\ running demo_end = true /\
  u64 (reported (EVENT_CUDA_MALLOC, 0) (main_ops demo_acfg (sl_attached start_selector) demo_branches)) = 5.
Proof.
  split; [apply returns_ret|split]; vm_compute; reflexivity.
Qed.

Lemma report_counts_calls_witness :
  exists lines s,
    select_step sample_cfg demo_acfg demo_end (6, B_report)
      = Ret (mkSelector (sl_main demo_end) (sl_attached demo_end) (u64 6) (sl_printed demo_end ++ lines)) /\
    row_text (row_of (EVENT_CUDA_MALLOC, 0) s) ∈ lines /\ row_count (row_of (EVENT_CUDA_MALLOC, 0) s) = 5.
Proof.
  destruct demo_end_facts as (E & Hgo & H5).
  destruct (report_counts_calls (PM := store_prometheus) sample_cfg demo_acfg demo_branches empty_store
    start_selector demo_end 6 (EVENT_CUDA_MALLOC, 0) eq_refl eq_refl E Hgo) as (lines & s & H1 & _ & H2 & H3).
  exists lines, s. rewrite H5 in H2, H3. split; [exact H1|]. split; [apply H3; [done|left]|exact H2].
Defined.
