(* ===== verification/Startup.v ===== *)
(** * The program from its arguments: [main] of src/src/main.rs

    The arguments with their defaults, start-up in the order of the source with every error that
    ends it, and the program: start-up followed by the select loop.  What libbpf, tokio, the
    Kubernetes client and the file system answer during start-up is the record [StartEnv]. *)

From stdpp Require Import strings.
From S2P Require Import Prelude RustStd F64 Events Runtime Probes Step Demo Invariant PerCpu Ledger RingLedger Calls CLayout KernelBpf Layouts Drain Export Tick Kernel Metrics Cache CacheInv Symbols Report Loop LoopInv Straggler System Server Security Otlp Discovery Attach Nvml Profi Select.

Local Open Scope Z_scope.
#[local] Set Warnings "-clear-no-such-hyp".

(** ** Arguments *)

Record Args := mkArgs {
  a_pid : Z;
  a_cudart : str;
  a_listen : str;
  a_report_interval : Z;
  a_proc_path : str;
  a_node_name : option str;
  a_refresh_interval : Z;
  a_gc_interval : Z;
  a_kernel_mode : KernelMode;
  a_probe_profile : ProbeProfile;
  a_enable_nvtx_tracing : bool;
  a_max_time_series : Z;
  a_max_streams_per_pid : Z;
  a_max_kernels_per_pid : Z;
  a_entries_size : Z;
  a_aggregated_size : Z;
  a_launch_agg_size : Z;
  a_detailed_launches : bool;
  a_malloc_sizes_size : Z;
  a_sample_rate : Z;
  a_disable_nvml : bool;
  a_nvml_interval : Z;
  a_nccl_hang_timeout : Z;
  a_otlp : OtlpArgs;
  a_metrics_security : MetricsSecurityArgs
}.

(** The defaults; those of the two flattened groups are theirs. *)
Definition default_args (otlp : OtlpArgs) (security : MetricsSecurityArgs) : Args :=
  mkArgs 0 (lit "/usr/local/cuda/lib64/libcudart.so") (lit "0.0.0.0:9401") 0 (lit "/proc") None 10 60
    Anonymous ProbeLean false 50000 32 512 10240 2048 8192 false 131072 1 false 5 60 otlp security.

Definition with_gc_interval (secs : Z) (a : Args) : Args :=
  mkArgs (a_pid a) (a_cudart a) (a_listen a) (a_report_interval a) (a_proc_path a) (a_node_name a)
    (a_refresh_interval a) secs (a_kernel_mode a) (a_probe_profile a) (a_enable_nvtx_tracing a)
    (a_max_time_series a) (a_max_streams_per_pid a) (a_max_kernels_per_pid a) (a_entries_size a)
    (a_aggregated_size a) (a_launch_agg_size a) (a_detailed_launches a) (a_malloc_sizes_size a)
    (a_sample_rate a) (a_disable_nvml a) (a_nvml_interval a) (a_nccl_hang_timeout a) (a_otlp a)
    (a_metrics_security a).

(** ** The maps that are loaded *)

(** The four calls of [set_max_entries]. *)
Definition map_sizes (a : Args) : list (string * Z) :=
  [("INFLIGHT", a_entries_size a); ("AGGREGATED", a_aggregated_size a);
   ("MALLOC_SIZES", a_malloc_sizes_size a); ("LAUNCH_AGG", a_launch_agg_size a)].

Definition resized (sizes : list (string * Z)) (m : MapDef) : MapDef :=
  match by_name (md_name m) sizes with
  | Some n => mkMapDef (md_name m) (md_type m) n (md_key m) (md_value m)
  | None => m
  end.

Definition loaded_maps (a : Args) : list MapDef := resized (map_sizes a) <$> profi_maps.

Definition max_entries_of (name : string) (maps : list MapDef) : Z :=
  default 0 (head (omap (fun m => if String.eqb (md_name m) name then Some (md_max_entries m) else None) maps)).

(** The capacities the tracer runs with. *)
Definition load_cfg (nr_cpus : nat) (a : Args) : LoadCfg :=
  let cap name := Z.to_nat (max_entries_of name (loaded_maps a)) in
  {| NR_CPUS := nr_cpus;
     aggregated_max_entries := cap "AGGREGATED";
     launch_agg_max_entries := cap "LAUNCH_AGG";
     nccl_agg_max_entries := cap "NCCL_AGG";
     upgraded_pids_max_entries := cap "UPGRADED_PIDS" |}.

(** ** Start-up *)

Definition kernel_mode_name (m : KernelMode) : str :=
  match m with Full => lit "full" | Anonymous => lit "anonymous" | Off => lit "off" end.

(** The value of KERNEL_AGG_MODE. *)
Definition mode_val (m : KernelMode) : Z := match m with Anonymous => 1 | _ => 0 end.

Section Startup.
Context {PM : Prometheus} {HK : HashOrder MetricKey} {HZ : HashOrder Z} {UT : UnicodeTables}
  {LD : Loader} {TL : Tls} {TC : TokenCache} {HT : Http} {OL : OtlpLib}.

Record StartEnv := mkStartEnv {
  se_crypto_provider : bool;             (* install_default *)
  se_open : bool;                        (* the skeleton opens *)
  se_set_max_entries : string -> bool;
  se_load : list MapDef -> bool;         (* the verifier and the creation of the maps *)
  se_update : string -> bool;            (* the first write of a configuration map *)
  se_nr_cpus : nat;
  se_exists : str -> bool;               (* asked twice for --cudart, with one answer *)
  se_metadata : str -> option DevInode;
  se_registry : option Registry;         (* Metrics::new *)
  se_vars : EnvVars;
  se_files : Files;
  se_version : str;
  se_wall : Z;
  se_elapsed : Z;
  se_k8s_client : bool;
  se_nvml : option NvmlInit;
  se_ringbuf : string -> bool;           (* registration of a callback *)
  se_ring_build : bool;
  se_async_fd : bool
}.

Inductive MainError :=
| E_security (e : ConfigError)
| E_crypto
| E_open
| E_set_max_entries (map : string)
| E_load
| E_init (map : string)
| E_metrics
| E_otlp_config (e : OtlpError)
| E_otlp_start (e : ExporterError)
| E_server (e : StartError)
| E_ringbuf (map : string)
| E_ring_build
| E_async_fd.

(** What runs after start-up.  The server, the bridge and the poller are tasks: an error or a
    panic of theirs ends the task only. *)
Record Started := mkStarted {
  su_bpf : BpfState;
  su_initial : gset DevInode;            (* given to the discovery thread *)
  su_bridge : option (outcome Bridge);
  su_server : outcome (result ServeError HttpServer);
  su_poller : option (outcome NvmlPoller);
  su_loop : LoopCfg;
  su_hang_timeout_ns : Z;
  su_selector : Selector
}.

(** [Err] unless a condition holds. *)
Definition ensure (b : bool) (e : MainError) : outcome (result MainError ()) :=
  Ret (if b then Ok () else Err e).

Fixpoint set_all (env : StartEnv) (sizes : list (string * Z)) : outcome (result MainError ()) :=
  match sizes with
  | [] => Ret (Ok ())
  | (map, _) :: sizes => _ ←? ensure (se_set_max_entries env map) (E_set_max_entries map); set_all env sizes
  end.

Definition attach_cfg (a : Args) : AttachCfg :=
  mkAttachCfg (a_kernel_mode a) (a_probe_profile a) (a_enable_nvtx_tracing a) (pid_option (a_pid a)).

Definition loop_cfg (a : Args) : LoopCfg :=
  mkLoopCfg (a_kernel_mode a) (0 <? a_report_interval a)
    (mkCardinalityLimits (Z.to_nat (a_max_time_series a)) (Z.to_nat (a_max_streams_per_pid a))
       (Z.to_nat (a_max_kernels_per_pid a)))
    (a_detailed_launches a) (a_gc_interval a * SECOND).

(** [tokio::time::interval] panics on a zero period. *)
Definition interval_of {A} (secs : Z) (x : A) : outcome A := if secs =? 0 then Panic else Ret x.

Definition start_otlp (env : StartEnv) (a : Args) : outcome (result MainError (option (outcome Bridge))) :=
  match resolve (se_vars env) (a_otlp a) with
  | Err e => Ret (Err (E_otlp_config e))
  | Ok None => Ret (Ok None)
  | Ok (Some cfg) =>
      match start_bridge (se_files env) (se_version env) (se_vars env) cfg (se_wall env) (se_elapsed env) with
      | Err e => Ret (Err (E_otlp_start e))
      | Ok b => Ret (Ok (Some (task_begin b)))
      end
  end.

(** The skeleton is opened, sized, loaded and configured. *)
Definition load_bpf (env : StartEnv) (a : Args) : outcome (result MainError BpfState) :=
  _ ←? ensure (se_open env) E_open;
  _ ←? set_all env (map_sizes a);
  _ ←? ensure (se_load env (loaded_maps a)) E_load;
  _ ←? ensure (se_update env "KERNEL_AGG_MODE") (E_init "KERNEL_AGG_MODE");
  _ ←? (if 1 <? a_sample_rate a then ensure (se_update env "SAMPLE_RATE") (E_init "SAMPLE_RATE")
        else Ret (Ok ()));
  _ ←? ensure (se_update env "DETAILED_LAUNCHES") (E_init "DETAILED_LAUNCHES");
  Ret (Ok (configure (a_sample_rate a) (mode_val (a_kernel_mode a)) (Z.b2z (a_detailed_launches a))
             (@init_state (load_cfg (se_nr_cpus env) a)))).

(** The ring buffers get their callbacks. *)
Definition open_rings (env : StartEnv) (a : Args) : outcome (result MainError ()) :=
  _ ←? ensure (se_ringbuf env "EVENTS") (E_ringbuf "EVENTS");
  _ ←? (if bool_decide (a_kernel_mode a = Full) then ensure (se_ringbuf env "KERNEL_REGS") (E_ringbuf "KERNEL_REGS")
        else Ret (Ok ()));
  _ ←? ensure (se_ring_build env) E_ring_build;
  ensure (se_async_fd env) E_async_fd.

Definition startup (env : StartEnv) (a : Args) : outcome (result MainError Started) :=
  match validate (a_metrics_security a) with
  | Err e => Ret (Err (E_security e))
  | Ok _ =>
      _ ←? ensure (se_crypto_provider env) E_crypto;
      bpf ←? load_bpf env a;
      let '(attached, initial) :=
        initial_attach (attach_cfg a) (a_cudart a) (se_exists env (a_cudart a)) (se_metadata env (a_cudart a)) in
      registry ←? Ret (ok_or E_metrics (se_registry env));
      bridge ←? start_otlp env a;
      reviewer ←? map_err E_server (start_reviewer (se_k8s_client env) (a_metrics_security a));
      let server := serve_http (se_files env) (a_listen a) (a_metrics_security a) reviewer in
      let poller := if a_disable_nvml a then None
                    else interval_of (a_nvml_interval a) <$> new_poller (se_nvml env) in
      _ ←? open_rings env a;
      _ ← interval_of (a_gc_interval a) ();
      Ret (Ok (mkStarted bpf initial bridge server poller (loop_cfg a)
                 (u64 (a_nccl_hang_timeout a * SECOND))
                 (mkSelector (init_main registry) attached 0 [])))
  end.

(** ** The program *)

(** [app_state] after start-up, as the loop changes it. *)
Definition app_state (a : Args) (st : Selector) : AppState := shared (kernel_mode_name (a_kernel_mode a)) st.

Definition profi_main (env : StartEnv) (a : Args) (bs : list (Z * branch)) : outcome (result MainError Selector) :=
  p ←? startup env a;
  st ← run_select (su_loop p) (attach_cfg a) bs (su_selector p);
  Ret (Ok st).

(** ** Errors and panics of start-up *)

Lemma try_bind_ok {E A B} (m : outcome (result E A)) (f : A -> outcome (result E B)) b :
  try_bind f m = Ret (Ok b) <-> exists a, m = Ret (Ok a) /\ f a = Ret (Ok b).
Proof. destruct m as [[a|e]| |]; simpl; naive_solver. Qed.

Lemma try_bind_ret {E A B} (m : outcome (result E A)) (f : A -> outcome (result E B)) a :
  m = Ret (Ok a) -> try_bind f m = f a.
Proof. by intros ->. Qed.

Lemma ensure_ok b e u : ensure b e = Ret (Ok u) -> b = true.
Proof. by destruct b. Qed.

Lemma map_err_ok {E E' A} (f : E -> E') (m : outcome (result E A)) a :
  map_err f m = Ret (Ok a) -> m = Ret (Ok a).
Proof. unfold map_err. destruct m as [[x|e]| |]; simpl; congruence. Qed.

(** The steps of a start-up that succeeded. *)
Ltac invert_start H :=
  repeat match type of H with
  | try_bind _ _ = Ret (Ok _) =>
      let x := fresh "x" in let Hx := fresh "Hx" in
      apply try_bind_ok in H; destruct H as (x & Hx & H); try apply ensure_ok in Hx; cbv beta in H
  end.

(** Steps that return. *)
Definition quiet {A} (o : outcome A) : Prop := exists a, o = Ret a.

Lemma quiet_bind {E A B} (m : outcome (result E A)) (f : A -> outcome (result E B)) :
  quiet m -> (forall a, quiet (f a)) -> quiet (try_bind f m).
Proof. intros [[a|e] ->] Hf; simpl; [by apply Hf|by eexists]. Qed.

Lemma quiet_ret {A} (a : A) : quiet (Ret a).
Proof. by eexists. Qed.

Lemma quiet_if {A} (b : bool) (x y : outcome A) : quiet x -> quiet y -> quiet (if b then x else y).
Proof. by destruct b. Qed.

Lemma quiet_ensure b e : quiet (ensure b e).
Proof. apply quiet_ret. Qed.

Lemma set_all_quiet env sizes : quiet (set_all env sizes).
Proof.
  induction sizes as [|[m n] sizes IH]; cbn [set_all]; [apply quiet_ret|].
  apply quiet_bind; [apply quiet_ensure|done].
Qed.

Lemma start_otlp_quiet env a : quiet (start_otlp env a).
Proof. unfold start_otlp. repeat case_match; apply quiet_ret. Qed.

Create HintDb quiet.
#[local] Hint Resolve quiet_bind quiet_ret quiet_if quiet_ensure set_all_quiet start_otlp_quiet : quiet.

Lemma load_bpf_quiet env a : quiet (load_bpf env a).
Proof. unfold load_bpf. auto 20 with quiet. Qed.

Lemma open_rings_quiet env a : quiet (open_rings env a).
Proof. unfold open_rings. auto 20 with quiet. Qed.

#[local] Hint Resolve load_bpf_quiet open_rings_quiet : quiet.

Lemma start_reviewer_quiet client args :
  (needs_k8s_client args = true -> metrics_auth_cache_ttl args <= YEARS_1000_SECS) ->
  quiet (map_err E_server (start_reviewer client args)).
Proof.
  intros Ht. unfold start_reviewer, new_reviewer. destruct (needs_k8s_client args); [|apply quiet_ret].
  destruct client; [|apply quiet_ret]. destruct (Z.ltb_spec YEARS_1000_SECS (metrics_auth_cache_ttl args)).
  - specialize (Ht eq_refl). lia.
  - apply quiet_ret.
Qed.

Lemma startup_quiet env a :
  a_gc_interval a <> 0 ->
  (needs_k8s_client (a_metrics_security a) = true ->
   metrics_auth_cache_ttl (a_metrics_security a) <= YEARS_1000_SECS) ->
  quiet (startup env a).
Proof.
  intros Hg Ht. unfold startup. case_match; [|apply quiet_ret].
  destruct (initial_attach _ _ _ _) as [attached initial].
  pose proof (start_reviewer_quiet (se_k8s_client env) _ Ht).
  unfold interval_of at 2. rewrite (proj2 (Z.eqb_neq _ _) Hg). cbn [mbind outcome_bind].
  auto 20 with quiet.
Qed.

(** Nothing in start-up runs on fuel. *)
Definition ends {A} (o : outcome A) : Prop := o <> NoFuel.

Lemma ends_bind {E A B} (m : outcome (result E A)) (f : A -> outcome (result E B)) :
  ends m -> (forall a, ends (f a)) -> ends (try_bind f m).
Proof. unfold ends. intros Hm Hf. destruct m as [[a|e]| |]; simpl; [apply Hf|done|done|done]. Qed.

Lemma ends_quiet {A} (o : outcome A) : quiet o -> ends o.
Proof. by intros [a ->]. Qed.

Lemma startup_ends env a : ends (startup env a).
Proof.
  assert (Hr : ends (map_err E_server (start_reviewer (se_k8s_client env) (a_metrics_security a)))).
  { unfold start_reviewer, new_reviewer. by repeat case_match. }
  unfold startup. case_match; [|done]. destruct (initial_attach _ _ _ _) as [attached initial].
  repeat (apply ends_bind; [first [exact Hr|apply ends_quiet; auto with quiet]|intros ?]).
  unfold interval_of. by destruct (a_gc_interval a =? 0).
Qed.

(** What a start-up that succeeded did. *)
Lemma startup_inv env a p :
  startup env a = Ret (Ok p) ->
  validate (a_metrics_security a) = Ok () /\ se_load env (loaded_maps a) = true /\
  a_gc_interval a <> 0 /\
  exists registry reviewer,
    se_registry env = Some registry /\
    start_reviewer (se_k8s_client env) (a_metrics_security a) = Ret (Ok reviewer) /\
    su_server p = serve_http (se_files env) (a_listen a) (a_metrics_security a) reviewer /\
    su_bpf p = configure (a_sample_rate a) (mode_val (a_kernel_mode a)) (Z.b2z (a_detailed_launches a))
                 (@init_state (load_cfg (se_nr_cpus env) a)) /\
    su_loop p = loop_cfg a /\
    sl_main (su_selector p) = init_main registry /\
    (sl_attached (su_selector p), su_initial p)
      = initial_attach (attach_cfg a) (a_cudart a) (se_exists env (a_cudart a)) (se_metadata env (a_cudart a)).
Proof.
  unfold startup. destruct (validate (a_metrics_security a)) as [[]|e] eqn:Ev; [|done]. intros H.
  apply try_bind_ok in H as ([] & _ & H). apply try_bind_ok in H as (bpf & Hb & H).
  destruct (initial_attach _ _ _ _) as [attached initial] eqn:Ea.
  apply try_bind_ok in H as (registry & Hr & H). apply try_bind_ok in H as (bridge & _ & H).
  apply try_bind_ok in H as (reviewer & Hv & H). apply try_bind_ok in H as ([] & _ & H).
  apply map_err_ok in Hv. unfold interval_of at 2 in H. destruct (Z.eqb_spec (a_gc_interval a) 0) as [|Hg]; [done|].
  cbn [mbind outcome_bind] in H. injection H as <-.
  unfold load_bpf in Hb. invert_start Hb. injection Hb as <-.
  split_and!; [done|done|done|].
  exists registry, reviewer. destruct (se_registry env); [|done]. by injection Hr as ->.
Qed.

(** C39: the panics of start-up.  Start-up always ends, with an error or ready to run, except in
    two cases: --gc-interval is zero, or tokens are to be reviewed and the time to live of the
    review cache is above the limit of the cache.  Arguments with which the program starts make
    it panic when only their --gc-interval is set to zero. *)
Theorem startup_panics env a :
  ((exists r, startup env a = Ret r) \/
   (startup env a = Panic /\
    (a_gc_interval a = 0 \/ (needs_k8s_client (a_metrics_security a) = true /\
                             YEARS_1000_SECS < metrics_auth_cache_ttl (a_metrics_security a))))) /\
  (forall p, startup env a = Ret (Ok p) -> startup env (with_gc_interval 0 a) = Panic).
Proof.
  split.
  - pose proof (startup_ends env a) as He. destruct (startup env a) as [r| |] eqn:Es; [by left; exists r|right|by destruct He].
    split; [done|]. destruct (Z.eq_dec (a_gc_interval a) 0) as [|Hg]; [by left|right].
    destruct (needs_k8s_client (a_metrics_security a)) eqn:Hn, (Z.ltb_spec YEARS_1000_SECS (metrics_auth_cache_ttl (a_metrics_security a)));
      try done; destruct (startup_quiet env a Hg) as [r Hr]; congruence.
  - intros p Hp. unfold startup in Hp |- *. change (a_metrics_security (with_gc_interval 0 a)) with (a_metrics_security a).
    destruct (validate (a_metrics_security a)); [|done].
    change (load_bpf env (with_gc_interval 0 a)) with (load_bpf env a).
    change (start_otlp env (with_gc_interval 0 a)) with (start_otlp env a).
    change (open_rings env (with_gc_interval 0 a)) with (open_rings env a).
    change (attach_cfg (with_gc_interval 0 a)) with (attach_cfg a).
    change (a_cudart (with_gc_interval 0 a)) with (a_cudart a).
    destruct (initial_attach _ _ _ _) as [attached initial].
    repeat (apply try_bind_ok in Hp as (? & Hx & Hp); rewrite (try_bind_ret _ _ _ Hx); clear Hx). done.
Qed.

(** C15: what start-up leaves.  When it succeeds, the kernel has accepted the maps of profi.bpf.c
    with the four sizes of the arguments in place of their own; the tracer starts from empty maps
    of these capacities, with the sampling rate of the arguments and with the launch mode and the
    detailed-launches flag that the main loop assumes; the loop starts from its initial state over
    the new registry, and its gc interval is not zero.  /ready answers ready if and only if the
    file --cudart exists, whether or not a program could be attached to it; the file is left to
    the discovery thread unless all programs were. *)
Theorem startup_ready env a p :
  startup env a = Ret (Ok p) -> fits 32 (a_sample_rate a) ->
  let LC := load_cfg (se_nr_cpus env) a in
  let cap name := max_entries_of name (loaded_maps a) in
  se_load env (loaded_maps a) = true /\
  (cap "INFLIGHT", cap "AGGREGATED", cap "LAUNCH_AGG", cap "MALLOC_SIZES")
    = (a_entries_size a, a_aggregated_size a, a_launch_agg_size a, a_malloc_sizes_size a) /\
  (forall m, m ∈ profi_maps -> md_name m ∉ (map_sizes a).*1 -> m ∈ loaded_maps a) /\
  @fresh LC (su_bpf p) /\
  cfg_u32 (DETAILED_LAUNCHES (su_bpf p)) = Z.b2z (lc_detailed_launches (su_loop p)) /\
  (cfg_u32 (KERNEL_AGG_MODE (su_bpf p)) = 1 <-> lc_mode (su_loop p) = Anonymous) /\
  cfg_u32 (SAMPLE_RATE (su_bpf p)) = (if 1 <? a_sample_rate a then a_sample_rate a else 0) /\
  (exists registry, se_registry env = Some registry /\ sl_main (su_selector p) = init_main registry) /\
  a_gc_interval a <> 0 /\
  (handle_ready (app_state a (su_selector p))).1
    = (if se_exists env (a_cudart a) then S_OK else S_SERVICE_UNAVAILABLE) /\
  (su_initial p <> ∅ ->
   exists n, (attach_probes [] (runtime_probes (a_kernel_mode a) (a_probe_profile a)) (a_cudart a)
                (pid_option (a_pid a))).2 = Ok n).
Proof.
  intros Hst Hrate. destruct (startup_inv env a p Hst) as (Hv & Hm & Hg & reg & rv & Hr & Hrv & Hs & Hb & Hl & Hmain & Ha).
  cbv zeta. rewrite Hb, Hl. split_and!; try done.
  - intros m Hin Hno. apply list_elem_of_fmap. exists m. split; [|done]. symmetry. unfold resized.
    destruct (by_name (md_name m) (map_sizes a)) as [n|] eqn:E; [|done]. apply by_name_elem in E.
    destruct Hno. apply list_elem_of_fmap. by exists (md_name m, n).
  - by apply configure_fresh.
  - apply configure_detailed.
  - change (lc_mode (loop_cfg a)) with (a_kernel_mode a).
    unfold configure. by destruct (1 <? a_sample_rate a), (a_kernel_mode a).
  - unfold configure. by destruct (1 <? a_sample_rate a).
  - by exists reg.
  - unfold initial_attach in Ha. unfold app_state, handle_ready, shared. cbn [libs_attached ring_buffer_open k8s_ready].
    destruct (se_exists env (a_cudart a)); [destruct (attach_probes _ _ _ _) as [? []]|]; by injection Ha as -> _.
  - unfold initial_attach in Ha. destruct (se_exists env (a_cudart a)); [|by injection Ha as _ ->].
    unfold attach_cfg in Ha. cbn [ac_mode ac_profile ac_pid] in Ha.
    destruct (attach_probes _ _ _ _) as [? [n|]]; [by exists n|by injection Ha as _ ->].
Qed.

(** ** The running program *)

(** What the attach branch links for a library. *)
Definition lib_links (acfg : AttachCfg) (lib : str) : list (string * list string) :=
  if bool_decide (lib = lit "libnccl.so")
  then [("nccl_count_dtype_3_4", count_dtype_3_4.*1); ("nccl_count_dtype_2_3", count_dtype_2_3.*1);
        ("nccl_multi_ret", retprobes.*1)]
  else (fun pf => (pf.1, [pf.2])) <$> probeset acfg lib.

(** Everything can be linked. *)
Definition attachable (acfg : AttachCfg) (req : AttachRequest) : bool :=
  forallb (fun pf => can_attach pf.1 pf.2 (ar_host_path req) (ac_pid acfg)) (lib_links acfg (ar_lib req)).

(** The branches that end the loop. *)
Definition ends_loop (acfg : AttachCfg) (b : branch) : bool :=
  match b with
  | B_poll_error | B_ctrl_c => true
  | B_attach req => bool_decide (ar_lib req = lit "libnccl.so") && negb (attachable acfg req)
  | _ => false
  end.

(** The branches that are taken. *)
Fixpoint taken (acfg : AttachCfg) (bs : list (Z * branch)) : list branch :=
  match bs with
  | [] => []
  | (_, b) :: bs => b :: if ends_loop acfg b then [] else taken acfg bs
  end.

Definition ring_events (b : branch) : Z :=
  match b with B_main (M_readable _ events _) => Z.of_nat (length events) | _ => 0 end.

Definition counted (acfg : AttachCfg) (b : branch) : bool :=
  match b with B_attach req => attachable acfg req | _ => false end.

Lemma probes_known acfg lib :
  forallb (fun pf => bool_decide (is_Some (by_name pf.1 (uprobe_programs [])))) (probeset acfg lib) = true.
Proof.
  unfold probeset. destruct acfg as [m p n o]; cbn [ac_mode ac_profile ac_nvtx].
  repeat case_match; try done; destruct m, p; vm_compute; reflexivity.
Qed.

Lemma attach_probes_all links probes path pid :
  forallb (fun pf => bool_decide (is_Some (by_name pf.1 (uprobe_programs [])))) probes = true ->
  (exists n, (attach_probes links probes path pid).2 = Ok n) <->
  forallb (fun pf => can_attach pf.1 [pf.2] path pid) probes = true.
Proof.
  revert links. induction probes as [|[prog func] probes IH]; intros links; cbn [forallb attach_probes fst snd].
  { intros _. split; [done|by exists 0]. }
  intros [Hk Hks]%andb_prop. apply bool_decide_eq_true in Hk as [x Hx]. unfold attach_uprobe. rewrite Hx.
  destruct (can_attach prog [func] path pid); cbn [andb]; [|split; [by intros []|done]].
  rewrite <- (IH (links ++ [mkLink prog [(func, 0)] (ends_with_ret prog) path pid]) Hks).
  destruct (attach_probes _ probes path pid) as [links' [n|e]]; cbn [snd]; split; intros [k Hk']; try done; by eexists.
Qed.

Lemma on_attach_counts acfg req a :
  at_running a = true ->
  at_libs_attached (on_attach acfg req a) = at_libs_attached a + Z.b2z (attachable acfg req) /\
  at_running (on_attach acfg req a) = negb (ends_loop acfg (B_attach req)).
Proof.
  intros Ha. unfold on_attach, ends_loop, attachable, lib_links. rewrite Ha. cbn [negb].
  case_bool_decide as Hl; cbn [andb].
  - unfold attach_nccl_probes_multi, attach_multi. cbn [forallb fst snd].
    repeat destruct (can_attach _ _ _ _); cbn; split; lia || done.
  - pose proof (attach_probes_all (at_links a) _ (ar_host_path req) (ac_pid acfg) (probes_known acfg (ar_lib req))) as H.
    rewrite forallb_fmap. cbn [fst snd]. destruct (attach_probes _ _ _ _) as [links [n|e]]; cbn [snd] in H.
    + rewrite (proj1 H) by by exists n. done.
    + destruct (forallb _ _) eqn:E; [|split; cbn; lia || done]. by destruct (proj2 H eq_refl).
Qed.

(** ** Events processed *)

Lemma processed_see_pid w pid st : ms_events_processed (see_pid w pid st) = ms_events_processed st.
Proof. unfold see_pid. simpl. by case_match. Qed.

Lemma processed_request_name cfg pid addr st :
  ms_events_processed (request_name cfg pid addr st) = ms_events_processed st.
Proof. unfold request_name. by case_match. Qed.

Lemma processed_event cfg st we st' :
  on_event cfg st we = Ret st' -> ms_events_processed st' = u64 (ms_events_processed st + 1).
Proof.
  destruct we as [w e]. intros (u & h & ->)%on_event_inv. unfold event_effect.
  set (st1 := see_pid _ _ _).
  assert (E : ms_events_processed st1 = u64 (ms_events_processed st + 1)).
  { unfold st1. rewrite processed_see_pid. case_match; rewrite ?processed_request_name; by case_match. }
  clearbody st1. by case_match.
Qed.

Lemma processed_events cfg l st st' :
  fits 64 (ms_events_processed st) -> each (on_event cfg) st l = Ret st' ->
  ms_events_processed st' = u64 (ms_events_processed st + Z.of_nat (length l)).
Proof.
  revert st. induction l as [|we l IH]; intros st Hst; cbn [each length].
  { intros [= <-]. by rewrite Z.add_0_r, wrap_small. }
  intros (st1 & E%processed_event & Hl)%bind_ret.
  rewrite (IH st1), E by (done || rewrite E; by apply wrap_fits). rewrite wrap_add_l. f_equal. lia.
Qed.

Lemma processed_each {A} (f : MainState -> A -> outcome MainState) l st st' :
  (forall st a st', f st a = Ret st' -> ms_events_processed st' = ms_events_processed st) ->
  each f st l = Ret st' -> ms_events_processed st' = ms_events_processed st.
Proof.
  intros Hf He. apply (each_keeps (fun s => ms_events_processed s = ms_events_processed st) f l st st'); [|done|done].
  intros s a s' Hs <-. by eapply Hf.
Qed.

Lemma processed_kreg st wr st' : on_kreg st wr = Ret st' -> ms_events_processed st' = ms_events_processed st.
Proof.
  destruct wr as [w reg]. unfold on_kreg. case_match; [by intros [= <-]|]. case_match; [by intros [= <-]|].
  destruct (normalize_kernel_name _); [|done|done]. by intros [= <-].
Qed.

Lemma processed_sym st res st' : on_sym_result st res = Ret st' -> ms_events_processed st' = ms_events_processed st.
Proof.
  destruct res as [[pid addr] name]. unfold on_sym_result. case_match; [by intros [= <-]|].
  destruct (normalize_kernel_name _); [|done|done]. by intros [= <-].
Qed.

Lemma processed_agg cfg sd wkv sd' :
  agg_callback cfg sd wkv = Ret sd' -> ms_events_processed sd'.1 = ms_events_processed sd.1.
Proof.
  destruct sd as [s d], wkv as [w [k v]]. unfold agg_callback. case_match; [by intros [= <-]|].
  intros ([u h] & _ & <-%Ret_inj)%bind_ret. set (s1 := see_pid _ _ _).
  assert (E : ms_events_processed s1 = ms_events_processed s) by (unfold s1; by rewrite processed_see_pid).
  clearbody s1. cbn [fst]. by case_match.
Qed.

Lemma processed_nccl cfg st wkv st' :
  nccl_callback cfg st wkv = Ret st' -> ms_events_processed st' = ms_events_processed st.
Proof.
  destruct wkv as [w [k v]]. unfold nccl_callback. case_match; [by intros [= <-]|].
  intros ([u h] & _ & <-%Ret_inj)%bind_ret. by rewrite processed_see_pid.
Qed.

Lemma processed_launch cfg st wkv st' :
  launch_callback cfg st wkv = Ret st' -> ms_events_processed st' = ms_events_processed st.
Proof.
  destruct wkv as [w [k v]]. unfold launch_callback. case_match; [by intros [= <-]|].
  intros ([u h] & _ & <-%Ret_inj)%bind_ret. rewrite processed_see_pid. case_match; by rewrite ?processed_request_name.
Qed.

Lemma processed_agg_tick cfg w a l n st st' :
  on_agg_tick cfg w a l n st = Ret st' -> ms_events_processed st' = ms_events_processed st.
Proof.
  intros ([st1 delta] & E1 & (st2 & E2 & (st3 & E3 & E4)%bind_ret)%bind_ret)%bind_ret.
  apply (each_keeps (fun sd => ms_events_processed sd.1 = ms_events_processed st)) in E1; [|by intros ??? ->%processed_agg|done].
  cbn [fst] in E1. rewrite <- E1.
  apply processed_each in E4; [rewrite E4|by intros s pid s' (lb & _ & [= <-])%bind_ret].
  rewrite (processed_each _ _ _ _ (processed_nccl cfg) E3).
  destruct (lc_detailed_launches cfg); [by injection E2 as <-|].
  exact (processed_each _ _ _ _ (processed_launch cfg) E2).
Qed.

Lemma processed_gc cfg w results writable st st' :
  on_gc_tick cfg w results writable st = Ret st' -> ms_events_processed st' = ms_events_processed st.
Proof.
  unfold on_gc_tick.
  destruct (if bool_decide (lc_mode cfg = Full) then _ else _) as [st1| |] eqn:E1; [|done|done].
  assert (H1 : ms_events_processed st1 = ms_events_processed st).
  { case_match; [exact (processed_each _ _ _ _ processed_sym E1)|by injection E1 as <-]. }
  cbn [mbind outcome_bind]. cbv zeta. destruct (gc _ _ _ _) as [u stale]. intros (st2 & E2 & <-%Ret_inj)%bind_ret.
  apply processed_each in E2; [|by intros s [[pid et] x] s' (lb & _ & [= <-])%bind_ret].
  rewrite <- H1. transitivity (ms_events_processed st2); [by destruct (lc_report cfg)|].
  rewrite E2. by destruct (bool_decide (stale = [])), writable.
Qed.

Lemma processed_main cfg op st st' :
  fits 64 (ms_events_processed st) -> main_step cfg st op = Ret st' ->
  ms_events_processed st' = u64 (ms_events_processed st + ring_events (B_main op)).
Proof.
  intros Hf. destruct op as [changed es regs|w a l n|w results writable]; cbn [main_step ring_events].
  - intros (st1 & E1 & E2)%bind_ret. set (st0 := if bool_decide (changed = ∅) then st else _) in E1.
    assert (E0 : ms_events_processed st0 = ms_events_processed st) by (unfold st0; by destruct (bool_decide (changed = ∅))).
    rewrite <- E0 in *. rewrite <- (processed_events cfg es st0 st1) by done.
    destruct (bool_decide (lc_mode cfg = Full)); [|by injection E2 as <-].
    exact (processed_each _ _ _ _ processed_kreg E2).
  - intros H. by rewrite (processed_agg_tick _ _ _ _ _ _ _ H), Z.add_0_r, wrap_small.
  - intros H. by rewrite (processed_gc _ _ _ _ _ _ H), Z.add_0_r, wrap_small.
Qed.

Lemma run_select_stopped cfg acfg bs st : running st = false -> run_select cfg acfg bs st = Ret st.
Proof.
  intros Hr. unfold run_select. induction bs as [|eb bs IH]; [done|]. cbn [each].
  assert (select_step cfg acfg st eb = Ret st) as -> by (unfold select_step; by rewrite Hr). exact IH.
Qed.

(** One iteration, for what the status shows. *)
Lemma select_step_status cfg acfg st e b st' :
  running st = true -> fits 64 (ms_events_processed (sl_main st)) -> select_step cfg acfg st (e, b) = Ret st' ->
  ms_events_processed (sl_main st') = u64 (ms_events_processed (sl_main st) + ring_events b) /\
  at_libs_attached (sl_attached st') = at_libs_attached (sl_attached st) + Z.b2z (counted acfg b) /\
  running st' = negb (ends_loop acfg b).
Proof.
  intros Hr Hf. unfold select_step. rewrite Hr. cbn [negb].
  assert (H0 : u64 (ms_events_processed (sl_main st) + 0) = ms_events_processed (sl_main st))
    by by rewrite Z.add_0_r, wrap_small.
  destruct b as [op| |req| |]; cbn [sl_main sl_attached counted ends_loop ring_events Z.b2z]; rewrite ?H0, ?Z.add_0_r.
  - destruct (main_step cfg (sl_main st) op) as [m| |] eqn:Em; [|done|done]. cbn [mbind outcome_bind]. intros [= <-].
    split; [exact (processed_main cfg op _ _ Hf Em)|done].
  - by intros [= <-].
  - intros [= <-]. destruct (on_attach_counts acfg req (sl_attached st) Hr) as [H1 H2]. by split.
  - intros [= <-]. unfold on_report. by case_match.
  - by intros [= <-].
Qed.

Lemma run_select_status cfg acfg bs st st' :
  running st = true -> fits 64 (ms_events_processed (sl_main st)) -> run_select cfg acfg bs st = Ret st' ->
  ms_events_processed (sl_main st')
    = u64 (ms_events_processed (sl_main st) + sumZ (ring_events <$> taken acfg bs)) /\
  at_libs_attached (sl_attached st')
    = at_libs_attached (sl_attached st) + sumZ ((fun b => Z.b2z (counted acfg b)) <$> taken acfg bs) /\
  running st' = negb (existsb (ends_loop acfg) (taken acfg bs)).
Proof.
  unfold run_select. revert st. induction bs as [|[e b] bs IH]; intros st Hr Hf; cbn [each taken].
  { intros [= <-]. cbn [fmap list_fmap sumZ existsb]. by rewrite !Z.add_0_r, wrap_small. }
  destruct (select_step cfg acfg st (e, b)) as [st1| |] eqn:E1; [|done|done]. cbn [mbind outcome_bind].
  destruct (select_step_status cfg acfg st e b st1 Hr Hf E1) as (H1 & H2 & H3).
  rewrite !fmap_cons. cbn [sumZ existsb]. destruct (ends_loop acfg b) eqn:Eb; cbn [orb].
  - intros H. pose proof (run_select_stopped cfg acfg bs st1 H3) as Hs. unfold run_select in Hs. rewrite H in Hs.
    injection Hs as ->. cbn [fmap list_fmap sumZ]. by rewrite !Z.add_0_r.
  - intros H. apply IH in H as (G1 & G2 & G3); [|done|rewrite H1; by apply wrap_fits].
    rewrite G1, G2, G3, H1, H2, wrap_add_l. split_and!; [f_equal; lia|lia|done].
Qed.

Lemma counted_ready acfg l :
  0 <= sumZ ((fun b => Z.b2z (counted acfg b)) <$> l) /\
  (1 <= sumZ ((fun b => Z.b2z (counted acfg b)) <$> l) <-> existsb (counted acfg) l = true).
Proof.
  induction l as [|b l [IH1 IH2]]; [done|]. rewrite fmap_cons. cbn [sumZ existsb].
  destruct (counted acfg b); cbn [Z.b2z orb]; [split; [lia|split; [done|lia]]|].
  rewrite Z.add_0_l. by split.
Qed.

Lemma startup_begin env a p :
  startup env a = Ret (Ok p) ->
  running (su_selector p) = true /\ ms_events_processed (sl_main (su_selector p)) = 0 /\
  at_libs_attached (sl_attached (su_selector p)) = Z.b2z (se_exists env (a_cudart a)).
Proof.
  intros Hst. destruct (startup_inv env a p Hst) as (_ & _ & _ & reg & rv & _ & _ & _ & _ & _ & Hm & Ha).
  unfold running. rewrite Hm. unfold initial_attach in Ha.
  destruct (se_exists env (a_cudart a)); [destruct (attach_probes _ _ _ _) as [? []]|]; by injection Ha as -> _.
Qed.

(** C14: what the endpoints say of the program.  Start the program and let the loop take any
    branches.  /status shows the number of ring buffer events that were processed (modulo 2^64)
    and as attached libraries one if --cudart existed plus the requests whose programs could all
    be linked.  /ready answers ready exactly if --cudart existed or there was such a request, so
    once ready it stays so.  The loop has ended exactly if it met Ctrl-C, an error of the ring
    buffer, or a libnccl.so that could not be linked. *)
Theorem status_follows_program env a bs st now :
  profi_main env a bs = Ret (Ok st) ->
  let acfg := attach_cfg a in
  let status := handle_status now (app_state a st) in
  let bs' := taken acfg bs in
  st_events_processed status = u64 (sumZ (ring_events <$> bs')) /\
  attached_libraries status
    = Z.b2z (se_exists env (a_cudart a)) + sumZ ((fun b => Z.b2z (counted acfg b)) <$> bs') /\
  ((handle_ready (app_state a st)).1 = S_OK <->
   se_exists env (a_cudart a) = true \/ existsb (counted acfg) bs' = true) /\
  (running st = false <-> exists b, b ∈ bs' /\ ends_loop acfg b = true).
Proof.
  unfold profi_main. intros (p & Hp & Hr)%try_bind_ok. destruct (startup_begin env a p Hp) as (H1 & H2 & H3).
  destruct (run_select (su_loop p) (attach_cfg a) bs (su_selector p)) as [st'| |] eqn:Es; [|done|done].
  injection Hr as ->. cbv zeta.
  apply run_select_status in Es as (G1 & G2 & G3); [|done|by rewrite H2].
  rewrite H2, Z.add_0_l in G1. rewrite H3 in G2. split_and!; [exact G1|exact G2| |].
  - unfold handle_ready, app_state, shared. cbn [libs_attached ring_buffer_open k8s_ready]. rewrite G2.
    destruct (counted_ready (attach_cfg a) (taken (attach_cfg a) bs)) as [C1 C2]. rewrite <- C2, !andb_true_r.
    destruct (Z.leb_spec 1 (Z.b2z (se_exists env (a_cudart a)) +
      sumZ ((fun b => Z.b2z (counted (attach_cfg a) b)) <$> taken (attach_cfg a) bs)));
      destruct (se_exists env (a_cudart a)); cbn [Z.b2z fst] in *; split; try done; try lia; auto.
  - rewrite G3, negb_false_iff, existsb_exists. by setoid_rewrite <- list_elem_of_In.
Qed.

(** ** The program counts calls *)

Definition main_of (b : branch) : option main_op := match b with B_main op => Some op | _ => None end.

Lemma main_ops_taken acfg a bs : at_running a = true -> main_ops acfg a bs = omap main_of (taken acfg bs).
Proof.
  revert a. induction bs as [|[e b] bs IH]; intros a Ha; [done|]. cbn [main_ops taken]. rewrite Ha. cbn [negb].
  change (omap main_of (b :: ?l)) with (match main_of b with Some op => op :: omap main_of l | None => omap main_of l end).
  destruct b as [op| |req| |]; cbn [main_of ends_loop]; try done; try (by rewrite IH).
  destruct (on_attach_counts acfg req a Ha) as [_ Hr]. unfold ends_loop in Hr.
  destruct (bool_decide _ && _); [by rewrite main_ops_stopped|by apply IH].
Qed.

(** The loop goes on as long as its branches return. *)
Lemma run_main_select cfg acfg bs st m :
  run_main cfg (main_ops acfg (sl_attached st) bs) (sl_main st) = Ret m ->
  exists st', run_select cfg acfg bs st = Ret st' /\ sl_main st' = m.
Proof.
  unfold run_select. revert st. induction bs as [|[e b] bs IH]; intros st; cbn [each main_ops].
  { intros [= <-]. by exists st. }
  unfold select_step at 2, running. destruct (at_running (sl_attached st)) eqn:Ha; cbn [negb].
  2:{ intros [= <-]. cbn [mbind outcome_bind]. apply IH. by rewrite main_ops_stopped. }
  destruct b as [op| |req| |]; cbn [mbind outcome_bind sl_main].
  - unfold run_main. cbn [each]. destruct (main_step cfg (sl_main st) op) as [m1| |]; [|done|done].
    cbn [mbind outcome_bind]. intros H. by apply IH.
  - intros H. apply IH. by rewrite main_ops_stopped.
  - intros H. by apply IH.
  - intros H. apply IH. unfold on_report. by case_match.
  - intros H. apply IH. by rewrite main_ops_stopped.
Qed.

Section Counts.
Context {PL : PrometheusLaws}.

(** C2: the program counts calls.  Start the program with any arguments with which it starts, a
    sampling rate of 32 bits and a new registry.  Take any interleaving of program runs with the
    branches of the loop, where the maps are those that start-up made and configured, and any
    execution of the loop with these branches, in which libraries are attached and reports printed
    in between, until Ctrl-C or any other end; suppose that every kernel name that is read can be
    normalised and that the enricher answers every lookup.  Then the program does not panic, and
    for a process that the loop has not had to forget the completed calls, each with its sampling
    weight, are, modulo 2^64, the sum of the counters of a scrape, those that wait in the maps or
    the ring buffer, those that completed between the lookup and the deletion of a key, those that
    a full map refused, those that the ring buffer had no room for, and the anonymous launches
    that --detailed-launches leaves unread in LAUNCH_AGG. *)
Theorem program_counts_calls env a p r items bs pid :
  let LC := load_cfg (se_nr_cpus env) a in
  startup env a = Ret (Ok p) -> se_registry env = Some r -> children r = [] ->
  fits 32 (a_sample_rate a) -> Forall item_ok items -> fits 32 pid ->
  let detailed := a_detailed_launches a in
  let y := run_tracer (LC := LC) (su_loop p) items (su_bpf p) in
  omap main_of (taken (attach_cfg a) bs) = tr_ops y ->
  Forall safe_op (tr_ops y) -> kept (su_loop p) pid (mkProcLedger ∅ ∅) (tr_ops y) = true ->
  exists st, profi_main env a bs = Ret (Ok st) /\
    u64 (exported_calls (us_reg (ms_user (sl_main st))) pid + waiting detailed pid (tr_bpf y)
         + map_calls detailed pid (tr_lost y) + map_calls detailed pid (tr_refused y)
         + ring_dropped pid (tr_ledger y) + unread detailed pid (tr_ledger y))
    = u64 (process_calls pid (tr_ledger y)).
Proof.
  intros LC Hst Hreg Hc Hr Hi Hp detailed y Hops Hn Hk.
  destruct (startup_inv env a p Hst) as (_ & _ & _ & reg & rv & Hreg' & _ & _ & Hb & Hl & Hm & _).
  destruct (startup_begin env a p Hst) as [Hrun _].
  assert (reg = r) as -> by congruence.
  assert (Hinv : tracer_inv (Z.b2z detailed) y [] [] []).
  { unfold y. rewrite Hb, Hl. by apply (tracer_inv_configured (loop_cfg a)). }
  destruct (scrape_counts (su_loop p) y r pid) as (st & E & H); try done.
  { by rewrite Hl. }
  rewrite <- Hops, <- (main_ops_taken _ (sl_attached (su_selector p))), <- Hm in E by done.
  apply run_main_select in E as (st' & E & <-). exists st'. split.
  - unfold profi_main. rewrite (try_bind_ret _ _ _ Hst). by rewrite E.
  - rewrite Hl in H. exact H.
Qed.
End Counts.
End Startup.

(** ** An example *)

#[local] Existing Instance demo_tls.
#[local] Existing Instance demo_cache.
#[local] Existing Instance demo_http.
#[local] Existing Instance demo_otlp_lib.
#[local] Existing Instance demo_loader.
#[local] Existing Instance sample_tables.

(** The defaults, with reviewed tokens and without an OTLP endpoint, on two CPUs. *)
Definition demo_args : Args :=
  default_args (mkOtlpArgs None (lit "grpc") 60 10 (lit "profi") None None None None false None) bearer_args.

Definition demo_start : StartEnv :=
  mkStartEnv true true (fun _ => true) (fun _ => true) (fun _ => true) 2 (fun _ => true)
    (fun _ => Some (mkDevInode 1 2)) (Some empty_store) (mkEnvVars None None None) demo_files [] 0 0 true None
    (fun _ => true) true true.

Definition start_ok {A} (o : outcome (result MainError A)) : bool :=
  match o with Ret (Ok _) => true | _ => false end.

Lemma start_ok_inv {A} (o : outcome (result MainError A)) : start_ok o = true -> exists p, o = Ret (Ok p).
Proof. destruct o as [[p|]| |]; try done. by exists p. Qed.

Lemma demo_starts : exists p, startup demo_start demo_args = Ret (Ok p).
Proof. apply start_ok_inv. vm_compute. reflexivity. Qed.

Lemma startup_panics_witness : startup demo_start (with_gc_interval 0 demo_args) = Panic.
Proof.
  destruct demo_starts as [p Hp]. exact (proj2 (startup_panics demo_start demo_args) p Hp).
Defined.

Lemma startup_ready_witness :
  exists p, startup demo_start demo_args = Ret (Ok p) /\
    cfg_u32 (KERNEL_AGG_MODE (su_bpf p)) = 1 /\ lc_mode (su_loop p) = Anonymous /\
    (handle_ready (app_state demo_args (su_selector p))).1 = S_OK.
Proof.
  destruct demo_starts as [p Hp]. exists p.
  destruct (startup_ready demo_start demo_args p Hp ltac:(fits_const)) as (_ & _ & _ & _ & _ & Hmode & _ & _ & _ & Hready & _).
  destruct (startup_inv demo_start demo_args p Hp) as (_ & _ & _ & _ & _ & _ & _ & _ & _ & Hl & _).
  assert (lc_mode (su_loop p) = Anonymous) as Ha by (rewrite Hl; reflexivity).
  split_and!; [exact Hp|exact (proj2 Hmode Ha)|exact Ha|exact Hready].
Defined.

#[local] Instance demo_load : LoadCfg := load_cfg 2 demo_args.

(** The tracer of [Profi]'s example under the started program. *)
Definition demo_y : Tracer :=
  run_tracer (loop_cfg demo_args) demo_items
    (configure 1 1 0 init_state).

Definition demo_main_branches : list (Z * branch) :=
  (1, B_attach nccl_request) :: ((fun op => (2, B_main op)) <$> tr_ops demo_y) ++ [(3, B_report); (4, B_ctrl_c)].

Lemma demo_y_facts :
  waiting false 7 (tr_bpf demo_y) = 0 /\ map_calls false 7 (tr_lost demo_y) = 1 /\
  map_calls false 7 (tr_refused demo_y) = 0 /\ ring_dropped 7 (tr_ledger demo_y) = 0 /\
  unread false 7 (tr_ledger demo_y) = 0 /\ process_calls 7 (tr_ledger demo_y) = 3 /\
  kept (loop_cfg demo_args) 7 (mkProcLedger ∅ ∅) (tr_ops demo_y) = true.
Proof. split_and!; vm_compute; reflexivity. Qed.

Lemma demo_y_safe : Forall safe_op (tr_ops demo_y).
Proof. sample_ops_safe. Qed.

Lemma demo_y_taken : omap main_of (taken (attach_cfg demo_args) demo_main_branches) = tr_ops demo_y.
Proof. vm_compute. reflexivity. Qed.

(** Of the capacities only the number of CPUs matters for the answers of the kernel. *)
Lemma item_ok_cpus (c1 c2 : LoadCfg) i : @NR_CPUS c1 = @NR_CPUS c2 -> @item_ok c1 i -> @item_ok c2 i.
Proof.
  intros Hn. assert (He : forall e, @env_wf c1 e -> @env_wf c2 e).
  { intros e []. split; try done. by rewrite <- Hn. }
  assert (Ht : forall t, @trace_wf c1 t -> @trace_wf c2 t).
  { intros t H. apply (Forall_impl _ _ _ H). intros pe [H1 H2]. auto. }
  assert (Hd : forall K (l : list (Drained K)), Forall (@drained_wf c1 K) l -> Forall (@drained_wf c2 K) l).
  { intros K l H. apply (Forall_impl _ _ _ H). intros d [H1 H2]. split; auto. }
  destruct i; cbn [item_ok]; [intros []; auto|done|intros (H1 & H2 & H3 & H4); auto|done].
Qed.

Lemma demo_y_items_ok : Forall item_ok demo_items.
Proof. apply (Forall_impl _ _ _ demo_items_ok). intros i. by apply item_ok_cpus. Qed.

(** Three calls: two in the counters, one lost to the deletion of its key. *)
Lemma program_counts_calls_witness :
  exists st, profi_main demo_start demo_args demo_main_branches = Ret (Ok st) /\
    u64 (exported_calls (us_reg (ms_user (sl_main st))) 7 + 0 + 1 + 0 + 0 + 0) = 3.
Proof.
  destruct demo_starts as [p Hp]. destruct demo_y_facts as (H1 & H2 & H3 & H4 & H5 & H6 & H7).
  destruct (startup_inv demo_start demo_args p Hp) as (_ & _ & _ & _ & _ & _ & _ & _ & Hb & Hl & _).
  pose proof (program_counts_calls demo_start demo_args p empty_store demo_items demo_main_branches 7
    Hp eq_refl eq_refl ltac:(fits_const) demo_y_items_ok ltac:(fits_const)) as H. cbv zeta in H.
  rewrite Hb, Hl in H.
  destruct (H demo_y_taken demo_y_safe H7) as (st & E & Hst). exists st. split; [exact E|].
  change (u64 (exported_calls (us_reg (ms_user (sl_main st))) 7 + waiting false 7 (tr_bpf demo_y)
    + map_calls false 7 (tr_lost demo_y) + map_calls false 7 (tr_refused demo_y)
    + ring_dropped 7 (tr_ledger demo_y) + unread false 7 (tr_ledger demo_y))
    = u64 (process_calls 7 (tr_ledger demo_y))) in Hst.
  rewrite H1, H2, H3, H4, H5, H6 in Hst. exact Hst.
Defined.

(** The attach of the NCCL library adds to --cudart; Ctrl-C has ended the loop. *)
Lemma status_follows_program_witness :
  exists st, profi_main demo_start demo_args demo_main_branches = Ret (Ok st) /\
    attached_libraries (handle_status 9 (app_state demo_args st)) = 2 /\ running st = false.
Proof.
  destruct (start_ok_inv (profi_main demo_start demo_args demo_main_branches)) as [st E].
  { vm_compute. reflexivity. }
  destruct (status_follows_program demo_start demo_args demo_main_branches st 9 E) as (_ & H2 & _ & H4).
  exists st. split; [exact E|]. split.
  - rewrite H2. vm_compute. reflexivity.
  - apply H4. exists B_ctrl_c. split; [|reflexivity]. apply (list_elem_of_lookup_2 _ 4). vm_compute. reflexivity.
Defined.
