(* ===== verification/Follow.v ===== *)
(** * Libraries are followed: discovery thread, channel and attach branch together

    The discovery thread of [Attach] scans /proc and sends attach requests through a channel; the
    loop takes them one at a time.  Here the two run in any interleaving from start-up on. *)

From stdpp Require Import strings.
From S2P Require Import Prelude RustStd F64 Events Runtime Probes Step Ledger RingLedger Drain Export Tick Kernel Metrics Cache CacheInv Symbols Report Loop LoopInv Discovery Attach Profi Select Startup.

Local Open Scope Z_scope.
#[local] Set Warnings "-clear-no-such-hyp".

Section Follow.
Context {LD : Loader} (makedev : Z -> Z -> Z) (proc_path : str) (acfg : AttachCfg).

(** The thread, all requests it has sent, how many of them the loop has taken, and the links. *)
Record Hunt := mkHunt {
  hu_thread : Discoverer;
  hu_sent : list AttachRequest;
  hu_taken : nat;
  hu_attached : Attached
}.

Definition start_hunt (cudart : str) (exist : bool) (meta : option DevInode) : Hunt :=
  let '(attached, initial) := initial_attach acfg cudart exist meta in
  mkHunt (new_discoverer initial) [] 0 attached.

Inductive hunt_op := H_scan (i : ScanInput) | H_attach.

(** An iteration of the thread, or of the loop with its attach branch. *)
Definition hunt_step (st : Hunt) (op : hunt_op) : Hunt :=
  match op with
  | H_scan i =>
      let '(d, reqs) := discover makedev proc_path (ac_nvtx acfg) (si_proc i) (si_known i) (si_order i)
                          (hu_thread st) in
      mkHunt d (hu_sent st ++ reqs) (hu_taken st) (hu_attached st)
  | H_attach =>
      match hu_sent st !! hu_taken st with
      | None => st
      | Some req => mkHunt (hu_thread st) (hu_sent st) (S (hu_taken st)) (on_attach acfg req (hu_attached st))
      end
  end.

Definition run_hunt (ops : list hunt_op) (st : Hunt) : Hunt := foldl hunt_step st ops.

(** ** What is marked was sent *)

Definition sent_or (d0 : Discoverer) (sent : list AttachRequest) (d : Discoverer) : Prop :=
  forall lib di, di ∈ attached_of lib d ->
    di ∈ attached_of lib d0 \/ exists path, mkAttachRequest lib path di ∈ sent.

Lemma sent_or_app d0 sent l d : sent_or d0 sent d -> sent_or d0 (sent ++ l) d.
Proof. intros H lib di Hdi. destruct (H lib di Hdi) as [|[path Hp]]; [by left|right]. exists path. set_solver. Qed.

Lemma request_one_marks d0 d sent reqs lf :
  sent_or d0 (sent ++ reqs) d ->
  let '(d', reqs') := request_one (d, reqs) lf in
  sent_or d0 (sent ++ reqs') d' /\ (forall lib, attached_of lib d ⊆ attached_of lib d') /\
  (lf.1 ∈ known_libs -> lf.2.2 ∈ attached_of lf.1 d').
Proof.
  intros H. destruct lf as [lib [path di]]. unfold request_one. cbn [fst snd].
  destruct (bool_decide_reflect (lib ∈ known_libs)) as [Hl|Hl]; cbn [andb]; [|by split_and!].
  destruct (bool_decide_reflect (di ∈ attached_of lib d)) as [|Hdi]; cbn [negb]; [by split_and!|].
  assert (forall l, attached_of l (mkDiscoverer (<[lib := {[di]} ∪ attached_of lib d]> (dc_attached d)) (dc_iteration d))
    = if decide (l = lib) then {[di]} ∪ attached_of lib d else attached_of l d) as Ha.
  { intros l. unfold attached_of at 1. cbn [dc_attached]. case_decide as E; [subst; by rewrite lookup_insert_eq|].
    by rewrite lookup_insert_ne. }
  pose proof (sent_or_app d0 _ [mkAttachRequest lib path di] d H) as H'. rewrite <- app_assoc in H'. split_and!.
  - intros l x. rewrite Ha. case_decide as E; [subst l|by apply H'].
    rewrite elem_of_union, elem_of_singleton. intros [->|Hx]; [|by apply H'].
    right. exists path. set_solver.
  - intros l. rewrite Ha. case_decide; set_solver.
  - intros _. rewrite Ha. rewrite decide_True by done. set_solver.
Qed.

Lemma requests_mark d0 sent items d reqs :
  sent_or d0 (sent ++ reqs) d ->
  let '(d', reqs') := foldl request_one (d, reqs) items in
  sent_or d0 (sent ++ reqs') d' /\ (forall lib, attached_of lib d ⊆ attached_of lib d') /\
  (forall lib path di, (lib, (path, di)) ∈ items -> lib ∈ known_libs -> di ∈ attached_of lib d').
Proof.
  revert d reqs. induction items as [|lf items IH]; intros d reqs H; cbn [foldl].
  { split_and!; [done|done|]. intros lib path di Hin. by apply not_elem_of_nil in Hin. }
  pose proof (request_one_marks d0 d sent reqs lf H) as H1. destruct (request_one (d, reqs) lf) as [d1 reqs1].
  destruct H1 as (H1 & H2 & H3). specialize (IH d1 reqs1 H1). destruct (foldl request_one (d1, reqs1) items) as [d2 reqs2].
  destruct IH as (K1 & K2 & K3). split_and!; [done|set_solver|].
  intros lib path di [<-|Hin]%elem_of_cons Hl; [|by eapply K3]. by apply K2, H3.
Qed.

(** A scan marks the files that it must find. *)
Lemma discover_marks d0 sent i d :
  sent_or d0 sent d ->
  let '(d', reqs) := discover makedev proc_path (ac_nvtx acfg) (si_proc i) (si_known i) (si_order i) d in
  sent_or d0 (sent ++ reqs) d' /\
  forall entries entry lines lib di cp,
    lib ∈ (libs_to_scan (ac_nvtx acfg) d).*1 -> lib ∈ si_order i ->
    pr_entries (si_proc i) = Some entries -> entry ∈ entries ->
    selected (if dc_iteration d mod 6 =? 0 then None else Some (si_known i)) (pe_name entry) = true ->
    pe_maps entry = Some lines -> first_mapping makedev lib lines = Some (di, cp) ->
    (forall path, pr_exists (si_proc i) path = true) -> di ∈ attached_of lib d'.
Proof.
  intros H. unfold discover. cbv zeta. set (d1 := mkDiscoverer (dc_attached d) _).
  set (only := if dc_iteration d mod 6 =? 0 then None else Some (si_known i)).
  set (found := scan_proc_for_libs makedev proc_path (si_proc i) (libs_to_scan (ac_nvtx acfg) d1) only).
  set (items := mjoin _). assert (sent_or d0 (sent ++ []) d1) as H1 by (by rewrite app_nil_r).
  pose proof (requests_mark d0 sent items d1 [] H1) as Hm. destruct (foldl request_one (d1, []) items) as [d' reqs].
  destruct Hm as (M1 & M2 & M3). split; [done|].
  intros entries entry lines lib di cp Hlib Hord Hent Hin Hsel Hmaps Hf Hex.
  assert ((lib, attached_of lib d1) ∈ libs_to_scan (ac_nvtx acfg) d1 /\ lib ∈ known_libs /\
          NoDup (libs_to_scan (ac_nvtx acfg) d1).*1) as (Hl & Hk & Hnd).
  { unfold libs_to_scan in Hlib |- *. rewrite <- list_fmap_compose in Hlib |- *.
    apply list_elem_of_fmap in Hlib as (l & -> & Hl). cbn [compose fst]. split_and!.
    - apply list_elem_of_fmap. by exists l.
    - revert Hl. unfold known_libs. destruct (ac_nvtx acfg); set_solver.
    - destruct (ac_nvtx acfg); apply (bool_decide_unpack _); vm_compute; exact I. }
  destruct (scan_complete makedev proc_path (si_proc i) _ lib _ only entries entry lines di cp Hnd Hl Hent Hin Hsel Hmaps Hf)
    as [Hd|[Hd|(path & _ & Hd)]].
  - by apply M2.
  - apply list_elem_of_fmap in Hd as ([path di'] & -> & Hd). apply (M3 lib path); [|done].
    unfold items. apply list_elem_of_join. eexists. split; [|apply list_elem_of_fmap; by exists lib].
    apply list_elem_of_fmap. by exists (path, di').
  - by rewrite Hex in Hd.
Qed.

(** ** What was taken is linked *)

Record hunt_inv (d0 : Discoverer) (st : Hunt) : Prop := {
  hi_sent : sent_or d0 (hu_sent st) (hu_thread st);
  hi_linked : (forall r, r ∈ take (hu_taken st) (hu_sent st) -> attachable acfg r = true) ->
    at_running (hu_attached st) = true /\
    forall r l, r ∈ take (hu_taken st) (hu_sent st) -> l ∈ links_of acfg (ar_lib r) (ar_host_path r) ->
      l ∈ at_links (hu_attached st);
  hi_taken : (hu_taken st <= length (hu_sent st))%nat
}.

Lemma on_attach_links req a :
  at_running a = true -> attachable acfg req = true ->
  at_running (on_attach acfg req a) = true /\
  at_links (on_attach acfg req a) = at_links a ++ links_of acfg (ar_lib req) (ar_host_path req).
Proof.
  intros Hr Ha. destruct (on_attach_counts acfg req a Hr) as [Hc Hrun]. rewrite Ha in Hc. split.
  - rewrite Hrun. cbn [ends_loop]. rewrite Ha. by rewrite andb_false_r.
  - by apply on_attach_ok.
Qed.

Lemma hunt_step_inv d0 st op : hunt_inv d0 st -> hunt_inv d0 (hunt_step st op).
Proof.
  intros [H1 H2 H3]. destruct op as [i|]; cbn [hunt_step].
  - pose proof (discover_marks d0 (hu_sent st) i (hu_thread st) H1) as Hd. destruct (discover _ _ _ _ _ _ _) as [d reqs].
    destruct Hd as [Hd _]. split; cbn [hu_sent hu_thread hu_taken hu_attached]; [done| |rewrite length_app; lia].
    rewrite take_app_le by done. exact H2.
  - destruct (hu_sent st !! hu_taken st) as [req|] eqn:Er; [|done].
    split; cbn [hu_sent hu_thread hu_taken hu_attached]; [done| |apply lookup_lt_Some in Er; lia].
    rewrite (take_S_r _ _ req) by done. intros Hall.
    destruct H2 as [Hrun Hlinks]; [intros r Hr; apply Hall, elem_of_app; by left|].
    assert (attachable acfg req = true) as Ha by (apply Hall, elem_of_app; right; by left).
    split; [by apply on_attach_links|]. intros r l [Hr|Hr%list_elem_of_singleton]%elem_of_app Hl.
    + rewrite (proj2 (on_attach_links req _ Hrun Ha)). apply elem_of_app. left. by eapply Hlinks.
    + subst r. rewrite (proj2 (on_attach_links req _ Hrun Ha)). apply elem_of_app. by right.
Qed.

Lemma run_hunt_inv d0 ops st : hunt_inv d0 st -> hunt_inv d0 (run_hunt ops st).
Proof. apply (foldl_keeps (hunt_inv d0)). intros s op. apply hunt_step_inv. Qed.

Lemma start_hunt_inv cudart exist meta :
  hunt_inv (new_discoverer (initial_attach acfg cudart exist meta).2) (start_hunt cudart exist meta).
Proof.
  unfold start_hunt. destruct (initial_attach acfg cudart exist meta) as [a initial] eqn:Ea. cbn [snd].
  split; cbn [hu_thread hu_sent hu_taken hu_attached]; [by left| |done]. intros _. split.
  - revert Ea. unfold initial_attach. repeat case_match; by intros [= <- <-].
  - intros r l Hr. by apply not_elem_of_nil in Hr.
Qed.

(** Links are never removed. *)
Lemma run_hunt_grows ops st l : l ∈ at_links (hu_attached st) -> l ∈ at_links (hu_attached (run_hunt ops st)).
Proof.
  intros Hl. apply (foldl_keeps (fun st => l ∈ at_links (hu_attached st))); [|done].
  intros s op Hs. destruct op as [i|]; cbn [hunt_step].
  - by destruct (discover _ _ _ _ _ _ _).
  - case_match; [|done]. cbn [hu_attached]. destruct (on_attach_grows acfg a (hu_attached s)) as (news & -> & _).
    apply elem_of_app. by left.
Qed.

(** The loop takes what is in the channel. *)
Lemma take_rest n st :
  (length (hu_sent st) - hu_taken st = n)%nat ->
  hu_sent (run_hunt (replicate n H_attach) st) = hu_sent st /\
  hu_thread (run_hunt (replicate n H_attach) st) = hu_thread st /\
  take (hu_taken (run_hunt (replicate n H_attach) st)) (hu_sent st) = hu_sent st.
Proof.
  unfold run_hunt. revert st. induction n as [|n IH]; intros st Hn; cbn [replicate foldl].
  { split_and!; [done|done|]. apply take_ge. lia. }
  cbn [hunt_step]. destruct (hu_sent st !! hu_taken st) as [req|] eqn:Er.
  - apply (IH (mkHunt (hu_thread st) (hu_sent st) (S (hu_taken st)) _)). cbn [hu_sent hu_taken]. lia.
  - apply lookup_ge_None in Er. lia.
Qed.

(** What start-up marked it linked. *)
Lemma initial_linked cudart exist meta di :
  di ∈ (initial_attach acfg cudart exist meta).2 ->
  meta = Some di /\
  forall l, l ∈ links_of acfg (lit "libcudart.so") cudart -> l ∈ at_links (initial_attach acfg cudart exist meta).1.
Proof.
  unfold initial_attach. destruct exist; [|by intros ?%elem_of_empty].
  destruct (attach_probes _ _ _ _) as [links [n|e]] eqn:Ea; cbn [fst snd at_links]; [|by intros ?%elem_of_empty].
  destruct meta as [m|]; [|by intros ?%elem_of_empty]. intros ->%elem_of_singleton. split; [done|].
  rewrite (attach_probes_ok _ _ _ _ _ _ Ea). unfold links_of, lib_table, uprobe_table. 
  rewrite bool_decide_false by done. intros l Hl. rewrite <- list_fmap_compose in Hl. exact Hl.
Qed.

(** C27: a library that a process maps gets linked.  Let the discovery thread and the loop run in
    any interleaving from start-up on, then let a scan list a process (all of them in every sixth
    iteration, else the known ones) whose first mapping of a library of the table is the file
    [di], and let the loop take the requests that are in the channel.  If the requested files can
    be linked and the paths that the scan meets exist, all links of the library's table are
    there for this file: for the path --cudart when start-up attached to it, or else for the path
    of the one request that was sent for it. *)
Theorem mapped_library_linked cudart exist meta ops i entries entry lines lib di cp :
  let st := run_hunt ops (start_hunt cudart exist meta) in
  let st1 := hunt_step st (H_scan i) in
  let st2 := run_hunt (replicate (length (hu_sent st1) - hu_taken st1) H_attach) st1 in
  lib ∈ (libs_to_scan (ac_nvtx acfg) (hu_thread st)).*1 -> lib ∈ si_order i ->
  pr_entries (si_proc i) = Some entries -> entry ∈ entries ->
  selected (if dc_iteration (hu_thread st) mod 6 =? 0 then None else Some (si_known i)) (pe_name entry) = true ->
  pe_maps entry = Some lines -> first_mapping makedev lib lines = Some (di, cp) ->
  (forall path, pr_exists (si_proc i) path = true) ->
  (forall r, r ∈ hu_sent st1 -> attachable acfg r = true) ->
  exists path,
    ((lib = lit "libcudart.so" /\ path = cudart /\ meta = Some di) \/ mkAttachRequest lib path di ∈ hu_sent st2) /\
    forall l, l ∈ links_of acfg lib path -> l ∈ at_links (hu_attached st2).
Proof.
  intros st st1 st2 Hlib Hord Hent Hin Hsel Hmaps Hf Hex Hall.
  pose proof (run_hunt_inv _ ops _ (start_hunt_inv cudart exist meta)) as Hi. fold st in Hi.
  set (initial := (initial_attach acfg cudart exist meta).2) in *.
  assert (di ∈ attached_of lib (hu_thread st1)) as Hdi.
  { pose proof (discover_marks _ (hu_sent st) i (hu_thread st) (hi_sent _ _ Hi)) as Hd. unfold st1. cbn [hunt_step].
    destruct (discover _ _ _ _ _ _ _) as [d reqs]. destruct Hd as [_ Hd]. by eapply Hd. }
  pose proof (hunt_step_inv _ st (H_scan i) Hi) as Hi1. fold st1 in Hi1.
  destruct (take_rest _ st1 eq_refl) as (Es & _ & Et). fold st2 in Es, Et.
  pose proof (run_hunt_inv _ (replicate (length (hu_sent st1) - hu_taken st1) H_attach) _ Hi1) as Hi2. fold st2 in Hi2.
  destruct (hi_sent _ _ Hi1 lib di Hdi) as [H0|[path Hp]].
  - exists cudart. unfold attached_of, new_discoverer in H0. cbn [dc_attached] in H0.
    destruct (decide (lib = lit "libcudart.so")) as [->|Hne]; [|by rewrite lookup_singleton_ne in H0 by done].
    rewrite lookup_singleton_eq in H0. destruct (initial_linked _ _ _ _ H0) as [Hm Hl]. split; [by left|].
    intros l Hin'. unfold st2, st1. apply run_hunt_grows, (run_hunt_grows [H_scan i]), run_hunt_grows.
    unfold start_hunt. apply Hl in Hin'. by destruct (initial_attach acfg cudart exist meta).
  - exists path. rewrite Es. split; [by right|]. destruct (hi_linked _ _ Hi2) as [_ Hl].
    { rewrite Es, Et. done. }
    intros l Hl'. apply (Hl (mkAttachRequest lib path di)); [by rewrite Es, Et|done].
Qed.
End Follow.

(** ** An example *)

#[local] Existing Instance demo_loader.

(** Process 1234 maps libcudart.so.12, which start-up did not find. *)
Definition demo_scan : ScanInput := mkScanInput demo_proc ∅ [lit "libcudart.so"].
Definition demo_makedev (major minor : Z) : Z := 256 * major + minor.

Definition demo_hunt : Hunt :=
  hunt_step demo_makedev (lit "/proc") demo_attach_cfg (start_hunt demo_attach_cfg demo_cudart false None)
    (H_scan demo_scan).

Definition demo_hunt_end : Hunt :=
  run_hunt demo_makedev (lit "/proc") demo_attach_cfg
    (replicate (length (hu_sent demo_hunt) - hu_taken demo_hunt) H_attach) demo_hunt.

Lemma mapped_library_linked_witness :
  exists path, mkAttachRequest (lit "libcudart.so") path (mkDevInode 2049 42) ∈ hu_sent demo_hunt_end /\
    forall l, l ∈ links_of demo_attach_cfg (lit "libcudart.so") path -> l ∈ at_links (hu_attached demo_hunt_end).
Proof.
  destruct (mapped_library_linked demo_makedev (lit "/proc") demo_attach_cfg demo_cudart false None []
    demo_scan [demo_entry] demo_entry [Some demo_line; Some demo_line_old] (lit "libcudart.so")
    (mkDevInode 2049 42) (lit "/usr/lib/libcudart.so.12")) as (path & [(_ & _ & E)|Hp] & Hl);
    [left|left|reflexivity|left|reflexivity|reflexivity|reflexivity|reflexivity| |discriminate E|].
  - intros r _. apply forallb_forall. reflexivity.
  - exists path. split; [exact Hp|exact Hl].
Defined.
